(* ===== verification/_CoqProject ===== *)
-Q . S2P
Prelude.v
Endian.v
Ctext.v
Growth.v
Evbuffer.v
Evp.v
Aead.v
WireV2.v
Digest.v
CryptoStream.v
Coder.v
Json.v
JsonHeap.v
JsonOwn.v
JsonThm.v
World.v
Mux.v
MuxInv.v
MuxSafe.v
MuxThm.v
ProxyTcp.v
Frame.v
Demux.v
ProxySafe.v
DemuxSafe.v
Forward.v
StartWork.v
DemuxFacts.v
Parsers.v
Msg.v
NatMsg.v
MsgOwn.v
Session.v
Reconnect.v
SendEnc.v
ControlSafe.v
Control.v
Heartbeat.v
HealthCheck.v
Ini.v
Toml.v
Config.v
ConfigThm.v
EventLoop.v
EventThm.v
Tls.v
Platform.v
Quic.v
QuicSafe.v
QuicRun.v
QuicThm.v
QuicUp.v
QuicDemo.v
Life.v
V2Session.v
V2Thm.v
V2Send.v
