(* ===== verification/Prelude.v ===== *)
(** * A verification of the xfrpc client for ESP32

    xfrpc is a client of the frp reverse proxy: it keeps one connection to an
    frp server, multiplexes streams over it (a yamux dialect), and ties each
    stream to a connection to a local service.  This library models the parts
    of the program that carry its logic and proves what makes them correct.

    ** Parts of the program and where they are modelled

    - [Prelude]: words with their wrap-around ([u8] .. [u64], [i32]), byte
      lists with lengths in [Z] ([zlen], [ztake], [zdrop]), big-endian fields,
      shared tactics.
    - [Endian]: [src/src/common.c] (ntoh64, hton64), the packed structures
      [tcp_mux_header] and [msg_hdr] as bytes on a little-endian machine.
    - [Growth], [Evbuffer]: the byte queues of [src/port/mini_event.c], as an
      array with capacity and length; [Growth] is the doubling loop.
    - [Evp]: the OpenSSL-shaped cipher layer of [src/port/openssl_compat.c] and
      gcm_seal, gcm_open of [src/src/aead_stream.c].  mbedtls is not part of
      the sources: it is the class [Mbedtls], whose laws are the documented
      ones (CFB decryption undoes encryption from the same state, a finished
      GCM tag has 16 bytes, and so on); [Toy.mbedtls] is an instance.
    - [Aead]: the sealed frames of wire protocol v2, [src/src/aead_stream.c],
      against the interface [GcmProvider], which [Evp] implements.
    - [WireV2]: frames, message ids and transcript of [src/src/wire_v2.c].
    - [Digest]: digests, HMAC and PBKDF2 of [src/port/openssl_compat.c] with
      their uses, over the class [MbedtlsMd].
    - [CryptoStream]: [src/src/crypto_stream.c] and the two codecs of
      [src/src/proxy_tcp.c]; snappy is a record of functions.
    - [Coder]: the control channel's coder, [src/src/crypto.c].
    - [World]: the shared state.  The structures of [tcpmux.h], [client.h] and
      [mini_event.c] as records; the heap of clients and of bufferevents as
      finite maps; the registry of streams, the client table and the file-scope
      variables of [tcpmux.c], [client.c] and [control.c]; what the
      environment answers (allocation, connection attempts, random bytes) as a
      function of a counter.  Operations are in the state monad [M], in which
      [None] is undefined behaviour: reading a freed location is [None], so a
      theorem that a run is [Some] says that no freed memory was used.
    - [Mux]: [src/src/tcpmux.c] but for process_data, and the client table of
      [src/src/client.c].
    - [MuxInv], [MuxSafe], [MuxThm]: the invariant [mux_ok] of the shared
      state, specifications of every operation as weakest preconditions, and
      the theorems about the multiplexer.
    - [ProxyTcp]: [src/src/proxy_tcp.c], the life cycle of [src/src/client.c],
      process_data of [src/src/tcpmux.c], and of [src/src/control.c] the
      connections to local services and the start of a work connection.
    - [Frame]: which parts of the state an operation leaves alone.
    - [Demux]: handle_tcp_mux of [src/src/control.c] with its static variables.
    - [ProxySafe], [DemuxSafe]: safety of the data path and of receiving, with
      the interface [HandlerOk] for the message handler.
    - [Forward]: the way from the local service to the server.
    - [StartWork]: the start of a work connection.
    - [DemuxFacts]: how the demultiplexer treats frames that arrive in pieces.
    - [Parsers]: the SOCKS5 address parser and the protocol detection.
    - [Json], [Msg]: JSON values behind the json-c calls of
      [src/port/json_compat.c], and the messages of [src/src/msg.c]: the objects
      the client sends, the fields it reads from the server's messages, the
      authentication key.  Parsing and printing of JSON text, MD5 and the clock
      are functions of the environment ([externals]).
    - [JsonHeap], [JsonOwn], [JsonThm]: the wrappers of [src/port/json_compat.c]
      as a heap with owned and borrowed ones, over the class [Cjson]; the
      ownership rules as an abstract machine; the refinement theorem, and an
      instance of cJSON.
    - [Session]: the control session of [src/src/control.c] for wire protocol
      v1, with the modules the port leaves out replaced by the stubs of
      [src/port/module_stubs.c]: sending in the clear and encrypted, login,
      the handlers of the server's messages, work connections, heartbeat,
      reconnection.  Its state is the record [session] of the world.
    - [Reconnect]: clearing the session and the schedule of reconnections.
    - [SendEnc]: the encrypted control channel over the multiplexer.
    - [ControlSafe]: the session's side of the handler's contract.
    - [Control]: what the server's messages make the session do.
    - [Heartbeat]: what a beat of the heartbeat timer does.
    - [HealthCheck]: [src/src/health_check.c]; what the network and the C library
      answer are arguments of the callbacks, and the life of an entry is a step
      relation.
    - [Ctext]: the text functions of the C library the sources use.
    - [Ini]: the parser of [src/src/ini.c], for any handler.
    - [Toml]: [src/src/toml_parser.c]; the vendored parser is a parameter.
    - [Config], [ConfigThm]: [src/src/config.c] and the start functions of
      [src/port/xfrpc_api.c]: settings and services, both loaders, validation,
      and what a loaded configuration guarantees the session.
    - [NatMsg]: the rest of [src/src/msg.c], the messages of UDP proxies and of
      NAT traversal, and control responses.
    - [MsgOwn]: the same structures as blocks of memory: what is allocated while
      a message is read, and the functions that release it.
    - [EventLoop]: the event loop of [src/port/mini_event.c]: timers,
      bufferevents over a socket or a transport, and the passes of
      event_base_dispatch, with its own view of the bufferevents (sockets,
      timeouts, transport); what the clock, the sockets, the transport and
      select answer is the record [outside], and the callbacks are a parameter.
    - [EventThm]: what the loop asks of callbacks and sockets, and gives.
    - [Tls]: [src/port/mini_event_ssl.c] and [src/port/tls.c]; the codes of
      mbedtls are a record with the documented laws, its answers arguments.
    - [Platform]: the run id, sleeping and log lines of [src/src/utils.c] and
      [src/src/debug.c].
    - [Life]: the client's task from its start to its end, over
      [src/port/xfrpc_api.c], [src/port/esp_platform.c], [src/src/xfrpc.c],
      [src/src/login.c] and [src/src/control.c]; the event loop in between is a
      parameter with a contract.
    - [V2Session], [V2Thm]: the receive side of wire protocol v2 in
      [src/src/control.c], the hello messages of [src/src/wire_v2.c], and what
      reaches the handlers, which are parameters.
    - [V2Send]: the send side of wire protocol v2 over the multiplexer.
    - [Quic]: [src/src/quic_client_transport.c] as built with ngtcp2 and
      libevent (the port builds the stubs at its end): contexts, events and
      buffers in heaps, the table of relays of a context, every callback and
      public function.  What ngtcp2, the sockets and the allocator answer is the
      record [qoutside]; the callbacks ngtcp2 makes during a call are part of
      its answer; the caller's completion callback is a parameter.
    - [QuicSafe], [QuicRun]: the invariant [qinv] of the transport, the
      specification of every operation, and runs of any events and calls.
    - [QuicThm], [QuicUp]: the way from the server and the way to it.
    - [QuicDemo]: a run of the whole transport, and what goes wrong in it.

    ** What the theorems show

    - Queues: the array buffer refines an abstract queue; transfers conserve
      bytes.
    - Ciphers and frames: what is sealed, encrypted or framed comes back, for
      every cutting of the byte stream; nonces are not repeated; the reader is
      total on hostile input; AES-GCM runs in the wrong mode; digests do not
      depend on how a message is handed over.
    - Multiplexer: writes respect flow control and frame limits, closing is
      final, session ids are odd and distinct, control frames cannot corrupt
      the tables.
    - Data path: receiving any bytes is safe and ends, forwarding to the server
      neither loses nor reorders bytes, a reachable service is started safely;
      and the four ways in which the demultiplexer or the start of a work
      connection goes wrong.
    - Parsers: SOCKS5 destinations are read back and incomplete ones wait, a
      connection blocked by protocol detection stays silent; detection decides
      on the first piece, and long names are never answered.
    - Session: the payloads of encrypted messages are what the peer decrypts, in
      order; a reconnection starts from scratch; failed attempts are repeated
      at growing distances, for ever; a beat of the heartbeat notices a silent
      server; messages within the protocol are handled
      safely and reach the service they name; registrations carry the settings;
      and two ways in which the reading of messages goes wrong.
    - Configuration: loading ends in a state the session can work with or in an
      empty one; validation accepts what can be registered; written INI files
      are read back and agree with TOML; TOML values stay within the buffers;
      an empty array is read as an earlier number.
    - Wire protocol v2: the handshake is readable and is what the keys are
      derived from; sealed messages survive the way to the server, and those of
      the server reach the handlers in order for every cutting of the stream;
      two ways in which bytes are lost.
    - Health checks: an entry implements the detector it is meant to be, never
      stops and never overlaps; responses are judged the same in any pieces;
      how long a path may be.

    - Event loop: with callbacks and sockets that keep their side every pass
      ends and uses nothing that was freed, whatever the callbacks free and
      add; timers fire at their time; and two callbacks of the program that do
      not keep their side.
    - TLS: the transport keeps the interface the loop relies on; the setup does
      what the configuration says, and what it does with an authority that
      cannot be read.
    - Life: the task ends with everything released and one last report; a failed
      start, and a second start, go wrong.
    - JSON: programs that follow the ownership rules are safe, read the values
      of [Json] and leave nothing behind.
    - QUIC: no order of events and calls uses anything freed, data waits for
      the handshake, and a relay table is not overrun; streams do not mix and
      their bytes keep their order in both directions; but a relay gives the
      server its own bytes back when the local service is slow.
    - Messages: datagrams are read back and NAT traversal responses are read as
      they stand; what a message was read into is released once and completely,
      but for the name of a started service, which is lost, and the packet of an
      unsupported datagram, which is released twice.

    ** Bounds and fuel

    Loops that are not structural take fuel: [grow] 64 doublings (a capacity of
    at least 1 passes any 64-bit size), [feed_loop] one round per buffered byte
    and one more, [write_loop] one round per byte of the source and one more,
    [demux_loop] one round per byte, [v2_consume_loop] one round per byte and one
    more, [ini_loop] one round per byte and one more, [socks5_loop] three rounds of which two
    can be used, [evbuffer_write] one round per byte and one more;
    [write_direct] has the 100 tries of the code.  In the event loop [recv_loop]
    has one round per byte of the 64 KiB a pass may read and one more (every
    round that goes on brings a byte, unless the call was interrupted, which
    [sockets_ok] leaves out), [send_loop] one round per queued byte and one
    more, [run_timers] one round per linked timer and one more,
    [bev_ssl_drive_handshake] the 8 rounds of the code; the passes of
    [event_base_dispatch] and the rounds of [run_control] are arguments, and the
    theorems hold for all of them.  The loop of [qc_write_udp] in [Quic] runs
    over the answers of ngtcp2, a finite list, and stops at the first that is
    empty or an error; the safety theorem takes [evbuffer_new] to succeed,
    because the code does not check it.  For each there is a lemma that the fuel is enough, and the
    theorems about totality rest on it.  Lengths are bounded where the C code
    has 32-bit or [int] lengths, and the hypothesis says so.

    ** What is not modelled

    Sockets, the clock, mbedtls and TLS records, which are parameters; the text
    of JSON values; name resolution; ngtcp2 and the packets of QUIC, and the
    branches of [src/src/control.c] that use the QUIC transport; visitors and
    the exchange of NAT traversal messages, which the port replaces by stubs;
    the TOML parser and the rest of the vendored code; logging. *)

From stdpp Require Export base tactics numbers list option gmap strings.
From Stdlib Require Export ZArith Lia.

#[global] Open Scope Z_scope.

Declare Scope xfrp_scope.
Delimit Scope xfrp_scope with xfrp.
#[global] Open Scope xfrp_scope.

(** ** Machine integers

    A [w]-bit unsigned integer is a [Z] kept in range by the wrap written at
    every operation that can leave it; [i32] is the conversion to [int]. *)

Definition u8 (x : Z) : Z := x mod 2 ^ 8.
Definition u16 (x : Z) : Z := x mod 2 ^ 16.
Definition u32 (x : Z) : Z := x mod 2 ^ 32.
Definition u64 (x : Z) : Z := x mod 2 ^ 64.
Definition i32 (x : Z) : Z := (x + 2 ^ 31) mod 2 ^ 32 - 2 ^ 31.

Notation "x '≪u' n" := (Z.shiftl x n) (at level 35, right associativity) : xfrp_scope.
Notation "x '≫u' n" := (Z.shiftr x n) (at level 35, right associativity) : xfrp_scope.
Notation "x '|u' y" := (Z.lor x y) (at level 50, left associativity) : xfrp_scope.
Notation "x '&u' y" := (Z.land x y) (at level 48, left associativity) : xfrp_scope.

(** ** Bytes *)

Abbreviation bytes := (list Z).

Definition byte_ok (b : Z) : Prop := 0 ≤ b < 256.
Definition bytes_ok (l : bytes) : Prop := Forall byte_ok l.

Definition zlen {A} (l : list A) : Z := Z.of_nat (length l).

(** [C] pointer arithmetic on a buffer: the first [n] bytes, and the rest. *)
Definition ztake {A} (n : Z) (l : list A) : list A := take (Z.to_nat n) l.
Definition zdrop {A} (n : Z) (l : list A) : list A := drop (Z.to_nat n) l.

(** ** Tactics and hint databases *)

Create HintDb xfrp discriminated.
Create HintDb xlen discriminated.

(** [words] exposes the machine-width constants to [lia]. *)
Ltac words :=
  unfold u8, u16, u32, u64, i32, byte_ok in *;
  change (2 ^ 8) with 256 in *; change (2 ^ 16) with 65536 in *;
  change (2 ^ 31) with 2147483648 in *; change (2 ^ 32) with 4294967296 in *;
  change (2 ^ 64) with 18446744073709551616 in *.
Ltac wordlia := words; Z.to_euclidean_division_equations; lia.

(** [bool_to_Z] turns the boolean comparisons of the code into propositions. *)
Ltac b2p :=
  repeat match goal with
  | H : (_ && _) = true |- _ => apply andb_true_iff in H; destruct H
  | H : (_ || _) = false |- _ => apply orb_false_iff in H; destruct H
  | H : (_ || _) = true |- _ => apply orb_true_iff in H
  | H : (_ && _) = false |- _ => apply andb_false_iff in H
  | H : negb _ = true |- _ => apply negb_true_iff in H
  | H : negb _ = false |- _ => apply negb_false_iff in H
  | H : (_ =? _) = true |- _ => apply Z.eqb_eq in H
  | H : (_ =? _) = false |- _ => apply Z.eqb_neq in H
  | H : (_ <? _) = true |- _ => apply Z.ltb_lt in H
  | H : (_ <? _) = false |- _ => apply Z.ltb_ge in H
  | H : (_ <=? _) = true |- _ => apply Z.leb_le in H
  | H : (_ <=? _) = false |- _ => apply Z.leb_gt in H
  end.

(** Case split on the next condition of the code, keeping its meaning. *)
Ltac case_if :=
  match goal with
  | |- context [if ?b then _ else _] =>
      lazymatch type of b with
      | bool => let E := fresh "Hc" in destruct b eqn:E; b2p
      | _ => case_decide
      end
  end.
Ltac case_if_in H :=
  match type of H with
  | context [if ?b then _ else _] =>
      lazymatch type of b with
      | bool => let E := fresh "Hc" in destruct b eqn:E; b2p
      | _ => case_decide
      end
  end.

(** ** Lists *)

Lemma zlen_nonneg {A} (l : list A) : 0 ≤ zlen l.
Proof. unfold zlen; lia. Qed.

Lemma zlen_nil {A} : zlen (@nil A) = 0.
Proof. reflexivity. Qed.

Lemma zlen_cons {A} (x : A) l : zlen (x :: l) = 1 + zlen l.
Proof. unfold zlen; simpl; lia. Qed.

Lemma zlen_app {A} (l k : list A) : zlen (l ++ k) = zlen l + zlen k.
Proof. unfold zlen; rewrite length_app; lia. Qed.

Lemma zlen_ztake {A} n (l : list A) : zlen (ztake n l) = Z.min (Z.max 0 n) (zlen l).
Proof. unfold zlen, ztake; rewrite length_take; lia. Qed.

Lemma zlen_zdrop {A} n (l : list A) : zlen (zdrop n l) = zlen l - Z.min (Z.max 0 n) (zlen l).
Proof. unfold zlen, zdrop; rewrite length_drop; lia. Qed.

Lemma zlen_0_inv {A} (l : list A) : zlen l = 0 → l = [].
Proof. destruct l; [done|]. rewrite zlen_cons. pose proof (zlen_nonneg l); lia. Qed.

Lemma zlen_replicate {A} n (x : A) : zlen (replicate n x) = Z.of_nat n.
Proof. unfold zlen; by rewrite length_replicate. Qed.

Lemma ztake_zdrop {A} n (l : list A) : ztake n l ++ zdrop n l = l.
Proof. apply take_drop. Qed.

Lemma ztake_app_exact {A} n (l k : list A) : n = zlen l → ztake n (l ++ k) = l.
Proof. intros ->. unfold ztake, zlen. rewrite Nat2Z.id. by rewrite take_app_length. Qed.

Lemma zdrop_app_exact {A} n (l k : list A) : n = zlen l → zdrop n (l ++ k) = k.
Proof. intros ->. unfold zdrop, zlen. rewrite Nat2Z.id. by rewrite drop_app_length. Qed.

Lemma ztake_ge {A} n (l : list A) : zlen l ≤ n → ztake n l = l.
Proof. unfold ztake, zlen; intros; apply take_ge; lia. Qed.

Lemma zdrop_ge {A} n (l : list A) : zlen l ≤ n → zdrop n l = [].
Proof. unfold zdrop, zlen; intros; apply drop_ge; lia. Qed.

Lemma ztake_nonpos {A} n (l : list A) : n ≤ 0 → ztake n l = [].
Proof. unfold ztake; intros. by replace (Z.to_nat n) with 0%nat by lia. Qed.

Lemma zdrop_nonpos {A} n (l : list A) : n ≤ 0 → zdrop n l = l.
Proof. unfold zdrop; intros. by replace (Z.to_nat n) with 0%nat by lia. Qed.

Lemma zdrop_zdrop {A} n m (l : list A) :
  0 ≤ n → 0 ≤ m → zdrop n (zdrop m l) = zdrop (m + n) l.
Proof. unfold zdrop; intros. rewrite drop_drop. f_equal; lia. Qed.

Lemma ztake_app_le {A} n (l k : list A) : n ≤ zlen l → ztake n (l ++ k) = ztake n l.
Proof. unfold ztake, zlen; intros. apply take_app_le; lia. Qed.

Lemma zdrop_app_le {A} n (l k : list A) : n ≤ zlen l → zdrop n (l ++ k) = zdrop n l ++ k.
Proof. unfold zdrop, zlen; intros. apply drop_app_le; lia. Qed.

Lemma ztake_app_ge {A} n (l k : list A) :
  zlen l ≤ n → ztake n (l ++ k) = l ++ ztake (n - zlen l) k.
Proof.
  unfold ztake, zlen; intros. rewrite take_app_ge by lia. repeat f_equal; lia.
Qed.

Lemma zdrop_app_ge {A} n (l k : list A) :
  zlen l ≤ n → zdrop n (l ++ k) = zdrop (n - zlen l) k.
Proof.
  unfold zdrop, zlen; intros. rewrite drop_app_ge by lia. f_equal; lia.
Qed.

#[export] Hint Rewrite @zlen_nil @zlen_cons @zlen_app @zlen_ztake @zlen_zdrop
  @zlen_replicate : xlen.

(** [lens] computes lengths of the lists in the context and calls [lia]. *)
Ltac pose_lens :=
  repeat match goal with
  | |- context [zlen ?l] =>
      lazymatch goal with
      | _ : 0 ≤ zlen l |- _ => fail
      | _ => pose proof (zlen_nonneg l)
      end
  | _ : context [zlen ?l] |- _ =>
      lazymatch goal with
      | _ : 0 ≤ zlen l |- _ => fail
      | _ => pose proof (zlen_nonneg l)
      end
  end.
Ltac lens := autorewrite with xlen in *; pose_lens; try lia.

Lemma bytes_ok_app l k : bytes_ok (l ++ k) ↔ bytes_ok l ∧ bytes_ok k.
Proof. apply Forall_app. Qed.

Lemma bytes_ok_ztake n l : bytes_ok l → bytes_ok (ztake n l).
Proof. apply Forall_take. Qed.

Lemma bytes_ok_zdrop n l : bytes_ok l → bytes_ok (zdrop n l).
Proof. apply Forall_drop. Qed.

#[export] Hint Resolve bytes_ok_ztake bytes_ok_zdrop : xfrp.

(** ** Bit arithmetic used by the byte-order code *)

Lemma u8_range x : 0 ≤ u8 x < 256.
Proof. wordlia. Qed.
Lemma u16_range x : 0 ≤ u16 x < 65536.
Proof. wordlia. Qed.
Lemma u32_range x : 0 ≤ u32 x < 4294967296.
Proof. wordlia. Qed.
Lemma u64_range x : 0 ≤ u64 x < 18446744073709551616.
Proof. wordlia. Qed.

Lemma u8_byte_ok x : byte_ok (u8 x).
Proof. apply u8_range. Qed.
#[export] Hint Resolve u8_byte_ok : xfrp.

Lemma u16_small x : 0 ≤ x < 65536 → u16 x = x.
Proof. intros; words; by rewrite Z.mod_small. Qed.
Lemma u32_small x : 0 ≤ x < 4294967296 → u32 x = x.
Proof. intros; words; by rewrite Z.mod_small. Qed.
Lemma u64_small x : 0 ≤ x < 18446744073709551616 → u64 x = x.
Proof. intros; words; by rewrite Z.mod_small. Qed.
Lemma i32_small x : - 2147483648 ≤ x < 2147483648 → i32 x = x.
Proof. intros; words. rewrite Z.mod_small by lia. lia. Qed.

Lemma land_shiftl_low a b n : 0 ≤ n → 0 ≤ b < 2 ^ n → (a ≪u n) &u b = 0.
Proof.
  intros Hn Hb. destruct (decide (b = 0)) as [->|]; [by rewrite Z.land_0_r|].
  apply Z.bits_inj'; intros k Hk. rewrite Z.land_spec, Z.bits_0.
  destruct (decide (k < n)); [by rewrite Z.shiftl_spec_low by lia|].
  rewrite (Z.bits_above_log2 b k); [by rewrite andb_false_r|lia|].
  apply Z.log2_lt_pow2; [lia|].
  apply Z.lt_le_trans with (2 ^ n); [lia|]. apply Z.pow_le_mono_r; lia.
Qed.

(** The disjoint [|] of a shifted word and a smaller one is an addition. *)
Lemma lor_shiftl_add a b n : 0 ≤ n → 0 ≤ b < 2 ^ n → (a ≪u n) |u b = a * 2 ^ n + b.
Proof.
  intros Hn Hb. pose proof (land_shiftl_low a b n Hn Hb) as Hl.
  rewrite <- Z.lxor_lor, <- Z.add_nocarry_lxor by done.
  by rewrite Z.shiftl_mul_pow2.
Qed.

Lemma u8_idem x : u8 (u8 x) = u8 x.
Proof. unfold u8. by rewrite Z.mod_mod. Qed.

(** Bytes of a word written in base 256. *)
Lemma u8_snoc a b : byte_ok b → u8 (a * 256 + b) = b.
Proof. intros. words. rewrite Z.add_comm, Z.mod_add by lia. by rewrite Z.mod_small. Qed.

Lemma shiftr8_snoc a b : byte_ok b → (a * 256 + b) ≫u 8 = a.
Proof.
  intros. rewrite Z.shiftr_div_pow2 by lia. words.
  rewrite Z.div_add_l, Z.div_small by lia. lia.
Qed.

Lemma shiftr_step x n : 0 ≤ n → x ≫u (n + 8) = (x ≫u 8) ≫u n.
Proof. intros. rewrite Z.shiftr_shiftr by lia. f_equal; lia. Qed.

(** A byte below bit [m] does not see the reduction modulo [2 ^ m]. *)
Lemma u8_shiftr_mod x k m :
  0 ≤ k → k + 8 ≤ m → u8 ((x mod 2 ^ m) ≫u k) = u8 (x ≫u k).
Proof.
  intros Hk Hm. unfold u8. rewrite <- !Z.land_ones by lia.
  apply Z.bits_inj'; intros i Hi.
  rewrite !Z.land_spec, !Z.shiftr_spec, Z.land_spec by lia.
  destruct (decide (i < 8)).
  - rewrite (Z.ones_spec_low m) by lia. by rewrite andb_true_r.
  - rewrite (Z.ones_spec_high 8 i) by lia. by rewrite !andb_false_r.
Qed.

Lemma u8_mod x m : 8 ≤ m → u8 (x mod 2 ^ m) = u8 x.
Proof. intros. rewrite <- (Z.shiftr_0_r (x mod _)), u8_shiftr_mod by lia. by rewrite Z.shiftr_0_r. Qed.

(** ** Big-endian words

    The code writes a 32-bit length as four shifted bytes and reads it back
    with shifts and [|]; these are the two idioms, shared by the frame codecs. *)

Definition be16_put (x : Z) : bytes := [u8 (x ≫u 8); u8 x].
Definition be32_put (x : Z) : bytes := [u8 (x ≫u 24); u8 (x ≫u 16); u8 (x ≫u 8); u8 x].
Definition be64_put (x : Z) : bytes :=
  [u8 (x ≫u 56); u8 (x ≫u 48); u8 (x ≫u 40); u8 (x ≫u 32);
   u8 (x ≫u 24); u8 (x ≫u 16); u8 (x ≫u 8); u8 x].

Definition be16_get (b0 b1 : Z) : Z := (b0 ≪u 8) |u b1.
Definition be32_get (b0 b1 b2 b3 : Z) : Z :=
  (b0 ≪u 24) |u (b1 ≪u 16) |u (b2 ≪u 8) |u b3.

Lemma be16_get_add b0 b1 : byte_ok b1 → be16_get b0 b1 = b0 * 256 + b1.
Proof. intros. unfold be16_get. by rewrite lor_shiftl_add by (words; lia). Qed.

Lemma be32_get_add b0 b1 b2 b3 :
  byte_ok b1 → byte_ok b2 → byte_ok b3 →
  be32_get b0 b1 b2 b3 = b0 * 2 ^ 24 + b1 * 2 ^ 16 + b2 * 2 ^ 8 + b3.
Proof.
  intros H1 H2 H3. unfold be32_get, byte_ok in *.
  rewrite <- !Z.lor_assoc.
  rewrite (lor_shiftl_add b2 b3 8) by lia.
  rewrite (lor_shiftl_add b1 _ 16) by lia.
  rewrite (lor_shiftl_add b0 _ 24) by lia. lia.
Qed.

Lemma be16_get_put x : be16_get (u8 (x ≫u 8)) (u8 x) = u16 x.
Proof.
  rewrite be16_get_add by auto with xfrp.
  rewrite Z.shiftr_div_pow2 by lia. wordlia.
Qed.

Lemma be32_get_horner b0 b1 b2 b3 :
  byte_ok b1 → byte_ok b2 → byte_ok b3 →
  be32_get b0 b1 b2 b3 = ((b0 * 256 + b1) * 256 + b2) * 256 + b3.
Proof. intros. rewrite be32_get_add by done. lia. Qed.

Lemma be32_put_get b0 b1 b2 b3 :
  byte_ok b0 → byte_ok b1 → byte_ok b2 → byte_ok b3 →
  be32_put (be32_get b0 b1 b2 b3) = [b0; b1; b2; b3].
Proof.
  intros. rewrite be32_get_horner by done. unfold be32_put.
  change 24 with (8 + 8 + 8). change 16 with (8 + 8). rewrite !shiftr_step by lia.
  rewrite !shiftr8_snoc by done. rewrite !u8_snoc by done.
  repeat f_equal. words. by rewrite Z.mod_small.
Qed.

Lemma be32_get_range b0 b1 b2 b3 :
  byte_ok b0 → byte_ok b1 → byte_ok b2 → byte_ok b3 →
  0 ≤ be32_get b0 b1 b2 b3 < 4294967296.
Proof. intros. rewrite be32_get_add by done. words. lia. Qed.

Lemma be32_get_put x :
  be32_get (u8 (x ≫u 24)) (u8 (x ≫u 16)) (u8 (x ≫u 8)) (u8 x) = u32 x.
Proof.
  rewrite be32_get_add by auto with xfrp.
  rewrite !Z.shiftr_div_pow2 by lia.
  change (2 ^ 24) with 16777216. wordlia.
Qed.

Lemma be32_put_len x : zlen (be32_put x) = 4.
Proof. reflexivity. Qed.
Lemma be64_put_len x : zlen (be64_put x) = 8.
Proof. reflexivity. Qed.

Lemma be16_put_ok x : bytes_ok (be16_put x).
Proof. repeat constructor; apply u8_byte_ok. Qed.
Lemma be32_put_ok x : bytes_ok (be32_put x).
Proof. repeat constructor; apply u8_byte_ok. Qed.
Lemma be64_put_ok x : bytes_ok (be64_put x).
Proof. repeat constructor; apply u8_byte_ok. Qed.
#[export] Hint Resolve be16_put_ok be32_put_ok be64_put_ok : xfrp.


(** ** C strings as bytes *)

Definition str_bytes (s : string) : bytes :=
  map (λ c, Z.of_N (Ascii.N_of_ascii c)) (String.list_ascii_of_string s).

Lemma str_bytes_app s t : str_bytes (s +:+ t) = str_bytes s ++ str_bytes t.
Proof.
  unfold str_bytes. rewrite <- map_app. f_equal.
  induction s as [|c s IH]; [done|]. simpl. by rewrite IH.
Qed.

Lemma str_bytes_ok s : bytes_ok (str_bytes s).
Proof.
  unfold str_bytes, bytes_ok. apply Forall_forall. intros x Hx.
  apply list_elem_of_In, in_map_iff in Hx as (c & <- & _).
  pose proof (Ascii.N_ascii_bounded c). unfold byte_ok. lia.
Qed.

(** ** Sequences of buffers *)

Lemma zlen_concat_cons {A} (l : list A) ls : zlen (concat (l :: ls)) = zlen l + zlen (concat ls).
Proof. simpl. by rewrite zlen_app. Qed.

(** Two splittings of the same sequence: one cut is inside the other. *)
Lemma app_eq_app_le {A} (a b c d : list A) :
  a ++ b = c ++ d → zlen a ≤ zlen c → ∃ e, c = a ++ e ∧ b = e ++ d.
Proof.
  intros H Hle. apply app_eq_inv in H as [(k & -> & ->)|(k & -> & ->)].
  - rewrite zlen_app in Hle. pose proof (zlen_nonneg k).
    assert (k = []) as -> by (apply zlen_0_inv; lia).
    exists []. by rewrite !app_nil_r.
  - by exists k.
Qed.
