(* ===== verification/Endian.v ===== *)
(** * Byte order and packed headers

    Models [src/src/common.c] ([ntoh64], [hton64]) and the two packed headers
    the client exchanges with the server: [struct tcp_mux_header]
    ([src/src/tcpmux.h]) and [struct msg_hdr] ([src/src/msg.h]).  The target
    is the little-endian ESP32, so the branch of [common.c] compiled there is
    the swapping one, and a multi-byte field sits in memory low byte first.
    A header record holds the values the CPU loads from those fields. *)

From S2P Require Import Prelude.

(** ** Byte order of the C library (lwip, little-endian host) *)

Definition htons (x : Z) : Z := be16_get (u8 x) (u8 (x ≫u 8)).
Definition htonl (x : Z) : Z :=
  be32_get (u8 x) (u8 (x ≫u 8)) (u8 (x ≫u 16)) (u8 (x ≫u 24)).
Definition ntohs (x : Z) : Z := htons x.
Definition ntohl (x : Z) : Z := htonl x.

(** ** [common.c] *)

Definition ntoh64 (input : Z) : Z :=
  (ntohl (input &u 0xFFFFFFFF) ≪u 32) |u ntohl ((input ≫u 32) &u 0xFFFFFFFF).

Definition hton64 (input : Z) : Z :=
  (htonl (input &u 0xFFFFFFFF) ≪u 32) |u htonl ((input ≫u 32) &u 0xFFFFFFFF).

Abbreviation msg_hton := hton64.
Abbreviation msg_ntoh := ntoh64.

(** ** Little-endian storage *)

Definition le16_put (x : Z) : bytes := [u8 x; u8 (x ≫u 8)].
Definition le32_put (x : Z) : bytes := [u8 x; u8 (x ≫u 8); u8 (x ≫u 16); u8 (x ≫u 24)].
Definition le64_put (x : Z) : bytes :=
  [u8 x; u8 (x ≫u 8); u8 (x ≫u 16); u8 (x ≫u 24);
   u8 (x ≫u 32); u8 (x ≫u 40); u8 (x ≫u 48); u8 (x ≫u 56)].

Definition le16_get (b0 b1 : Z) : Z := be16_get b1 b0.
Definition le32_get (b0 b1 b2 b3 : Z) : Z := be32_get b3 b2 b1 b0.
Definition le64_get (b0 b1 b2 b3 b4 b5 b6 b7 : Z) : Z :=
  (le32_get b4 b5 b6 b7 ≪u 32) |u le32_get b0 b1 b2 b3.

(** ** [struct tcp_mux_header] *)

Record tcp_mux_header := mkHdr {
  hdr_version : Z;
  hdr_type : Z;
  hdr_flags : Z;
  hdr_stream_id : Z;
  hdr_length : Z;
}.

Definition sizeof_tcp_mux_header : Z := 12.

(** The object representation of the packed structure, and the structure read
    back from the bytes [bufferevent_read] put there. *)
Definition hdr_bytes (h : tcp_mux_header) : bytes :=
  [u8 (hdr_version h); u8 (hdr_type h)] ++ le16_put (hdr_flags h)
    ++ le32_put (hdr_stream_id h) ++ le32_put (hdr_length h).

Definition hdr_of_bytes (l : bytes) : option tcp_mux_header :=
  match l with
  | [v; t; f0; f1; s0; s1; s2; s3; l0; l1; l2; l3] =>
      Some (mkHdr v t (le16_get f0 f1) (le32_get s0 s1 s2 s3) (le32_get l0 l1 l2 l3))
  | _ => None
  end.

(** ** [struct msg_hdr]: a type byte, a 64-bit length, then the data *)

Definition sizeof_msg_hdr : Z := 9.

Definition msg_hdr_bytes (t : Z) (len : Z) : bytes := u8 t :: le64_put len.

(** The two fields of the header at the front of a buffer; reading them from
    fewer than nine bytes would be out of bounds. *)
Definition msg_hdr_type (buf : bytes) : option Z := head buf.
Definition msg_hdr_length (buf : bytes) : option Z :=
  match buf with
  | _ :: b0 :: b1 :: b2 :: b3 :: b4 :: b5 :: b6 :: b7 :: _ =>
      Some (le64_get b0 b1 b2 b3 b4 b5 b6 b7)
  | _ => None
  end.

(** ** Facts *)

Section Bswap.

Lemma htonl_range x : 0 ≤ htonl x < 2 ^ 32.
Proof. unfold htonl. change (2 ^ 32) with 4294967296. apply be32_get_range; auto with xfrp. Qed.

Lemma htonl_be x : be32_put (htonl x) = le32_put x.
Proof. unfold htonl. by rewrite be32_put_get by auto with xfrp. Qed.

Lemma htonl_le x : le32_put (htonl x) = be32_put x.
Proof.
  pose proof (htonl_be x) as H. unfold be32_put, le32_put in *.
  injection H as H0 H1 H2 H3. by rewrite H0, H1, H2, H3.
Qed.

Lemma ntohl_htonl x : ntohl (htonl x) = u32 x.
Proof.
  unfold ntohl at 1, htonl at 1. pose proof (htonl_le x) as H.
  unfold le32_put, be32_put in H. injection H as H0 H1 H2 H3.
  rewrite H0, H1, H2, H3. apply be32_get_put.
Qed.

Lemma htons_le x : le16_put (htons x) = be16_put x.
Proof.
  unfold le16_put, be16_put, htons. rewrite be16_get_add by auto with xfrp.
  rewrite u8_snoc, shiftr8_snoc by auto with xfrp. by rewrite u8_idem.
Qed.

Lemma htons_range x : 0 ≤ htons x < 2 ^ 16.
Proof. unfold htons. rewrite be16_get_add by auto with xfrp. pose proof (u8_range x).
  pose proof (u8_range (x ≫u 8)). words. lia. Qed.

Lemma ntohs_htons x : ntohs (htons x) = u16 x.
Proof.
  unfold ntohs at 1, htons at 1. pose proof (htons_le x) as H.
  unfold le16_put, be16_put in H. injection H as H0 H1. rewrite H0, H1.
  apply be16_get_put.
Qed.

Lemma ntohs_range x : 0 ≤ ntohs x < 2 ^ 16.
Proof. apply htons_range. Qed.
Lemma ntohl_range x : 0 ≤ ntohl x < 2 ^ 32.
Proof. apply htonl_range. Qed.

(** The low and high words of a 64-bit value. *)
Lemma hton64_split x :
  hton64 x = htonl (x mod 2 ^ 32) * 2 ^ 32 + htonl (x / 2 ^ 32 mod 2 ^ 32).
Proof.
  unfold hton64. change 0xFFFFFFFF with (Z.ones 32). rewrite !Z.land_ones by lia.
  rewrite Z.shiftr_div_pow2 by lia.
  by rewrite lor_shiftl_add by (try apply htonl_range; lia).
Qed.

Lemma ntoh64_hton64_words x : ntoh64 x = hton64 x.
Proof. reflexivity. Qed.

Lemma hton64_bounds x : 0 ≤ hton64 x < 2 ^ 64.
Proof.
  rewrite hton64_split. pose proof (htonl_range (x mod 2 ^ 32)).
  pose proof (htonl_range (x / 2 ^ 32 mod 2 ^ 32)). words. lia.
Qed.

Lemma hton64_hi_lo x :
  hton64 x / 2 ^ 32 = htonl (x mod 2 ^ 32) ∧
  hton64 x mod 2 ^ 32 = htonl (x / 2 ^ 32 mod 2 ^ 32).
Proof.
  rewrite hton64_split. pose proof (htonl_range (x mod 2 ^ 32)) as H1.
  pose proof (htonl_range (x / 2 ^ 32 mod 2 ^ 32)) as H2. split.
  - rewrite Z.div_add_l by lia. rewrite Z.div_small by lia. lia.
  - rewrite Z.add_comm, Z.mod_add by lia. by rewrite Z.mod_small by lia.
Qed.

Lemma ntoh64_hton64 x : 0 ≤ x < 2 ^ 64 → ntoh64 (hton64 x) = x.
Proof.
  intros Hx. rewrite ntoh64_hton64_words, hton64_split.
  destruct (hton64_hi_lo x) as [-> ->].
  change (htonl (htonl ?y)) with (ntohl (htonl y)).
  rewrite (Z.mod_small (htonl _)) by apply htonl_range.
  change htonl with ntohl at 1 3. rewrite !ntohl_htonl. wordlia.
Qed.

Lemma le64_put_words x : le64_put x = le32_put (x mod 2 ^ 32) ++ le32_put (x / 2 ^ 32).
Proof.
  rewrite <- (Z.shiftr_div_pow2 x 32) by lia. unfold le64_put, le32_put.
  rewrite u8_mod, !u8_shiftr_mod, !Z.shiftr_shiftr by lia. reflexivity.
Qed.

Lemma be64_put_words x :
  be64_put x = be32_put (x / 2 ^ 32 mod 2 ^ 32) ++ be32_put (x mod 2 ^ 32).
Proof.
  rewrite <- (Z.shiftr_div_pow2 x 32) by lia. unfold be64_put, be32_put.
  rewrite !u8_mod, !u8_shiftr_mod, !Z.shiftr_shiftr by lia. reflexivity.
Qed.

(** [be64_put] determines the 64-bit word. *)
Lemma be64_put_inj x y :
  0 ≤ x < 2 ^ 64 → 0 ≤ y < 2 ^ 64 → be64_put x = be64_put y → x = y.
Proof.
  intros Hx Hy H. rewrite !be64_put_words in H.
  apply app_inj_1 in H as [H1 H2]; [|reflexivity].
  unfold be32_put in H1, H2. injection H1 as A0 A1 A2 A3. injection H2 as B0 B1 B2 B3.
  assert (u32 (x / 2 ^ 32 mod 2 ^ 32) = u32 (y / 2 ^ 32 mod 2 ^ 32))
    by (rewrite <- !be32_get_put; by rewrite A0, A1, A2, A3).
  assert (u32 (x mod 2 ^ 32) = u32 (y mod 2 ^ 32))
    by (rewrite <- !be32_get_put; by rewrite B0, B1, B2, B3).
  wordlia.
Qed.

Lemma le64_put_hton64 x : le64_put (hton64 x) = be64_put x.
Proof.
  rewrite le64_put_words, be64_put_words. destruct (hton64_hi_lo x) as [-> ->].
  by rewrite !htonl_le.
Qed.

Lemma le64_get_put x :
  0 ≤ x < 2 ^ 64 →
  le64_get (u8 x) (u8 (x ≫u 8)) (u8 (x ≫u 16)) (u8 (x ≫u 24))
           (u8 (x ≫u 32)) (u8 (x ≫u 40)) (u8 (x ≫u 48)) (u8 (x ≫u 56)) = x.
Proof.
  intros Hx. pose proof (le64_put_words x) as H. unfold le64_put, le32_put in H.
  simpl in H. injection H as H0 H1 H2 H3 H4 H5 H6 H7.
  rewrite H0, H1, H2, H3, H4, H5, H6, H7. unfold le64_get, le32_get.
  rewrite !be32_get_put, lor_shiftl_add by (try apply u32_range; lia). wordlia.
Qed.

End Bswap.

(** ** Headers on the wire *)

(** A header built with the network-order stores of [tcp_mux_encode] is sent
    big-endian. *)
Lemma hdr_bytes_net v t f s l :
  hdr_bytes (mkHdr v t (htons f) (htonl s) (htonl l)) =
  [u8 v; u8 t] ++ be16_put f ++ be32_put s ++ be32_put l.
Proof. unfold hdr_bytes; simpl hdr_version; simpl hdr_type; simpl hdr_flags; simpl hdr_stream_id; simpl hdr_length.
  by rewrite htons_le, !htonl_le. Qed.

Lemma hdr_bytes_len h : zlen (hdr_bytes h) = sizeof_tcp_mux_header.
Proof. reflexivity. Qed.

Lemma hdr_bytes_ok h : bytes_ok (hdr_bytes h).
Proof. repeat constructor; apply u8_range. Qed.

Definition hdr_ok (h : tcp_mux_header) : Prop :=
  byte_ok (hdr_version h) ∧ byte_ok (hdr_type h) ∧ 0 ≤ hdr_flags h < 2 ^ 16 ∧
  0 ≤ hdr_stream_id h < 2 ^ 32 ∧ 0 ≤ hdr_length h < 2 ^ 32.

Lemma hdr_of_bytes_bytes h : hdr_ok h → hdr_of_bytes (hdr_bytes h) = Some h.
Proof.
  destruct h as [v t f s l]. intros (Hv & Ht & Hf & Hs & Hl); simpl in *.
  unfold hdr_bytes, le16_put, le32_put; simpl.
  unfold le16_get, le32_get. rewrite be16_get_put, !be32_get_put.
  do 2 f_equal; wordlia.
Qed.

Lemma hdr_of_bytes_ok l h : bytes_ok l → hdr_of_bytes l = Some h → hdr_ok h.
Proof.
  intros Hok H. unfold hdr_of_bytes in H.
  do 12 (destruct l as [|? l]; [done|]). destruct l; [|done]. injection H as <-.
  unfold bytes_ok in Hok. rewrite !Forall_cons in Hok. destruct_and?.
  unfold hdr_ok, le16_get, le32_get; simpl.
  split_and!; try (unfold byte_ok in *; lia).
  all: try (rewrite be16_get_add by done; unfold byte_ok in *; lia).
  all: change (2 ^ 32) with 4294967296; eapply be32_get_range; done.
Qed.

Lemma hdr_of_bytes_len l : zlen l = sizeof_tcp_mux_header → is_Some (hdr_of_bytes l).
Proof.
  unfold sizeof_tcp_mux_header, zlen. intros H.
  do 12 (destruct l as [|? l]; [simpl in H; lia|]).
  destruct l; [eauto|simpl in H; lia].
Qed.

Lemma msg_hdr_length_bytes t len rest :
  0 ≤ len < 2 ^ 64 → msg_hdr_length (msg_hdr_bytes t len ++ rest) = Some len.
Proof. intros. unfold msg_hdr_bytes; simpl. by rewrite le64_get_put. Qed.

(** The byte-order layer is right on the target: [ntoh64] undoes
    [hton64] on every 64-bit length, and the length field of a message header
    stored with [msg_hton] is sent most significant byte first. *)
Lemma msg_length_network_order (t len : Z) (Hlen : 0 ≤ len < 2 ^ 64) :
  ntoh64 (hton64 len) = len ∧
  msg_hdr_bytes t (msg_hton len) = u8 t :: be64_put len.
Proof. split; [by apply ntoh64_hton64|]. unfold msg_hdr_bytes. by rewrite le64_put_hton64. Qed.

Lemma msg_length_network_order_witness :
  ntoh64 (hton64 0x1234) = 0x1234 ∧
  msg_hdr_bytes 111 (msg_hton 0x1234) = u8 111 :: be64_put 0x1234.
Proof. apply (msg_length_network_order 111 0x1234). lia. Defined.
