(* ===== verification/Ctext.v ===== *)
(** * Text functions of the C library

    What the sources use of [ctype.h], [stdlib.h] and [string.h] on text: white
    space, numbers as [strtol] reads them into a 32-bit [long], comparison
    without regard to case, and searching.  Text is a list of non-zero bytes;
    [bytes_string] is the same text as a string. *)

From S2P Require Import Prelude.

Definition is_blank (b : Z) : bool := (b =? 32) || ((9 <=? b) && (b <=? 13)).
Definition is_digit (b : Z) : bool := (48 <=? b) && (b <=? 57).

Fixpoint skip_white (l : bytes) : bytes :=
  match l with b :: l' => if is_blank b then skip_white l' else l | [] => [] end.

(** The number and what follows it, saturated. *)
Fixpoint scan_digits (acc : Z) (l : bytes) : Z * bytes :=
  match l with
  | b :: l' => if is_digit b then scan_digits (Z.min (acc * 10 + (b - 48)) (2 ^ 31)) l' else (acc, l)
  | [] => (acc, [])
  end.

Definition scan_int (l : bytes) : option (Z * bytes) :=
  let l := skip_white l in
  let '(neg, l) := match l with
                   | 45 :: l' => (true, l')
                   | 43 :: l' => (false, l')
                   | _ => (false, l)
                   end in
  match l with
  | b :: _ =>
      if is_digit b then let '(n, rest) := scan_digits 0 l in Some (if neg then - n else Z.min n (2 ^ 31 - 1), rest)
      else None
  | [] => None
  end.

Definition atoi (s : string) : Z := from_option fst 0 (scan_int (str_bytes s)).

Definition to_lower (b : Z) : Z := if (65 <=? b) && (b <=? 90) then b + 32 else b.
(** [strcasecmp(s, t) == 0]. *)
Definition strcaseeq (s t : string) : bool := bool_decide (map to_lower (str_bytes s) = map to_lower (str_bytes t)).

Fixpoint starts_with (p l : bytes) : bool :=
  match p, l with
  | [], _ => true
  | c :: p, b :: l => (c =? b) && starts_with p l
  | _, [] => false
  end.

(** [strstr(l, p) != NULL]. *)
Fixpoint contains (p l : bytes) : bool :=
  starts_with p l || match l with [] => false | _ :: l => contains p l end.

Fixpoint bytes_string (l : bytes) : string :=
  match l with
  | [] => EmptyString
  | b :: l => String (Ascii.ascii_of_N (Z.to_N b)) (bytes_string l)
  end.

(** ** Lemmas *)

Lemma bytes_string_str (s : string) : bytes_string (str_bytes s) = s.
Proof.
  unfold str_bytes. induction s as [|a s IH]; [done|]. cbn [String.list_ascii_of_string map bytes_string].
  f_equal; [|exact IH]. rewrite N2Z.id. apply Ascii.ascii_N_embedding.
Qed.

Lemma scan_digits_range acc l : 0 ≤ acc ≤ 2 ^ 31 → 0 ≤ fst (scan_digits acc l) ≤ 2 ^ 31.
Proof.
  revert acc. induction l as [|b l IH]; intros acc Ha; [done|]. cbn [scan_digits].
  destruct (is_digit b) eqn:E; [|done]. apply IH. unfold is_digit in E. lia.
Qed.

(** A value of type [int]. *)
Lemma atoi_range s : - 2 ^ 31 ≤ atoi s ≤ 2 ^ 31 - 1.
Proof.
  unfold atoi, scan_int. destruct (match skip_white (str_bytes s) with 45 :: l => (true, l) | 43 :: l => (false, l) | _ => _ end) as [neg l].
  destruct l as [|b l]; [simpl; lia|]. destruct (is_digit b); [|simpl; lia].
  pose proof (scan_digits_range 0 (b :: l)). destruct (scan_digits 0 (b :: l)) as [n rest]. simpl in *. destruct neg; lia.
Qed.
