(* ===== verification/Growth.v ===== *)
(** * Capacity doubling

    Five buffers of the client grow the same way: start from the present
    capacity (or an initial one) and double until the request fits
    ([evbuffer_reserve] in [port/mini_event.c], [buf_append] in
    [aead_stream.c], [v2_buf_append] in [control.c], [socks5_buf_ensure] and
    [xdpi_buf_ensure] in [proxy_tcp.c]).  [size_t] has 32 bits on the ESP32, so
    the doubling is taken modulo [2 ^ 32]; the loop is modelled with fuel and
    [grow_fuel] rounds are proved to be enough for every request of at most
    [2 ^ 31] bytes. *)

From S2P Require Import Prelude.

(** [while (ncap < target) ncap *= 2;] *)
Fixpoint grow (fuel : nat) (ncap target : Z) : option Z :=
  if ncap <? target then
    match fuel with
    | O => None
    | S fuel => grow fuel (u32 (ncap * 2)) target
    end
  else Some ncap.

Definition grow_fuel : nat := 32.

(** Enough fuel: the loop stops, with room for the request, less than doubling
    what was asked (or keeping what was there). *)
Lemma grow_spec fuel ncap target :
  0 < ncap → target ≤ 2 ^ 31 → target ≤ ncap * 2 ^ Z.of_nat fuel →
  ∃ n, grow fuel ncap target = Some n ∧ target ≤ n ∧ ncap ≤ n ∧
       (n = ncap ∨ n < 2 * target).
Proof.
  revert ncap. induction fuel as [|fuel IH]; intros ncap Hpos Ht Hf; simpl.
  - change (2 ^ Z.of_nat 0) with 1 in Hf. case_if; [lia|]. exists ncap. split_and!; [done|lia..|by left].
  - case_if; [|exists ncap; split_and!; [done|lia..|by left]].
    assert (u32 (ncap * 2) = ncap * 2) as Hu by (apply u32_small; lia).
    rewrite Hu. destruct (IH (ncap * 2)) as (n & Hg & H1 & H2 & H3); [lia|lia| |].
    + rewrite Nat2Z.inj_succ, Z.pow_succ_r in Hf by lia. lia.
    + exists n. split_and!; [done|lia|lia|]. right. destruct H3; lia.
Qed.

Lemma grow_enough ncap target :
  0 < ncap → target ≤ 2 ^ 31 →
  ∃ n, grow grow_fuel ncap target = Some n ∧ target ≤ n ∧ ncap ≤ n.
Proof.
  intros H1 H2. destruct (grow_spec grow_fuel ncap target) as (n & ? & ? & ? & _); [done..| |eauto].
  unfold grow_fuel. change (2 ^ Z.of_nat 32) with (2 * 2 ^ 31). nia.
Qed.

(** Once the capacity has wrapped to zero the doubling cannot leave it: a
    request past [2 ^ 31] from a power-of-two capacity never returns. *)
Lemma grow_zero_stuck fuel target : 0 < target → grow fuel 0 target = None.
Proof.
  intros Ht. induction fuel as [|fuel IH]; simpl; case_if; try done; try lia.
Qed.

Lemma grow_wraps fuel k target :
  (k ≤ 31)%nat → 2 ^ 31 < target → grow fuel (2 ^ Z.of_nat k) target = None.
Proof.
  revert k. induction fuel as [|fuel IH]; intros k Hk Ht; simpl.
  - case_if; [done|]. pose proof (Z.pow_le_mono_r 2 (Z.of_nat k) 31). lia.
  - case_if.
    + destruct (decide (k = 31%nat)) as [->|].
      * change (u32 (2 ^ Z.of_nat 31 * 2)) with 0. apply grow_zero_stuck. lia.
      * assert (2 ^ Z.of_nat k * 2 = 2 ^ Z.of_nat (S k)) as E
          by (rewrite Nat2Z.inj_succ, Z.pow_succ_r by lia; lia).
        rewrite E, u32_small; [apply IH; lia|].
        pose proof (Z.pow_le_mono_r 2 (Z.of_nat (S k)) 31).
        pose proof (Z.pow_pos_nonneg 2 (Z.of_nat (S k))). lia.
    + pose proof (Z.pow_le_mono_r 2 (Z.of_nat k) 31). lia.
Qed.
