(* ===== verification/Evbuffer.v ===== *)
(** * evbuffer

    The byte queue of [port/mini_event.c]: an array [data] of capacity [cap]
    of which the first [len] bytes are live.  The operations below are the C
    functions over that array ([memcpy]/[memmove] as [splice]); allocation is
    a parameter, so the [-1] paths are values.  [contents] abstracts a buffer
    to the list of live bytes and the refinement theorem shows that the C
    operations are the queue operations the rest of the client relies on. *)

From S2P Require Import Prelude Growth.

Record evbuffer := mkEv { ev_data : bytes; ev_len : Z; ev_cap : Z }.

Definition MINI_EVBUF_INIT_CAP : Z := 4096.

(** [memcpy(data + off, src, |src|)] inside an array. *)
Definition splice (off : Z) (src data : bytes) : bytes :=
  ztake off data ++ src ++ zdrop (off + zlen src) data.

(** [realloc] keeps the old bytes; the new tail is indeterminate (zero here,
    never read before it is written). *)
Definition realloc_data (data : bytes) (n : Z) : bytes :=
  ztake n data ++ replicate (Z.to_nat (n - zlen data)) 0.

Section Ops.
(** Whether an allocation of this many bytes succeeds. *)
Context (alloc : Z → bool).

Definition evbuffer_reserve (buf : evbuffer) (need : Z) : option (Z * evbuffer) :=
  if u32 (ev_len buf + need) <=? ev_cap buf then Some (0, buf)
  else
    let ncap0 := if ev_cap buf =? 0 then MINI_EVBUF_INIT_CAP else ev_cap buf in
    ncap ← grow grow_fuel ncap0 (u32 (ev_len buf + need));
    if alloc ncap then
      Some (0, mkEv (realloc_data (ev_data buf) ncap) (ev_len buf) ncap)
    else Some (-1, buf).

Definition evbuffer_new : option evbuffer :=
  if alloc 12 then Some (mkEv [] 0 0) else None.

Definition evbuffer_add (buf : option evbuffer) (data : option bytes) (len : Z)
    : option (Z * option evbuffer) :=
  match buf, data with
  | None, _ => Some (-1, None)
  | Some b, None =>
      if 0 <? len then Some (-1, buf)
      else '(rc, b') ← evbuffer_reserve b len;
           Some (if rc <? 0 then -1 else 0, Some b')
  | Some b, Some d =>
      '(rc, b') ← evbuffer_reserve b len;
      if rc <? 0 then Some (-1, Some b')
      else Some (0, Some (mkEv (splice (ev_len b') (ztake len d) (ev_data b'))
                               (u32 (ev_len b' + len)) (ev_cap b')))
  end.

Definition evbuffer_get_length (buf : option evbuffer) : Z :=
  match buf with Some b => ev_len b | None => 0 end.

(** [same] is the pointer comparison [dst == src]. *)
Definition evbuffer_add_buffer (same : bool) (dst src : option evbuffer)
    : option (Z * option evbuffer * option evbuffer) :=
  match dst, src with
  | Some _, Some s =>
      if same then Some (-1, dst, src)
      else if ev_len s =? 0 then Some (0, dst, src)
      else
        '(rc, dst') ← evbuffer_add dst (Some (ev_data s)) (ev_len s);
        if rc <? 0 then Some (-1, dst', src)
        else Some (0, dst', Some (mkEv (ev_data s) 0 (ev_cap s)))
  | _, _ => Some (-1, dst, src)
  end.

Definition evbuffer_prepend (buf : option evbuffer) (data : option bytes) (len : Z)
    : option (Z * option evbuffer) :=
  match buf, data with
  | None, _ => Some (-1, None)
  | Some b, None => if 0 <? len then Some (-1, buf) else Some (0, buf)
  | Some b, Some d =>
      if len =? 0 then Some (0, buf)
      else
        '(rc, b') ← evbuffer_reserve b len;
        if rc <? 0 then Some (-1, Some b')
        else
          let moved := splice len (ztake (ev_len b') (ev_data b')) (ev_data b') in
          Some (0, Some (mkEv (splice 0 (ztake len d) moved)
                              (u32 (ev_len b' + len)) (ev_cap b')))
  end.

(** The common tail of [remove], [remove_buffer] and [drain]:
    [memmove(data, data + len, buf->len - len); buf->len -= len;] *)
Definition shift_down (b : evbuffer) (len : Z) : evbuffer :=
  mkEv (splice 0 (ztake (ev_len b - len) (zdrop len (ev_data b))) (ev_data b))
       (ev_len b - len) (ev_cap b).

(** The bytes copied out are the second component of the result. *)
Definition evbuffer_remove (buf : option evbuffer) (data_ok : bool) (len : Z)
    : Z * bytes * option evbuffer :=
  match buf with
  | Some b =>
      if negb data_ok then (-1, [], buf)
      else
        let n := if ev_len b <? len then ev_len b else len in
        (n, ztake n (ev_data b), Some (shift_down b n))
  | None => (-1, [], None)
  end.

Definition evbuffer_remove_buffer (src dst : option evbuffer) (len : Z)
    : option (Z * option evbuffer * option evbuffer) :=
  match src, dst with
  | Some s, Some _ =>
      let n := if ev_len s <? len then ev_len s else len in
      if n =? 0 then Some (0, src, dst)
      else
        '(rc, dst') ← evbuffer_add dst (Some (ev_data s)) n;
        if rc <? 0 then Some (0, src, dst')
        else Some (n, Some (shift_down s n), dst')
  | _, _ => Some (0, src, dst)
  end.

Definition evbuffer_drain (buf : option evbuffer) (len : Z) : Z * option evbuffer :=
  match buf with
  | Some b =>
      let n := if ev_len b <? len then ev_len b else len in
      (0, Some (shift_down b n))
  | None => (-1, None)
  end.

(** The single [iovec] the function fills: the whole live contents. *)
Definition evbuffer_peek (buf : option evbuffer) (len : Z) (n_vec : Z) : Z * bytes :=
  match buf with
  | Some b =>
      if (n_vec <? 1) || (len <? 0) then (0, [])
      else if (len =? 0) || (ev_len b =? 0) then (0, [])
      else (1, ztake (ev_len b) (ev_data b))
  | None => (0, [])
  end.

Fixpoint search_from (fuel : nat) (data what : bytes) (i blen : Z) : Z :=
  match fuel with
  | O => -1
  | S fuel =>
      if i + zlen what <=? blen then
        if decide (ztake (zlen what) (zdrop i data) = what) then i
        else search_from fuel data what (i + 1) blen
      else -1
  end.

(** [start] is [NULL] or a position. *)
Definition evbuffer_search (buf : option evbuffer) (what : bytes) (start : option Z) : Z :=
  match buf with
  | Some b =>
      if zlen what =? 0 then -1
      else
        let off := match start with Some p => p | None => 0 end in
        if (zlen what <=? ev_len b) && (off <=? ev_len b - zlen what) then
          search_from (S (Z.to_nat (ev_len b))) (ev_data b) what off (ev_len b)
        else -1
  | None => -1
  end.

Definition evbuffer_pullup (buf : option evbuffer) (size : Z) : option bytes :=
  b ← buf; Some (ev_data b).

End Ops.

(** ** Invariant and abstraction *)

Definition ev_ok (b : evbuffer) : Prop :=
  zlen (ev_data b) = ev_cap b ∧ 0 ≤ ev_len b ≤ ev_cap b ∧ ev_cap b < 2 ^ 32.

Definition contents (b : evbuffer) : bytes := ztake (ev_len b) (ev_data b).

Lemma contents_len b : ev_ok b → zlen (contents b) = ev_len b.
Proof. intros (H1 & H2 & H3). unfold contents. lens. Qed.

Lemma splice_len off src data :
  0 ≤ off → off + zlen src ≤ zlen data → zlen (splice off src data) = zlen data.
Proof. intros. unfold splice. lens. Qed.

Lemma splice_prefix off src data :
  0 ≤ off → off + zlen src ≤ zlen data →
  ztake (off + zlen src) (splice off src data) = ztake off data ++ src.
Proof.
  intros H1 H2. unfold splice. rewrite app_assoc. apply ztake_app_exact. lens.
Qed.

Lemma ztake_prefix {A} n m (l k : list A) :
  n ≤ m → ztake m l = k → ztake n l = ztake n k.
Proof.
  intros Hnm <-. unfold ztake. rewrite take_take. f_equal. lia.
Qed.

Lemma shift_down_ok b n :
  ev_ok b → 0 ≤ n ≤ ev_len b →
  ev_ok (shift_down b n) ∧ contents (shift_down b n) = zdrop n (contents b).
Proof.
  intros (H1 & H2 & H3) Hn. unfold ev_ok, contents, shift_down; simpl. split.
  - split_and!; try lia. rewrite splice_len; lens.
  - unfold splice. rewrite (ztake_nonpos 0) by lia. simpl.
    rewrite ztake_app_exact by lens.
    unfold ztake, zdrop. rewrite skipn_firstn_comm. f_equal. lia.
Qed.

Section Refinement.
Context (alloc : Z → bool).

Lemma realloc_keeps data n len :
  0 ≤ len ≤ zlen data → zlen data ≤ n →
  zlen (realloc_data data n) = n ∧ ztake len (realloc_data data n) = ztake len data.
Proof.
  intros H1 H2. unfold realloc_data. rewrite (ztake_ge n) by lia. split; [by lens|].
  apply ztake_app_le; lia.
Qed.

Lemma reserve_spec b need :
  ev_ok b → 0 ≤ need → ev_len b + need ≤ 2 ^ 31 →
  ∃ rc b', evbuffer_reserve alloc b need = Some (rc, b') ∧ ev_ok b' ∧
    contents b' = contents b ∧ ev_len b' = ev_len b ∧
    ((rc = 0 ∧ ev_len b + need ≤ ev_cap b') ∨ (rc = -1 ∧ b' = b)).
Proof.
  intros (H1 & H2 & H3) Hn Hlen. unfold evbuffer_reserve.
  rewrite (u32_small (ev_len b + need)) by lia. case_if.
  { exists 0, b. unfold ev_ok. split_and!; auto; lia. }
  set (n0 := if ev_cap b =? 0 then MINI_EVBUF_INIT_CAP else ev_cap b).
  assert (0 < n0 ∧ ev_cap b ≤ n0) as [Hp Hc'].
  { unfold n0, MINI_EVBUF_INIT_CAP. case_if; lia. }
  destruct (grow_spec grow_fuel n0 (ev_len b + need)) as (n & -> & Hg1 & Hg2 & Hg3); [lia..| |].
  { unfold grow_fuel. change (2 ^ Z.of_nat 32) with (2 * 2 ^ 31). nia. }
  simpl. case_if.
  - assert (n < 2 ^ 32).
    { destruct Hg3 as [->|]; [|lia]. unfold n0, MINI_EVBUF_INIT_CAP. case_if; lia. }
    destruct (realloc_keeps (ev_data b) n (ev_len b)) as [Hr1 Hr2]; [lia..|].
    eexists _, _. split; [done|]. unfold ev_ok, contents; simpl.
    split_and!; auto; lia.
  - exists (-1), b. unfold ev_ok. split_and!; auto; lia.
Qed.

Lemma add_spec b d len :
  ev_ok b → 0 ≤ len ≤ zlen d → ev_len b + len ≤ 2 ^ 31 →
  ∃ rc b', evbuffer_add alloc (Some b) (Some d) len = Some (rc, Some b') ∧ ev_ok b' ∧
    ((rc = 0 ∧ contents b' = contents b ++ ztake len d) ∨
     (rc = -1 ∧ contents b' = contents b)).
Proof.
  intros Hok Hlen Hsz. unfold evbuffer_add.
  destruct (reserve_spec b len) as (rc & b' & -> & Hok' & Hc & Hl & [[-> Hcap]|[-> ->]]); [done|lia..| |].
  - simpl. eexists _, _. split; [done|].
    pose proof Hok' as (H1 & H2 & H3).
    assert (zlen (ztake len d) = len) as Hd by lens.
    rewrite u32_small by lia. split.
    + unfold ev_ok; simpl. rewrite splice_len by (rewrite ?Hd; lia). lia.
    + left; split; [done|]. unfold contents at 1; simpl.
      rewrite <- Hd at 1. rewrite splice_prefix by (rewrite ?Hd; lia).
      by rewrite <- Hc.
  - simpl. eexists _, _. split_and!; eauto.
Qed.

Lemma prepend_spec b d len :
  ev_ok b → 0 ≤ len ≤ zlen d → ev_len b + len ≤ 2 ^ 31 →
  ∃ rc b', evbuffer_prepend alloc (Some b) (Some d) len = Some (rc, Some b') ∧ ev_ok b' ∧
    ((rc = 0 ∧ contents b' = ztake len d ++ contents b) ∨
     (rc = -1 ∧ contents b' = contents b)).
Proof.
  intros Hok Hlen Hsz. unfold evbuffer_prepend. case_if.
  { subst. eexists _, _. split_and!; [done|done|left]. split; [done|]. by rewrite ztake_nonpos by lia. }
  destruct (reserve_spec b len) as (rc & b' & -> & Hok' & Hc' & Hl & [[-> Hcap]|[-> ->]]); [done|lia..| |].
  - simpl. eexists _, _. split; [done|].
    pose proof Hok' as (H1 & H2 & H3).
    assert (zlen (ztake len d) = len) as Hd by lens.
    assert (zlen (ztake (ev_len b') (ev_data b')) = ev_len b') as Hm by lens.
    set (moved := splice len _ _).
    assert (zlen moved = zlen (ev_data b')) as Hml.
    { unfold moved. rewrite splice_len; rewrite ?Hm; lia. }
    rewrite u32_small by lia. split.
    + unfold ev_ok; simpl. rewrite splice_len by (rewrite ?Hd; lia). lia.
    + left; split; [done|]. unfold contents at 1; simpl.
      unfold splice at 1. rewrite (ztake_nonpos 0), Hd by lia. simpl.
      rewrite ztake_app_ge, Hd by lia. f_equal.
      unfold moved, splice. rewrite zdrop_app_exact by lens.
      rewrite ztake_app_exact by (rewrite Hm; lia). by rewrite <- Hc'.
  - simpl. eexists _, _. split_and!; eauto.
Qed.

End Refinement.

(** ** The queue the clients see *)

Inductive ev_op :=
| OpAdd (d : bytes) | OpPrepend (d : bytes) | OpRemove (n : Z) | OpDrain (n : Z)
| OpPeek | OpSearch (what : bytes) (start : option Z) | OpLength.

(** What a call returns: the [int], and the bytes copied or exposed. *)
Definition ev_out : Type := Z * bytes.

Section Machine.
Context (alloc : Z → bool).

Definition c_step (op : ev_op) (b : evbuffer) : option (ev_out * evbuffer) :=
  match op with
  | OpAdd d => '(rc, ob) ← evbuffer_add alloc (Some b) (Some d) (zlen d); b' ← ob; Some ((rc, []), b')
  | OpPrepend d => '(rc, ob) ← evbuffer_prepend alloc (Some b) (Some d) (zlen d); b' ← ob; Some ((rc, []), b')
  | OpRemove n => let '(rc, out, ob) := evbuffer_remove (Some b) true n in b' ← ob; Some ((rc, out), b')
  | OpDrain n => let '(rc, ob) := evbuffer_drain (Some b) n in b' ← ob; Some ((rc, []), b')
  | OpPeek => Some (evbuffer_peek (Some b) (ev_len b) 1, b)
  | OpSearch what start => Some ((evbuffer_search (Some b) what start, []), b)
  | OpLength => Some ((evbuffer_get_length (Some b), []), b)
  end.

Fixpoint c_run (ops : list ev_op) (b : evbuffer) : option (list ev_out * evbuffer) :=
  match ops with
  | [] => Some ([], b)
  | op :: ops =>
      '(o, b') ← c_step op b; '(os, b'') ← c_run ops b'; Some (o :: os, b'')
  end.
End Machine.

(** Whether [what] occurs in [q] at [i], and the first such place from [off]. *)
Definition occurs (q what : bytes) (i : Z) : Prop :=
  i + zlen what ≤ zlen q ∧ ztake (zlen what) (zdrop i q) = what.
Definition first_occurrence (q what : bytes) (off r : Z) : Prop :=
  (off ≤ r ∧ occurs q what r ∧ ∀ i, off ≤ i < r → ¬ occurs q what i) ∨
  (r = -1 ∧ ∀ i, off ≤ i → ¬ occurs q what i).

(** The queue: growing may fail and then nothing changes; nothing else can. *)
Inductive q_step : ev_op → bytes → ev_out → bytes → Prop :=
| q_add d q : q_step (OpAdd d) q (0, []) (q ++ d)
| q_add_fail d q : q_step (OpAdd d) q (-1, []) q
| q_prepend d q : q_step (OpPrepend d) q (0, []) (d ++ q)
| q_prepend_fail d q : q_step (OpPrepend d) q (-1, []) q
| q_remove n q :
    q_step (OpRemove n) q (Z.min n (zlen q), ztake n q) (zdrop n q)
| q_drain n q : q_step (OpDrain n) q (0, []) (zdrop n q)
| q_peek q : q_step OpPeek q (if zlen q =? 0 then 0 else 1, q) q
| q_search what start q r :
    0 < zlen what → first_occurrence q what (default 0 start) r →
    q_step (OpSearch what start) q (r, []) q
| q_length q : q_step OpLength q (zlen q, []) q.

Inductive q_run : list ev_op → bytes → list ev_out → bytes → Prop :=
| q_run_nil q : q_run [] q [] q
| q_run_cons op ops q o q' os q'' :
    q_step op q o q' → q_run ops q' os q'' → q_run (op :: ops) q (o :: os) q''.

(** Arguments the C callers pass: counts are sizes, patterns are non-empty. *)
Definition op_ok (op : ev_op) : Prop :=
  match op with
  | OpRemove n | OpDrain n => 0 ≤ n
  | OpSearch what start => 0 < zlen what ∧ 0 ≤ default 0 start
  | _ => True
  end.
Definition op_size (op : ev_op) : Z :=
  match op with OpAdd d | OpPrepend d => zlen d | _ => 0 end.
Fixpoint ops_size (ops : list ev_op) : Z :=
  match ops with [] => 0 | op :: ops => op_size op + ops_size ops end.

Lemma op_size_nonneg op : 0 ≤ op_size op.
Proof. destruct op; simpl; lens. Qed.
Lemma ops_size_nonneg ops : 0 ≤ ops_size ops.
Proof. induction ops as [|op ops IH]; simpl; [lia|]. pose proof (op_size_nonneg op). lia. Qed.

Lemma search_from_spec fuel b what i :
  ev_ok b → 0 < zlen what → 0 ≤ i → ev_len b < i + Z.of_nat fuel →
  first_occurrence (contents b) what i (search_from fuel (ev_data b) what i (ev_len b)).
Proof.
  intros Hok Hw. revert i. induction fuel as [|fuel IH]; intros i Hi Hf; simpl.
  { right. split; [done|]. intros j Hj [H _]. rewrite contents_len in H by done. lia. }
  assert (∀ j, 0 ≤ j → j + zlen what ≤ ev_len b →
      ztake (zlen what) (zdrop j (contents b)) = ztake (zlen what) (zdrop j (ev_data b))) as Hsub.
  { intros j H0 Hj. unfold contents, ztake, zdrop. rewrite skipn_firstn_comm, take_take.
    f_equal. lia. }
  case_if.
  - case_decide as Hm.
    + left. split_and!; [lia| |lia].
      split; [by rewrite contents_len|]. by rewrite Hsub.
    + assert (¬ occurs (contents b) what i) as Hno.
      { intros [H1 H2]. rewrite Hsub in H2 by lia. done. }
      destruct (IH (i + 1)) as [(H1 & H2 & H3)|[H1 H2]]; [lia..| |].
      * left. split_and!; [lia|done|]. intros j Hj.
        destruct (decide (j = i)) as [->|]; [done|]. apply H3; lia.
      * right. split; [done|]. intros j Hj.
        destruct (decide (j = i)) as [->|]; [done|]. apply H2; lia.
  - right. split; [done|]. intros j Hj [H _]. rewrite contents_len in H by done. lia.
Qed.

Lemma search_spec b what start :
  ev_ok b → 0 < zlen what → 0 ≤ default 0 start →
  first_occurrence (contents b) what (default 0 start) (evbuffer_search (Some b) what start).
Proof.
  intros Hok Hw Hs. unfold evbuffer_search.
  case_if; [lia|]. change (match start with Some p => p | None => 0 end) with (default 0 start).
  case_if.
  - apply search_from_spec; [done..|]. destruct Hok as (? & ? & ?). lia.
  - right. split; [done|]. intros j Hj [H1 _]. rewrite contents_len in H1 by done. lia.
Qed.

Lemma min_if a b : (if a <? b then a else b) = Z.min b a.
Proof. case_if; lia. Qed.

Lemma ztake_min {A} n m (l : list A) : zlen l = m → ztake (Z.min n m) l = ztake n l.
Proof.
  intros <-. destruct (Z.min_spec n (zlen l)) as [[_ ->]|[? ->]]; [done|].
  by rewrite !ztake_ge by lia.
Qed.

Lemma zdrop_min {A} n m (l : list A) : zlen l = m → zdrop (Z.min n m) l = zdrop n l.
Proof.
  intros <-. destruct (Z.min_spec n (zlen l)) as [[_ ->]|[? ->]]; [done|].
  by rewrite !zdrop_ge by lia.
Qed.

Lemma c_step_refines alloc op b :
  ev_ok b → op_ok op → ev_len b + op_size op ≤ 2 ^ 31 →
  ∃ o b', c_step alloc op b = Some (o, b') ∧ ev_ok b' ∧
    q_step op (contents b) o (contents b') ∧ ev_len b' ≤ ev_len b + op_size op.
Proof.
  intros Hok Hop Hsz. pose proof (op_size_nonneg op) as Hpos.
  assert (∀ b' q, ev_ok b' → contents b' = q → ev_len b' = zlen q) as Hl.
  { intros b' q Hb <-. by rewrite contents_len. }
  pose proof (contents_len b Hok) as Hlen.
  destruct op as [d|d|n|n| |what start|]; cbn [c_step op_size op_ok] in *.
  - destruct (add_spec alloc b d (zlen d)) as (rc & b' & -> & Hok' & [[-> Hc]|[-> Hc]]); [done|lens..| |];
      simpl; eexists _, _; (split; [done|]); rewrite ?(ztake_ge (zlen d) d) in Hc by lia.
    + rewrite (Hl b' _ Hok' Hc), Hc. split_and!; [done|constructor|lens].
    + rewrite (Hl b' _ Hok' Hc), Hc. split_and!; [done|constructor|lia].
  - destruct (prepend_spec alloc b d (zlen d)) as (rc & b' & -> & Hok' & [[-> Hc]|[-> Hc]]); [done|lens..| |];
      simpl; eexists _, _; (split; [done|]); rewrite ?(ztake_ge (zlen d) d) in Hc by lia.
    + rewrite (Hl b' _ Hok' Hc), Hc. split_and!; [done|constructor|lens].
    + rewrite (Hl b' _ Hok' Hc), Hc. split_and!; [done|constructor|lia].
  - unfold evbuffer_remove; cbn [negb mbind option_bind]. rewrite min_if.
    destruct (shift_down_ok b (Z.min n (ev_len b))) as [Hok' Hc];
      [done|destruct Hok as (?&?&?); lia|].
    eexists _, _. split; [done|]. rewrite (Hl _ _ Hok' Hc), Hc.
    split_and!; [done| |lens].
    rewrite zdrop_min by done.
    assert (ztake (Z.min n (ev_len b)) (ev_data b) = ztake n (contents b)) as ->.
    { unfold contents, ztake. rewrite take_take. f_equal. lia. }
    rewrite <- Hlen at 1. constructor.
  - unfold evbuffer_drain; cbn [mbind option_bind]. rewrite min_if.
    destruct (shift_down_ok b (Z.min n (ev_len b))) as [Hok' Hc];
      [done|destruct Hok as (?&?&?); lia|].
    eexists _, _. split; [done|]. rewrite (Hl _ _ Hok' Hc), Hc.
    split_and!; [done| |lens]. rewrite zdrop_min by done. constructor.
  - eexists _, _. split; [done|]. split_and!; [done| |lia].
    unfold evbuffer_peek. destruct Hok as (?&?&?). rewrite (proj2 (Z.ltb_ge (ev_len b) 0)) by lia. simpl.
    fold (contents b). pose proof (q_peek (contents b)) as Hp. rewrite Hlen in Hp.
    destruct (ev_len b =? 0) eqn:E; simpl; b2p; [|exact Hp].
    rewrite E in Hlen. apply zlen_0_inv in Hlen. rewrite Hlen in *. exact Hp.
  - eexists _, _. split; [done|]. split_and!; [done| |lia].
    constructor; [naive_solver|]. apply search_spec; naive_solver.
  - eexists _, _. split; [done|]. split_and!; [done| |lia].
    unfold evbuffer_get_length. rewrite <- Hlen. constructor.
Qed.

(** C31: the concrete array buffer implements the byte queue: any sequence of
    operations on it runs to completion, keeps the array invariant, and what
    each call returns and what remains in the buffer is what the queue allows,
    provided the bytes added stay below 2 GiB. *)
Theorem evbuffer_refines_queue (alloc : Z → bool) (ops : list ev_op) (b : evbuffer)
    (Hok : ev_ok b) (Hops : Forall op_ok ops)
    (Hsize : ev_len b + ops_size ops ≤ 2 ^ 31) :
  ∃ outs b', c_run alloc ops b = Some (outs, b') ∧ ev_ok b' ∧
    q_run ops (contents b) outs (contents b').
Proof.
  revert b Hok Hsize. induction Hops as [|op ops Hop Hops IH]; intros b Hok Hsize; simpl in *.
  { eexists _, _. split_and!; [done..|constructor]. }
  pose proof (ops_size_nonneg ops).
  destruct (c_step_refines alloc op b) as (o & b' & -> & Hok' & Hq & Hl); [done..|lia|].
  destruct (IH b') as (os & b'' & Hr & Hok'' & Hq'); [done|lia|].
  simpl. rewrite Hr. simpl. eexists _, _. split_and!; [done..|]. by econstructor.
Qed.

Lemma evbuffer_refines_queue_witness :
  ∃ outs b', c_run (λ _, true)
      [OpAdd [1; 2; 3]; OpSearch [2; 3] None; OpRemove 1; OpPrepend [9]; OpPeek] (mkEv [] 0 0)
    = Some (outs, b') ∧ ev_ok b' ∧
    q_run [OpAdd [1; 2; 3]; OpSearch [2; 3] None; OpRemove 1; OpPrepend [9]; OpPeek] [] outs (contents b').
Proof.
  apply (evbuffer_refines_queue (λ _, true) _ (mkEv [] 0 0)).
  - unfold ev_ok; simpl. unfold zlen; simpl. lia.
  - repeat (constructor; [simpl; rewrite ?zlen_cons; unfold zlen; simpl; try lia; done|]). constructor.
  - vm_compute. discriminate.
Defined.

(** Moving bytes between buffers ([evbuffer_remove_buffer], the transfer
    under the whole forwarding path) never loses or duplicates a byte: either
    exactly the returned count moves from the front of the source to the back
    of the destination, or (allocation failure) nothing moves and 0 is
    returned. *)
Lemma evbuffer_transfer_conserves (alloc : Z → bool) (s d : evbuffer) (len : Z)
    (Hs : ev_ok s) (Hd : ev_ok d) (Hlen : 0 ≤ len)
    (Hsize : ev_len d + ev_len s ≤ 2 ^ 31) :
  ∃ n s' d', evbuffer_remove_buffer alloc (Some s) (Some d) len = Some (n, Some s', Some d') ∧
    ev_ok s' ∧ ev_ok d' ∧ 0 ≤ n ≤ len ∧
    contents d' = contents d ++ ztake n (contents s) ∧
    contents s' = zdrop n (contents s) ∧
    (n = Z.min len (ev_len s) ∨ n = 0).
Proof.
  unfold evbuffer_remove_buffer. rewrite min_if. pose proof Hs as (H1 & H2 & H3).
  case_if.
  { eexists _, _, _. split; [done|]. rewrite (ztake_nonpos 0), (zdrop_nonpos 0), app_nil_r by lia.
    split_and!; auto; lia. }
  destruct (add_spec alloc d (ev_data s) (Z.min len (ev_len s)))
    as (rc & d' & -> & Hok' & [[-> Hc']|[-> Hc']]); [done|lia..| |].
  - simpl. destruct (shift_down_ok s (Z.min len (ev_len s))) as [Hso Hsc]; [done|lia|].
    eexists _, _, _. split; [done|]. rewrite Hc', Hsc.
    split_and!; auto; [lia..|]. f_equal.
    unfold contents, ztake. rewrite take_take. f_equal. lia.
  - simpl. eexists _, _, _. split; [done|].
    rewrite Hc', (ztake_nonpos 0), (zdrop_nonpos 0), app_nil_r by lia. split_and!; auto; lia.
Qed.

Lemma evbuffer_transfer_conserves_witness :
  ∃ n s' d', evbuffer_remove_buffer (λ _, true) (Some (mkEv [1; 2; 3] 3 3)) (Some (mkEv [] 0 0)) 2
      = Some (n, Some s', Some d') ∧
    ev_ok s' ∧ ev_ok d' ∧ 0 ≤ n ≤ 2 ∧
    contents d' = contents (mkEv [] 0 0) ++ ztake n (contents (mkEv [1; 2; 3] 3 3)) ∧
    contents s' = zdrop n (contents (mkEv [1; 2; 3] 3 3)) ∧
    (n = Z.min 2 (ev_len (mkEv [1; 2; 3] 3 3)) ∨ n = 0).
Proof.
  apply evbuffer_transfer_conserves; unfold ev_ok, zlen; simpl; lia.
Defined.
