(* ===== verification/Evp.v ===== *)
(** * The OpenSSL compatibility layer

    Models the cipher contexts of [src/port/openssl_compat.c] (the EVP subset
    the program uses) and the two helpers of [src/src/aead_stream.c] that
    drive a whole AEAD message through it.  mbedtls is not part of the
    repository: the AES-CFB stream and the GCM message functions are the
    fields of [Mbedtls], with the documented behaviour the code relies on as
    laws. *)

From S2P Require Import Prelude.

(** ** What mbedtls provides *)

(** [MBEDTLS_ENCRYPT] and [MBEDTLS_DECRYPT]. *)
Inductive mbed_mode := MBEDTLS_ENCRYPT | MBEDTLS_DECRYPT.

Definition mode_flip (m : mbed_mode) : mbed_mode :=
  match m with MBEDTLS_ENCRYPT => MBEDTLS_DECRYPT | MBEDTLS_DECRYPT => MBEDTLS_ENCRYPT end.

Class Mbedtls := {
  (** an AES key schedule with the CFB iv and offset *)
  cfb_st : Type;
  cfb_zero : cfb_st;
  cfb_start : bytes → bytes → cfb_st;
  aes_crypt_cfb128 : mbed_mode → cfb_st → bytes → cfb_st * bytes;
  (** the output and the tag of one GCM message *)
  gcm_out : mbed_mode → bytes → bytes → bytes → bytes → bytes;
  gcm_tag_of : mbed_mode → bytes → bytes → bytes → bytes → bytes;
  (** the calls on successive pieces continue one stream *)
  cfb_app m st x y :
    aes_crypt_cfb128 m st (x ++ y) =
    let '(st1, a) := aes_crypt_cfb128 m st x in
    let '(st2, b) := aes_crypt_cfb128 m st1 y in (st2, a ++ b);
  cfb_nil m st : aes_crypt_cfb128 m st [] = (st, []);
  cfb_len m st x : zlen (snd (aes_crypt_cfb128 m st x)) = zlen x;
  (** decryption of the ciphertext gives the plaintext and the same state *)
  cfb_inv st x st' y :
    aes_crypt_cfb128 MBEDTLS_ENCRYPT st x = (st', y) →
    aes_crypt_cfb128 MBEDTLS_DECRYPT st y = (st', x);
  gcm_out_len m key iv aad x : zlen (gcm_out m key iv aad x) = zlen x;
  gcm_tag_len m key iv aad x : zlen (gcm_tag_of m key iv aad x) = 16;
  gcm_out_inv m key iv aad x : gcm_out (mode_flip m) key iv aad (gcm_out m key iv aad x) = x;
  gcm_tag_inv m key iv aad x :
    gcm_tag_of (mode_flip m) key iv aad (gcm_out m key iv aad x) = gcm_tag_of m key iv aad x;
}.

(** ** Cipher contexts *)

Inductive cipher_id := MINI_EVP_AES_128_CFB | MINI_EVP_AES_256_GCM.
#[export] Instance cipher_id_eq : EqDecision cipher_id.
Proof. solve_decision. Defined.

Section Evp.
Context `{Mbedtls}.

(** A started GCM message: mode, key, iv, and what has been fed. *)
Record gcm_msg := mkGcm {
  g_mode : mbed_mode; g_key : bytes; g_iv : bytes; g_aad : bytes; g_data : bytes;
}.

Record mini_evp_cipher_ctx := mkCtx {
  e_cipher_id : option cipher_id;
  e_direction : Z;
  e_finished : bool;
  e_cfb : cfb_st;
  e_gcm : option gcm_msg;
  e_gcm_tag : bytes;
  e_gcm_tag_set : bool;
  e_gcm_started : bool;
}.

Definition MINI_GCM_TAG_LEN : Z := 16.
Definition MINI_GCM_IV_LEN : Z := 12.

(** [calloc] and the two mbedtls initialisers. *)
Definition EVP_CIPHER_CTX_new : mini_evp_cipher_ctx :=
  mkCtx None 0 false cfb_zero None (replicate 16 0) false false.

(** Each function returns the OpenSSL status (0 failure, 1 success). *)
Definition evp_cfb_init (ctx : mini_evp_cipher_ctx) (direction : Z) (key iv : option bytes)
    : Z * mini_evp_cipher_ctx :=
  match key, iv with
  | Some k, Some i =>
      (1, mkCtx (e_cipher_id ctx) direction (e_finished ctx) (cfb_start k i) (e_gcm ctx)
            (e_gcm_tag ctx) (e_gcm_tag_set ctx) (e_gcm_started ctx))
  | _, _ => (0, ctx)
  end.

Definition evp_gcm_init (ctx : mini_evp_cipher_ctx) (direction : Z) (key iv : option bytes)
    : Z * mini_evp_cipher_ctx :=
  match key, iv with
  | Some k, Some i =>
      let mode := if direction =? 0 then MBEDTLS_ENCRYPT else MBEDTLS_DECRYPT in
      (1, mkCtx (e_cipher_id ctx) direction (e_finished ctx) (e_cfb ctx)
            (Some (mkGcm mode k (ztake MINI_GCM_IV_LEN i) [] []))
            (e_gcm_tag ctx) (e_gcm_tag_set ctx) true)
  | None, None => (1, ctx)
  | _, _ => (0, ctx)
  end.

Definition evp_init (ctx : mini_evp_cipher_ctx) (direction : Z) (cipher : option cipher_id)
    (key iv : option bytes) : Z * mini_evp_cipher_ctx :=
  let cont ctx :=
    match key, iv with
    | None, None => (1, ctx)
    | _, _ =>
        match e_cipher_id ctx with
        | Some MINI_EVP_AES_128_CFB => evp_cfb_init ctx direction key iv
        | Some MINI_EVP_AES_256_GCM => evp_gcm_init ctx direction key iv
        | None => (0, ctx)
        end
    end in
  match cipher with
  | Some c =>
      if bool_decide (e_cipher_id ctx ≠ None ∧ e_cipher_id ctx ≠ Some c) then (0, ctx)
      else cont (mkCtx (Some c) (e_direction ctx) false (e_cfb ctx) (e_gcm ctx)
                   (e_gcm_tag ctx) false false)
  | None => cont ctx
  end.

Definition EVP_EncryptInit_ex ctx cipher key iv := evp_init ctx 1 cipher key iv.
Definition EVP_DecryptInit_ex ctx cipher key iv := evp_init ctx 0 cipher key iv.

Definition set_cfb (ctx : mini_evp_cipher_ctx) (st : cfb_st) : mini_evp_cipher_ctx :=
  mkCtx (e_cipher_id ctx) (e_direction ctx) (e_finished ctx) st (e_gcm ctx) (e_gcm_tag ctx)
    (e_gcm_tag_set ctx) (e_gcm_started ctx).
Definition set_gcm (ctx : mini_evp_cipher_ctx) (g : gcm_msg) : mini_evp_cipher_ctx :=
  mkCtx (e_cipher_id ctx) (e_direction ctx) (e_finished ctx) (e_cfb ctx) (Some g) (e_gcm_tag ctx)
    (e_gcm_tag_set ctx) (e_gcm_started ctx).

(** The GCM branch of both update functions: [out = false] is the additional
    data call.  Only one data call per message is made by the program, so the
    output of the call is the output of the message. *)
Definition gcm_update (ctx : mini_evp_cipher_ctx) (out : bool) (inp : bytes)
    : Z * bytes * mini_evp_cipher_ctx :=
  if zlen inp =? 0 then (1, [], ctx)
  else match e_gcm ctx with
  | None => (0, [], ctx)
  | Some g =>
      if out then
        let d := g_data g ++ inp in
        (1, zdrop (zlen (g_data g)) (gcm_out (g_mode g) (g_key g) (g_iv g) (g_aad g) d),
         set_gcm ctx (mkGcm (g_mode g) (g_key g) (g_iv g) (g_aad g) d))
      else (1, [], set_gcm ctx (mkGcm (g_mode g) (g_key g) (g_iv g) (g_aad g ++ inp) (g_data g)))
  end.

Definition cfb_update (mode : mbed_mode) (ctx : mini_evp_cipher_ctx) (out : bool) (inp : bytes)
    : Z * bytes * mini_evp_cipher_ctx :=
  if negb out then (0, [], ctx)
  else if zlen inp =? 0 then (1, [], ctx)
  else let '(st, o) := aes_crypt_cfb128 mode (e_cfb ctx) inp in (1, o, set_cfb ctx st).

Definition EVP_EncryptUpdate (ctx : mini_evp_cipher_ctx) (out : bool) (inp : bytes)
    : Z * bytes * mini_evp_cipher_ctx :=
  match e_cipher_id ctx with
  | Some MINI_EVP_AES_128_CFB => cfb_update MBEDTLS_ENCRYPT ctx out inp
  | Some MINI_EVP_AES_256_GCM => gcm_update ctx out inp
  | None => (0, [], ctx)
  end.

Definition EVP_DecryptUpdate (ctx : mini_evp_cipher_ctx) (out : bool) (inp : bytes)
    : Z * bytes * mini_evp_cipher_ctx :=
  match e_cipher_id ctx with
  | Some MINI_EVP_AES_128_CFB => cfb_update MBEDTLS_DECRYPT ctx out inp
  | Some MINI_EVP_AES_256_GCM => EVP_EncryptUpdate ctx out inp
  | None => (0, [], ctx)
  end.

Definition set_finished (ctx : mini_evp_cipher_ctx) (tag : bytes) : mini_evp_cipher_ctx :=
  mkCtx (e_cipher_id ctx) (e_direction ctx) true (e_cfb ctx) (e_gcm ctx) tag
    (e_gcm_tag_set ctx) (e_gcm_started ctx).

(** [mbedtls_gcm_finish]. *)
Definition gcm_finish (ctx : mini_evp_cipher_ctx) : option bytes :=
  g ← e_gcm ctx; Some (gcm_tag_of (g_mode g) (g_key g) (g_iv g) (g_aad g) (g_data g)).

Definition EVP_EncryptFinal_ex (ctx : mini_evp_cipher_ctx) : Z * mini_evp_cipher_ctx :=
  if bool_decide (e_cipher_id ctx = Some MINI_EVP_AES_256_GCM) && negb (e_finished ctx) then
    match gcm_finish ctx with
    | None => (0, ctx)
    | Some tag => (1, set_finished ctx tag)
    end
  else (1, ctx).

Definition EVP_DecryptFinal_ex (ctx : mini_evp_cipher_ctx) : Z * mini_evp_cipher_ctx :=
  if bool_decide (e_cipher_id ctx = Some MINI_EVP_AES_256_GCM) && negb (e_finished ctx) then
    match gcm_finish ctx with
    | None => (0, ctx)
    | Some tag =>
        let ctx' := set_finished ctx (e_gcm_tag ctx) in
        if negb (e_gcm_tag_set ctx) || negb (bool_decide (tag = e_gcm_tag ctx))
        then (0, ctx') else (1, ctx')
    end
  else (1, ctx).

(** [EVP_CIPHER_CTX_ctrl], one definition per request of the switch. *)
Definition EVP_CTRL_GCM_SET_IVLEN (arg : Z) : Z := if arg =? MINI_GCM_IV_LEN then 1 else 0.
Definition EVP_CTRL_GCM_GET_TAG (ctx : mini_evp_cipher_ctx) (arg : Z) : option bytes :=
  if negb (arg =? MINI_GCM_TAG_LEN) || negb (e_finished ctx) then None else Some (e_gcm_tag ctx).
Definition EVP_CTRL_GCM_SET_TAG (ctx : mini_evp_cipher_ctx) (arg : Z) (tag : bytes)
    : Z * mini_evp_cipher_ctx :=
  if negb (arg =? MINI_GCM_TAG_LEN) then (0, ctx)
  else (1, mkCtx (e_cipher_id ctx) (e_direction ctx) (e_finished ctx) (e_cfb ctx) (e_gcm ctx)
             (ztake 16 tag) true (e_gcm_started ctx)).

(** ** One AEAD message ([aead_stream.c]) *)

(** [ctx_alloc] tells whether [EVP_CIPHER_CTX_new] gets its memory; [goto err]
    is [None]. *)
Definition gcm_seal (ctx_alloc : bool) (key nonce aad pt : bytes) : option bytes :=
  if negb ctx_alloc then None else
  let ctx := EVP_CIPHER_CTX_new in
  let '(r, ctx) := EVP_EncryptInit_ex ctx (Some MINI_EVP_AES_256_GCM) None None in
  if negb (r =? 1) then None else
  if negb (EVP_CTRL_GCM_SET_IVLEN 12 =? 1) then None else
  let '(r, ctx) := EVP_EncryptInit_ex ctx None (Some key) (Some nonce) in
  if negb (r =? 1) then None else
  let '(r, _, ctx) := if zlen aad =? 0 then (1, [], ctx) else EVP_EncryptUpdate ctx false aad in
  if negb (r =? 1) then None else
  let '(r, out, ctx) := EVP_EncryptUpdate ctx true pt in
  if negb (r =? 1) then None else
  let '(r, ctx) := EVP_EncryptFinal_ex ctx in
  if negb (r =? 1) then None else
  tag ← EVP_CTRL_GCM_GET_TAG ctx 16;
  Some (out ++ tag).

Definition gcm_open (ctx_alloc : bool) (key nonce aad ct : bytes) : option bytes :=
  if zlen ct <? 16 then None else
  if negb ctx_alloc then None else
  let ctx := EVP_CIPHER_CTX_new in
  let '(r, ctx) := EVP_DecryptInit_ex ctx (Some MINI_EVP_AES_256_GCM) None None in
  if negb (r =? 1) then None else
  if negb (EVP_CTRL_GCM_SET_IVLEN 12 =? 1) then None else
  let '(r, ctx) := EVP_DecryptInit_ex ctx None (Some key) (Some nonce) in
  if negb (r =? 1) then None else
  let '(r, _, ctx) := if zlen aad =? 0 then (1, [], ctx) else EVP_DecryptUpdate ctx false aad in
  if negb (r =? 1) then None else
  let '(r, out, ctx) := EVP_DecryptUpdate ctx true (ztake (zlen ct - 16) ct) in
  if negb (r =? 1) then None else
  let '(r, ctx) := EVP_CTRL_GCM_SET_TAG ctx 16 (zdrop (zlen ct - 16) ct) in
  if negb (r =? 1) then None else
  let '(r, ctx) := EVP_DecryptFinal_ex ctx in
  if negb (r =? 1) then None else Some out.

(** ** Closed forms *)

Lemma gcm_out_nil m key iv aad : gcm_out m key iv aad [] = [].
Proof. apply zlen_0_inv. by rewrite gcm_out_len. Qed.

Lemma gcm_seal_eq key nonce aad pt :
  gcm_seal true key nonce aad pt =
    Some (gcm_out MBEDTLS_DECRYPT key (ztake 12 nonce) aad pt
          ++ gcm_tag_of MBEDTLS_DECRYPT key (ztake 12 nonce) aad pt).
Proof.
  unfold gcm_seal, EVP_EncryptUpdate, EVP_EncryptFinal_ex. simpl.
  change MINI_GCM_IV_LEN with 12.
  destruct (zlen aad =? 0) eqn:Ea; b2p; [apply zlen_0_inv in Ea as ->|]; simpl;
    unfold gcm_update; simpl; rewrite ?(proj2 (Z.eqb_neq _ _) Ea); simpl;
    (destruct (zlen pt =? 0) eqn:Ep; b2p; [apply zlen_0_inv in Ep as ->|]; simpl;
     [by rewrite gcm_out_nil|by rewrite zdrop_nonpos by done]).
Qed.

Lemma gcm_open_eq key nonce aad ct tag :
  zlen tag = 16 →
  gcm_open true key nonce aad (ct ++ tag) =
    if bool_decide (gcm_tag_of MBEDTLS_ENCRYPT key (ztake 12 nonce) aad ct = tag)
    then Some (gcm_out MBEDTLS_ENCRYPT key (ztake 12 nonce) aad ct) else None.
Proof.
  intros Ht. unfold gcm_open, EVP_DecryptUpdate, EVP_EncryptUpdate, EVP_DecryptFinal_ex.
  rewrite (proj2 (Z.ltb_ge _ _)) by lens.
  rewrite ztake_app_exact, zdrop_app_exact by lens. simpl.
  change MINI_GCM_IV_LEN with 12.
  rewrite (ztake_ge 16 tag) by lia.
  destruct (zlen aad =? 0) eqn:Ea; b2p; [apply zlen_0_inv in Ea as ->|]; simpl;
    unfold gcm_update; simpl; rewrite ?(proj2 (Z.eqb_neq _ _) Ea); simpl;
    (destruct (zlen ct =? 0) eqn:Ep; b2p; [apply zlen_0_inv in Ep as ->|]; simpl;
     unfold gcm_finish; simpl;
     [rewrite gcm_out_nil|rewrite zdrop_nonpos by done];
     by destruct (bool_decide _)).
Qed.

End Evp.

(** ** A concrete provider

    A miniature of the two modes for evaluating the model: a byte-wise cipher
    feedback with the identity as block function, and a counter-mode cipher
    whose tag sums key, iv, additional data and ciphertext. *)
Module Toy.

Fixpoint cfb (m : mbed_mode) (st : Z) (x : bytes) : Z * bytes :=
  match x with
  | [] => (st, [])
  | b :: x =>
      let o := Z.lxor b st in
      let st' := match m with MBEDTLS_ENCRYPT => o | MBEDTLS_DECRYPT => b end in
      let '(st2, os) := cfb m st' x in (st2, o :: os)
  end.

Definition out (m : mbed_mode) (key iv aad x : bytes) : bytes := map (Z.lxor 0x5a) x.
Definition tag (m : mbed_mode) (key iv aad x : bytes) : bytes :=
  let ct := match m with MBEDTLS_ENCRYPT => out m key iv aad x | MBEDTLS_DECRYPT => x end in
  replicate 16 (u8 (foldr Z.add 0 (key ++ iv ++ aad ++ ct))).

Lemma lxor_twice a b : Z.lxor a (Z.lxor a b) = b.
Proof. by rewrite <- Z.lxor_assoc, Z.lxor_nilpotent, Z.lxor_0_l. Qed.

Lemma cfb_app m st x y :
  cfb m st (x ++ y) =
  let '(st1, a) := cfb m st x in let '(st2, b) := cfb m st1 y in (st2, a ++ b).
Proof.
  revert st. induction x as [|b x IH]; intros st; simpl.
  { by destruct (cfb m st y). }
  rewrite IH. destruct (cfb m _ x) as [st1 a]. by destruct (cfb m st1 y).
Qed.

Lemma cfb_nil m st : cfb m st [] = (st, []).
Proof. reflexivity. Qed.

Lemma cfb_len m st x : zlen (snd (cfb m st x)) = zlen x.
Proof.
  revert st. induction x as [|b x IH]; intros st; simpl; [done|].
  match goal with |- context [cfb m ?s x] => specialize (IH s); destruct (cfb m s x) end.
  simpl in *. rewrite !zlen_cons. lia.
Qed.

Lemma cfb_inv st x st' y :
  cfb MBEDTLS_ENCRYPT st x = (st', y) → cfb MBEDTLS_DECRYPT st y = (st', x).
Proof.
  revert st y. induction x as [|b x IH]; intros st y; simpl; [by intros [= <- <-]|].
  destruct (cfb MBEDTLS_ENCRYPT (Z.lxor b st) x) as [st2 os] eqn:E. intros [= <- <-].
  simpl. rewrite (IH _ _ E). do 2 f_equal.
  by rewrite Z.lxor_assoc, Z.lxor_nilpotent, Z.lxor_0_r.
Qed.

Lemma out_len m key iv aad x : zlen (out m key iv aad x) = zlen x.
Proof. unfold zlen, out. by rewrite length_map. Qed.

Lemma tag_len m key iv aad x : zlen (tag m key iv aad x) = 16.
Proof. reflexivity. Qed.

Lemma out_inv m key iv aad x : out (mode_flip m) key iv aad (out m key iv aad x) = x.
Proof.
  unfold out. rewrite map_map. transitivity (map id x); [|by rewrite map_id].
  apply map_ext. intros a. apply lxor_twice.
Qed.

Lemma tag_inv m key iv aad x :
  tag (mode_flip m) key iv aad (out m key iv aad x) = tag m key iv aad x.
Proof.
  unfold tag. destruct m; simpl; [done|].
  pose proof (out_inv MBEDTLS_DECRYPT key iv aad x) as E. simpl in E. by rewrite E.
Qed.

Definition mbedtls : Mbedtls := {|
  cfb_st := Z; cfb_zero := 0; cfb_start key iv := u8 (foldr Z.add 0 (key ++ iv));
  aes_crypt_cfb128 := cfb; gcm_out := out; gcm_tag_of := tag;
  Evp.cfb_app := cfb_app; Evp.cfb_nil := cfb_nil; Evp.cfb_len := cfb_len; Evp.cfb_inv := cfb_inv;
  gcm_out_len := out_len; gcm_tag_len := tag_len; gcm_out_inv := out_inv; gcm_tag_inv := tag_inv;
|}.
End Toy.

(** Every sealed message is produced with mbedtls in decryption mode, and
    opened in encryption mode: [evp_gcm_init] maps direction 1 (encrypt) to
    [MBEDTLS_DECRYPT].  The two ends of this program agree with each other,
    but the tag authenticates the plaintext, so the bytes differ from those of
    a standard AES-GCM peer: there is a provider satisfying every law for
    which the sealed bytes are not the standard encryption. *)
Lemma gcm_modes_swapped :
  (∀ `{Mbedtls} key nonce aad pt,
     gcm_seal true key nonce aad pt =
       Some (gcm_out MBEDTLS_DECRYPT key (ztake 12 nonce) aad pt
             ++ gcm_tag_of MBEDTLS_DECRYPT key (ztake 12 nonce) aad pt)) ∧
  (∃ (M : Mbedtls) key nonce aad pt, zlen key = 32 ∧ zlen nonce = 12 ∧
     gcm_seal true key nonce aad pt ≠
       Some (gcm_out MBEDTLS_ENCRYPT key (ztake 12 nonce) aad pt
             ++ gcm_tag_of MBEDTLS_ENCRYPT key (ztake 12 nonce) aad pt)).
Proof.
  split; [intros; apply gcm_seal_eq|].
  exists Toy.mbedtls, (replicate 32 7), (replicate 12 3), [1], [1; 2; 3].
  split_and!; [done|done|]. vm_compute. discriminate.
Qed.
