(* ===== verification/Aead.v ===== *)
(** * Framed AEAD stream

    Models [src/src/aead_stream.c]: the nonce counter, HKDF key derivation for
    wire protocol v2, the sealing writer and the streaming reader.  AES-256-GCM
    and HMAC-SHA256 come from mbedtls and are an interface with the laws of
    such a cipher ([GcmProvider]); [malloc] is the parameter [alloc]. *)

From S2P Require Import Prelude Growth Evp.

Definition AEAD_KEY_SIZE : Z := 32.
Definition AEAD_GCM_NONCE_SIZE : Z := 12.
Definition AEAD_GCM_TAG_SIZE : Z := 16.
Definition AEAD_MAX_PAYLOAD : Z := 65536.

(** ** What one AEAD message promises

    [seal_msg] and [open_msg] are the static helpers [gcm_seal] and [gcm_open]
    ([None] is their -1).  The stream's theorems are proved against this
    interface; [Evp] provides it. *)
Class GcmProvider := {
  seal_msg : bytes → bytes → bytes → bytes → option bytes;
  open_msg : bytes → bytes → bytes → bytes → option bytes;
  seal_msg_size key nonce aad pt ct :
    seal_msg key nonce aad pt = Some ct → zlen ct = zlen pt + 16;
  open_seal_msg key nonce aad pt ct :
    seal_msg key nonce aad pt = Some ct → open_msg key nonce aad ct = Some pt;
  open_msg_size key nonce aad ct pt :
    open_msg key nonce aad ct = Some pt → zlen ct = zlen pt + 16;
}.

(** ** Nonce counter *)

(** The loop of [increment_nonce] runs from the last byte to the first. *)
Fixpoint increment_rev (l : bytes) : bytes * Z :=
  match l with
  | [] => ([], 0)
  | b :: l =>
      let b' := u8 (b + 1) in
      if b' =? 0 then let '(l', r) := increment_rev l in (b' :: l', r)
      else (b' :: l, 1)
  end.

Definition increment_nonce (nonce : bytes) : bytes * Z :=
  let '(l, r) := increment_rev (reverse nonce) in (reverse l, r).

(** ** Key derivation *)

Section Hkdf.
Context (hmac_sha256 : bytes → bytes → option bytes).

(** [salt] is [None] for a null pointer. *)
Definition hkdf_sha256_32 (ikm : bytes) (salt : option bytes) (info : bytes) : option bytes :=
  let salt' := match salt with
               | Some s => if zlen s =? 0 then replicate 32 0 else s
               | None => replicate 32 0
               end in
  prk ← hmac_sha256 salt' ikm;
  hmac_sha256 prk (info ++ [0x01]).

Definition info_c2s (algorithm : string) : bytes :=
  str_bytes ("frp wire v2 control aead " +:+ algorithm +:+ " client-to-server").
Definition info_s2c (algorithm : string) : bytes :=
  str_bytes ("frp wire v2 control aead " +:+ algorithm +:+ " server-to-client").

Definition derive_v2_control_keys (token transcript : bytes) (algorithm : string)
    : option (bytes * bytes) :=
  c2s ← hkdf_sha256_32 token (Some transcript) (info_c2s algorithm);
  s2c ← hkdf_sha256_32 token (Some transcript) (info_s2c algorithm);
  Some (c2s, s2c).
End Hkdf.

(** ** State *)

Record aead_writer := mkWriter {
  w_key : bytes;
  w_stream_nonce : bytes;
  w_nonce : bytes;
  w_header_sent : bool;
  w_frame_count : Z;
}.

(** A growing byte buffer: the live bytes and the capacity. *)
Record membuf := mkBuf { buf_data : bytes; buf_cap : Z }.

Record aead_reader := mkReader {
  r_key : bytes;
  r_stream_nonce : bytes;
  r_nonce : bytes;
  r_header_read : bool;
  r_frame_count : Z;
  r_ct : membuf;
  r_pt : membuf;
}.

Section Stream.
Context `{GcmProvider} (alloc : Z → bool).

(** [rand] is what [RAND_bytes] delivers ([None] when it fails). *)
Definition aead_writer_init (key : bytes) (rand : option bytes) : option aead_writer :=
  nonce ← rand; Some (mkWriter key nonce nonce false 0).

Definition aead_writer_seal (w : aead_writer) (pt : bytes) : option bytes * aead_writer :=
  if (zlen pt =? 0) || (AEAD_MAX_PAYLOAD <? zlen pt) then (None, w)
  else
    let prefix := if w_header_sent w then [] else w_nonce w in
    let header := be32_put (u32 (zlen pt + AEAD_GCM_TAG_SIZE)) in
    let aad := w_stream_nonce w ++ header in
    if negb (alloc (zlen pt + AEAD_GCM_TAG_SIZE)) then (None, w)
    else match seal_msg (w_key w) (w_nonce w) aad pt with
    | None => (None, w)
    | Some ct =>
        if negb (alloc (zlen prefix + 4 + zlen ct)) then (None, w)
        else
          let buf := prefix ++ header ++ ct in
          let '(nonce', r) := increment_nonce (w_nonce w) in
          if r =? 0
          then (None, mkWriter (w_key w) (w_stream_nonce w) nonce' true (w_frame_count w))
          else (Some buf,
                mkWriter (w_key w) (w_stream_nonce w) nonce' true (u64 (w_frame_count w + 1)))
    end.

Definition aead_reader_init (key : bytes) : aead_reader :=
  mkReader key (replicate 12 0) (replicate 12 0) false 0 (mkBuf [] 0) (mkBuf [] 0).

(** [None]: the doubling loop does not stop; the flag is [0] or [-1]. *)
Definition buf_append (b : membuf) (p : bytes) : option (Z * membuf) :=
  let n := u32 (zlen (buf_data b) + zlen p) in
  if buf_cap b <? n then
    let capn := if buf_cap b =? 0 then 4096 else u32 (buf_cap b * 2) in
    capn ← grow grow_fuel capn n;
    if alloc capn then Some (0, mkBuf (buf_data b ++ p) capn) else Some (-1, b)
  else Some (0, mkBuf (buf_data b ++ p) (buf_cap b)).

Definition set_ct (r : aead_reader) (b : membuf) : aead_reader :=
  mkReader (r_key r) (r_stream_nonce r) (r_nonce r) (r_header_read r) (r_frame_count r) b (r_pt r).

(** [memmove] of the unread ciphertext to the front. *)
Definition ct_consume (b : membuf) (n : Z) : membuf := mkBuf (zdrop n (buf_data b)) (buf_cap b).

(** First part of the loop body: read the stream nonce. *)
Definition feed_header (r : aead_reader) : option aead_reader :=
  if r_header_read r then Some r
  else if zlen (buf_data (r_ct r)) <? AEAD_GCM_NONCE_SIZE then None
  else
    let nonce := ztake AEAD_GCM_NONCE_SIZE (buf_data (r_ct r)) in
    Some (mkReader (r_key r) nonce nonce true (r_frame_count r)
            (ct_consume (r_ct r) AEAD_GCM_NONCE_SIZE) (r_pt r)).

Inductive feed_step_result :=
| FeedStop (rc : Z) (r : aead_reader)   (** [return rc] *)
| FeedNext (r : aead_reader)            (** next round of [for (;;)] *)
| FeedDiverge.

Definition feed_step (r0 : aead_reader) : feed_step_result :=
  match feed_header r0 with
  | None => FeedStop 0 r0
  | Some r =>
      match buf_data (r_ct r) with
      | b0 :: b1 :: b2 :: b3 :: rest =>
          let clen := be32_get b0 b1 b2 b3 in
          if (clen <? AEAD_GCM_TAG_SIZE) || (AEAD_MAX_PAYLOAD + AEAD_GCM_TAG_SIZE <? clen)
          then FeedStop (-1) r
          else if zlen (buf_data (r_ct r)) <? 4 + clen then FeedStop 0 r
          else
            let aad := r_stream_nonce r ++ [b0; b1; b2; b3] in
            if negb (alloc clen) then FeedStop (-1) r
            else match open_msg (r_key r) (r_nonce r) aad (ztake clen rest) with
            | None => FeedStop (-1) r
            | Some pt =>
                let ct' := ct_consume (r_ct r) (4 + clen) in
                match buf_append (r_pt r) pt with
                | None => FeedDiverge
                | Some (rc, ptb) =>
                    if rc <? 0 then FeedStop (-1) (set_ct r ct')
                    else
                      let '(nonce', ok) := increment_nonce (r_nonce r) in
                      let r' fc := mkReader (r_key r) (r_stream_nonce r) nonce' true fc ct' ptb in
                      if ok =? 0 then FeedStop (-1) (r' (r_frame_count r))
                      else FeedNext (r' (u64 (r_frame_count r + 1)))
                end
            end
      | _ => FeedStop 0 r
      end
  end.

Fixpoint feed_loop (fuel : nat) (r : aead_reader) : option (Z * aead_reader) :=
  match fuel with
  | O => None
  | S fuel =>
      match feed_step r with
      | FeedStop rc r' => Some (rc, r')
      | FeedNext r' => feed_loop fuel r'
      | FeedDiverge => None
      end
  end.

(** Every round that continues consumes at least one byte of ciphertext. *)
Definition feed_fuel (r : aead_reader) : nat := S (length (buf_data (r_ct r))).

Definition aead_reader_feed (r : aead_reader) (ct : bytes) : option (Z * aead_reader) :=
  '(rc, b) ← (if zlen ct =? 0 then Some (0, r_ct r) else buf_append (r_ct r) ct);
  if rc <? 0 then Some (-1, r)
  else let r' := set_ct r b in feed_loop (feed_fuel r') r'.

End Stream.

(** ** Nonces count *)

Fixpoint le_val (l : bytes) : Z :=
  match l with [] => 0 | b :: l => b + 256 * le_val l end.
Definition be_val (l : bytes) : Z := le_val (reverse l).

Lemma le_val_range l : bytes_ok l → 0 ≤ le_val l < 256 ^ zlen l.
Proof.
  induction l as [|b l IH]; intros Hok; simpl; [done|].
  inversion Hok as [|? ? Hb Hl]; subst. specialize (IH Hl). rewrite zlen_cons.
  pose proof (zlen_nonneg l). rewrite Z.pow_add_r by lia. unfold byte_ok in Hb.
  change (256 ^ 1) with 256. nia.
Qed.

Lemma increment_rev_spec l :
  bytes_ok l →
  let '(l', r) := increment_rev l in
  bytes_ok l' ∧ zlen l' = zlen l ∧
  ((r = 1 ∧ le_val l' = le_val l + 1) ∨ (r = 0 ∧ le_val l + 1 = 256 ^ zlen l)).
Proof.
  induction l as [|b l IH]; intros Hok; simpl.
  { split_and!; [done|done|]. right. done. }
  inversion Hok as [|? ? Hb Hl]; subst. specialize (IH Hl).
  assert (u8 (b + 1) = if b =? 255 then 0 else b + 1) as ->.
  { unfold byte_ok in Hb. case_if; [subst; done|]. words. rewrite Z.mod_small; lia. }
  destruct (b =? 255) eqn:E; b2p.
  - subst b. simpl. destruct (increment_rev l) as [l' r]. destruct IH as (H1 & H2 & H3).
    rewrite !zlen_cons. split_and!; [constructor; [done|done]|lia|].
    pose proof (zlen_nonneg l). rewrite Z.pow_add_r by lia. change (256 ^ 1) with 256.
    simpl. destruct H3 as [[-> H3]|[-> H3]]; [left|right]; split; try done; lia.
  - assert ((b + 1 =? 0) = false) as -> by (apply Z.eqb_neq; unfold byte_ok in *; lia).
    rewrite !zlen_cons. split_and!.
    + constructor; [unfold byte_ok in *; lia|done].
    + lia.
    + left. simpl. lia.
Qed.

Lemma bytes_ok_reverse l : bytes_ok (reverse l) ↔ bytes_ok l.
Proof. unfold bytes_ok. apply Forall_reverse. Qed.

Lemma zlen_reverse {A} (l : list A) : zlen (reverse l) = zlen l.
Proof. unfold zlen. by rewrite length_reverse. Qed.

Lemma increment_nonce_spec nonce nonce' r :
  bytes_ok nonce → increment_nonce nonce = (nonce', r) →
  bytes_ok nonce' ∧ zlen nonce' = zlen nonce ∧
  ((r = 1 ∧ be_val nonce' = be_val nonce + 1) ∨ (r = 0 ∧ be_val nonce + 1 = 256 ^ zlen nonce)).
Proof.
  intros Hok. unfold increment_nonce, be_val.
  pose proof (increment_rev_spec (reverse nonce)) as Hs.
  rewrite bytes_ok_reverse in Hs. specialize (Hs Hok).
  destruct (increment_rev (reverse nonce)) as [l r']. intros [= <- <-].
  rewrite bytes_ok_reverse, !zlen_reverse, reverse_involutive in *. done.
Qed.

Lemma increment_rev_flag l l' r : increment_rev l = (l', r) → r = 0 ∨ r = 1.
Proof.
  revert l' r. induction l as [|b l IH]; simpl; intros l' r Hi; [naive_solver|].
  case_if_in Hi; [|naive_solver].
  destruct (increment_rev l) as [k r']. injection Hi as _ <-. eauto.
Qed.

Lemma increment_nonce_flag n n' r : increment_nonce n = (n', r) → r = 0 ∨ r = 1.
Proof.
  unfold increment_nonce. destruct (increment_rev _) as [l r'] eqn:E.
  intros [= _ <-]. by eapply increment_rev_flag.
Qed.

(** ** Runs of the writer and of the reader *)

Section Runs.
Context `{GcmProvider} (alloc : Z → bool).

(** Successive successful seals: the bytes of the frames. *)
Fixpoint seal_all (w : aead_writer) (pts : list bytes)
    : option (list bytes * aead_writer) :=
  match pts with
  | [] => Some ([], w)
  | pt :: pts =>
      match aead_writer_seal alloc w pt with
      | (Some out, w') =>
          '(outs, w'') ← seal_all w' pts; Some (out :: outs, w'')
      | (None, _) => None
      end
  end.

(** Feeding chunk after chunk; every call must return 0. *)
Fixpoint feed_all (r : aead_reader) (chunks : list bytes) : option aead_reader :=
  match chunks with
  | [] => Some r
  | c :: chunks =>
      match aead_reader_feed alloc r c with
      | Some (0, r') => feed_all r' chunks
      | _ => None
      end
  end.

(** The shape of a successful seal. *)
Lemma seal_inv w pt out w' :
  aead_writer_seal alloc w pt = (Some out, w') →
  0 < zlen pt ≤ AEAD_MAX_PAYLOAD ∧
  ∃ ct nonce',
    seal_msg (w_key w) (w_nonce w) (w_stream_nonce w ++ be32_put (zlen pt + 16)) pt = Some ct ∧
    zlen ct = zlen pt + 16 ∧
    increment_nonce (w_nonce w) = (nonce', 1) ∧
    out = (if w_header_sent w then [] else w_nonce w) ++ be32_put (zlen pt + 16) ++ ct ∧
    w' = mkWriter (w_key w) (w_stream_nonce w) nonce' true (u64 (w_frame_count w + 1)).
Proof.
  unfold aead_writer_seal, AEAD_GCM_TAG_SIZE, AEAD_MAX_PAYLOAD.
  pose proof (zlen_nonneg pt). case_if; [done|].
  rewrite u32_small by lia. case_if; [done|].
  destruct (seal_msg _ _ _ _) as [ct|] eqn:E; simpl; [|done].
  pose proof (seal_msg_size _ _ _ _ _ E) as Hct.
  case_if; [done|].
  destruct (increment_nonce (w_nonce w)) as [nonce' r] eqn:En.
  case_if; [done|]. intros [= <- <-]. split; [lia|].
  destruct (increment_nonce_flag _ _ _ En) as [->| ->]; [done|].
  exists ct, nonce'. split_and!; auto.
Qed.

(** [out] is the frame of [pt], sealed by the cipher under [nonce]; the first
    frame of a writer has its nonce in front. *)
Definition sealed_under (key stream_nonce nonce pt out : bytes) : Prop :=
  ∃ prefix ct, seal_msg key nonce (stream_nonce ++ be32_put (zlen pt + 16)) pt = Some ct ∧
    out = prefix ++ be32_put (zlen pt + 16) ++ ct ∧ (prefix = [] ∨ prefix = nonce).

Lemma seal_all_nonces w pts outs w' :
  bytes_ok (w_nonce w) → seal_all w pts = Some (outs, w') →
  ∃ nonces, NoDup (map be_val nonces) ∧ Forall (λ n, be_val (w_nonce w) ≤ be_val n) nonces ∧
    Forall3 (sealed_under (w_key w) (w_stream_nonce w)) nonces pts outs.
Proof.
  revert w outs. induction pts as [|pt pts IH]; intros w outs Hok Hs; simpl in Hs.
  { injection Hs as <- <-. exists []. split_and!; constructor. }
  destruct (aead_writer_seal alloc w pt) as [[out|] w1] eqn:E; [|done].
  apply seal_inv in E as (_ & ct & nonce' & Hct & _ & Hn & Hout & ->).
  destruct (seal_all _ pts) as [[outs' w2]|] eqn:E2; [|done]. injection Hs as <- <-.
  apply increment_nonce_spec in Hn as (Hok' & _ & [[_ Hv]|[? _]]); [|done..].
  apply IH in E2 as (ns & Hnd & Hge & H3); [|done]. simpl in Hge, H3. exists (w_nonce w :: ns). split_and!.
  - simpl. constructor; [|done]. intros Hin. apply list_elem_of_fmap in Hin as (o & Ho & Hin).
    rewrite Forall_forall in Hge. specialize (Hge o Hin). simpl in Ho. lia.
  - constructor; [lia|]. eapply Forall_impl; [done|]. intros o Ho; simpl in *. lia.
  - constructor; [|done]. eexists _, ct. split; [exact Hct|]. split; [exact Hout|]. destruct (w_header_sent w); auto.
Qed.

End Runs.

(** C28: a writer never seals two frames under the same nonce: over any run
    of successful [aead_writer_seal] calls every frame is what the cipher makes
    of its plaintext under some nonce, and these nonces are pairwise distinct
    (the call that would wrap the counter fails). *)
Theorem aead_writer_nonces_unique `{GcmProvider} (alloc : Z → bool) (w : aead_writer)
    (pts outs : list bytes) (w' : aead_writer)
    (Hok : bytes_ok (w_nonce w)) (Hrun : seal_all alloc w pts = Some (outs, w')) :
  ∃ nonces, NoDup nonces ∧ Forall3 (sealed_under (w_key w) (w_stream_nonce w)) nonces pts outs.
Proof.
  apply seal_all_nonces in Hrun as (ns & Hnd & _ & H3); [|done].
  change (map be_val ns) with (be_val <$> ns) in Hnd. apply NoDup_fmap_1 in Hnd. by exists ns.
Qed.

(** ** The reader decodes what the writer sent *)

Section RoundTrip.
Context `{GcmProvider} (alloc : Z → bool) (Halloc : ∀ n, alloc n = true).

(** Reader and writer at the same point of the stream, the nonce prefix aside. *)
Definition in_step (r : aead_reader) (w : aead_writer) : Prop :=
  r_key r = w_key w ∧ r_header_read r = true ∧ w_header_sent w = true ∧
  r_stream_nonce r = w_stream_nonce w ∧ r_nonce r = w_nonce w.

Definition outs_bytes (outs : list bytes) : bytes := concat outs.

Definition room (b : membuf) (n : Z) : Prop := zlen (buf_data b) + n ≤ 2 ^ 31 ∧ 0 ≤ buf_cap b.

Lemma buf_append_ok b p :
  room b (zlen p) →
  ∃ c, buf_append alloc b p = Some (0, mkBuf (buf_data b ++ p) c) ∧ 0 ≤ c.
Proof.
  intros [Hr Hcap]. unfold buf_append. pose proof (zlen_nonneg (buf_data b)).
  pose proof (zlen_nonneg p). rewrite u32_small by lia. case_if; [|eauto].
  set (c0 := if buf_cap b =? 0 then 4096 else u32 (buf_cap b * 2)).
  assert (0 < c0). { unfold c0. case_if; [lia|]. rewrite u32_small; lia. }
  destruct (grow_enough c0 (zlen (buf_data b) + zlen p)) as (n & -> & ? & ?); [done|lia|].
  simpl. rewrite Halloc. exists n. split; [done|lia].
Qed.

(** One frame at the front of the ciphertext is decoded in one round. *)
Lemma feed_step_frame r w pt out w' rest :
  in_step r w → aead_writer_seal alloc w pt = (Some out, w') →
  buf_data (r_ct r) = out ++ rest → room (r_pt r) (zlen pt) →
  ∃ r', feed_step alloc r = FeedNext r' ∧ in_step r' w' ∧
    buf_data (r_ct r') = rest ∧ buf_cap (r_ct r') = buf_cap (r_ct r) ∧
    buf_data (r_pt r') = buf_data (r_pt r) ++ pt ∧ 0 ≤ buf_cap (r_pt r').
Proof.
  intros (Hk & Hh & Hs & Hsn & Hn) Hseal Hbuf Hroom.
  apply seal_inv in Hseal as (Hpt & ct & nonce' & He & Hct & Hinc & -> & ->).
  rewrite Hs in Hbuf. simpl in Hbuf.
  unfold feed_step, feed_header. rewrite Hh, Hbuf. cbn [be32_put app].
  unfold be32_put in *. rewrite be32_get_put.
  unfold AEAD_MAX_PAYLOAD, AEAD_GCM_TAG_SIZE in *.
  rewrite u32_small by lia.
  rewrite (proj2 (Z.ltb_ge _ _)) by lia. rewrite (proj2 (Z.ltb_ge (65536 + 16) _)) by lia.
  simpl orb. cbv iota. rewrite (proj2 (Z.ltb_ge _ _)) by lens.
  rewrite Halloc. simpl negb. cbv iota.
  rewrite ztake_app_exact by lens.
  rewrite Hk, Hn, Hsn. unfold be32_put in He.
  erewrite open_seal_msg by exact He.
  destruct (buf_append_ok (r_pt r) pt) as (c & -> & Hc); [done|]. simpl Z.ltb. cbv iota.
  rewrite Hinc. simpl Z.eqb. cbv iota. eexists. split; [done|].
  unfold in_step, ct_consume; simpl. rewrite Hbuf. split_and!; auto.
  change (u8 ?a :: u8 ?b :: u8 ?c :: u8 ?d :: ?l) with ([u8 a; u8 b; u8 c; u8 d] ++ l).
  rewrite app_assoc. apply zdrop_app_exact. lens.
Qed.

(** With less than a whole frame the reader waits. *)
Lemma feed_step_partial r w pt out w' future :
  in_step r w → aead_writer_seal alloc w pt = (Some out, w') →
  buf_data (r_ct r) ++ future = out → 0 < zlen future →
  feed_step alloc r = FeedStop 0 r.
Proof.
  intros (Hk & Hh & Hs & Hsn & Hn) Hseal Hbuf Hf.
  apply seal_inv in Hseal as (Hpt & ct & nonce' & He & Hct & Hinc & -> & ->).
  rewrite Hs in Hbuf. simpl in Hbuf. unfold feed_step, feed_header. rewrite Hh.
  destruct (buf_data (r_ct r)) as [|b0 [|b1 [|b2 [|b3 l]]]] eqn:E; try done.
  unfold be32_put in Hbuf. injection Hbuf as -> -> -> -> Hl.
  rewrite be32_get_put. unfold AEAD_MAX_PAYLOAD, AEAD_GCM_TAG_SIZE in *.
  rewrite u32_small by lia.
  rewrite (proj2 (Z.ltb_ge _ _)) by lia. rewrite (proj2 (Z.ltb_ge (65536 + 16) _)) by lia.
  simpl orb. cbv iota. apply (f_equal zlen) in Hl. rewrite !zlen_app in Hl.
  rewrite (proj2 (Z.ltb_lt _ _)); [done|]. lens.
Qed.

Lemma seal_out_pos w pt out w' :
  aead_writer_seal alloc w pt = (Some out, w') → zlen pt < zlen out.
Proof.
  intros Hs. apply seal_inv in Hs as (? & ct & n & _ & ? & _ & -> & _).
  destruct (w_header_sent w); lens.
Qed.

(** The loop on a reader that has read the stream nonce. *)
Lemma feed_loop_spec pts w outs w' r future fuel :
  seal_all alloc w pts = Some (outs, w') → in_step r w →
  buf_data (r_ct r) ++ future = outs_bytes outs →
  (length (buf_data (r_ct r)) < fuel)%nat →
  room (r_pt r) (zlen (outs_bytes outs)) →
  ∃ pts1 pts2 outs2 w1 r',
    pts = pts1 ++ pts2 ∧ seal_all alloc w1 pts2 = Some (outs2, w') ∧
    feed_loop alloc fuel r = Some (0, r') ∧ in_step r' w1 ∧
    buf_data (r_pt r') = buf_data (r_pt r) ++ concat pts1 ∧ 0 ≤ buf_cap (r_pt r') ∧
    buf_data (r_ct r') ++ future = outs_bytes outs2 ∧ buf_cap (r_ct r') = buf_cap (r_ct r) ∧
    zlen (buf_data (r_pt r')) + zlen (outs_bytes outs2) ≤ zlen (buf_data (r_pt r)) + zlen (outs_bytes outs) ∧
    (future = [] → pts2 = []).
Proof.
  revert w outs r fuel. induction pts as [|pt pts IH]; intros w outs r fuel Hs Hin Hb Hf Hroom;
    simpl in Hs.
  { injection Hs as <- <-. unfold outs_bytes in *; simpl in *. apply app_nil in Hb as [Hb ->].
    destruct fuel as [|fuel]; [lia|].
    exists [], [], [], w, r. destruct Hin as (?&Hh&?&?&?). destruct Hroom. simpl.
    unfold feed_step, feed_header. rewrite Hh, Hb. split_and!; auto.
    - by unfold in_step.
    - by rewrite app_nil_r.
    - lia. }
  destruct (aead_writer_seal alloc w pt) as [[out|] w1] eqn:E; [|done].
  destruct (seal_all alloc w1 pts) as [[outs' w2]|] eqn:E2; [|done]. injection Hs as <- <-.
  unfold outs_bytes in Hb; simpl in Hb. fold (outs_bytes outs') in Hb.
  pose proof (seal_out_pos _ _ _ _ E) as Hpos.
  assert (zlen (outs_bytes (out :: outs')) = zlen out + zlen (outs_bytes outs')) as Hlen.
  { unfold outs_bytes; simpl. by rewrite zlen_app. }
  rewrite Hlen in *. destruct Hroom as [Hroom Hcap].
  pose proof (zlen_nonneg (outs_bytes outs')). pose proof (zlen_nonneg pt).
  destruct fuel as [|fuel]; [lia|].
  destruct (decide (zlen out ≤ zlen (buf_data (r_ct r)))) as [Hle|Hgt].
  - symmetry in Hb. apply app_eq_app_le in Hb as (rest & Hrest & Hb); [|done].
    destruct (feed_step_frame r w pt out w1 rest) as (r1 & Hst & Hin1 & Hc1 & Hcc & Hp1 & Hcap1);
      [done..|split; lia|].
    assert (length rest < length (buf_data (r_ct r)))%nat.
    { rewrite Hrest, length_app. unfold zlen in Hpos. lia. }
    destruct (IH w1 outs' r1 fuel) as (p1 & p2 & o2 & wa & r' & -> & Hs2 & Hl & Hi & Hp & Hcp & Hbb & Hct & Hsz & Hfin);
      [done|done|by rewrite Hc1|rewrite Hc1; lia| |].
    { split; [|done]. rewrite Hp1, zlen_app. lia. }
    exists (pt :: p1), p2, o2, wa, r'. cbn [feed_loop]. rewrite Hst.
    split_and!; auto.
    + rewrite Hp, Hp1. simpl. by rewrite app_assoc.
    + by rewrite Hct.
    + rewrite Hp1, zlen_app in Hsz. lia.
  - assert (∃ f0, out = buf_data (r_ct r) ++ f0 ∧ 0 < zlen f0 ∧ future = f0 ++ outs_bytes outs')
      as (f0 & Ho & Hf0 & Hfut).
    { apply app_eq_app_le in Hb as (f0 & -> & ->); [|lia]. exists f0. split_and!; auto.
      rewrite zlen_app in Hgt. lia. }
    exists [], (pt :: pts), (out :: outs'), w, r. cbn [feed_loop].
    rewrite (feed_step_partial r w pt out w1 f0) by done.
    split_and!; auto.
    + simpl. rewrite E, E2. done.
    + by rewrite app_nil_r.
    + rewrite Hlen. lia.
    + intros ->. destruct f0; [|done]. done.
Qed.

(** Before the stream nonce has arrived. *)
Definition fresh (r : aead_reader) (w : aead_writer) : Prop :=
  r_key r = w_key w ∧ r_header_read r = false ∧ w_header_sent w = false ∧
  w_stream_nonce w = w_nonce w ∧ zlen (w_nonce w) = 12.

Definition tracks (r : aead_reader) (w : aead_writer) : Prop := in_step r w ∨ fresh r w.

Definition sent (w : aead_writer) : aead_writer :=
  mkWriter (w_key w) (w_stream_nonce w) (w_nonce w) true (w_frame_count w).

(** The first frame is the stream nonce and the frame a later call would send. *)
Lemma seal_header w pt out w' :
  w_header_sent w = false → aead_writer_seal alloc w pt = (Some out, w') →
  ∃ out', out = w_nonce w ++ out' ∧ aead_writer_seal alloc (sent w) pt = (Some out', w').
Proof.
  intros Hh. unfold aead_writer_seal, sent; simpl. rewrite Hh. case_if; [done|].
  rewrite !Halloc. simpl. destruct (seal_msg _ _ _ _) as [ct|]; [|done]. rewrite !Halloc. simpl.
  destruct (increment_nonce (w_nonce w)) as [n' k]. case_if; [done|].
  intros [= <- <-]. eauto.
Qed.

Lemma seal_all_header w pt pts outs w' :
  w_header_sent w = false → seal_all alloc w (pt :: pts) = Some (outs, w') →
  ∃ outs', outs_bytes outs = w_nonce w ++ outs_bytes outs' ∧
    seal_all alloc (sent w) (pt :: pts) = Some (outs', w').
Proof.
  intros Hh Hs. simpl in *.
  destruct (aead_writer_seal alloc w pt) as [[out|] w1] eqn:E; [|done].
  destruct (seal_all alloc w1 pts) as [[os w2]|] eqn:E2; [|done]. injection Hs as <- <-.
  apply seal_header in E as (out' & -> & ->); [|done]. rewrite E2. simpl.
  eexists. split; [|done]. unfold outs_bytes; simpl. by rewrite <- app_assoc.
Qed.

Lemma feed_header_loop r r1 fuel :
  feed_header r = Some r1 → feed_loop alloc fuel r = feed_loop alloc fuel r1.
Proof.
  intros Hh. destruct fuel as [|fuel]; [done|]. simpl. unfold feed_step. rewrite Hh.
  assert (feed_header r1 = Some r1) as ->; [|done].
  revert Hh. unfold feed_header. case_if; [by intros [= <-]; rewrite Hc|].
  case_if; [done|]. by intros [= <-].
Qed.

(** What one successful [aead_reader_feed] of the sender's bytes achieves. *)
Definition feed_progress (r : aead_reader) (pts : list bytes) (outs : list bytes)
    (w' : aead_writer) (future : bytes) (res : option (Z * aead_reader)) : Prop :=
  ∃ pts1 pts2 outs2 w1 r',
    pts = pts1 ++ pts2 ∧ seal_all alloc w1 pts2 = Some (outs2, w') ∧
    res = Some (0, r') ∧ tracks r' w1 ∧
    buf_data (r_pt r') = buf_data (r_pt r) ++ concat pts1 ∧ 0 ≤ buf_cap (r_pt r') ∧
    buf_data (r_ct r') ++ future = outs_bytes outs2 ∧ 0 ≤ buf_cap (r_ct r') ∧
    zlen (buf_data (r_pt r')) + zlen (outs_bytes outs2)
      ≤ zlen (buf_data (r_pt r)) + zlen (outs_bytes outs) ∧
    (future = [] → pts2 = []).

Lemma feed_loop_tracks pts w outs w' r future fuel :
  seal_all alloc w pts = Some (outs, w') → tracks r w →
  buf_data (r_ct r) ++ future = outs_bytes outs →
  (length (buf_data (r_ct r)) < fuel)%nat →
  room (r_pt r) (zlen (outs_bytes outs)) → 0 ≤ buf_cap (r_ct r) →
  feed_progress r pts outs w' future (feed_loop alloc fuel r).
Proof.
  intros Hs [Hin|Hfr] Hb Hf Hroom Hcap.
  { destruct (feed_loop_spec pts w outs w' r future fuel)
      as (p1 & p2 & o2 & w1 & r' & ? & ? & ? & ? & ? & ? & ? & Hc & ? & ?); [done..|].
    exists p1, p2, o2, w1, r'. split_and!; try done; [by left|by rewrite Hc]. }
  pose proof Hfr as (Hk & Hh & Hws & Hsn & Hn).
  destruct (decide (zlen (buf_data (r_ct r)) < 12)) as [Hlt|Hge].
  - exists [], pts, outs, w, r. destruct Hroom. split_and!; try done; [|by right|by rewrite app_nil_r|].
    + destruct fuel; [lia|]. simpl. unfold feed_step, feed_header. rewrite Hh.
      rewrite (proj2 (Z.ltb_lt _ _)); [done|]. done.
    + intros ->. rewrite app_nil_r in Hb. destruct pts as [|pt pts]; [done|].
      apply seal_all_header in Hs as (o & Ho & _); [|done]. rewrite Ho in Hb.
      rewrite Hb, zlen_app in Hlt. lens.
  - destruct pts as [|pt pts].
    { simpl in Hs. injection Hs as <- <-. unfold outs_bytes in Hb; simpl in Hb.
      apply app_nil in Hb as [Hb _]. rewrite Hb in Hge. done. }
    apply seal_all_header in Hs as (o & Ho & Hs); [|done]. rewrite Ho in Hb.
    symmetry in Hb. apply app_eq_app_le in Hb as (rest & Hrest & Hb); [|lia].
    set (r1 := mkReader (r_key r) (w_nonce w) (w_nonce w) true (r_frame_count r)
                 (mkBuf rest (buf_cap (r_ct r))) (r_pt r)).
    assert (feed_header r = Some r1) as Hr1.
    { unfold feed_header. rewrite Hh. rewrite (proj2 (Z.ltb_ge _ _)) by (unfold AEAD_GCM_NONCE_SIZE; lia).
      unfold ct_consume. rewrite Hrest. rewrite ztake_app_exact, zdrop_app_exact by done. done. }
    rewrite (feed_header_loop _ _ _ Hr1).
    destruct (feed_loop_spec (pt :: pts) (sent w) o w' r1 future fuel)
      as (p1 & p2 & o2 & w1 & r' & ? & ? & ? & ? & Hp & ? & ? & Hc & Hz & ?); [done|by unfold in_step|done| | |].
    + simpl. rewrite Hrest, length_app in Hf. lia.
    + destruct Hroom as [Hr1' ?]. split; [|done]. rewrite Ho, zlen_app in Hr1'. simpl. lens.
    + exists p1, p2, o2, w1, r'. split_and!; try done; [by left|by rewrite Hc|].
      rewrite Ho, zlen_app. simpl in Hz. lens.
Qed.

Lemma feed_tracks pts w outs w' r c future :
  seal_all alloc w pts = Some (outs, w') → tracks r w →
  buf_data (r_ct r) ++ c ++ future = outs_bytes outs →
  zlen (buf_data (r_pt r)) + zlen (outs_bytes outs) ≤ 2 ^ 31 →
  0 ≤ buf_cap (r_pt r) → 0 ≤ buf_cap (r_ct r) →
  feed_progress r pts outs w' future (aead_reader_feed alloc r c).
Proof.
  intros Hs Ht Hb Hsz Hp Hc.
  assert (∃ k, (if zlen c =? 0 then Some (0, r_ct r) else buf_append alloc (r_ct r) c)
               = Some (0, mkBuf (buf_data (r_ct r) ++ c) k) ∧ 0 ≤ k) as (k & Hk & Hk0).
  { case_if.
    - apply zlen_0_inv in Hc0 as ->. exists (buf_cap (r_ct r)). rewrite app_nil_r.
      by destruct (r_ct r).
    - apply buf_append_ok. split; [|done]. apply (f_equal zlen) in Hb.
      rewrite !zlen_app in Hb. lens. }
  unfold aead_reader_feed. rewrite Hk. simpl Z.ltb. cbv iota.
  set (r1 := set_ct r (mkBuf (buf_data (r_ct r) ++ c) k)).
  apply (feed_loop_tracks pts w outs w' r1 future (feed_fuel r1)); try done.
  - unfold r1; simpl. by rewrite <- app_assoc.
  - unfold feed_fuel. lia.
Qed.

Lemma feed_all_tracks chunks pts w outs w' r :
  seal_all alloc w pts = Some (outs, w') → tracks r w →
  buf_data (r_ct r) ++ concat chunks = outs_bytes outs →
  zlen (buf_data (r_pt r)) + zlen (outs_bytes outs) ≤ 2 ^ 31 →
  0 ≤ buf_cap (r_pt r) → 0 ≤ buf_cap (r_ct r) → (chunks = [] → pts = []) →
  ∃ r', feed_all alloc r chunks = Some r' ∧
    buf_data (r_pt r') = buf_data (r_pt r) ++ concat pts ∧ buf_data (r_ct r') = [].
Proof.
  revert pts w outs r. induction chunks as [|c chunks IH];
    intros pts w outs r Hs Ht Hb Hsz Hp Hc Hnil.
  - rewrite Hnil in Hs by done. injection Hs as <- <-. apply app_nil in Hb as [Hb _].
    exists r. rewrite Hnil by done. simpl. by rewrite app_nil_r.
  - destruct (feed_tracks pts w outs w' r c (concat chunks))
      as (p1 & p2 & o2 & w1 & r1 & -> & Hs1 & Hf & Ht1 & Hp1 & Hcp & Hb1 & Hcc & Hz & Hfin); [done..|].
    destruct (IH p2 w1 o2 r1) as (r' & Hfa & Hpt & Hct); [done|done|done|lia|done|done| |].
    { intros ->. auto. }
    exists r'. cbn [feed_all]. rewrite Hf. split_and!; auto.
    rewrite Hpt, Hp1, concat_app. by rewrite <- app_assoc.
Qed.

End RoundTrip.

(** C27: the framed AEAD stream is a faithful channel: whatever a writer made
    by [aead_writer_init] seals, a reader with the same key that is fed the
    concatenated frames in chunks of any sizes (split inside the stream nonce,
    a length field or a tag) accepts, and afterwards it holds exactly the
    plaintexts in order and no leftover ciphertext. *)
Theorem aead_stream_roundtrip `{GcmProvider} (alloc : Z → bool) (Halloc : ∀ n, alloc n = true)
    (key nonce : bytes) (w w' : aead_writer) (pts : list bytes)
    (outs : list bytes) (chunks : list bytes)
    (Hnonce : zlen nonce = 12)
    (Hinit : aead_writer_init key (Some nonce) = Some w)
    (Hseal : seal_all alloc w pts = Some (outs, w'))
    (Hchunks : concat chunks = outs_bytes outs)
    (Hsize : zlen (concat chunks) ≤ 2 ^ 31) :
  ∃ r, feed_all alloc (aead_reader_init key) chunks = Some r ∧
    buf_data (r_pt r) = concat pts ∧ buf_data (r_ct r) = [].
Proof.
  injection Hinit as <-.
  apply (feed_all_tracks alloc Halloc chunks pts _ outs w' (aead_reader_init key) Hseal); simpl.
  - right. by unfold fresh.
  - done.
  - rewrite <- Hchunks. rewrite zlen_nil. lia.
  - lia.
  - lia.
  - intros ->. simpl in Hchunks. destruct pts as [|pt pts]; [done|].
    apply seal_all_header in Hseal as (o & Ho & _); [|done|done].
    rewrite Ho in Hchunks. apply (f_equal zlen) in Hchunks.
    rewrite zlen_app in Hchunks. simpl in Hchunks. lens.
Qed.

(** ** The reader's loop always ends *)

Section Total.
Context `{GcmProvider} (alloc : Z → bool).

(** [buf_append] returns for every buffer of less than half the address space. *)
Lemma buf_append_total b p :
  room b (zlen p) →
  ∃ rc b', buf_append alloc b p = Some (rc, b') ∧ (rc = 0 ∨ rc = -1) ∧ 0 ≤ buf_cap b' ∧
    (rc = 0 → buf_data b' = buf_data b ++ p) ∧ (rc = -1 → b' = b).
Proof.
  intros [Hr Hcap]. unfold buf_append. pose proof (zlen_nonneg (buf_data b)).
  pose proof (zlen_nonneg p). rewrite u32_small by lia. case_if; [|naive_solver].
  set (c0 := if buf_cap b =? 0 then 4096 else u32 (buf_cap b * 2)).
  assert (0 < c0). { unfold c0. case_if; [lia|]. rewrite u32_small; lia. }
  destruct (grow_enough c0 (zlen (buf_data b) + zlen p)) as (n & -> & ? & ?); [done|lia|].
  simpl. case_if; [exists 0, (mkBuf (buf_data b ++ p) n)|exists (-1), b]; simpl; naive_solver lia.
Qed.

Definition reader_room (r : aead_reader) (n : Z) : Prop :=
  zlen (buf_data (r_pt r)) + zlen (buf_data (r_ct r)) + n ≤ 2 ^ 31 ∧
  0 ≤ buf_cap (r_pt r) ∧ 0 ≤ buf_cap (r_ct r).

Lemma feed_header_room r r1 :
  feed_header r = Some r1 → reader_room r 0 →
  reader_room r1 0 ∧ r_pt r1 = r_pt r ∧ zlen (buf_data (r_ct r1)) ≤ zlen (buf_data (r_ct r)).
Proof.
  unfold feed_header, reader_room. case_if; [intros [= <-]; naive_solver lia|].
  case_if; [done|]. intros [= <-] (? & ? & ?). simpl. rewrite zlen_zdrop.
  unfold AEAD_GCM_NONCE_SIZE in *. split_and!; [lia..|done|lia].
Qed.

(** One round either returns, or goes on with less ciphertext. *)
Lemma feed_step_total r :
  reader_room r 0 →
  (∃ rc r', feed_step alloc r = FeedStop rc r' ∧ (rc = 0 ∨ rc = -1)) ∨
  (∃ r', feed_step alloc r = FeedNext r' ∧ reader_room r' 0 ∧
     (length (buf_data (r_ct r')) < length (buf_data (r_ct r)))%nat).
Proof.
  intros Hroom. unfold feed_step.
  destruct (feed_header r) as [r1|] eqn:Eh; [|eauto 8].
  apply feed_header_room in Eh as (Hr1 & Hpt & Hle); [|done].
  destruct (buf_data (r_ct r1)) as [|b0 [|b1 [|b2 [|b3 rest]]]] eqn:E; [eauto 8..|].
  set (clen := be32_get b0 b1 b2 b3). case_if; [eauto 8|].
  case_if; [eauto 8|]. case_if; [eauto 8|].
  destruct (open_msg _ _ _ _) as [pt|] eqn:Eo; [|eauto 8].
  unfold AEAD_GCM_TAG_SIZE, AEAD_MAX_PAYLOAD in *.
  destruct Hr1 as (Hsz & Hcp & Hcc). rewrite E in *. rewrite !zlen_cons in *.
  assert (zlen pt = clen - 16) as Hlen.
  { apply open_msg_size in Eo. rewrite zlen_ztake in Eo. lens. }
  destruct (buf_append_total (r_pt r1) pt) as (rc & ptb & -> & Hrc & Hcap & Hok & _).
  { split; [|done]. lens. }
  case_if; [eauto 8|]. destruct (increment_nonce (r_nonce r1)) as [n' ok].
  case_if; [eauto 8|]. right. eexists. split; [done|]. destruct Hrc as [->| ->]; [|done].
  unfold reader_room, ct_consume; simpl. rewrite (Hok eq_refl), E. split_and!; try done.
  - rewrite zlen_app, zlen_zdrop, !zlen_cons. lens.
  - unfold zlen in *. unfold zdrop. rewrite length_drop. simpl. lia.
Qed.

Lemma feed_loop_total fuel r :
  reader_room r 0 → (length (buf_data (r_ct r)) < fuel)%nat →
  ∃ rc r', feed_loop alloc fuel r = Some (rc, r') ∧ (rc = 0 ∨ rc = -1).
Proof.
  revert r. induction fuel as [|fuel IH]; intros r Hr Hf; [lia|]. simpl.
  destruct (feed_step_total r Hr) as [(rc & r' & -> & ?)|(r' & -> & Hr' & Hlt)]; [eauto|].
  apply IH; [done|lia].
Qed.
End Total.

(** C29: [aead_reader_feed] always returns, 0 or -1, whatever bytes the peer
    sends (hostile frame lengths included) and whether or not allocation
    fails, as long as the buffered data stays under half the address space:
    every round of its [for (;;)] that continues consumes ciphertext. *)
Theorem aead_reader_feed_total `{GcmProvider} (alloc : Z → bool) (r : aead_reader) (ct : bytes)
    (Hroom : reader_room r (zlen ct)) :
  ∃ rc r', aead_reader_feed alloc r ct = Some (rc, r') ∧ (rc = 0 ∨ rc = -1).
Proof.
  destruct Hroom as (Hsz & Hp & Hc). unfold aead_reader_feed.
  assert (∃ rc b, (if zlen ct =? 0 then Some (0, r_ct r) else buf_append alloc (r_ct r) ct)
             = Some (rc, b) ∧ (rc = 0 ∨ rc = -1) ∧ 0 ≤ buf_cap b ∧
             zlen (buf_data b) ≤ zlen (buf_data (r_ct r)) + zlen ct) as (rc & b & -> & Hrc & Hcap & Hlen).
  { pose proof (zlen_nonneg ct). case_if; [exists 0, (r_ct r); naive_solver lia|].
    destruct (buf_append_total alloc (r_ct r) ct) as (rc & b & -> & Hrc & Hcap & Hok & Hbad);
      [split; [lens|done]|].
    exists rc, b. split_and!; try done. destruct Hrc as [->| ->].
    - rewrite Hok by done. rewrite zlen_app. lia.
    - rewrite Hbad by done. lia. }
  cbn [mbind option_bind]. case_if; [eauto|]. apply feed_loop_total; [|unfold feed_fuel; lia].
  unfold reader_room, set_ct; simpl. split_and!; try done. lia.
Qed.

(** ** The implementation provides the interface *)

Lemma evp_seal_size `{Mbedtls} key nonce aad pt ct :
  gcm_seal true key nonce aad pt = Some ct → zlen ct = zlen pt + 16.
Proof. rewrite gcm_seal_eq. intros [= <-]. by rewrite zlen_app, gcm_out_len, gcm_tag_len. Qed.

Lemma evp_open_seal `{Mbedtls} key nonce aad pt ct :
  gcm_seal true key nonce aad pt = Some ct → gcm_open true key nonce aad ct = Some pt.
Proof.
  rewrite gcm_seal_eq. intros [= <-]. rewrite gcm_open_eq by apply gcm_tag_len.
  change MBEDTLS_ENCRYPT with (mode_flip MBEDTLS_DECRYPT).
  by rewrite gcm_tag_inv, gcm_out_inv, bool_decide_true.
Qed.

Lemma evp_open_size `{Mbedtls} key nonce aad ct pt :
  gcm_open true key nonce aad ct = Some pt → zlen ct = zlen pt + 16.
Proof.
  destruct (decide (zlen ct < 16)) as [Hlt|Hge].
  { unfold gcm_open. by rewrite (proj2 (Z.ltb_lt _ _)). }
  rewrite <- (ztake_zdrop (zlen ct - 16) ct) at 1.
  rewrite gcm_open_eq by lens. case_if; [|done]. intros [= <-]. rewrite gcm_out_len. lens.
Qed.

#[export] Instance evp_gcm `{Mbedtls} : GcmProvider := {
  seal_msg := gcm_seal true;
  open_msg := gcm_open true;
  seal_msg_size := evp_seal_size;
  open_seal_msg := evp_open_seal;
  open_msg_size := evp_open_size;
}.

#[local] Existing Instance Toy.mbedtls.

Definition toy_key : bytes := replicate 32 7.
Definition toy_nonce : bytes := replicate 11 0 ++ [255].
Definition toy_writer : aead_writer := mkWriter toy_key toy_nonce toy_nonce false 0.

Lemma aead_writer_nonces_unique_witness :
  ∃ outs w' nonces, seal_all (λ _, true) toy_writer [[1; 2; 3]; [4]; [5; 6]] = Some (outs, w') ∧
    NoDup nonces ∧ Forall3 (sealed_under toy_key toy_nonce) nonces [[1; 2; 3]; [4]; [5; 6]] outs.
Proof.
  destruct (seal_all (λ _, true) toy_writer [[1; 2; 3]; [4]; [5; 6]]) as [[outs w']|] eqn:E; [|vm_compute in E; discriminate E].
  destruct (aead_writer_nonces_unique (λ _, true) toy_writer [[1; 2; 3]; [4]; [5; 6]] outs w') as (ns & H1 & H2).
  - by repeat constructor.
  - exact E.
  - exists outs, w', ns. split; [reflexivity|]. split; [exact H1|exact H2].
Defined.

(** The two frames delivered byte by byte. *)
Lemma aead_stream_roundtrip_witness :
  ∃ r chunks, feed_all (λ _, true) (aead_reader_init toy_key) chunks = Some r ∧
    length chunks = 56%nat ∧ buf_data (r_pt r) = [1; 2; 3; 4].
Proof.
  destruct (seal_all (λ _, true) toy_writer [[1; 2; 3]; [4]]) as [[outs w']|] eqn:E;
    [|vm_compute in E; discriminate E].
  destruct (aead_stream_roundtrip (λ _, true) (λ _, eq_refl) toy_key toy_nonce toy_writer w'
              [[1; 2; 3]; [4]] outs (map (λ b, [b]) (outs_bytes outs))) as (r & Hr & Hp & _).
  - reflexivity.
  - reflexivity.
  - exact E.
  - vm_compute in E. injection E as <- <-. vm_compute. reflexivity.
  - vm_compute in E. injection E as <- <-. vm_compute. discriminate.
  - exists r, (map (λ b, [b]) (outs_bytes outs)). split; [exact Hr|]. split; [|exact Hp].
    vm_compute in E. injection E as <- <-. reflexivity.
Defined.

Lemma aead_reader_feed_total_witness :
  ∃ rc r', aead_reader_feed (λ _, true) (aead_reader_init toy_key)
             (replicate 12 0 ++ [255; 255; 255; 255; 0]) = Some (rc, r') ∧ (rc = 0 ∨ rc = -1).
Proof.
  apply (aead_reader_feed_total (λ _, true) (aead_reader_init toy_key)
           (replicate 12 0 ++ [255; 255; 255; 255; 0])).
  unfold reader_room. split_and!; vm_compute; discriminate.
Defined.
