(* ===== verification/WireV2.v ===== *)
(** * Wire protocol v2

    Models [src/src/wire_v2.c]: the message type table, the frame codec, the
    message codec and its translation to v1 messages, and the byte string the
    key derivation hashes. *)

From S2P Require Import Prelude Endian.

(** ** Message types ([msg.h]) *)

Inductive msg_type :=
| TypeLogin | TypeLoginResp | TypeNewProxy | TypeNewProxyResp | TypeCloseProxy
| TypeNewWorkConn | TypeReqWorkConn | TypeStartWorkConn | TypeNewVisitorConn
| TypeNewVisitorConnResp | TypePing | TypePong | TypeUDPPacket | TypeNatHoleVisitor
| TypeNatHoleClient | TypeNatHoleResp | TypeNatHoleClientDetectOK | TypeNatHoleSid
| TypeNatHoleReport.

#[export] Instance msg_type_eq : EqDecision msg_type.
Proof. solve_decision. Defined.

(** The character of each constant. *)
Definition msg_type_char (t : msg_type) : Z :=
  match t with
  | TypeLogin => 111 | TypeLoginResp => 49 | TypeNewProxy => 112 | TypeNewProxyResp => 50
  | TypeCloseProxy => 99 | TypeNewWorkConn => 119 | TypeReqWorkConn => 114
  | TypeStartWorkConn => 115 | TypeNewVisitorConn => 118 | TypeNewVisitorConnResp => 51
  | TypePing => 104 | TypePong => 52 | TypeUDPPacket => 117 | TypeNatHoleVisitor => 105
  | TypeNatHoleClient => 110 | TypeNatHoleResp => 109 | TypeNatHoleClientDetectOK => 100
  | TypeNatHoleSid => 53 | TypeNatHoleReport => 54
  end.

Definition all_msg_types : list msg_type :=
  [TypeLogin; TypeLoginResp; TypeNewProxy; TypeNewProxyResp; TypeCloseProxy; TypeNewWorkConn;
   TypeReqWorkConn; TypeStartWorkConn; TypeNewVisitorConn; TypeNewVisitorConnResp; TypePing;
   TypePong; TypeUDPPacket; TypeNatHoleVisitor; TypeNatHoleClient; TypeNatHoleResp;
   TypeNatHoleClientDetectOK; TypeNatHoleSid; TypeNatHoleReport].

(** The [switch] on a received type character. *)
Definition msg_type_of_char (c : Z) : option msg_type :=
  find (λ t, msg_type_char t =? c) all_msg_types.

Definition wire_v2_msg_type_to_id (t : msg_type) : Z :=
  match t with
  | TypeLogin => 1 | TypeLoginResp => 2 | TypeNewProxy => 3 | TypeNewProxyResp => 4
  | TypeCloseProxy => 5 | TypeNewWorkConn => 6 | TypeReqWorkConn => 7 | TypeStartWorkConn => 8
  | TypeNewVisitorConn => 9 | TypeNewVisitorConnResp => 10 | TypePing => 11 | TypePong => 12
  | TypeUDPPacket => 13 | TypeNatHoleVisitor => 14 | TypeNatHoleClient => 15
  | TypeNatHoleResp => 16 | TypeNatHoleSid => 17 | TypeNatHoleReport => 18
  | _ => 0
  end.

(** [None] is the 0 the C function returns for an unknown id. *)
Definition wire_v2_id_to_msg_type (id : Z) : option msg_type :=
  match id with
  | 1 => Some TypeLogin | 2 => Some TypeLoginResp | 3 => Some TypeNewProxy
  | 4 => Some TypeNewProxyResp | 5 => Some TypeCloseProxy | 6 => Some TypeNewWorkConn
  | 7 => Some TypeReqWorkConn | 8 => Some TypeStartWorkConn | 9 => Some TypeNewVisitorConn
  | 10 => Some TypeNewVisitorConnResp | 11 => Some TypePing | 12 => Some TypePong
  | 13 => Some TypeUDPPacket | 14 => Some TypeNatHoleVisitor | 15 => Some TypeNatHoleClient
  | 16 => Some TypeNatHoleResp | 17 => Some TypeNatHoleSid | 18 => Some TypeNatHoleReport
  | _ => None
  end.

(** ** Frames *)

Definition WIRE_V2_FRAME_CLIENT_HELLO : Z := 1.
Definition WIRE_V2_FRAME_SERVER_HELLO : Z := 2.
Definition WIRE_V2_FRAME_MESSAGE : Z := 16.
(** ["FRP\x00\x02\r\n"]. *)
Definition WIRE_V2_MAGIC : bytes := [70; 82; 80; 0; 2; 13; 10].
Definition WIRE_V2_MAX_PAYLOAD : Z := 64 * 1024.

(** [alloc] answers each [malloc]/[calloc]. *)
Definition wire_v2_encode_frame (alloc : Z → bool) (type : Z) (payload : bytes) : option bytes :=
  let plen := zlen payload in
  let total := u32 (8 + plen) in
  if alloc total
  then Some ([u8 (type ≫u 8); u8 type; 0; 0;
              u8 (plen ≫u 24); u8 (plen ≫u 16); u8 (plen ≫u 8); u8 plen] ++ payload)
  else None.

Inductive frame_result :=
| FrameIncomplete                                   (** 0 *)
| FrameBad                                          (** -1 *)
| FrameOk (type : Z) (payload : bytes) (consumed : Z).
#[export] Instance frame_result_eq : EqDecision frame_result.
Proof. solve_decision. Defined.

Definition wire_v2_parse_frame (buf : bytes) : frame_result :=
  match buf with
  | b0 :: b1 :: b2 :: b3 :: b4 :: b5 :: b6 :: b7 :: body =>
      let flags := be16_get b2 b3 in
      if negb (flags =? 0) then FrameBad
      else
        let l := be32_get b4 b5 b6 b7 in
        if WIRE_V2_MAX_PAYLOAD <? l then FrameBad
        else if zlen buf <? 8 + l then FrameIncomplete
        else FrameOk (be16_get b0 b1) (ztake l body) (8 + l)
  | _ => FrameIncomplete
  end.

(** ** Messages *)

Definition wire_v2_encode_message (alloc : Z → bool) (t : msg_type) (json : bytes) : option bytes :=
  let id := wire_v2_msg_type_to_id t in
  if id =? 0 then None
  else if negb (alloc (u32 (2 + zlen json))) then None
  else wire_v2_encode_frame alloc WIRE_V2_FRAME_MESSAGE ([u8 (id ≫u 8); u8 id] ++ json).

Definition wire_v2_payload_to_v1 (alloc : Z → bool) (payload : bytes) : option bytes :=
  match payload with
  | b0 :: b1 :: json =>
      t ← wire_v2_id_to_msg_type (be16_get b0 b1);
      if alloc (u32 (sizeof_msg_hdr + zlen json))
      then Some (msg_hdr_bytes (msg_type_char t) (hton64 (zlen json)) ++ json)
      else None
  | _ => None
  end.

(** ** Transcript *)

Definition transcript_part (label : string) (payload : bytes) : bytes :=
  [0] ++ str_bytes label ++ [0] ++ be64_put (zlen payload) ++ payload.

(** The byte string fed to SHA-256. *)
Definition transcript_input (ch sh : bytes) : bytes :=
  str_bytes "frp wire v2 crypto transcript"
    ++ transcript_part "client hello" ch ++ transcript_part "server hello" sh.

Definition wire_v2_hash_transcript (sha256 : bytes → bytes) (ch sh : bytes) : bytes :=
  sha256 (transcript_input ch sh).

(** ** Lemmas *)

Lemma parse_frame_header t0 t1 (p rest : bytes) :
  zlen p ≤ WIRE_V2_MAX_PAYLOAD →
  wire_v2_parse_frame ([t0; t1; 0; 0; u8 (zlen p ≫u 24); u8 (zlen p ≫u 16); u8 (zlen p ≫u 8);
                        u8 (zlen p)] ++ rest) =
    if zlen rest <? zlen p then FrameIncomplete
    else FrameOk (be16_get t0 t1) (ztake (zlen p) rest) (8 + zlen p).
Proof.
  intros Hp. pose proof (zlen_nonneg p). unfold WIRE_V2_MAX_PAYLOAD in *.
  cbn [app]. unfold wire_v2_parse_frame. change (be16_get 0 0) with 0.
  cbn [negb Z.eqb].
  rewrite be32_get_put, u32_small by lia.
  rewrite (proj2 (Z.ltb_ge _ _)) by (unfold WIRE_V2_MAX_PAYLOAD; lia).
  assert (zlen ([t0; t1; 0; 0; u8 (zlen p ≫u 24); u8 (zlen p ≫u 16); u8 (zlen p ≫u 8);
                 u8 (zlen p)] ++ rest) = 8 + zlen rest) as E by lens.
  cbn [app] in E. rewrite E.
  destruct (zlen rest <? zlen p) eqn:El; b2p.
  - by rewrite (proj2 (Z.ltb_lt _ _)) by lia.
  - by rewrite (proj2 (Z.ltb_ge _ _)) by lia.
Qed.

Lemma parse_encode_frame alloc t p out rest :
  zlen p ≤ WIRE_V2_MAX_PAYLOAD → wire_v2_encode_frame alloc t p = Some out →
  wire_v2_parse_frame (out ++ rest) = FrameOk (u16 t) p (8 + zlen p) ∧ zlen out = 8 + zlen p.
Proof.
  intros Hp. unfold wire_v2_encode_frame. case_if; [|done]. intros [= <-].
  change (?a :: ?b :: ?c :: ?d :: ?e :: ?f :: ?g :: ?h :: p) with ([a; b; c; d; e; f; g; h] ++ p).
  rewrite <- app_assoc, parse_frame_header by done.
  rewrite (proj2 (Z.ltb_ge _ _)) by lens. rewrite be16_get_put, ztake_app_exact by done.
  split; [done|]. lens.
Qed.

Lemma parse_short buf : zlen buf < 8 → wire_v2_parse_frame buf = FrameIncomplete.
Proof.
  intros Hl. do 8 (destruct buf as [|? buf]; [done|]).
  rewrite !zlen_cons in Hl. pose proof (zlen_nonneg buf). lia.
Qed.

Lemma msg_type_of_char_char t : msg_type_of_char (msg_type_char t) = Some t.
Proof. by destruct t. Qed.

Lemma id_to_type_to_id t :
  wire_v2_msg_type_to_id t ≠ 0 → wire_v2_id_to_msg_type (wire_v2_msg_type_to_id t) = Some t.
Proof. by destruct t. Qed.

Lemma type_to_id_range t : 0 ≤ wire_v2_msg_type_to_id t ≤ 18.
Proof. destruct t; simpl; lia. Qed.

Lemma id_to_type_inv id t :
  wire_v2_id_to_msg_type id = Some t → wire_v2_msg_type_to_id t = id.
Proof.
  intros Hi. unfold wire_v2_id_to_msg_type in Hi.
  repeat (case_match; try done; try (injection Hi as <-; done)).
Qed.

Lemma transcript_part_inj l p q r s :
  zlen p < 2 ^ 64 → zlen q < 2 ^ 64 →
  transcript_part l p ++ r = transcript_part l q ++ s → p = q ∧ r = s.
Proof.
  intros Hp Hq E. unfold transcript_part in E. rewrite <- !app_assoc in E.
  do 3 apply app_inv_head in E.
  apply app_inj_1 in E as [E1 E2]; [|done].
  pose proof (zlen_nonneg p). pose proof (zlen_nonneg q).
  apply be64_put_inj in E1; [|lia..].
  apply app_inj_1 in E2; [done|]. unfold zlen in E1. lia.
Qed.

(** No proper prefix of a frame is taken for a frame or for an error. *)
Lemma parse_frame_prefix alloc t p out n :
  zlen p ≤ WIRE_V2_MAX_PAYLOAD → wire_v2_encode_frame alloc t p = Some out → 0 ≤ n < zlen out →
  wire_v2_parse_frame (ztake n out) = FrameIncomplete.
Proof.
  intros Hp Henc Hn. destruct (parse_encode_frame alloc t p out [] Hp Henc) as [_ El].
  destruct (decide (n < 8)) as [Hlt|Hge]; [apply parse_short; lens|].
  revert Henc El. unfold wire_v2_encode_frame. case_if; [|done]. intros [= <-] El.
  change (?a :: ?b :: ?c :: ?d :: ?e :: ?f :: ?g :: ?h :: p) with ([a; b; c; d; e; f; g; h] ++ p).
  rewrite ztake_app_ge by (change (zlen [_; _; _; _; _; _; _; _]) with 8; lia).
  rewrite parse_frame_header by done. rewrite (proj2 (Z.ltb_lt _ _)); [done|].
  rewrite zlen_ztake. change (zlen [_; _; _; _; _; _; _; _]) with 8. lia.
Qed.

(** The payload of a message frame. *)
Definition message_payload (t : msg_type) (json : bytes) : bytes :=
  [u8 (wire_v2_msg_type_to_id t ≫u 8); u8 (wire_v2_msg_type_to_id t)] ++ json.

Lemma encode_message_frame alloc t json out :
  wire_v2_encode_message alloc t json = Some out →
  wire_v2_msg_type_to_id t ≠ 0 ∧
  wire_v2_encode_frame alloc WIRE_V2_FRAME_MESSAGE (message_payload t json) = Some out.
Proof.
  unfold wire_v2_encode_message. case_if; [done|]. destruct (negb _); [done|]. intros Henc. by split.
Qed.

Lemma message_payload_v1 t json :
  wire_v2_msg_type_to_id t ≠ 0 →
  wire_v2_payload_to_v1 (λ _, true) (message_payload t json)
    = Some (u8 (msg_type_char t) :: be64_put (zlen json) ++ json).
Proof.
  intros Hid. unfold message_payload. cbn [app wire_v2_payload_to_v1].
  rewrite be16_get_put. pose proof (type_to_id_range t).
  rewrite u16_small by lia. rewrite id_to_type_to_id by done.
  cbn [mbind option_bind]. unfold msg_hdr_bytes. by rewrite le64_put_hton64.
Qed.

(** ** Theorems *)

(** The v2 type table is a bijection between the message types that have
    an id and the ids 1..18: every type with an id decodes back to itself,
    every known id encodes back, and only [TypeNatHoleClientDetectOK] has none. *)
Lemma wire_v2_type_ids_bijective :
  (∀ t, wire_v2_msg_type_to_id t = 0 ↔ t = TypeNatHoleClientDetectOK) ∧
  (∀ t id, wire_v2_id_to_msg_type id = Some t ↔ id ≠ 0 ∧ wire_v2_msg_type_to_id t = id) ∧
  (∀ id, is_Some (wire_v2_id_to_msg_type id) ↔ 1 ≤ id ≤ 18).
Proof.
  split; [|split].
  - intros []; simpl; split; intros; congruence || lia.
  - intros t id. split.
    + intros Ht. split; [intros ->; done|]. by apply id_to_type_inv.
    + intros [Hid <-]. by apply id_to_type_to_id.
  - intros id. split.
    + intros [t Ht]. pose proof (id_to_type_inv _ _ Ht) as <-.
      assert (wire_v2_msg_type_to_id t ≠ 0) by (intros E; by rewrite E in Ht).
      pose proof (type_to_id_range t). lia.
    + intros Hr.
      assert (id ∈ seqZ 1 18) as Hin by (apply elem_of_seqZ; lia).
      revert id Hr Hin.
      assert (Forall (λ id, is_Some (wire_v2_id_to_msg_type id)) (seqZ 1 18)) as HF.
      { vm_compute. repeat constructor; eauto. }
      intros id _ Hin. by apply (proj1 (Forall_forall _ _) HF).
Qed.

(** Frame round trip.  A frame whose payload is within the 64 KiB limit
    parses back to its type and payload, consuming exactly its own bytes
    whatever follows it in the buffer, and no strict prefix of it is mistaken
    for a frame or for an error. *)
Lemma wire_v2_frame_roundtrip (alloc : Z → bool) (t : Z) (p out rest : bytes)
    (Hp : zlen p ≤ WIRE_V2_MAX_PAYLOAD) (Ht : 0 ≤ t < 2 ^ 16)
    (Henc : wire_v2_encode_frame alloc t p = Some out) :
  wire_v2_parse_frame (out ++ rest) = FrameOk t p (zlen out) ∧
  ∀ n, 0 ≤ n < zlen out → wire_v2_parse_frame (ztake n out) = FrameIncomplete.
Proof.
  destruct (parse_encode_frame alloc t p out rest Hp Henc) as [E El].
  split; [rewrite E, El; by rewrite u16_small by (change (2 ^ 16) with 65536 in Ht; lia)|].
  intros n Hn. by eapply parse_frame_prefix.
Qed.

(** Message round trip.  What [wire_v2_encode_message] sends, the receiving
    side's [wire_v2_parse_frame] and [wire_v2_payload_to_v1] turn into a v1
    message with the same type character, the JSON's length in network byte
    order and the same JSON. *)
Lemma wire_v2_message_roundtrip (t : msg_type) (json out rest : bytes)
    (Hj : zlen json + 2 ≤ WIRE_V2_MAX_PAYLOAD)
    (Henc : wire_v2_encode_message (λ _, true) t json = Some out) :
  ∃ payload, wire_v2_parse_frame (out ++ rest) =
               FrameOk WIRE_V2_FRAME_MESSAGE payload (zlen out) ∧
    wire_v2_payload_to_v1 (λ _, true) payload
      = Some (u8 (msg_type_char t) :: be64_put (zlen json) ++ json).
Proof.
  apply encode_message_frame in Henc as [Hid Henc]. exists (message_payload t json).
  assert (zlen (message_payload t json) ≤ WIRE_V2_MAX_PAYLOAD) as Hp
    by (unfold message_payload; cbn [app]; rewrite !zlen_cons; lia).
  destruct (parse_encode_frame _ _ _ out rest Hp Henc) as [E El].
  split; [rewrite E, El; done|]. by apply message_payload_v1.
Qed.

(** The transcript that keys are derived from binds both hello payloads:
    two handshakes with the same hashed byte string had the same client hello
    and the same server hello. *)
Lemma wire_v2_transcript_injective (ch sh ch' sh' : bytes)
    (Hc : zlen ch < 2 ^ 64) (Hc' : zlen ch' < 2 ^ 64)
    (Hs : zlen sh < 2 ^ 64) (Hs' : zlen sh' < 2 ^ 64)
    (E : transcript_input ch sh = transcript_input ch' sh') : ch = ch' ∧ sh = sh'.
Proof.
  unfold transcript_input in E. apply app_inv_head in E.
  apply transcript_part_inj in E as [-> E]; [|done..]. split; [done|].
  rewrite <- (app_nil_r (transcript_part _ sh)), <- (app_nil_r (transcript_part _ sh')) in E.
  by apply transcript_part_inj in E as [-> _].
Qed.

(** ** Witnesses *)

Lemma wire_v2_frame_roundtrip_witness :
  wire_v2_parse_frame ([0; 16; 0; 0; 0; 0; 0; 2; 7; 8] ++ [9]) = FrameOk 16 [7; 8] 10 ∧
  wire_v2_parse_frame (ztake 9 [0; 16; 0; 0; 0; 0; 0; 2; 7; 8]) = FrameIncomplete.
Proof.
  destruct (wire_v2_frame_roundtrip (λ _, true) 16 [7; 8] [0; 16; 0; 0; 0; 0; 0; 2; 7; 8] [9])
    as [H1 H2]; [vm_compute; discriminate|lia|reflexivity|].
  split; [exact H1|]. apply H2. vm_compute. split; [discriminate|reflexivity].
Defined.

Lemma wire_v2_message_roundtrip_witness :
  ∃ payload, wire_v2_parse_frame ([0; 16; 0; 0; 0; 0; 0; 4; 0; 11; 123; 125] ++ []) =
               FrameOk WIRE_V2_FRAME_MESSAGE payload 12 ∧
    wire_v2_payload_to_v1 (λ _, true) payload = Some [104; 0; 0; 0; 0; 0; 0; 0; 2; 123; 125].
Proof.
  apply (wire_v2_message_roundtrip TypePing [123; 125]
           [0; 16; 0; 0; 0; 0; 0; 4; 0; 11; 123; 125] []); [vm_compute; discriminate|reflexivity].
Defined.

Lemma wire_v2_transcript_injective_witness : ([1; 2] : bytes) = [1; 2] ∧ ([3] : bytes) = [3].
Proof.
  apply (wire_v2_transcript_injective [1; 2] [3] [1; 2] [3]); try (vm_compute; reflexivity).
Defined.
