(* ===== verification/Digest.v ===== *)
(** * Digests

    The digest, HMAC and PBKDF2 part of [src/port/openssl_compat.c], and its
    uses: calc_md5 of [src/src/msg.c], hmac_sha256 of [src/src/aead_stream.c],
    the transcript of [src/src/wire_v2.c] and the key of [src/src/crypto.c].
    The message digests of mbedtls are the class [MbedtlsMd]; its laws say that
    a digest depends on the bytes and not on how they were handed over.  The
    theorems show that the functions [Aead], [WireV2], [Msg] and [Coder] take
    as parameters are what this layer computes. *)

From S2P Require Import Prelude WireV2.

Inductive md_type := MBEDTLS_MD_MD5 | MBEDTLS_MD_SHA1 | MBEDTLS_MD_SHA256.
Definition mbedtls_md_get_size (t : md_type) : Z :=
  match t with MBEDTLS_MD_MD5 => 16 | MBEDTLS_MD_SHA1 => 20 | MBEDTLS_MD_SHA256 => 32 end.

(** [None] is an error code. *)
Class MbedtlsMd := {
  md_state : Type;
  (** After [mbedtls_md_init] or [mbedtls_md_free]. *)
  md_zero : md_state;
  mbedtls_md_setup : md_type → md_state → option md_state;
  mbedtls_md_starts : md_state → option md_state;
  mbedtls_md_update : md_state → bytes → option md_state;
  mbedtls_md_finish : md_state → option (bytes * md_state);
  mbedtls_md_hmac : md_type → bytes → bytes → option bytes;
  mbedtls_pkcs5_pbkdf2_hmac_ext : md_type → bytes → bytes → Z → Z → option bytes;
  (** The digest of a message. *)
  md_hash : md_type → bytes → bytes;
  (** Set up for a type; the bytes since the start, if there was one. *)
  md_holds : md_state → md_type → option bytes → Prop;
}.
Class MbedtlsMdOk `{MbedtlsMd} : Prop := {
  md_setup_ok t s : mbedtls_md_setup t md_zero = Some s → md_holds s t None;
  md_starts_ok s t o s' : md_holds s t o → mbedtls_md_starts s = Some s' → md_holds s' t (Some []);
  md_update_ok s t d x s' : md_holds s t (Some d) → mbedtls_md_update s x = Some s' → md_holds s' t (Some (d ++ x));
  md_finish_ok s t d out s' : md_holds s t (Some d) → mbedtls_md_finish s = Some (out, s') → out = md_hash t d ∧ md_holds s' t None;
  md_hash_size t d : zlen (md_hash t d) = mbedtls_md_get_size t;
}.
(** No call fails that is used as documented. *)
Record md_plenty `{MbedtlsMd} : Prop := {
  mp_setup t : is_Some (mbedtls_md_setup t md_zero);
  mp_starts s t o : md_holds s t o → is_Some (mbedtls_md_starts s);
  mp_update s t d x : md_holds s t (Some d) → is_Some (mbedtls_md_update s x);
  mp_finish s t d : md_holds s t (Some d) → is_Some (mbedtls_md_finish s);
}.

Section Digest.
Context `{MbedtlsMd}.

(** ** The context of a digest *)

(** [struct mini_evp_md_ctx]. *)
Record EVP_MD_CTX := mkMdCtx { md : md_state; inited : bool }.

(** [mem]: whether [calloc] succeeds. *)
Definition EVP_MD_CTX_new (mem : bool) : option EVP_MD_CTX := if mem then Some (mkMdCtx md_zero false) else None.

(** The status, and the context as it is left. *)
Definition EVP_DigestInit_ex (ctx : EVP_MD_CTX) (t : md_type) : Z * EVP_MD_CTX :=
  let m := if inited ctx then md_zero else md ctx in
  match mbedtls_md_setup t m with
  | None => (0, mkMdCtx m (inited ctx))
  | Some m =>
      match mbedtls_md_starts m with
      | None => (0, mkMdCtx m (inited ctx))
      | Some m => (1, mkMdCtx m true)
      end
  end.

Definition EVP_DigestUpdate (ctx : EVP_MD_CTX) (data : bytes) : Z * EVP_MD_CTX :=
  if negb (inited ctx) then (0, ctx)
  else match mbedtls_md_update (md ctx) data with None => (0, ctx) | Some m => (1, mkMdCtx m true) end.

(** The digest that was written, if any. *)
Definition EVP_DigestFinal_ex (ctx : EVP_MD_CTX) : Z * option bytes * EVP_MD_CTX :=
  if negb (inited ctx) then (0, None, ctx)
  else
    match mbedtls_md_finish (md ctx) with
    | None => (0, None, ctx)
    | Some (out, m) =>
        match mbedtls_md_starts m with
        | None => (0, Some out, mkMdCtx m true)
        | Some m => (1, Some out, mkMdCtx m true)
        end
    end.

(** ** One call *)

(** [MD5] of [openssl_compat.c]. *)
Definition MD5 (d : bytes) : option bytes :=
  m ← mbedtls_md_setup MBEDTLS_MD_MD5 md_zero;
  m ← mbedtls_md_starts m;
  m ← mbedtls_md_update m d;
  '(out, _) ← mbedtls_md_finish m;
  Some out.

Definition HMAC (t : md_type) (key : bytes) (key_len : Z) (data : bytes) : option (bytes * Z) :=
  if key_len <? 0 then None
  else out ← mbedtls_md_hmac t (ztake key_len key) data; Some (out, mbedtls_md_get_size t).

(** The status, and the key that was written, if any. *)
Definition PKCS5_PBKDF2_HMAC (pass : bytes) (passlen : Z) (salt : bytes) (saltlen iter : Z) (t : md_type) (keylen : Z) : Z * option bytes :=
  if (passlen <? 0) || (saltlen <? 0) || (keylen <=? 0) || (iter <=? 0) then (0, None)
  else
    match mbedtls_pkcs5_pbkdf2_hmac_ext t (ztake passlen pass) (ztake saltlen salt) iter keylen with
    | Some out => (1, Some out)
    | None => (0, None)
    end.

(** ** Uses *)

Definition calc_md5 (mem : bool) (data : bytes) : option bytes :=
  if zlen data <=? 0 then None
  else
    ctx ← EVP_MD_CTX_new mem;
    let '(rc, ctx) := EVP_DigestInit_ex ctx MBEDTLS_MD_MD5 in
    if negb (rc =? 1) then None
    else
      let '(rc, ctx) := EVP_DigestUpdate ctx data in
      if negb (rc =? 1) then None
      else
        let '(rc, out, _) := EVP_DigestFinal_ex ctx in
        if negb (rc =? 1) then None else out.

Definition hmac_sha256 (key data : bytes) : option bytes := fst <$> HMAC MBEDTLS_MD_SHA256 key (i32 (zlen key)) data.

(** The key is returned whether or not it was derived. *)
Definition encrypt_key (token salt : bytes) (block_size : Z) : option (option bytes) :=
  if negb (block_size =? 16) then None
  else Some (snd (PKCS5_PBKDF2_HMAC token (i32 (zlen token)) salt (i32 (zlen salt)) 64 MBEDTLS_MD_SHA1 (i32 block_size))).
Definition crypto_derive_key (token salt : bytes) : option bytes :=
  let '(rc, out) := PKCS5_PBKDF2_HMAC token (i32 (zlen token)) salt (i32 (zlen salt)) 64 MBEDTLS_MD_SHA1 16 in
  if rc =? 1 then out else None.

(** The transcript: the results of the calls are not looked at, and a context
    that could not be had is passed on. *)
Definition update (ctx : option EVP_MD_CTX) (d : bytes) : option EVP_MD_CTX := (λ c, snd (EVP_DigestUpdate c d)) <$> ctx.
Definition transcript_part (ctx : option EVP_MD_CTX) (label : string) (payload : bytes) : option EVP_MD_CTX :=
  let ctx := update ctx [0] in
  let ctx := update ctx (str_bytes label) in
  let ctx := update ctx [0] in
  let ctx := update ctx (be64_put (u64 (zlen payload))) in
  if zlen payload =? 0 then ctx else update ctx payload.

(** [None]: nothing was written. *)
Definition wire_v2_hash_transcript (mem : bool) (ch sh : bytes) : option bytes :=
  let ctx := (λ c, snd (EVP_DigestInit_ex c MBEDTLS_MD_SHA256)) <$> EVP_MD_CTX_new mem in
  let ctx := update ctx (str_bytes "frp wire v2 crypto transcript") in
  let ctx := transcript_part ctx "client hello" ch in
  let ctx := transcript_part ctx "server hello" sh in
  c ← ctx; snd (fst (EVP_DigestFinal_ex c)).

(** ** Digests do not depend on the cutting *)

Context `{!MbedtlsMdOk}.

(** A context in the middle of a message. *)
Definition reading (ctx : EVP_MD_CTX) (t : md_type) (d : bytes) : Prop := inited ctx = true ∧ md_holds (md ctx) t (Some d).

(** What makes a fresh context, or one that was used before, ready. *)
Lemma init_reading ctx t : md ctx = md_zero ∨ inited ctx = true → ∀ c, EVP_DigestInit_ex ctx t = (1, c) → reading c t [].
Proof using Type*.
  intros Hz c. unfold EVP_DigestInit_ex. assert ((if inited ctx then md_zero else md ctx) = md_zero) as -> by (destruct (inited ctx), Hz as [Hz|Hz]; done).
  destruct (mbedtls_md_setup t md_zero) as [m|] eqn:E1; [|done]. destruct (mbedtls_md_starts m) as [m'|] eqn:E2; [|done]. intros [= <-]. split; [done|].
  cbn. eapply md_starts_ok; [|done]. by apply md_setup_ok.
Qed.
Lemma update_reading ctx t d x c : reading ctx t d → EVP_DigestUpdate ctx x = (1, c) → reading c t (d ++ x).
Proof using Type*.
  intros [Hi Hh]. unfold EVP_DigestUpdate. rewrite Hi. cbn. destruct (mbedtls_md_update (md ctx) x) as [m|] eqn:E; [|done]. intros [= <-]. split; [done|]. by eapply md_update_ok.
Qed.
Lemma final_reading ctx t d out c : reading ctx t d → EVP_DigestFinal_ex ctx = (1, out, c) → out = Some (md_hash t d) ∧ reading c t [].
Proof using Type*.
  intros [Hi Hh]. unfold EVP_DigestFinal_ex. rewrite Hi. cbn. destruct (mbedtls_md_finish (md ctx)) as [[o m]|] eqn:E; [|done].
  destruct (md_finish_ok _ _ _ _ _ Hh E) as [-> Hm]. destruct (mbedtls_md_starts m) as [m'|] eqn:E2; [|done]. intros [= <- <-]. split; [done|]. split; [done|]. by eapply md_starts_ok.
Qed.

(** Updates in a row; the last status. *)
Fixpoint updates (ctx : EVP_MD_CTX) (ds : list bytes) : bool * EVP_MD_CTX :=
  match ds with
  | [] => (true, ctx)
  | d :: ds => let '(rc, ctx) := EVP_DigestUpdate ctx d in if rc =? 1 then updates ctx ds else (false, ctx)
  end.
Lemma updates_reading ds : ∀ ctx t d c, reading ctx t d → updates ctx ds = (true, c) → reading c t (d ++ concat ds).
Proof using Type*.
  induction ds as [|x ds IH]; intros ctx t d c Hr; cbn [updates concat]; [intros [= <-]; by rewrite app_nil_r|].
  destruct (EVP_DigestUpdate ctx x) as [rc c'] eqn:E. destruct (Z.eqb_spec rc 1) as [->|]; [|done]. intros Hu. rewrite app_assoc. eapply IH; [|done]. by eapply update_reading.
Qed.

(** With memory nothing fails. *)
Section Plenty.
Hypothesis Hp : md_plenty.

Lemma init_runs ctx t : md ctx = md_zero ∨ inited ctx = true → ∃ c, EVP_DigestInit_ex ctx t = (1, c) ∧ reading c t [].
Proof using Type*.
  intros Hz. assert (∃ c, EVP_DigestInit_ex ctx t = (1, c)) as [c E]; [|exists c; split; [done|]; by eapply init_reading].
  unfold EVP_DigestInit_ex. assert ((if inited ctx then md_zero else md ctx) = md_zero) as -> by (destruct (inited ctx), Hz as [Hz|Hz]; done).
  destruct (mp_setup Hp t) as [m Hm]. rewrite Hm. destruct (mp_starts Hp m t None) as [m' Hm']; [by apply md_setup_ok|]. rewrite Hm'. by eexists.
Qed.
Lemma update_runs ctx t d x : reading ctx t d → ∃ c, EVP_DigestUpdate ctx x = (1, c) ∧ reading c t (d ++ x).
Proof using Type*.
  intros Hr. assert (∃ c, EVP_DigestUpdate ctx x = (1, c)) as [c E]; [|exists c; split; [done|]; by eapply update_reading].
  destruct Hr as [Hi Hh]. unfold EVP_DigestUpdate. rewrite Hi. destruct (mp_update Hp _ _ _ x Hh) as [m ->]. by eexists.
Qed.
Lemma final_runs ctx t d : reading ctx t d → ∃ c, EVP_DigestFinal_ex ctx = (1, Some (md_hash t d), c) ∧ reading c t [].
Proof using Type*.
  intros Hr. assert (∃ o c, EVP_DigestFinal_ex ctx = (1, o, c)) as (o & c & E).
  { destruct Hr as [Hi Hh]. unfold EVP_DigestFinal_ex. rewrite Hi. destruct (mp_finish Hp _ _ _ Hh) as [[out m] E]. rewrite E. cbn.
    destruct (md_finish_ok _ _ _ _ _ Hh E) as [_ Hm]. destruct (mp_starts Hp m t None Hm) as [m' ->]. by eexists _, _. }
  destruct (final_reading ctx t d o c Hr E) as [-> Hc]. by exists c.
Qed.

Lemma updates_run ds : ∀ ctx t d, reading ctx t d → ∃ c, updates ctx ds = (true, c) ∧ reading c t (d ++ concat ds).
Proof using Type*.
  induction ds as [|x ds IH]; intros ctx t d Hr; cbn [updates concat]; [exists ctx; by rewrite app_nil_r|].
  destruct (update_runs ctx t d x Hr) as (c & -> & Hc). cbn. rewrite app_assoc. by apply IH.
Qed.
Lemma run_update c t d x : reading c t d → ∃ c', update (Some c) x = Some c' ∧ reading c' t (d ++ x).
Proof using Type*. intros Hr. destruct (update_runs c t d x Hr) as (c' & E & Hc). exists c'. split; [|done]. cbn. by rewrite E. Qed.
Lemma part_runs c t d label payload :
  zlen payload < 2 ^ 64 → reading c t d →
  ∃ c', transcript_part (Some c) label payload = Some c' ∧ reading c' t (d ++ WireV2.transcript_part label payload).
Proof using Type*.
  intros Hl Hr. pose proof (zlen_nonneg payload). unfold transcript_part, WireV2.transcript_part. rewrite u64_small by lia.
  destruct (run_update c t d [0] Hr) as (c1 & -> & K1). destruct (run_update c1 t _ (str_bytes label) K1) as (c2 & -> & K2).
  destruct (run_update c2 t _ [0] K2) as (c3 & -> & K3). destruct (run_update c3 t _ (be64_put (zlen payload)) K3) as (c4 & -> & K4). rewrite <- !app_assoc in K4.
  destruct (Z.eqb_spec (zlen payload) 0) as [E|E].
  - apply zlen_0_inv in E. subst payload. exists c4. split; [done|]. by rewrite app_nil_r.
  - destruct (run_update c4 t _ payload K4) as (c5 & -> & K5). exists c5. split; [done|]. by rewrite <- !app_assoc in K5.
Qed.
End Plenty.

(** Digests depend on the bytes and not on how they are handed over: with
    an mbedtls that does not fail, a context that is fresh or was used before
    yields the digest of the concatenation of all pieces and is then ready for
    the next message; the authentication key of the login is the MD5 digest of
    its seed, and the transcript the v2 keys are derived from is the SHA-256
    digest of the byte string that [WireV2] describes. *)
Lemma digests_stream (t : md_type) (ctx : EVP_MD_CTX) (ds : list bytes) (data ch sh : bytes) :
  md_plenty → md ctx = md_zero ∨ inited ctx = true → data ≠ [] → zlen ch < 2 ^ 64 → zlen sh < 2 ^ 64 →
  (∃ c0 c1 c2, EVP_DigestInit_ex ctx t = (1, c0) ∧ updates c0 ds = (true, c1) ∧
     EVP_DigestFinal_ex c1 = (1, Some (md_hash t (concat ds)), c2) ∧ reading c2 t []) ∧
  calc_md5 true data = Some (md_hash MBEDTLS_MD_MD5 data) ∧
  wire_v2_hash_transcript true ch sh = Some (WireV2.wire_v2_hash_transcript (md_hash MBEDTLS_MD_SHA256) ch sh).
Proof using Type*.
  intros Hp Hctx Hd Hch Hsh. split_and!.
  - destruct (init_runs Hp ctx t Hctx) as (c0 & E0 & K0). destruct (updates_run Hp ds c0 t [] K0) as (c1 & E1 & K1). destruct (final_runs Hp c1 t _ K1) as (c2 & E2 & K2). by exists c0, c1, c2.
  - unfold calc_md5, EVP_MD_CTX_new. assert (0 < zlen data) by (destruct data; [done|rewrite zlen_cons; pose proof (zlen_nonneg data); lia]). rewrite (proj2 (Z.leb_gt _ _)) by done.
    cbn [mbind option_bind]. destruct (init_runs Hp (mkMdCtx md_zero false) MBEDTLS_MD_MD5) as (c0 & -> & K0); [by left|]. cbn [Z.eqb negb].
    destruct (update_runs Hp c0 _ [] data K0) as (c1 & -> & K1). destruct (final_runs Hp c1 _ _ K1) as (c2 & -> & _). done.
  - unfold wire_v2_hash_transcript, EVP_MD_CTX_new. cbn [fmap option_fmap option_map]. destruct (init_runs Hp (mkMdCtx md_zero false) MBEDTLS_MD_SHA256) as (c0 & -> & K0); [by left|]. cbn [snd].
    destruct (run_update Hp c0 _ [] (str_bytes "frp wire v2 crypto transcript") K0) as (c1 & -> & K1). destruct (part_runs Hp c1 _ _ "client hello" ch Hch K1) as (c2 & -> & K2).
    destruct (part_runs Hp c2 _ _ "server hello" sh Hsh K2) as (c3 & -> & K3). cbn [mbind option_bind]. destruct (final_runs Hp c3 _ _ K3) as (c4 & -> & _). cbn [fst snd].
    unfold WireV2.wire_v2_hash_transcript, transcript_input. by rewrite <- !app_assoc.
Qed.

(** Without memory the transcript is not written. *)
Lemma transcript_unwritten ch sh : wire_v2_hash_transcript false ch sh = None.
Proof. unfold wire_v2_hash_transcript, transcript_part. cbn. by repeat case_match. Qed.
End Digest.

(** ** Witness *)

(** A toy digest: the length and the sum of the bytes. *)
Module ToyMd.
Definition hash (t : md_type) (d : bytes) : bytes := u8 (foldr Z.add 0 d) :: replicate (Z.to_nat (mbedtls_md_get_size t - 1)) (u8 (zlen d)).
#[export] Instance toy : MbedtlsMd := {
  md_state := option (md_type * option bytes);
  md_zero := None;
  mbedtls_md_setup t _ := Some (Some (t, None));
  mbedtls_md_starts s := '(t, _) ← s; Some (Some (t, Some []));
  mbedtls_md_update s x := '(t, o) ← s; d ← o; Some (Some (t, Some (d ++ x)));
  mbedtls_md_finish s := '(t, o) ← s; d ← o; Some (hash t d, Some (t, None));
  mbedtls_md_hmac t k d := Some (hash t (k ++ d));
  mbedtls_pkcs5_pbkdf2_hmac_ext t p s i n := Some (replicate (Z.to_nat n) (u8 (zlen p)));
  md_hash := hash;
  md_holds s t o := s = Some (t, o);
}.
#[export] Instance toy_md_ok : MbedtlsMdOk.
Proof.
  split; cbn.
  - by intros t s [= <-].
  - by intros s t o s' -> [= <-].
  - by intros s t d x s' -> [= <-].
  - by intros s t d out s' -> [= <- <-].
  - intros [] d; unfold hash; rewrite zlen_cons, zlen_replicate; done.
Qed.
Lemma toy_md_plenty : md_plenty.
Proof. split; cbn; [by eexists|by intros s t o ->; eexists|by intros s t d x ->; eexists|by intros s t d ->; eexists]. Qed.
End ToyMd.
Import ToyMd.

Lemma digests_stream_witness :
  calc_md5 true [1; 2; 3] = Some (ToyMd.hash MBEDTLS_MD_MD5 [1; 2; 3]) ∧
  wire_v2_hash_transcript true [1] [] = Some (WireV2.wire_v2_hash_transcript (ToyMd.hash MBEDTLS_MD_SHA256) [1] []).
Proof.
  destruct (digests_stream MBEDTLS_MD_SHA1 (mkMdCtx md_zero false) [[1]; [2; 3]] [1; 2; 3] [1] [] ToyMd.toy_md_plenty) as (_ & H1 & H2);
    [by left|done|vm_compute; reflexivity..|]. split; [exact H1|exact H2].
Defined.
