(* ===== verification/CryptoStream.v ===== *)
(** * Payload encryption of proxied connections

    Models [src/src/crypto_stream.c] (AES-128-CFB contexts with the iv sent in
    front of the stream, the snappy wrappers) and the two functions of
    [src/src/proxy_tcp.c] that run a buffer through them.  The cipher is the
    EVP layer of [Evp]; PBKDF2 and snappy are parameters. *)

From S2P Require Import Prelude Evp.

Definition AES_BLOCK_SIZE : Z := 16.

Section Ctx.
Context `{Mbedtls}.

Record crypto_ctx := mkCrypto {
  cc_cipher : mini_evp_cipher_ctx;
  cc_key : bytes;
  cc_iv : bytes;
  cc_iv_sent : bool;
  cc_iv_received : bool;
  cc_is_writer : bool;
}.

(** [pbkdf2 token salt] is the 64-iteration derivation ([None]: it failed). *)
Definition crypto_derive_key (pbkdf2 : bytes → bytes → option bytes) (token : option bytes)
    : option bytes :=
  t ← token; pbkdf2 t (str_bytes "frp").

(** [mem] answers the two allocations; [rand] is the generated iv, [None] when
    [RAND_bytes] fails. *)
Definition crypto_ctx_new_writer (mem : bool) (rand : option bytes) (key : bytes)
    : option crypto_ctx :=
  if negb mem then None else
  iv ← rand;
  let '(r, c) := EVP_EncryptInit_ex EVP_CIPHER_CTX_new (Some MINI_EVP_AES_128_CFB)
                   (Some key) (Some iv) in
  if negb (r =? 1) then None
  else Some (mkCrypto c key iv false false true).

Definition crypto_ctx_new_reader (mem : bool) (key : bytes) : option crypto_ctx :=
  if negb mem then None
  else Some (mkCrypto EVP_CIPHER_CTX_new key (replicate 16 0) false false false).

Definition crypto_get_iv (ctx : crypto_ctx) : option bytes :=
  if negb (cc_is_writer ctx) then None else Some (cc_iv ctx).

Definition crypto_set_iv (ctx : crypto_ctx) (iv : bytes) : Z * crypto_ctx :=
  if cc_is_writer ctx then (-1, ctx)
  else
    let '(r, c) := EVP_DecryptInit_ex (cc_cipher ctx) (Some MINI_EVP_AES_128_CFB)
                     (Some (cc_key ctx)) (Some iv) in
    if negb (r =? 1) then (-1, mkCrypto c (cc_key ctx) (cc_iv ctx) (cc_iv_sent ctx)
                                 (cc_iv_received ctx) (cc_is_writer ctx))
    else (0, mkCrypto c (cc_key ctx) (cc_iv ctx) (cc_iv_sent ctx) true (cc_is_writer ctx)).

Definition crypto_writer_iv_sent (ctx : crypto_ctx) : bool := cc_iv_sent ctx.
Definition crypto_writer_set_iv_sent (ctx : crypto_ctx) : crypto_ctx :=
  mkCrypto (cc_cipher ctx) (cc_key ctx) (cc_iv ctx) true (cc_iv_received ctx) (cc_is_writer ctx).
Definition crypto_reader_iv_received (ctx : crypto_ctx) : bool := cc_iv_received ctx.
Definition crypto_reader_set_iv_received (ctx : crypto_ctx) : crypto_ctx :=
  mkCrypto (cc_cipher ctx) (cc_key ctx) (cc_iv ctx) (cc_iv_sent ctx) true (cc_is_writer ctx).

Definition set_cipher (ctx : crypto_ctx) (c : mini_evp_cipher_ctx) : crypto_ctx :=
  mkCrypto c (cc_key ctx) (cc_iv ctx) (cc_iv_sent ctx) (cc_iv_received ctx) (cc_is_writer ctx).

(** In place: the status, the data as it is left, and the context. *)
Definition crypto_encrypt (ctx : crypto_ctx) (data : bytes) : Z * bytes * crypto_ctx :=
  if negb (cc_is_writer ctx) || (zlen data =? 0) then (-1, data, ctx)
  else
    let '(r, out, c) := EVP_EncryptUpdate (cc_cipher ctx) true data in
    if negb (r =? 1) then (-1, data, set_cipher ctx c) else (0, out, set_cipher ctx c).

Definition crypto_decrypt (ctx : crypto_ctx) (data : bytes) : Z * bytes * crypto_ctx :=
  if cc_is_writer ctx || (zlen data =? 0) then (-1, data, ctx)
  else
    let '(r, out, c) := EVP_DecryptUpdate (cc_cipher ctx) true data in
    if negb (r =? 1) then (-1, data, set_cipher ctx c) else (0, out, set_cipher ctx c).
End Ctx.

(** ** Snappy

    The vendored compressor; [None] for a status other than 0. *)
Record snappy := mkSnappy {
  sn_enabled : bool;       (** [CONFIG_XFRPC_ENABLE_COMPRESSION] *)
  sn_max : Z → Z;
  sn_compress : bytes → option bytes;
  sn_length : bytes → option Z;
  sn_uncompress : bytes → option bytes;
}.

Definition xfrpc_max_compressed_length (sn : snappy) (n : Z) : Z :=
  if sn_enabled sn then sn_max sn n else 0.

Definition xfrpc_compress (sn : snappy) (data : bytes) : option bytes :=
  if negb (sn_enabled sn) || (zlen data =? 0) then None else sn_compress sn data.

Definition xfrpc_decompress (sn : snappy) (data : bytes) (out_buf_size : Z) : option bytes :=
  if negb (sn_enabled sn) || (zlen data =? 0) then None
  else
    n ← sn_length sn data;
    if out_buf_size <? n then None
    else out ← sn_uncompress sn data; Some (ztake n out).

(** ** The codec state of a proxy client *)

Section Codec.
Context `{Mbedtls} (sn : snappy).

Record codec := mkCodec {
  use_encryption : bool;
  use_compression : bool;
  encrypt_ctx : option crypto_ctx;
  decrypt_ctx : option crypto_ctx;
}.

Definition with_enc (c : codec) (e : crypto_ctx) : codec :=
  mkCodec (use_encryption c) (use_compression c) (Some e) (decrypt_ctx c).
Definition with_dec (c : codec) (d : crypto_ctx) : codec :=
  mkCodec (use_encryption c) (use_compression c) (encrypt_ctx c) (Some d).

(** [mem] answers the [malloc] of the compression buffer.  The result is the
    codec, what is left of [src] (nothing) and what is appended to [dst]. *)
Definition crypto_encode_evbuffer (mem : bool) (c : codec) (src : bytes)
    : codec * bytes * bytes :=
  if zlen src =? 0 then (c, src, [])
  else
    let comp := if use_compression c && negb (xfrpc_max_compressed_length sn (zlen src) =? 0) && mem
                then xfrpc_compress sn src else None in
    let work := match comp with Some d => d | None => src end in
    match (if use_encryption c then encrypt_ctx c else None) with
    | Some e =>
        let '(pre, e1) :=
          if crypto_writer_iv_sent e then ([], e)
          else (match crypto_get_iv e with Some iv => iv | None => [] end,
                crypto_writer_set_iv_sent e) in
        let '(_, work', e2) := crypto_encrypt e1 work in
        (with_enc c e2, [], pre ++ work')
    | None => (c, [], work)
    end.

(** [mem1], [mem2]: the copy and the decompression buffer. *)
Definition proxy_crypto_decode_evbuffer (mem1 mem2 : bool) (c : codec) (src : bytes)
    : codec * bytes * bytes :=
  if zlen src =? 0 then (c, src, [])
  else
    let tail c src :=
      if negb mem1 then (c, src, [])
      else
        let '(work, c1) :=
          match (if use_encryption c then decrypt_ctx c else None) with
          | Some d => let '(_, work, d') := crypto_decrypt d src in (work, with_dec c d')
          | None => (src, c)
          end in
        if use_compression c && mem2 then
          match xfrpc_decompress sn work (u32 (zlen src * 4)) with
          | Some out => (c1, [], out)
          | None => (c1, [], work)
          end
        else (c1, [], work) in
    match (if use_encryption c then decrypt_ctx c else None) with
    | Some d =>
        if crypto_reader_iv_received d then tail c src
        else if zlen src <? 16 then (c, src, [])
        else
          let '(_, d1) := crypto_set_iv d (ztake 16 src) in
          let c1 := with_dec c (crypto_reader_set_iv_received d1) in
          let src1 := zdrop 16 src in
          if zlen src1 =? 0 then (c1, src1, []) else tail c1 src1
    | None => tail c src
    end.

(** ** Streams through the codec *)

(** Successive read callbacks of the sending side. *)
Fixpoint encode_all (c : codec) (chunks : list bytes) : codec * bytes :=
  match chunks with
  | [] => (c, [])
  | x :: chunks =>
      let '(c1, _, out) := crypto_encode_evbuffer true c x in
      let '(c2, outs) := encode_all c1 chunks in (c2, out ++ outs)
  end.

(** Successive read callbacks of the receiving side: what arrives is appended
    to the bytes left in the input buffer. *)
Fixpoint decode_all (c : codec) (left : bytes) (chunks : list bytes) : codec * bytes * bytes :=
  match chunks with
  | [] => (c, left, [])
  | x :: chunks =>
      let '(c1, left1, out) := proxy_crypto_decode_evbuffer true true c (left ++ x) in
      let '(c2, left2, outs) := decode_all c1 left1 chunks in (c2, left2, out ++ outs)
  end.

(** ** Encryption without compression is a stream cipher *)

Definition plain_codec (c : codec) : Prop := use_encryption c = true ∧ use_compression c = false.

Definition cfb_ready (ctx : mini_evp_cipher_ctx) : Prop :=
  e_cipher_id ctx = Some MINI_EVP_AES_128_CFB.

Definition writer_ready (e : crypto_ctx) : Prop :=
  cc_is_writer e = true ∧ cfb_ready (cc_cipher e).

Definition enc_out (e : crypto_ctx) (x : bytes) : cfb_st * bytes :=
  aes_crypt_cfb128 MBEDTLS_ENCRYPT (e_cfb (cc_cipher e)) x.

Lemma crypto_encrypt_ready e x :
  writer_ready e → x ≠ [] →
  crypto_encrypt e x =
    let '(st, o) := enc_out e x in (0, o, set_cipher e (set_cfb (cc_cipher e) st)).
Proof.
  intros [Hw Hc] Hx. unfold crypto_encrypt, EVP_EncryptUpdate, cfb_update, enc_out.
  rewrite Hw, Hc. simpl. destruct (zlen x =? 0) eqn:E; b2p; [by apply zlen_0_inv in E|].
  simpl. by destruct (aes_crypt_cfb128 _ _ _).
Qed.

Lemma set_cipher_ready e st :
  writer_ready e → writer_ready (set_cipher e (set_cfb (cc_cipher e) st)).
Proof. by intros [? ?]. Qed.

Lemma encode_all_sent c e chunks :
  plain_codec c → encrypt_ctx c = Some e → writer_ready e → cc_iv_sent e = true →
  snd (encode_all c chunks) = snd (enc_out e (concat chunks)).
Proof.
  revert c e. induction chunks as [|x chunks IH]; intros c e Hp He Hw Hs; simpl.
  { unfold enc_out. by rewrite cfb_nil. }
  destruct Hp as [Hue Huc].
  destruct (decide (x = [])) as [->|Hx].
  { unfold crypto_encode_evbuffer. simpl. specialize (IH c e (conj Hue Huc) He Hw Hs).
    destruct (encode_all c chunks). simpl in *. done. }
  unfold crypto_encode_evbuffer. rewrite Hue, Huc, He. simpl.
  destruct (zlen x =? 0) eqn:E; b2p; [by apply zlen_0_inv in E|].
  unfold crypto_writer_iv_sent. rewrite Hs. simpl. rewrite crypto_encrypt_ready by done.
  unfold enc_out at 1. destruct (aes_crypt_cfb128 _ _ x) as [st o] eqn:Ex. simpl.
  set (e2 := set_cipher e (set_cfb (cc_cipher e) st)).
  pose proof (IH (with_enc c e2) e2 (conj Hue Huc) eq_refl (set_cipher_ready e st Hw) Hs) as IH'.
  destruct (encode_all (with_enc c e2) chunks) as [c2 outs]. simpl in *. rewrite IH'.
  unfold enc_out. rewrite cfb_app, Ex. unfold e2. simpl.
  by destruct (aes_crypt_cfb128 MBEDTLS_ENCRYPT st (concat chunks)).
Qed.

Lemma encode_all_fresh c e chunks :
  plain_codec c → encrypt_ctx c = Some e → writer_ready e → cc_iv_sent e = false →
  concat chunks ≠ [] →
  snd (encode_all c chunks) = cc_iv e ++ snd (enc_out e (concat chunks)).
Proof.
  revert c. induction chunks as [|x chunks IH]; intros c Hp He Hw Hs Hne; simpl; [done|].
  destruct Hp as [Hue Huc].
  destruct (decide (x = [])) as [->|Hx].
  { unfold crypto_encode_evbuffer. simpl. specialize (IH c (conj Hue Huc) He Hw Hs Hne).
    destruct (encode_all c chunks). simpl in *. done. }
  unfold crypto_encode_evbuffer. rewrite Hue, Huc, He. simpl.
  destruct (zlen x =? 0) eqn:E; b2p; [by apply zlen_0_inv in E|].
  unfold crypto_writer_iv_sent, crypto_get_iv. rewrite Hs. destruct Hw as [Hwr Hcr]. rewrite Hwr. simpl.
  rewrite crypto_encrypt_ready by done.
  unfold enc_out at 1. simpl. destruct (aes_crypt_cfb128 _ _ x) as [st o] eqn:Ex. simpl.
  set (e2 := set_cipher (crypto_writer_set_iv_sent e) (set_cfb (cc_cipher e) st)).
  pose proof (encode_all_sent (with_enc c e2) e2 chunks (conj Hue Huc) eq_refl (conj Hwr Hcr) eq_refl)
    as IH'.
  destruct (encode_all (with_enc c e2) chunks) as [c2 outs]. simpl in *. rewrite IH', <- app_assoc.
  unfold enc_out. rewrite cfb_app, Ex. unfold e2. simpl.
  by destruct (aes_crypt_cfb128 MBEDTLS_ENCRYPT st (concat chunks)).
Qed.

Definition reader_ready (d : crypto_ctx) : Prop :=
  cc_is_writer d = false ∧ cc_iv_received d = true ∧ cfb_ready (cc_cipher d).

Definition dec_out (d : crypto_ctx) (x : bytes) : cfb_st * bytes :=
  aes_crypt_cfb128 MBEDTLS_DECRYPT (e_cfb (cc_cipher d)) x.

Lemma crypto_decrypt_ready d x :
  reader_ready d → x ≠ [] →
  crypto_decrypt d x =
    let '(st, o) := dec_out d x in (0, o, set_cipher d (set_cfb (cc_cipher d) st)).
Proof.
  intros (Hw & _ & Hc) Hx. unfold crypto_decrypt, EVP_DecryptUpdate, cfb_update, dec_out.
  rewrite Hw, Hc. simpl. destruct (zlen x =? 0) eqn:E; b2p; [by apply zlen_0_inv in E|].
  simpl. by destruct (aes_crypt_cfb128 _ _ _).
Qed.

(** One call on a reader that has its iv. *)
Lemma decode_ready c d x :
  plain_codec c → decrypt_ctx c = Some d → reader_ready d →
  ∃ c' d', proxy_crypto_decode_evbuffer true true c x = (c', [], snd (dec_out d x)) ∧
    plain_codec c' ∧ decrypt_ctx c' = Some d' ∧ reader_ready d' ∧
    e_cfb (cc_cipher d') = fst (dec_out d x).
Proof.
  intros [Hue Huc] Hd Hr. unfold proxy_crypto_decode_evbuffer.
  destruct (zlen x =? 0) eqn:E; b2p.
  { apply zlen_0_inv in E as ->. exists c, d. unfold dec_out. by rewrite cfb_nil. }
  rewrite Hue, Hd. pose proof Hr as (_ & Hiv & _). unfold crypto_reader_iv_received. rewrite Hiv.
  simpl. rewrite ?Hue, ?Hd. rewrite crypto_decrypt_ready by (done || (intros ->; done)).
  destruct (dec_out d x) as [st o]. rewrite Huc. simpl.
  eexists _, _. split; [done|]. by destruct Hr as (? & ? & ?).
Qed.

Lemma decode_all_ready chunks c d :
  plain_codec c → decrypt_ctx c = Some d → reader_ready d →
  ∃ c', decode_all c [] chunks = (c', [], snd (dec_out d (concat chunks))).
Proof.
  revert c d. induction chunks as [|x chunks IH]; intros c d Hp Hd Hr; simpl.
  { exists c. unfold dec_out. by rewrite cfb_nil. }
  destruct (decode_ready c d x Hp Hd Hr) as (c1 & d1 & -> & Hp1 & Hd1 & Hr1 & Hst).
  destruct (IH c1 d1 Hp1 Hd1 Hr1) as (c2 & ->). exists c2.
  unfold dec_out in *. rewrite cfb_app. rewrite Hst.
  destruct (aes_crypt_cfb128 _ (e_cfb (cc_cipher d)) x) as [st o]. simpl.
  by destruct (aes_crypt_cfb128 MBEDTLS_DECRYPT st (concat chunks)).
Qed.

Definition reader_waiting (d : crypto_ctx) : Prop :=
  cc_is_writer d = false ∧ cc_iv_received d = false ∧ cc_cipher d = EVP_CIPHER_CTX_new.

(** The reader after the iv. *)
Definition keyed (d : crypto_ctx) (iv : bytes) : crypto_ctx :=
  crypto_reader_set_iv_received (snd (crypto_set_iv d iv)).

Lemma keyed_ready d iv :
  reader_waiting d →
  reader_ready (keyed d iv) ∧ e_cfb (cc_cipher (keyed d iv)) = cfb_start (cc_key d) iv.
Proof.
  intros (Hw & Hiv & Hc). unfold keyed, crypto_set_iv. by rewrite Hw, Hc.
Qed.

Lemma decode_all_waiting chunks c d left iv y :
  plain_codec c → decrypt_ctx c = Some d → reader_waiting d → zlen iv = 16 →
  zlen left < 16 → left ++ concat chunks = iv ++ y →
  ∃ c', decode_all c left chunks =
    (c', [], snd (aes_crypt_cfb128 MBEDTLS_DECRYPT (cfb_start (cc_key d) iv) y)).
Proof.
  revert left. induction chunks as [|x chunks IH]; intros left Hp Hd Hw Hiv Hl E.
  { simpl in E. rewrite app_nil_r in E. subst left. rewrite zlen_app in Hl. lens. }
  simpl in E. rewrite app_assoc in E. pose proof Hp as [Hue Huc]. cbn [decode_all].
  destruct (decide (zlen (left ++ x) < 16)) as [Hlt|Hge].
  - destruct (IH (left ++ x) Hp Hd Hw Hiv Hlt E) as (c' & Hc').
    assert (proxy_crypto_decode_evbuffer true true c (left ++ x) = (c, left ++ x, [])) as ->.
    { unfold proxy_crypto_decode_evbuffer. case_if; [done|]. rewrite Hue, Hd.
      destruct Hw as (_ & Hr & _). unfold crypto_reader_iv_received. rewrite Hr.
      by rewrite (proj2 (Z.ltb_lt _ _)). }
    rewrite Hc'. by exists c'.
  - symmetry in E. apply app_eq_app_le in E as (rest & Hrest & ->); [|lia].
    destruct (keyed_ready d iv Hw) as [Hkr Hks].
    set (c1 := with_dec c (keyed d iv)).
    assert (plain_codec c1 ∧ decrypt_ctx c1 = Some (keyed d iv)) as [Hp1 Hd1] by done.
    assert (∃ c2 d2, proxy_crypto_decode_evbuffer true true c (left ++ x)
              = (c2, [], snd (dec_out (keyed d iv) rest)) ∧
            plain_codec c2 ∧ decrypt_ctx c2 = Some d2 ∧ reader_ready d2 ∧
            e_cfb (cc_cipher d2) = fst (dec_out (keyed d iv) rest)) as (c2 & d2 & -> & Hp2 & Hd2 & Hr2 & Hst).
    { rewrite Hrest. destruct (decode_ready c1 (keyed d iv) rest Hp1 Hd1 Hkr) as (c2 & d2 & Hdec & Hrem).
      exists c2, d2. split; [|done]. rewrite <- Hdec.
      unfold proxy_crypto_decode_evbuffer.
      destruct (zlen (iv ++ rest) =? 0) eqn:E0; b2p; [lens|]. rewrite Hue, Hd.
      pose proof Hw as (_ & Hr & _). unfold crypto_reader_iv_received. rewrite Hr.
      rewrite (proj2 (Z.ltb_ge _ _)) by lens. rewrite ztake_app_exact, zdrop_app_exact by lia.
      destruct (crypto_set_iv d iv) as [rc d1] eqn:Es.
      assert (crypto_reader_set_iv_received d1 = keyed d iv) as -> by (unfold keyed; by rewrite Es).
      fold c1. destruct (zlen rest =? 0) eqn:Er; b2p.
      + apply zlen_0_inv in Er as ->. done.
      + assert (use_encryption c1 = true) as Hue1 by done. rewrite !Hue1, !Hd1.
        destruct Hkr as (_ & Hkr & _). by rewrite Hkr. }
    destruct (decode_all_ready chunks c2 d2 Hp2 Hd2 Hr2) as (c' & ->). exists c'. f_equal.
    unfold dec_out in *. rewrite Hst, <- Hks, cfb_app.
    destruct (aes_crypt_cfb128 _ (e_cfb (cc_cipher (keyed d iv))) rest) as [s1 o1]. simpl.
    by destruct (aes_crypt_cfb128 MBEDTLS_DECRYPT s1 (concat chunks)).
Qed.
End Codec.


#[local] Existing Instance Toy.mbedtls.

Definition no_snappy : snappy := mkSnappy false (λ _, 0) (λ _, None) (λ _, None) (λ _, None).

Definition toy_crypto_writer : crypto_ctx :=
  mkCrypto (snd (EVP_EncryptInit_ex EVP_CIPHER_CTX_new (Some MINI_EVP_AES_128_CFB)
                   (Some (replicate 16 1)) (Some (replicate 16 9))))
    (replicate 16 1) (replicate 16 9) false false true.
Definition toy_crypto_reader : crypto_ctx :=
  mkCrypto EVP_CIPHER_CTX_new (replicate 16 1) (replicate 16 0) false false false.

