(* ===== verification/Coder.v ===== *)
(** * The control channel's encoder and decoder

    Models [src/src/crypto.c]: the global encoder and decoder ([frp_coder])
    and the persistent EVP contexts that make successive calls of
    [encrypt_data] and [decrypt_data] one CFB stream.  PBKDF2 and the random
    generator are parameters. *)

From S2P Require Import Prelude Evp.

Definition block_size : Z := 16.
Definition default_salt : bytes := str_bytes "frp".

Record frp_coder := mkCoder {
  fc_key : bytes;
  fc_salt : bytes;
  fc_iv : bytes;
  fc_token : bytes;
  fc_iv_sent : bool;
}.

Section Coder.
Context `{Mbedtls} (pbkdf2 : bytes → bytes → option bytes).

(** The file's static variables. *)
Record coders := mkCoders {
  main_encoder : option frp_coder;
  main_decoder : option frp_coder;
  enc_ctx : option mini_evp_cipher_ctx;
  dec_ctx : option mini_evp_cipher_ctx;
}.

Definition no_coders : coders := mkCoders None None None None.

Definition free_all_frp_coders (s : coders) : coders :=
  mkCoders None None (enc_ctx s) (dec_ctx s).
Definition free_crypto_resources (s : coders) : coders :=
  let s := free_all_frp_coders s in mkCoders (main_encoder s) (main_decoder s) None None.

(** The key stays zero when the derivation fails (the status is ignored). *)
Definition encrypt_key (token salt : bytes) : bytes :=
  match pbkdf2 token salt with Some k => k | None => replicate 16 0 end.

(** [rand]: [None] when [RAND_bytes] fails. *)
Definition encrypt_iv (rand : option bytes) (iv_len : Z) : option bytes :=
  if iv_len <? block_size then None else rand.

(** [mem]: whether [calloc] and both [strdup] succeed. *)
Definition new_coder (mem : bool) (rand : option bytes) (token : option bytes) (salt : bytes)
    : option frp_coder :=
  if negb mem then None
  else
    let t := match token with Some t => t | None => [] end in
    let key := encrypt_key t salt in
    iv ← encrypt_iv rand block_size;
    Some (mkCoder key salt iv t false).

Definition clone_coder (mem : bool) (coder : frp_coder) : option frp_coder :=
  if negb mem then None
  else Some (mkCoder (fc_key coder) (fc_salt coder) (fc_iv coder) (fc_token coder) false).

Definition init_main_encoder (mem : bool) (rand token : option bytes) (s : coders)
    : option frp_coder * coders :=
  let enc :=
    match main_decoder s with
    | Some d =>
        e ← clone_coder mem d;
        iv ← encrypt_iv rand block_size;
        Some (mkCoder (fc_key e) (fc_salt e) iv (fc_token e) (fc_iv_sent e))
    | None => new_coder mem rand token default_salt
    end in
  (enc, mkCoders enc (main_decoder s) None (dec_ctx s)).

(** [conf] tells whether [get_common_config] is non-null; [iv] is [None] for a
    null pointer. *)
Definition init_main_decoder (conf mem : bool) (rand token : option bytes) (iv : option bytes)
    (s : coders) : option frp_coder * coders :=
  match conf, iv with
  | true, Some iv =>
      match new_coder mem rand token default_salt with
      | None => (None, mkCoders (main_encoder s) None (enc_ctx s) (dec_ctx s))
      | Some d =>
          let d' := mkCoder (fc_key d) (fc_salt d) iv (fc_token d) (fc_iv_sent d) in
          (Some d', mkCoders (main_encoder s) (Some d') (enc_ctx s) None)
      end
  | _, _ => (None, s)
  end.

Definition is_encoder_inited (s : coders) : bool := bool_decide (is_Some (main_encoder s)).
Definition is_decoder_inited (s : coders) : bool := bool_decide (is_Some (main_decoder s)).

Definition with_enc_ctx (s : coders) (c : mini_evp_cipher_ctx) : coders :=
  mkCoders (main_encoder s) (main_decoder s) (Some c) (dec_ctx s).
Definition with_dec_ctx (s : coders) (c : mini_evp_cipher_ctx) : coders :=
  mkCoders (main_encoder s) (main_decoder s) (enc_ctx s) (Some c).

(** [mem1]: the output buffer; [mem2]: the cipher context.  The result is the
    length and the bytes of [*ret]. *)
Definition encrypt_data (mem1 mem2 : bool) (src : bytes) (encoder : option frp_coder) (s : coders)
    : Z * bytes * coders :=
  match encoder with
  | None => (0, [], s)
  | Some e =>
      if negb mem1 then (0, [], s) else
      let with_ctx := with_enc_ctx s in
      let go c :=
        let '(r, out, c1) := EVP_EncryptUpdate c true src in
        if r =? 0 then (0, [], with_ctx c1) else
        let '(r2, c2) := EVP_EncryptFinal_ex c1 in
        if r2 =? 0 then (0, [], with_ctx c2) else (zlen out, out, with_ctx c2) in
      match enc_ctx s with
      | Some c => go c
      | None =>
          if negb mem2 then (0, [], s)
          else go (snd (EVP_EncryptInit_ex EVP_CIPHER_CTX_new (Some MINI_EVP_AES_128_CFB)
                          (Some (fc_key e)) (Some (fc_iv e))))
      end
  end.

Definition decrypt_data (mem1 mem2 : bool) (src : bytes) (decoder : option frp_coder) (s : coders)
    : Z * bytes * coders :=
  match decoder with
  | None => (0, [], s)
  | Some d =>
      if negb mem1 then (0, [], s) else
      let with_ctx := with_dec_ctx s in
      let go c :=
        let '(r, out, c1) := EVP_DecryptUpdate c true src in
        if r =? 0 then (0, [], with_ctx c1) else
        let '(r2, c2) := EVP_DecryptFinal_ex c1 in
        if r2 =? 0 then (0, [], with_ctx c2) else (zlen out, out, with_ctx c2) in
      match dec_ctx s with
      | Some c => go c
      | None =>
          if negb mem2 then (0, [], s)
          else go (snd (EVP_DecryptInit_ex EVP_CIPHER_CTX_new (Some MINI_EVP_AES_128_CFB)
                          (Some (fc_key d)) (Some (fc_iv d))))
      end
  end.

(** Successive calls with the main coder. *)
Fixpoint encrypt_all (s : coders) (msgs : list bytes) : bytes :=
  match msgs with
  | [] => []
  | m :: msgs =>
      let '(_, out, s1) := encrypt_data true true m (main_encoder s) s in out ++ encrypt_all s1 msgs
  end.

Fixpoint decrypt_all (s : coders) (chunks : list bytes) : bytes :=
  match chunks with
  | [] => []
  | m :: chunks =>
      let '(_, out, s1) := decrypt_data true true m (main_decoder s) s in out ++ decrypt_all s1 chunks
  end.

(** ** One CFB stream per initialisation *)

(** Where the next encryption starts. *)
Definition enc_state (s : coders) (st : cfb_st) : Prop :=
  match enc_ctx s with
  | Some c => e_cipher_id c = Some MINI_EVP_AES_128_CFB ∧ e_cfb c = st
  | None => ∃ e, main_encoder s = Some e ∧ st = cfb_start (fc_key e) (fc_iv e)
  end.
Definition dec_state (s : coders) (st : cfb_st) : Prop :=
  match dec_ctx s with
  | Some c => e_cipher_id c = Some MINI_EVP_AES_128_CFB ∧ e_cfb c = st
  | None => ∃ d, main_decoder s = Some d ∧ st = cfb_start (fc_key d) (fc_iv d)
  end.

Lemma cfb_update_total mode c x :
  ∃ c', cfb_update mode c true x = (1, snd (aes_crypt_cfb128 mode (e_cfb c) x), c') ∧
    e_cipher_id c' = e_cipher_id c ∧ e_cfb c' = fst (aes_crypt_cfb128 mode (e_cfb c) x).
Proof.
  unfold cfb_update. simpl. case_if.
  - apply zlen_0_inv in Hc as ->. exists c. by rewrite cfb_nil.
  - destruct (aes_crypt_cfb128 mode (e_cfb c) x) as [st o]. by eexists.
Qed.

Lemma encrypt_data_stream s st e x :
  main_encoder s = Some e → enc_state s st →
  ∃ s', encrypt_data true true x (main_encoder s) s
        = (zlen x, snd (aes_crypt_cfb128 MBEDTLS_ENCRYPT st x), s') ∧
    main_encoder s' = Some e ∧ enc_state s' (fst (aes_crypt_cfb128 MBEDTLS_ENCRYPT st x)).
Proof.
  intros He Hst. unfold encrypt_data. rewrite He. simpl.
  set (c := match enc_ctx s with Some c => c | None => snd (EVP_EncryptInit_ex EVP_CIPHER_CTX_new
     (Some MINI_EVP_AES_128_CFB) (Some (fc_key e)) (Some (fc_iv e))) end).
  assert (e_cipher_id c = Some MINI_EVP_AES_128_CFB ∧ e_cfb c = st) as [Hid Hcf].
  { unfold enc_state in Hst. unfold c. destruct (enc_ctx s); [done|].
    destruct Hst as (e' & He' & ->). by rewrite He in He'; injection He' as <-. }
  destruct (cfb_update_total MBEDTLS_ENCRYPT c x) as (c' & Hu & Hid' & Hst').
  rewrite Hcf in *. exists (with_enc_ctx s c').
  assert (EVP_EncryptUpdate c true x = (1, snd (aes_crypt_cfb128 MBEDTLS_ENCRYPT st x), c')) as Hup.
  { unfold EVP_EncryptUpdate. by rewrite Hid. }
  assert (EVP_EncryptFinal_ex c' = (1, c')) as Hfin.
  { unfold EVP_EncryptFinal_ex. rewrite Hid', Hid. done. }
  split; [|split; [done|]].
  - rewrite <- (cfb_len MBEDTLS_ENCRYPT st x).
    transitivity (let '(r, out, c1) := EVP_EncryptUpdate c true x in
        if r =? 0 then (0, [], with_enc_ctx s c1) else
        let '(r2, c2) := EVP_EncryptFinal_ex c1 in
        if r2 =? 0 then (0, [], with_enc_ctx s c2) else (zlen out, out, with_enc_ctx s c2)).
    + subst c. by destruct (enc_ctx s).
    + rewrite Hup. simpl. by rewrite Hfin.
  - unfold enc_state; simpl. by rewrite Hid'.
Qed.

Lemma decrypt_data_stream s st d x :
  main_decoder s = Some d → dec_state s st →
  ∃ s', decrypt_data true true x (main_decoder s) s
        = (zlen x, snd (aes_crypt_cfb128 MBEDTLS_DECRYPT st x), s') ∧
    main_decoder s' = Some d ∧ dec_state s' (fst (aes_crypt_cfb128 MBEDTLS_DECRYPT st x)).
Proof.
  intros He Hst. unfold decrypt_data. rewrite He. simpl.
  set (c := match dec_ctx s with Some c => c | None => snd (EVP_DecryptInit_ex EVP_CIPHER_CTX_new
     (Some MINI_EVP_AES_128_CFB) (Some (fc_key d)) (Some (fc_iv d))) end).
  assert (e_cipher_id c = Some MINI_EVP_AES_128_CFB ∧ e_cfb c = st) as [Hid Hcf].
  { unfold dec_state in Hst. unfold c. destruct (dec_ctx s); [done|].
    destruct Hst as (e' & He' & ->). by rewrite He in He'; injection He' as <-. }
  destruct (cfb_update_total MBEDTLS_DECRYPT c x) as (c' & Hu & Hid' & Hst').
  rewrite Hcf in *. exists (with_dec_ctx s c').
  assert (EVP_DecryptUpdate c true x = (1, snd (aes_crypt_cfb128 MBEDTLS_DECRYPT st x), c')) as Hup.
  { unfold EVP_DecryptUpdate. by rewrite Hid. }
  assert (EVP_DecryptFinal_ex c' = (1, c')) as Hfin.
  { unfold EVP_DecryptFinal_ex. rewrite Hid', Hid. done. }
  split; [|split; [done|]].
  - rewrite <- (cfb_len MBEDTLS_DECRYPT st x).
    transitivity (let '(r, out, c1) := EVP_DecryptUpdate c true x in
        if r =? 0 then (0, [], with_dec_ctx s c1) else
        let '(r2, c2) := EVP_DecryptFinal_ex c1 in
        if r2 =? 0 then (0, [], with_dec_ctx s c2) else (zlen out, out, with_dec_ctx s c2)).
    + subst c. by destruct (dec_ctx s).
    + rewrite Hup. simpl. by rewrite Hfin.
  - unfold dec_state; simpl. by rewrite Hid'.
Qed.

Lemma encrypt_all_stream s st e msgs :
  main_encoder s = Some e → enc_state s st →
  encrypt_all s msgs = snd (aes_crypt_cfb128 MBEDTLS_ENCRYPT st (concat msgs)).
Proof.
  revert s st. induction msgs as [|m msgs IH]; intros s st He Hs; simpl; [by rewrite cfb_nil|].
  destruct (encrypt_data_stream s st e m He Hs) as (s' & -> & He' & Hs').
  rewrite (IH s' _ He' Hs'), cfb_app.
  destruct (aes_crypt_cfb128 _ st m) as [st1 a]. simpl.
  by destruct (aes_crypt_cfb128 _ st1 (concat msgs)).
Qed.

Lemma decrypt_all_stream s st d msgs :
  main_decoder s = Some d → dec_state s st →
  decrypt_all s msgs = snd (aes_crypt_cfb128 MBEDTLS_DECRYPT st (concat msgs)).
Proof.
  revert s st. induction msgs as [|m msgs IH]; intros s st He Hs; simpl; [by rewrite cfb_nil|].
  destruct (decrypt_data_stream s st d m He Hs) as (s' & -> & He' & Hs').
  rewrite (IH s' _ He' Hs'), cfb_app.
  destruct (aes_crypt_cfb128 _ st m) as [st1 a]. simpl.
  by destruct (aes_crypt_cfb128 _ st1 (concat msgs)).
Qed.
End Coder.

(** The control channel cipher works across calls and reconnects: after
    [init_main_encoder] on one side (whatever old coder or context it had) and
    [init_main_decoder] with the transmitted iv on the other, with the same
    token, decrypting the concatenated ciphertext in pieces of any sizes gives
    the concatenated messages. *)
Lemma coder_roundtrip `{Mbedtls} (pbkdf2 : bytes → bytes → option bytes)
    (s t s' t' : coders) (token riv riv' : bytes) (e d : frp_coder) (msgs chunks : list bytes)
    (Hs : main_decoder s = None)
    (He : init_main_encoder pbkdf2 true (Some riv) (Some token) s = (Some e, s'))
    (Hd : init_main_decoder pbkdf2 true true (Some riv') (Some token) (Some (fc_iv e)) t
          = (Some d, t'))
    (Hc : concat chunks = encrypt_all s' msgs) :
  decrypt_all t' chunks = concat msgs.
Proof.
  revert He Hd. unfold init_main_encoder, init_main_decoder, new_coder. rewrite Hs. simpl.
  intros [= <- <-] [= <- <-].
  erewrite decrypt_all_stream; [|done|by eexists]. rewrite Hc.
  erewrite encrypt_all_stream; [|done|by eexists]. simpl.
  destruct (aes_crypt_cfb128 MBEDTLS_ENCRYPT _ (concat msgs)) as [st y] eqn:E. simpl.
  apply cfb_inv in E. by rewrite E.
Qed.

(** No iv reuse between directions: when the encoder is made after the
    decoder it takes the decoder's key but the iv just drawn from the random
    generator, marked as not yet sent, and the next encryption starts a new
    stream from that iv rather than continuing an old context. *)
Lemma encoder_iv_fresh `{Mbedtls} (pbkdf2 : bytes → bytes → option bytes)
    (s s' : coders) (d e : frp_coder) (token : option bytes) (riv : bytes)
    (Hd : main_decoder s = Some d)
    (He : init_main_encoder pbkdf2 true (Some riv) token s = (Some e, s')) :
  fc_key e = fc_key d ∧ fc_iv e = riv ∧ fc_iv_sent e = false ∧ main_decoder s' = Some d ∧
  ∀ x, snd (fst (encrypt_data true true x (main_encoder s') s')) =
       snd (aes_crypt_cfb128 MBEDTLS_ENCRYPT (cfb_start (fc_key d) riv) x).
Proof.
  revert He. unfold init_main_encoder. rewrite Hd. simpl. intros [= <- <-].
  split_and!; try done. intros x.
  match goal with |- context [encrypt_data _ _ _ _ ?s0] =>
    edestruct (encrypt_data_stream s0) as (s2 & E & _); [reflexivity|by eexists|] end.
  simpl in E |- *. by rewrite E.
Qed.

#[local] Existing Instance Toy.mbedtls.

Definition toy_pbkdf2 (token salt : bytes) : option bytes :=
  Some (replicate 16 (u8 (foldr Z.add 0 (token ++ salt)))).

Lemma coder_roundtrip_witness :
  ∃ s' t', decrypt_all t' (map (λ b, [b]) (encrypt_all s' [[104; 105]; [33]])) = [104; 105; 33].
Proof.
  exists (snd (init_main_encoder toy_pbkdf2 true (Some (replicate 16 5)) (Some [1; 2]) no_coders)).
  exists (snd (init_main_decoder toy_pbkdf2 true true (Some (replicate 16 6)) (Some [1; 2])
                 (Some (replicate 16 5)) no_coders)).
  eapply (coder_roundtrip toy_pbkdf2 no_coders no_coders _ _ [1; 2] (replicate 16 5)
            (replicate 16 6) _ _ [[104; 105]; [33]]); [reflexivity..|vm_compute; reflexivity].
Defined.

Definition toy_decoder : frp_coder :=
  mkCoder (replicate 16 7) default_salt (replicate 16 8) [1] true.
Definition toy_encoder : frp_coder :=
  mkCoder (replicate 16 7) default_salt (replicate 16 5) [1] false.

Lemma encoder_iv_fresh_witness :
  fc_key toy_encoder = fc_key toy_decoder ∧ fc_iv toy_encoder = replicate 16 5 ∧
  fc_iv toy_decoder = replicate 16 8.
Proof.
  destruct (encoder_iv_fresh toy_pbkdf2 (mkCoders None (Some toy_decoder) None None)
    (mkCoders (Some toy_encoder) (Some toy_decoder) None None) toy_decoder toy_encoder None
    (replicate 16 5)) as (H1 & H2 & _); [reflexivity|reflexivity|].
  split; [exact H1|]. split; [exact H2|reflexivity].
Defined.
