(* ===== verification/Json.v ===== *)
(** * JSON values

    The part of [src/port/json_compat.c] that reads a parsed JSON tree.  The
    tree itself comes from cJSON, which is not part of the sources: a number
    carries what cJSON and the C library make of it, its conversion to [int]
    and its [%g] text. *)

From S2P Require Import Prelude.

Inductive json :=
| JNull
| JBool (b : bool)
| JNumber (as_int : Z) (as_text : string)
| JString (s : string)
| JArray (l : list json)
| JObject (l : list (string * json)).

(** [cJSON_GetObjectItemCaseSensitive] takes the first member of that name. *)
Fixpoint member (key : string) (l : list (string * json)) : option json :=
  match l with
  | [] => None
  | (k, v) :: l => if bool_decide (k = key) then Some v else member key l
  end.

Definition json_object_object_get_ex (obj : json) (key : string) : option json :=
  match obj with JObject l => member key l | _ => None end.

(** [None] is a null pointer. *)
Definition json_object_get_string (j : json) : option string :=
  match j with
  | JString s => Some s
  | JNumber _ t => Some t
  | JBool b => Some (if b then "true" else "false")%string
  | _ => None
  end.

(** [cJSON_GetNumberValue] answers NaN for what is not a number, and converting
    NaN to [int] is undefined: [None]. *)
Definition json_object_get_int (j : json) : option Z :=
  match j with JNumber i _ => Some i | _ => None end.

(** [json_object_object_add]: replaces an existing key, and a null value
    deletes it.  cJSON appends. *)
Definition json_object_object_add (key : string) (v : option json) (l : list (string * json))
    : list (string * json) :=
  let l := filter (λ kv, kv.1 ≠ key) l in
  match v with Some j => l ++ [(key, j)] | None => l end.

Lemma member_filter_ne key k l : key ≠ k → member k (filter (λ kv, kv.1 ≠ key) l) = member k l.
Proof.
  intros Hne. induction l as [|[k' v] l IH]; [done|]. rewrite filter_cons. simpl.
  case_decide as Hd.
  - simpl. by rewrite IH.
  - assert (k' = key) as -> by (destruct (decide (k' = key)); [done|by destruct Hd]).
    rewrite bool_decide_false by done. done.
Qed.

Lemma member_filter_eq key l : member key (filter (λ kv, kv.1 ≠ key) l) = None.
Proof.
  induction l as [|[k v] l IH]; [done|]. rewrite filter_cons. simpl.
  case_decide as Hd; [|done]. simpl. by rewrite bool_decide_false.
Qed.

Lemma member_app k l1 l2 :
  member k (l1 ++ l2) = match member k l1 with Some v => Some v | None => member k l2 end.
Proof.
  induction l1 as [|[k' v] l1 IH]; simpl; [done|]. by case_bool_decide.
Qed.

Lemma member_add_eq key v l : member key (json_object_object_add key v l) = v.
Proof.
  unfold json_object_object_add. destruct v as [j|]; [|apply member_filter_eq].
  rewrite member_app, member_filter_eq. simpl. by rewrite bool_decide_true.
Qed.

Lemma member_add_ne key k v l :
  key ≠ k → member k (json_object_object_add key v l) = member k l.
Proof.
  intros Hne. unfold json_object_object_add. destruct v as [j|]; [|by apply member_filter_ne].
  rewrite member_app, member_filter_ne by done. simpl. rewrite bool_decide_false by congruence.
  by destruct (member k l).
Qed.

#[export] Hint Rewrite member_add_eq : json.
