(* ===== verification/JsonHeap.v ===== *)
(** * Ownership of JSON values

    [src/port/json_compat.c] gives the json-c calls of the program on top of
    cJSON: a wrapper per value, owned or borrowed from an owned one, which is
    released together with what was borrowed from it.  The wrappers are a heap
    here; cJSON is the class [Cjson], its nodes are pointers, and its laws say
    what its documentation says of the trees.  The result is that programs that
    follow the ownership rules see the values of [Json] and leave nothing
    behind. *)

From S2P Require Import Prelude Json.

Declare Scope json_scope.
Delimit Scope json_scope with jheap.

(** ** cJSON *)

(** The first member of that name is removed. *)
Fixpoint remove_member (key : string) (l : list (string * json)) : list (string * json) :=
  match l with
  | [] => []
  | (k, v) :: l => if bool_decide (k = key) then l else (k, v) :: remove_member key l
  end.

Class Cjson := {
  cst : Type;
  (** The value of a live node, and the root of the tree it is in. *)
  c_val : cst → positive → option json;
  c_owner : cst → positive → option positive;
  (** What a text stands for, and how a value is written. *)
  c_text : string → option json;
  c_printed : json → string;
  cJSON_Create : json → cst → option positive * cst;
  cJSON_Parse : string → cst → option positive * cst;
  cJSON_PrintUnformatted : positive → cst → option string;
  cJSON_Delete : positive → cst → cst;
  cJSON_GetObjectItemCaseSensitive : positive → string → cst → option positive;
  cJSON_GetArrayItem : positive → nat → cst → option positive;
  cJSON_AddItemToObject : positive → string → positive → cst → bool * cst;
  cJSON_AddItemToArray : positive → positive → cst → bool * cst;
  cJSON_DeleteItemFromObjectCaseSensitive : positive → string → cst → cst;
}.

Section Laws.
Context `{Cjson}.

(** A new tree, or none: what was there stays. *)
Definition creates (s s' : cst) (r : option positive) (j : json) : Prop :=
  (∀ q, is_Some (c_val s q) → c_val s' q = c_val s q ∧ c_owner s' q = c_owner s q) ∧
  match r with
  | None => ∀ q o, c_owner s' q = Some o → c_owner s q = Some o
  | Some p =>
      c_val s p = None ∧ c_val s' p = Some j ∧ c_owner s' p = Some p ∧
      ∀ q o, c_owner s' q = Some o → o = p ∨ c_owner s q = Some o
  end.

(** The tree of [p] becomes [v] and takes in those of [gone]: the trees of
    other roots stay. *)
Definition edits (s s' : cst) (p : positive) (gone : list positive) (v : json) : Prop :=
  c_val s' p = Some v ∧ c_owner s' p = Some p ∧
  (∀ q o, c_owner s q = Some o → o ≠ p → o ∉ gone → c_val s' q = c_val s q ∧ c_owner s' q = Some o) ∧
  ∀ q o, c_owner s' q = Some o → o = p ∨ (c_owner s q = Some o ∧ o ∉ gone).

Class CjsonOk : Prop := {
  c_owned s q : is_Some (c_val s q) ↔ is_Some (c_owner s q);
  c_owner_root s q o : c_owner s q = Some o → c_owner s o = Some o;
  c_create_ok j s : creates s (snd (cJSON_Create j s)) (fst (cJSON_Create j s)) j;
  c_parse_ok t s :
    match c_text t with
    | Some j => creates s (snd (cJSON_Parse t s)) (fst (cJSON_Parse t s)) j
    | None => cJSON_Parse t s = (None, s)
    end;
  c_delete_ok p s :
    c_owner s p = Some p →
    ∀ q o, c_owner s q = Some o →
      if decide (o = p) then c_owner (cJSON_Delete p s) q = None
      else c_val (cJSON_Delete p s) q = c_val s q ∧ c_owner (cJSON_Delete p s) q = Some o;
  c_delete_new p s q : c_owner s p = Some p → c_owner s q = None → c_owner (cJSON_Delete p s) q = None;
  c_print_ok p s v t : c_val s p = Some v → cJSON_PrintUnformatted p s = Some t → t = c_printed v;
  c_item_ok p key s l :
    c_val s p = Some (JObject l) →
    match member key l with
    | Some v => ∃ c, cJSON_GetObjectItemCaseSensitive p key s = Some c ∧ c_val s c = Some v ∧ c_owner s c = c_owner s p
    | None => cJSON_GetObjectItemCaseSensitive p key s = None
    end;
  c_nth_ok p i s l :
    c_val s p = Some (JArray l) →
    match l !! i with
    | Some v => ∃ c, cJSON_GetArrayItem p i s = Some c ∧ c_val s c = Some v ∧ c_owner s c = c_owner s p
    | None => cJSON_GetArrayItem p i s = None
    end;
  c_add_ok p key c s l j :
    c_owner s p = Some p → c_owner s c = Some c → p ≠ c → c_val s p = Some (JObject l) → c_val s c = Some j →
    if fst (cJSON_AddItemToObject p key c s) then edits s (snd (cJSON_AddItemToObject p key c s)) p [c] (JObject (l ++ [(key, j)]))
    else snd (cJSON_AddItemToObject p key c s) = s;
  c_push_ok p c s l j :
    c_owner s p = Some p → c_owner s c = Some c → p ≠ c → c_val s p = Some (JArray l) → c_val s c = Some j →
    if fst (cJSON_AddItemToArray p c s) then edits s (snd (cJSON_AddItemToArray p c s)) p [c] (JArray (l ++ [j]))
    else snd (cJSON_AddItemToArray p c s) = s;
  c_remove_ok p key s l :
    c_owner s p = Some p → c_val s p = Some (JObject l) →
    edits s (cJSON_DeleteItemFromObjectCaseSensitive p key s) p [] (JObject (remove_member key l));
}.

(** cJSON fails only for lack of memory. *)
Record cjson_plenty : Prop := {
  cp_create j s : is_Some (fst (cJSON_Create j s));
  cp_parse t s : is_Some (c_text t) → is_Some (fst (cJSON_Parse t s));
  cp_print p s : is_Some (c_val s p) → is_Some (cJSON_PrintUnformatted p s);
  cp_add p key c s : fst (cJSON_AddItemToObject p key c s) = true;
  cp_push p c s : fst (cJSON_AddItemToArray p c s) = true;
}.

End Laws.

(** ** Wrappers *)

(** [struct json_object]. *)
Record wrapper := mkWrap {
  j_node : option positive;
  j_owned : bool;
  j_str : option string;
  j_conv : option string;
  j_borrowed_head : option positive;
  j_root : option positive;
  j_next_borrowed : option positive;
}.
Definition set_node v x := mkWrap v (j_owned x) (j_str x) (j_conv x) (j_borrowed_head x) (j_root x) (j_next_borrowed x).
Definition set_str v x := mkWrap (j_node x) (j_owned x) v (j_conv x) (j_borrowed_head x) (j_root x) (j_next_borrowed x).
Definition set_conv v x := mkWrap (j_node x) (j_owned x) (j_str x) v (j_borrowed_head x) (j_root x) (j_next_borrowed x).
Definition set_head v x := mkWrap (j_node x) (j_owned x) (j_str x) (j_conv x) v (j_root x) (j_next_borrowed x).

Section Monad.
Context `{Cjson}.

(** The wrappers, the state of cJSON, and the count of allocations. *)
Record jheap := mkHeap { h_wrap : gmap positive wrapper; h_c : cst; h_tick : nat }.

(** [None] is the use of a freed wrapper or node, or the conversion of NaN. *)
Definition J (A : Type) : Type := jheap → option (A * jheap).
Definition jret {A} (a : A) : J A := λ h, Some (a, h).
Definition jbind {A B} (m : J A) (f : A → J B) : J B := λ h, match m h with Some (a, h') => f a h' | None => None end.

End Monad.

Notation "x ⇠ m ;; k" := (jbind m (λ x, k)) (at level 100, m at next level, right associativity) : json_scope.
Notation "m ;= k" := (jbind m (λ _, k)) (at level 100, right associativity) : json_scope.
Local Open Scope json_scope.

Section Wrappers.
Context `{Cjson} (mem : nat → bool).

Definition jub {A} : J A := λ _, None.
Definition jget (w : positive) : J wrapper := λ h, x ← h_wrap h !! w; Some (x, h).
Definition jput (w : positive) (x : wrapper) : J () := λ h, Some ((), mkHeap (<[w := x]> (h_wrap h)) (h_c h) (h_tick h)).
Definition jfree (w : positive) : J () := λ h, _ ← h_wrap h !! w; Some ((), mkHeap (delete w (h_wrap h)) (h_c h) (h_tick h)).
Definition jmalloc : J bool := λ h, Some (mem (h_tick h), mkHeap (h_wrap h) (h_c h) (S (h_tick h))).
(** [calloc] of a wrapper answers an address that is not in use. *)
Definition jalloc (x : wrapper) : J (option positive) :=
  ok ⇠ jmalloc ;;
  if negb ok then jret None
  else λ h, let w := fresh (dom (h_wrap h)) in Some (Some w, mkHeap (<[w := x]> (h_wrap h)) (h_c h) (h_tick h)).

(** Calls of cJSON. *)
Definition jc {A} (f : cst → A * cst) : J A := λ h, Some (fst (f (h_c h)), mkHeap (h_wrap h) (snd (f (h_c h))) (h_tick h)).
Definition jc_ (f : cst → cst) : J () := jc (λ s, ((), f s)).
Definition jread {A} (f : cst → A) : J A := λ h, Some (f (h_c h), h).
(** The value behind a node pointer; a null one has none. *)
Definition node_val (n : option positive) : J (option json) := λ h,
  match n with None => Some (None, h) | Some p => v ← c_val (h_c h) p; Some (Some v, h) end.
(** [cJSON_Delete] does nothing with a null pointer. *)
Definition delete_node (n : option positive) : J () :=
  match n with None => jret () | Some p => node_val n ;= jc_ (cJSON_Delete p) end.

Definition wrap_new (node : option positive) (owned : bool) : J (option positive) :=
  jo ⇠ jalloc (mkWrap node owned None None None None None) ;;
  match jo with
  | None => delete_node node ;= jret None
  | Some _ => jret jo
  end.

Definition root_of (jo : positive) : J positive := x ⇠ jget jo ;; jret (default jo (j_root x)).

Definition borrow_child (parent : positive) (node : positive) : J (option positive) :=
  root ⇠ root_of parent ;;
  ok ⇠ jmalloc ;;
  if negb ok then jret None
  else
    x ⇠ jget root ;;
    λ h,
      let w := fresh (dom (h_wrap h)) in
      (jput w (mkWrap (Some node) false None None None (Some root) (j_borrowed_head x)) ;=
       jput root (set_head (Some w) x) ;=
       jret (Some w)) h.

(** The new text, or the old one when memory is short. *)
Definition set_cached_str (slot : option string) (s : string) : J (option string) :=
  ok ⇠ jmalloc ;; jret (if ok then Some s else slot).

(** ** Creation *)

Definition create (j : json) : J (option positive) := n ⇠ jc (cJSON_Create j) ;; wrap_new n true.
Definition json_object_new_object : J (option positive) := create (JObject []).
Definition json_object_new_array : J (option positive) := create (JArray []).
Definition json_object_new_string (s : option string) : J (option positive) :=
  match s with None => jret None | Some s => create (JString s) end.
(** [text]: what [%g] makes of the number. *)
Definition json_object_new_int (i : Z) (text : string) : J (option positive) := create (JNumber i text).
Definition json_object_new_boolean (b : bool) : J (option positive) := create (JBool b).

Definition json_tokener_parse (str : option string) : J (option positive) :=
  match str with
  | None => jret None
  | Some t =>
      n ⇠ jc (cJSON_Parse t) ;;
      match n with None => jret None | Some _ => wrap_new n true end
  end.

(** ** Release *)

(** The chain of borrowed wrappers. *)
Fixpoint free_borrowed (fuel : nat) (b : option positive) : J () :=
  match b, fuel with
  | None, _ => jret ()
  | Some _, O => jub
  | Some w, S fuel => x ⇠ jget w ;; jfree w ;= free_borrowed fuel (j_next_borrowed x)
  end.

Definition json_object_put (obj : option positive) : J Z :=
  match obj with
  | None => jret 0
  | Some w =>
      x ⇠ jget w ;;
      if negb (j_owned x) then jret 0
      else
        (λ h, free_borrowed (size (h_wrap h)) (j_borrowed_head x) h) ;=
        delete_node (j_node x) ;=
        jfree w ;=
        jret 1
  end.

(** ** Mutation *)

(** Consumes a value that was not taken. *)
Definition drop_val (val : option positive) : J () :=
  match val with
  | None => jret ()
  | Some w =>
      x ⇠ jget w ;;
      delete_node (j_node x) ;=
      jput w (set_node None x) ;=
      json_object_put val ;=
      jret ()
  end.

(** The value of the node of a wrapper. *)
Definition wrapped (obj : option positive) : J (option (option positive * option json)) :=
  match obj with
  | None => jret None
  | Some w => x ⇠ jget w ;; v ⇠ node_val (j_node x) ;; jret (Some (j_node x, v))
  end.

Definition json_object_object_add (obj : option positive) (key : string) (val : option positive) : J () :=
  o ⇠ wrapped obj ;;
  match o with
  | Some (Some n, Some (JObject _)) =>
      match val with
      | None => jc_ (cJSON_DeleteItemFromObjectCaseSensitive n key)
      | Some w =>
          jc_ (cJSON_DeleteItemFromObjectCaseSensitive n key) ;=
          x ⇠ jget w ;;
          match j_node x with
          | None => drop_val val
          | Some c =>
              node_val (Some c) ;=
              ok ⇠ jc (cJSON_AddItemToObject n key c) ;;
              if (ok : bool) then jfree w else drop_val val
          end
      end
  | _ => drop_val val
  end.

Definition json_object_array_add (arr val : option positive) : J Z :=
  match val with
  | None => jret (-1)
  | Some w =>
      a ⇠ wrapped arr ;;
      match a with
      | Some (Some n, Some (JArray _)) =>
          x ⇠ jget w ;;
          match j_node x with
          | None => json_object_put val ;= jret (-1)
          | Some c =>
              node_val (Some c) ;=
              ok ⇠ jc (cJSON_AddItemToArray n c) ;;
              if (ok : bool) then jfree w ;= jret 0 else json_object_put val ;= jret (-1)
          end
      | _ => json_object_put val ;= jret (-1)
      end
  end.

(** ** Access *)

(** Whether the member is there, and its wrapper. *)
Definition json_object_object_get_ex (obj : option positive) (key : string) : J (bool * option positive) :=
  o ⇠ wrapped obj ;;
  match obj, o with
  | Some w, Some (Some n, Some (JObject _)) =>
      item ⇠ jread (cJSON_GetObjectItemCaseSensitive n key) ;;
      match item with
      | None => jret (false, None)
      | Some c => b ⇠ borrow_child w c ;; jret (true, b)
      end
  | _, _ => jret (false, None)
  end.

Definition json_object_array_length (arr : option positive) : J Z :=
  a ⇠ wrapped arr ;;
  jret match a with Some (_, Some (JArray l)) => zlen l | _ => 0 end.

Definition json_object_array_get_idx (arr : option positive) (idx : nat) : J (option positive) :=
  a ⇠ wrapped arr ;;
  match arr, a with
  | Some w, Some (Some n, Some (JArray _)) =>
      item ⇠ jread (cJSON_GetArrayItem n idx) ;;
      match item with None => jret None | Some c => borrow_child w c end
  | _, _ => jret None
  end.

Definition json_object_get_string (obj : option positive) : J (option string) :=
  o ⇠ wrapped obj ;;
  match obj, o with
  | Some w, Some (_, Some (JString s)) => jret (Some s)
  | Some w, Some (_, Some (JNumber _ t)) =>
      x ⇠ jget w ;; c ⇠ set_cached_str (j_conv x) t ;; jput w (set_conv c x) ;= jret c
  | Some w, Some (_, Some (JBool b)) =>
      x ⇠ jget w ;; c ⇠ set_cached_str (j_conv x) (if b then "true" else "false")%string ;; jput w (set_conv c x) ;= jret c
  | _, _ => jret None
  end.

(** [cJSON_GetNumberValue] answers NaN for what is not a number. *)
Definition json_object_get_int (obj : option positive) : J Z :=
  o ⇠ wrapped obj ;;
  match o with
  | None => jret 0
  | Some (_, Some (JNumber i _)) => jret i
  | Some _ => jub
  end.

Definition json_object_get_boolean (obj : option positive) : J Z :=
  o ⇠ wrapped obj ;;
  jret match o with Some (_, Some (JBool true)) => 1 | _ => 0 end.

Definition json_object_to_json_string_ext (obj : option positive) : J (option string) :=
  o ⇠ wrapped obj ;;
  match obj, o with
  | Some w, Some (Some n, _) =>
      s ⇠ jread (cJSON_PrintUnformatted n) ;;
      match s with
      | None => jret None
      | Some s => x ⇠ jget w ;; c ⇠ set_cached_str (j_str x) s ;; jput w (set_str c x) ;= jret c
      end
  | _, _ => jret None
  end.

End Wrappers.
