(* ===== verification/JsonOwn.v ===== *)
(** * The ownership rules of JSON values

    What [JsonHeap] promises its users, as an abstract machine: live wrappers
    are roots with a value and the wrappers borrowed from them, or borrowed
    themselves.  A program that follows the rules ([allowed]) never uses freed
    memory, reads the values [Json] describes, and has given everything back
    once it has released its roots. *)

From S2P Require Import Prelude Json JsonHeap.

(** ** The abstract machine *)

Inductive view := VRoot (v : option json) (kids : list positive) | VChild (root : positive) (v : json).
Abbreviation owners := (gmap positive view).

Definition view_val (x : view) : option json := match x with VRoot v _ => v | VChild _ v => Some v end.
Definition val_at (A : owners) (p : option positive) : option json := w ← p; x ← A !! w; view_val x.

Inductive jop :=
| ONewObject | ONewArray | ONewString (s : option string) | ONewInt (i : Z) (text : string) | ONewBool (b : bool)
| OParse (t : option string) | OPut (p : option positive)
| OAdd (p : option positive) (key : string) (v : option positive) | OPush (p v : option positive)
| OGet (p : option positive) (key : string) | ONth (p : option positive) (i : nat) | OLen (p : option positive)
| OString (p : option positive) | OInt (p : option positive) | OBool (p : option positive) | OPrint (p : option positive).

Inductive jout :=
| OutPtr (p : option positive) | OutGot (b : bool) (p : option positive) | OutText (s : option string) | OutInt (z : Z) | OutUnit.

Section Rules.
Context `{Cjson}.

(** The value an operation makes. *)
Definition makes (op : jop) : option json :=
  match op with
  | ONewObject => Some (JObject [])
  | ONewArray => Some (JArray [])
  | ONewString s => JString <$> s
  | ONewInt i t => Some (JNumber i t)
  | ONewBool b => Some (JBool b)
  | OParse t => t ≫= c_text
  | _ => None
  end.
Definition creation (op : jop) : bool :=
  match op with ONewObject | ONewArray | ONewString _ | ONewInt _ _ | ONewBool _ | OParse _ => true | _ => false end.

(** A pointer is null or live; what is changed, or given away, is a root from
    which nothing is borrowed; only numbers are read as numbers. *)
Definition live (A : owners) (p : option positive) : Prop := match p with Some w => is_Some (A !! w) | None => True end.
Definition loose (A : owners) (p : option positive) : Prop := match p with Some w => ∃ v, A !! w = Some (VRoot v []) | None => True end.
Definition numeric (v : option json) : Prop := match v with Some (JNumber _ _) => True | _ => False end.
Definition allowed (A : owners) (op : jop) : Prop :=
  match op with
  | OPut p | OGet p _ | ONth p _ | OLen p | OString p | OBool p | OPrint p => live A p
  | OAdd p _ v | OPush p v => loose A p ∧ loose A v ∧ (p = v → p = None)
  | OInt p => live A p ∧ (is_Some p → numeric (val_at A p))
  | _ => True
  end.

Definition array_item (j : json) (i : nat) : option json := match j with JArray l => l !! i | _ => None end.
Definition array_length (j : json) : Z := match j with JArray l => zlen l | _ => 0 end.

(** The root of a wrapper. *)
Definition root_at (A : owners) (w : positive) : positive := match A !! w with Some (VChild r _) => r | _ => w end.
(** [c] is borrowed from the root of [w]. *)
Definition borrow (A : owners) (w c : positive) (v : json) : owners :=
  let r := root_at A w in
  match A !! r with
  | Some (VRoot u kids) => <[c := VChild r v]> (<[r := VRoot u (c :: kids)]> A)
  | _ => A
  end.
Definition release (A : owners) (ws : list positive) : owners := foldr delete A ws.
(** A value that was given away. *)
Definition without (A : owners) (p : option positive) : owners := match p with Some w => delete w A | None => A end.

(** [full]: memory is there. *)
Inductive astep (full : bool) (A : owners) : jop → jout → owners → Prop :=
| S_make op w j : makes op = Some j → A !! w = None → astep full A op (OutPtr (Some w)) (<[w := VRoot (Some j) []]> A)
| S_make_null op : creation op = true → full = false ∨ makes op = None → astep full A op (OutPtr None) A
| S_make_bare op w : makes op ≠ None → full = false → A !! w = None → astep full A op (OutPtr (Some w)) (<[w := VRoot None []]> A)
| S_put_root w v kids : A !! w = Some (VRoot v kids) → astep full A (OPut (Some w)) (OutInt 1) (release A (w :: kids))
| S_put_other p : (∀ w v kids, p = Some w → A !! w ≠ Some (VRoot v kids)) → astep full A (OPut p) (OutInt 0) A
| S_add w key v l :
    A !! w = Some (VRoot (Some (JObject l)) []) →
    astep full A (OAdd (Some w) key v) OutUnit
      (<[w := VRoot (Some (JObject (remove_member key l ++ match val_at A v with Some j => [(key, j)] | None => [] end))) []]> (without A v))
| S_add_short w key v l :
    A !! w = Some (VRoot (Some (JObject l)) []) → full = false →
    astep full A (OAdd (Some w) key v) OutUnit (<[w := VRoot (Some (JObject (remove_member key l))) []]> (without A v))
| S_add_other p key v : (∀ l, val_at A p ≠ Some (JObject l)) → astep full A (OAdd p key v) OutUnit (without A v)
| S_push w v l j :
    A !! w = Some (VRoot (Some (JArray l)) []) → val_at A v = Some j →
    astep full A (OPush (Some w) v) (OutInt 0) (<[w := VRoot (Some (JArray (l ++ [j]))) []]> (without A v))
| S_push_other p v :
    full = false ∨ val_at A v = None ∨ (∀ l, val_at A p ≠ Some (JArray l)) → astep full A (OPush p v) (OutInt (-1)) (without A v)
| S_get w key v c :
    (j ← val_at A (Some w); Json.json_object_object_get_ex j key) = Some v → A !! c = None →
    astep full A (OGet (Some w) key) (OutGot true (Some c)) (borrow A w c v)
| S_get_short p key v :
    (j ← val_at A p; Json.json_object_object_get_ex j key) = Some v → full = false → astep full A (OGet p key) (OutGot true None) A
| S_get_none p key : (j ← val_at A p; Json.json_object_object_get_ex j key) = None → astep full A (OGet p key) (OutGot false None) A
| S_nth w i v c : (j ← val_at A (Some w); array_item j i) = Some v → A !! c = None → astep full A (ONth (Some w) i) (OutPtr (Some c)) (borrow A w c v)
| S_nth_none p i : full = false ∨ (j ← val_at A p; array_item j i) = None → astep full A (ONth p i) (OutPtr None) A
| S_len p : astep full A (OLen p) (OutInt (default 0 (array_length <$> val_at A p))) A
| S_string p : astep full A (OString p) (OutText (j ← val_at A p; Json.json_object_get_string j)) A
| S_string_short p : full = false → astep full A (OString p) (OutText None) A
| S_int p : astep full A (OInt p) (OutInt (default 0 (j ← val_at A p; Json.json_object_get_int j))) A
| S_bool p : astep full A (OBool p) (OutInt (match val_at A p with Some (JBool true) => 1 | _ => 0 end)) A
| S_print p : astep full A (OPrint p) (OutText (c_printed <$> val_at A p)) A
| S_print_short p t : full = false → astep full A (OPrint p) (OutText t) A.

End Rules.

(** ** The operations of the wrappers *)

Section Exec.
Context `{Cjson} (mem : nat → bool).
Local Open Scope json_scope.

Definition exec (op : jop) : J jout :=
  match op with
  | ONewObject => p ⇠ json_object_new_object mem ;; jret (OutPtr p)
  | ONewArray => p ⇠ json_object_new_array mem ;; jret (OutPtr p)
  | ONewString s => p ⇠ json_object_new_string mem s ;; jret (OutPtr p)
  | ONewInt i t => p ⇠ json_object_new_int mem i t ;; jret (OutPtr p)
  | ONewBool b => p ⇠ json_object_new_boolean mem b ;; jret (OutPtr p)
  | OParse t => p ⇠ json_tokener_parse mem t ;; jret (OutPtr p)
  | OPut p => z ⇠ json_object_put p ;; jret (OutInt z)
  | OAdd p key v => json_object_object_add p key v ;= jret OutUnit
  | OPush p v => z ⇠ json_object_array_add p v ;; jret (OutInt z)
  | OGet p key => r ⇠ json_object_object_get_ex mem p key ;; jret (OutGot (fst r) (snd r))
  | ONth p i => r ⇠ json_object_array_get_idx mem p i ;; jret (OutPtr r)
  | OLen p => z ⇠ json_object_array_length p ;; jret (OutInt z)
  | OString p => s ⇠ json_object_get_string mem p ;; jret (OutText s)
  | OInt p => z ⇠ json_object_get_int p ;; jret (OutInt z)
  | OBool p => z ⇠ json_object_get_boolean p ;; jret (OutInt z)
  | OPrint p => s ⇠ json_object_to_json_string_ext mem p ;; jret (OutText s)
  end.

End Exec.

(** ** Simulation *)

(** The wrappers of a chain. *)
Fixpoint chain (m : gmap positive wrapper) (b : option positive) (l : list positive) : Prop :=
  match l with
  | [] => b = None
  | c :: l => b = Some c ∧ ∃ x, m !! c = Some x ∧ chain m (j_next_borrowed x) l
  end.

Lemma chain_agree m m' b l :
  (∀ c x, c ∈ l → m !! c = Some x → ∃ y, m' !! c = Some y ∧ j_next_borrowed y = j_next_borrowed x) → chain m b l → chain m' b l.
Proof.
  revert b. induction l as [|c l IH]; intros b Hm; [done|]. intros [-> (x & Hx & Hc)]. destruct (Hm c x) as (y & Hy & E); [by left|done|].
  split; [done|]. exists y. split; [done|]. rewrite E. apply IH; [|done]. intros d z Hd. apply Hm. by right.
Qed.
Lemma chain_insert m b l c x : c ∉ l → chain m b l → chain (<[c := x]> m) b l.
Proof. intros Hc. apply chain_agree. intros d z Hd Hz. exists z. by rewrite lookup_insert_ne by set_solver. Qed.
Lemma chain_update m b l c x y : m !! c = Some x → j_next_borrowed y = j_next_borrowed x → chain m b l → chain (<[c := y]> m) b l.
Proof.
  intros Hx E. apply chain_agree. intros d z Hd Hz. destruct (decide (c = d)) as [<-|Hn]; [|exists z; by rewrite lookup_insert_ne].
  exists y. rewrite lookup_insert_eq. split; [done|]. congruence.
Qed.
Lemma chain_delete m b l c : c ∉ l → chain m b l → chain (delete c m) b l.
Proof. intros Hc. apply chain_agree. intros d z Hd Hz. exists z. by rewrite lookup_delete_ne by set_solver. Qed.

Lemma lookup_release {X} (m : gmap positive X) ws w : foldr delete m ws !! w = if decide (w ∈ ws) then None else m !! w.
Proof.
  induction ws as [|d ws IH]; cbn [foldr]; [by rewrite decide_False by set_solver|].
  destruct (decide (w = d)) as [->|Hn]; [by rewrite lookup_delete_eq, decide_True by set_solver|].
  rewrite lookup_delete_ne, IH by done. destruct (decide (w ∈ ws)); [by rewrite decide_True by set_solver|by rewrite decide_False by set_solver].
Qed.

Lemma run_free_borrowed `{Cjson} fuel b l h :
  chain (h_wrap h) b l → NoDup l → (length l ≤ fuel)%nat →
  free_borrowed fuel b h = Some ((), mkHeap (foldr delete (h_wrap h) l) (h_c h) (h_tick h)).
Proof.
  revert b l h. induction fuel as [|n IH]; intros b l h Hc Hd Hl.
  - destruct l; [|cbn in Hl; lia]. cbn in Hc. subst b. by destruct h.
  - destruct l as [|c l]; [cbn in Hc; subst b; by destruct h|]. destruct Hc as [-> (x & Hx & Hc)]. apply NoDup_cons in Hd as [Hn Hd].
    cbn [free_borrowed]. unfold jbind at 1, jget. rewrite Hx. cbn [mbind option_bind]. unfold jbind at 1, jfree. rewrite Hx. cbn [mbind option_bind].
    rewrite (IH _ l) by (first [done|by apply chain_delete|cbn in Hl; lia]). cbn [h_wrap h_c h_tick foldr]. do 3 f_equal.
    apply map_eq. intros w. rewrite lookup_release. destruct (decide (w = c)) as [->|Hne].
    + rewrite !lookup_delete_eq. by case_decide.
    + rewrite !lookup_delete_ne by done. by rewrite lookup_release.
Qed.
Lemma chain_length m b l : chain m b l → NoDup l → (length l ≤ size m)%nat.
Proof.
  intros Hc Hd. rewrite <- (size_dom (D := gset positive)), <- (size_list_to_set (C := gset positive) l) by done. apply subseteq_size. intros c Hc'%elem_of_list_to_set.
  apply elem_of_dom. revert b Hc. induction l as [|d l IH]; [by apply not_elem_of_nil in Hc'|]. intros b [_ (x & Hx & Hc)].
  apply elem_of_cons in Hc' as [->|Hc']; [by exists x|]. apply NoDup_cons in Hd as [_ Hd]. eauto.
Qed.

Section Sim.
Context `{Cjson} `{!CjsonOk}.

Definition node_is (s : cst) (n : option positive) (v : option json) : Prop :=
  match n, v with
  | None, None => True
  | Some p, Some j => c_val s p = Some j ∧ c_owner s p = Some p
  | _, _ => False
  end.
Definition conv_is (x : wrapper) (v : option json) : Prop := j_conv x = None ∨ j_conv x = (v ≫= Json.json_object_get_string).

(** A wrapper and what it stands for. *)
Definition fits (A : owners) (W : gmap positive wrapper) (s : cst) (w : positive) (vw : view) (x : wrapper) : Prop :=
  conv_is x (view_val vw) ∧
  match vw with
  | VRoot v kids =>
      j_owned x = true ∧ j_root x = None ∧ node_is s (j_node x) v ∧ chain W (j_borrowed_head x) kids ∧ NoDup kids ∧
      ∀ c, c ∈ kids ↔ ∃ u, A !! c = Some (VChild w u)
  | VChild r v =>
      j_owned x = false ∧ j_root x = Some r ∧
      ∃ q p y jr kids, j_node x = Some q ∧ c_val s q = Some v ∧ c_owner s q = Some p ∧ W !! r = Some y ∧ j_node y = Some p ∧
        A !! r = Some (VRoot jr kids)
  end.
Record rel (A : owners) (W : gmap positive wrapper) (s : cst) : Prop := {
  r_at w : match A !! w, W !! w with Some vw, Some x => fits A W s w vw x | None, None => True | _, _ => False end;
  r_sep w w' x x' p : W !! w = Some x → W !! w' = Some x' → j_owned x = true → j_owned x' = true → j_node x = Some p → j_node x' = Some p → w = w';
  r_cover q o : c_owner s q = Some o → ∃ w x, W !! w = Some x ∧ j_owned x = true ∧ j_node x = Some o;
}.

Lemma rel_some A W s w vw : rel A W s → A !! w = Some vw → ∃ x, W !! w = Some x ∧ fits A W s w vw x.
Proof. intros R E. pose proof (r_at _ _ _ R w) as Hw. rewrite E in Hw. destruct (W !! w) as [x|]; [by exists x|done]. Qed.
Lemma rel_none A W s w : rel A W s → A !! w = None ↔ W !! w = None.
Proof. intros R. pose proof (r_at _ _ _ R w) as Hw. by destruct (A !! w), (W !! w). Qed.
Lemma rel_wrap A W s w x : rel A W s → W !! w = Some x → ∃ vw, A !! w = Some vw ∧ fits A W s w vw x.
Proof. intros R E. pose proof (r_at _ _ _ R w) as Hw. rewrite E in Hw. destruct (A !! w) as [vw|]; [by exists vw|done]. Qed.

(** Trees that stay. *)
Definition same (s s' : cst) : Prop :=
  (∀ q o, c_owner s q = Some o → c_val s' q = c_val s q ∧ c_owner s' q = Some o) ∧ ∀ q o, c_owner s' q = Some o → c_owner s q = Some o.
Lemma fits_keep A W s s' w vw x :
  (∀ q o v, c_owner s q = Some o → c_val s q = Some v → c_val s' q = Some v ∧ c_owner s' q = Some o) → fits A W s w vw x → fits A W s' w vw x.
Proof.
  intros Hk [Hc Hf]. split; [done|]. destruct vw as [v kids|r v].
  - destruct Hf as (H1 & H2 & H3 & H4). split_and!; try done; [|by destruct H4 as (?&?&?)..]. destruct (j_node x), v; try done. destruct H3 as [H3 H3']. by apply Hk.
  - destruct Hf as (H1 & H2 & q & p & y & jr & kids & H3 & H4 & H5 & H6). split_and!; try done. destruct (Hk q p v H5 H4) as [H4' H5'].
    by exists q, p, y, jr, kids.
Qed.
Lemma rel_same A W s s' : same s s' → rel A W s → rel A W s'.
Proof.
  intros [Hk Hn] [R1 R2 R3]. constructor; [|done|intros q o Ho; by apply (R3 q), Hn].
  intros w. specialize (R1 w). destruct (A !! w), (W !! w); try done. eapply fits_keep; [|done]. intros q o v' Ho Hv. destruct (Hk q o Ho) as [-> ->]. done.
Qed.

(** What a wrapper needs of the others. *)
Lemma fits_move A A' W W' s w vw x :
  match vw with
  | VRoot _ kids =>
      (∀ c y, c ∈ kids → W !! c = Some y → ∃ y', W' !! c = Some y' ∧ j_next_borrowed y' = j_next_borrowed y) ∧
      ∀ c, (∃ u, A !! c = Some (VChild w u)) ↔ ∃ u, A' !! c = Some (VChild w u)
  | VChild r _ =>
      (∀ y, W !! r = Some y → ∃ y', W' !! r = Some y' ∧ j_node y' = j_node y) ∧
      ∀ jr kids, A !! r = Some (VRoot jr kids) → ∃ jr' kids', A' !! r = Some (VRoot jr' kids')
  end → fits A W s w vw x → fits A' W' s w vw x.
Proof.
  intros Hm [Hc Hf]. split; [done|]. destruct vw as [v kids|r v].
  - destruct Hf as (H1 & H2 & H3 & H4 & H5 & H6). destruct Hm as [Hm1 Hm2]. split_and!; try done; [by eapply chain_agree|]. intros c. by rewrite H6, Hm2.
  - destruct Hf as (H1 & H2 & q & p & y & jr & kids & H3 & H4 & H5 & H6 & H7 & H8). destruct Hm as [Hm1 Hm2]. split_and!; try done.
    destruct (Hm1 y H6) as (y' & Hy & Ey). destruct (Hm2 _ _ H8) as (jr' & kids' & HA). exists q, p, y', jr', kids'. split_and!; try done. congruence.
Qed.

(** Where the nodes are. *)
Lemma node_root A W s w v kids x p : rel A W s → A !! w = Some (VRoot v kids) → W !! w = Some x → j_node x = Some p → c_owner s p = Some p.
Proof.
  intros R HA HW Hp. destruct (rel_some A W s w _ R HA) as (x' & HW' & _ & _ & _ & Hn & _). assert (x' = x) as -> by congruence.
  rewrite Hp in Hn. destruct v; [by destruct Hn|done].
Qed.
Lemma owned_node A W s w x p : rel A W s → W !! w = Some x → j_owned x = true → j_node x = Some p → is_Some (c_owner s p).
Proof.
  intros R HW Ho Hp. destruct (rel_wrap _ _ _ _ _ R HW) as ([u kids|r u] & HA & _ & Hf); [exists p; by eapply node_root|].
  destruct Hf as [Hf _]. congruence.
Qed.
Lemma child_root A W s c r v : rel A W s → A !! c = Some (VChild r v) → ∃ jr kids, A !! r = Some (VRoot jr kids) ∧ c ∈ kids.
Proof.
  intros R HA. destruct (rel_some A W s c _ R HA) as (x & _ & _ & _ & _ & q & p & y & jr & kids & _ & _ & _ & _ & _ & HR).
  exists jr, kids. split; [done|]. destruct (rel_some A W s r _ R HR) as (y' & _ & _ & _ & _ & _ & _ & _ & Hk). apply Hk. by exists v.
Qed.
Lemma root_not_kid A W s w v kids r v' kids' : rel A W s → A !! w = Some (VRoot v kids) → A !! r = Some (VRoot v' kids') → w ∉ kids'.
Proof.
  intros R HA HR Hin. destruct (rel_some A W s r _ R HR) as (y' & _ & _ & _ & _ & _ & _ & _ & Hk). apply Hk in Hin as [u Hu]. congruence.
Qed.

(** A new root. *)
Lemma rel_root A W s s' w n v x :
  rel A W s → A !! w = None →
  (n = None ∧ v = None ∧ same s s' ∨ ∃ p j, n = Some p ∧ v = Some j ∧ creates s s' (Some p) j) →
  x = mkWrap n true None None None None None → rel (<[w := VRoot v []]> A) (<[w := x]> W) s'.
Proof.
  intros R HA Hn ->. assert (W !! w = None) as HW by by apply (rel_none A W s).
  assert (∀ q o v, c_owner s q = Some o → c_val s q = Some v → c_val s' q = Some v ∧ c_owner s' q = Some o) as Hk.
  { intros q o u Ho Hv. destruct Hn as [(_ & _ & Hs & _)|(p & j & _ & _ & Hs & _)].
    - by destruct (Hs q o Ho) as [-> ->].
    - destruct (Hs q) as [-> ->]; [by exists u|done]. }
  assert (∀ p, n = Some p → ¬ is_Some (c_owner s p)) as Hfr.
  { intros p ->. destruct Hn as [(? & _)|(p' & j & [= <-] & _ & _ & Hf & _)]; [done|]. intros [z Hz]%c_owned. congruence. }
  constructor.
  - intros d. destruct (decide (w = d)) as [<-|Hne].
    + rewrite !lookup_insert_eq. split; [by left|]. split_and!; try done; [|by constructor|].
      * destruct Hn as [(-> & -> & _)|(p & j & -> & -> & _ & _ & Hv & Ho & _)]; by cbn.
      * intros c. split; [by intros ?%not_elem_of_nil|]. intros [u Hu]. destruct (decide (c = w)) as [->|Hc]; [by rewrite lookup_insert_eq in Hu|].
        rewrite lookup_insert_ne in Hu by done. destruct (child_root A W s c w u R Hu) as (jr & kids & HR & _). congruence.
    + rewrite !lookup_insert_ne by done. pose proof (r_at _ _ _ R d) as Hd. destruct (A !! d) as [vw|] eqn:EA, (W !! d) as [y|] eqn:EW; try done.
      eapply fits_move; [|by eapply fits_keep]. destruct vw as [u kids|r u].
      * split.
        -- intros c z Hc Hz. exists z. split; [|done]. rewrite lookup_insert_ne; [done|]. intros ->. congruence.
        -- intros c. destruct (decide (c = w)) as [->|Hc]; [|by rewrite lookup_insert_ne]. rewrite lookup_insert_eq, HA. split; intros [u' Hu]; done.
      * split; intros; [exists y0|exists jr, kids]; rewrite lookup_insert_ne; try done; intros ->; congruence.
  - intros a b xa xb p Ha Hb Oa Ob Na Nb. destruct (decide (a = w)) as [->|Hna], (decide (b = w)) as [->|Hnb]; [done|..].
    + rewrite lookup_insert_eq in Ha. injection Ha as <-. rewrite lookup_insert_ne in Hb by done. by destruct (Hfr p Na), (owned_node A W s b xb p R Hb Ob Nb).
    + rewrite lookup_insert_eq in Hb. injection Hb as <-. rewrite lookup_insert_ne in Ha by done. by destruct (Hfr p Nb), (owned_node A W s a xa p R Ha Oa Na).
    + rewrite lookup_insert_ne in Ha, Hb by done. by eapply (r_sep _ _ _ R).
  - intros q o Ho. assert (c_owner s q = Some o ∨ n = Some o) as [Hq|Hq].
    { destruct Hn as [(-> & _ & _ & Hs)|(p & j & -> & _ & _ & _ & _ & _ & Hs)]; [left; by apply Hs|]. destruct (Hs q o Ho) as [->|?]; auto. }
    + destruct (r_cover _ _ _ R q o Hq) as (d & y & Hd & Hy). exists d, y. split; [|done]. rewrite lookup_insert_ne; [done|]. intros ->. congruence.
    + exists w, (mkWrap n true None None None None None). rewrite lookup_insert_eq. by subst n.
Qed.

(** The owned wrappers and their nodes stay. *)
Lemma rel_owned A A' W W' s :
  rel A W s → (∀ w, match A' !! w, W' !! w with Some vw, Some x => fits A' W' s w vw x | None, None => True | _, _ => False end) →
  (∀ a x, W' !! a = Some x → j_owned x = true → ∃ y, W !! a = Some y ∧ j_owned y = true ∧ j_node y = j_node x) →
  (∀ a y, W !! a = Some y → j_owned y = true → ∃ x, W' !! a = Some x ∧ j_owned x = true ∧ j_node x = j_node y) → rel A' W' s.
Proof.
  intros R Hat Hback Hforth. constructor; [done|..].
  - intros a b xa xb n Ha Hb Oa Ob Na Nb. destruct (Hback a xa Ha Oa) as (ya & Ha' & Oa' & Ea), (Hback b xb Hb Ob) as (yb & Hb' & Ob' & Eb).
    eapply (r_sep _ _ _ R); [exact Ha'|exact Hb'|done|done|by rewrite Ea|by rewrite Eb].
  - intros q o Ho. destruct (r_cover _ _ _ R q o Ho) as (d & y & Hd & Oy & Ny). destruct (Hforth d y Hd Oy) as (x & Hx & Ox & Ex). exists d, x. split_and!; congruence.
Qed.

(** A borrowed wrapper. *)
Lemma rel_borrow A W s r c u kids y p q v :
  rel A W s → A !! r = Some (VRoot u kids) → W !! r = Some y → j_node y = Some p → A !! c = None →
  c_val s q = Some v → c_owner s q = Some p →
  rel (<[c := VChild r v]> (<[r := VRoot u (c :: kids)]> A))
    (<[r := set_head (Some c) y]> (<[c := mkWrap (Some q) false None None None (Some r) (j_borrowed_head y)]> W)) s.
Proof.
  intros R HA HW Hp HAc Hv Ho. assert (W !! c = None) as HWc by by apply (rel_none A W s).
  assert (c ≠ r) as Hcr by congruence. destruct (rel_some _ _ _ _ _ R HA) as (y' & HW' & Hcv & Hown & Hroot & Hnode & Hch & Hnd & Hk).
  assert (y' = y) as -> by congruence. assert (c ∉ kids) as Hck by (intros [z Hz]%Hk; congruence).
  apply (rel_owned A _ W _ s R).
  - intros d. destruct (decide (d = c)) as [->|Hdc].
    { rewrite lookup_insert_eq, lookup_insert_ne, lookup_insert_eq by done. split; [by left|]. split_and!; try done.
      exists q, p, (set_head (Some c) y), u, (c :: kids). split_and!; try done; [by rewrite lookup_insert_eq|by rewrite lookup_insert_ne, lookup_insert_eq]. }
    destruct (decide (d = r)) as [->|Hdr].
    { rewrite lookup_insert_ne, !lookup_insert_eq by done. split; [done|]. split_and!; try done.
      - split; [done|]. eexists. rewrite lookup_insert_ne, lookup_insert_eq by done. split; [done|]. apply chain_insert.
        + by eapply root_not_kid.
        + by apply chain_insert.
      - by constructor.
      - intros e. rewrite elem_of_cons, Hk. destruct (decide (e = c)) as [->|He].
        + rewrite lookup_insert_eq. split; [by intros _; exists v|by left].
        + rewrite lookup_insert_ne by done. destruct (decide (e = r)) as [->|Her].
          * rewrite lookup_insert_eq, HA. split; [intros [?|[? ?]]; done|by intros [? ?]].
          * rewrite lookup_insert_ne by done. split; [by intros [?|?]|by right]. }
    rewrite !lookup_insert_ne by done. pose proof (r_at _ _ _ R d) as Hd. destruct (A !! d) as [vw|] eqn:EA, (W !! d) as [x|] eqn:EW; try done.
    eapply fits_move; [|exact Hd]. destruct vw as [u' kids'|r' u'].
    + split.
      * intros e z He Hz. assert (e ≠ c) by congruence. assert (e ≠ r) by (intros ->; by eapply (root_not_kid A W s r)).
        exists z. by rewrite !lookup_insert_ne.
      * intros e. destruct (decide (e = c)) as [->|Hec]; [rewrite lookup_insert_eq, HAc; split; intros [? ?]; congruence|].
        destruct (decide (e = r)) as [->|Her]; [rewrite lookup_insert_ne, lookup_insert_eq, HA by done; split; intros [? ?]; congruence|].
        by rewrite !lookup_insert_ne.
    + destruct (decide (r' = r)) as [->|Hr'].
      * split; [intros z Hz; exists (set_head (Some c) y); rewrite lookup_insert_eq; split; [done|]; cbn; congruence|].
        intros ? ? _. exists u, (c :: kids). by rewrite lookup_insert_ne, lookup_insert_eq.
      * assert (r' ≠ c) as Hrc. { intros ->. destruct (child_root _ _ _ _ _ _ R EA) as (? & ? & ? & _). congruence. }
        split; [intros z Hz; exists z|intros jr kk Hj; exists jr, kk]; by rewrite !lookup_insert_ne.
  - intros a xa Ha Oa. destruct (decide (a = r)) as [->|Har]; [rewrite lookup_insert_eq in Ha; injection Ha as <-; by exists y|].
    rewrite lookup_insert_ne in Ha by done. destruct (decide (a = c)) as [->|Hac]; [rewrite lookup_insert_eq in Ha; by injection Ha as <-|].
    rewrite lookup_insert_ne in Ha by done. by exists xa.
  - intros a ya Ha Oa. destruct (decide (a = r)) as [->|Har]; [exists (set_head (Some c) y); rewrite lookup_insert_eq; by simplify_eq|].
    exists ya. assert (a ≠ c) by congruence. by rewrite !lookup_insert_ne.
Qed.

(** Texts that are kept in a wrapper. *)
Lemma rel_note A W s w x y :
  rel A W s → W !! w = Some x →
  j_node y = j_node x → j_owned y = j_owned x → j_borrowed_head y = j_borrowed_head x → j_root y = j_root x → j_next_borrowed y = j_next_borrowed x →
  conv_is y (val_at A (Some w)) → rel A (<[w := y]> W) s.
Proof.
  intros R HW E1 E2 E3 E4 E5 Hc.
  assert (∀ c z, W !! c = Some z → ∃ z', <[w := y]> W !! c = Some z' ∧ j_next_borrowed z' = j_next_borrowed z ∧ j_node z' = j_node z) as Hag.
  { intros c z Hz. destruct (decide (c = w)) as [->|]; [exists y; rewrite lookup_insert_eq; split_and!; congruence|exists z; by rewrite lookup_insert_ne]. }
  assert (∀ d vw z, fits A W s d vw z → fits A (<[w := y]> W) s d vw z) as Hmv.
  { intros d vw z. apply fits_move. destruct vw; split; eauto.
    - intros c z' _ Hz. destruct (Hag c z' Hz) as (z2 & ? & ? & _). by exists z2.
    - intros z' Hz. destruct (Hag _ z' Hz) as (z2 & ? & _ & ?). by exists z2. }
  apply (rel_owned A _ W _ s R).
  - intros d. pose proof (r_at _ _ _ R d) as Hd. destruct (decide (d = w)) as [->|Hn].
    + rewrite lookup_insert_eq. rewrite HW in Hd. cbn in Hc. destruct (A !! w) as [vw|] eqn:EA; [|done]. cbn in Hc.
      apply Hmv in Hd as [_ Hd]. split; [done|]. destruct vw; rewrite E1, E2, E4, ?E3; done.
    + rewrite lookup_insert_ne by done. destruct (A !! d) as [vw|] eqn:EA, (W !! d) as [x'|] eqn:EW; try done. by apply Hmv.
  - intros a xa Ha Oa. destruct (decide (a = w)) as [->|]; [rewrite lookup_insert_eq in Ha; injection Ha as <-; exists x; split_and!; congruence|].
    rewrite lookup_insert_ne in Ha by done. by exists xa.
  - intros a ya Ha Oa. destruct (decide (a = w)) as [->|]; [exists y; rewrite lookup_insert_eq; split_and!; congruence|exists ya; by rewrite lookup_insert_ne].
Qed.

(** A wrapper whose root keeps its tree. *)
Lemma fits_other A W s s' d vw x (P : positive → Prop) :
  rel A W s → A !! d = Some vw → W !! d = Some x →
  (∀ q o, c_owner s q = Some o → ¬ P o → c_val s' q = c_val s q ∧ c_owner s' q = Some o) →
  (∀ y p, W !! root_at A d = Some y → j_owned y = true → j_node y = Some p → ¬ P p) → fits A W s' d vw x.
Proof.
  intros R HA HW Hk HP. unfold root_at in HP. rewrite HA in HP. destruct (rel_some _ _ _ _ _ R HA) as (x' & HW' & Hc & Hf). assert (x' = x) as -> by congruence.
  split; [done|]. destruct vw as [v kids|r v].
  - destruct Hf as (H1 & H2 & H3 & H4 & H5 & H6). split_and!; try done. destruct (j_node x) as [p|] eqn:Ep, v as [j|]; try done. destruct H3 as [H3 H3'].
    destruct (Hk p p H3' (HP x p HW H1 Ep)) as [Ev Eo]. cbn. by rewrite Ev.
  - destruct Hf as (H1 & H2 & q & p & y & jr & kids & H3 & H4 & H5 & H6 & H7 & H8). split_and!; try done. exists q, p, y, jr, kids.
    destruct (rel_some _ _ _ _ _ R H8) as (y' & Hy & _ & Hown & _). assert (y' = y) as -> by congruence.
    destruct (Hk q p H5 (HP y p H6 Hown H7)) as [Ev Eo]. by rewrite Ev.
Qed.

(** A root is released, with what was borrowed from it and its tree. *)
Lemma rel_remove A W s s' w v kids x :
  rel A W s → A !! w = Some (VRoot v kids) → W !! w = Some x →
  (∀ q o, c_owner s q = Some o → j_node x ≠ Some o → c_val s' q = c_val s q ∧ c_owner s' q = Some o) →
  (∀ q o, c_owner s' q = Some o → c_owner s q = Some o ∧ j_node x ≠ Some o) →
  rel (release A (w :: kids)) (foldr delete W (w :: kids)) s'.
Proof.
  intros R HA HW Hk Hn. destruct (rel_some _ _ _ _ _ R HA) as (x' & HW' & _ & Hown & _ & _ & _ & _ & Hkid). assert (x' = x) as -> by congruence.
  assert (∀ d r u, A !! d = Some (VChild r u) → d ∉ w :: kids → r ≠ w) as Hr.
  { intros d r u Hd Hin ->. apply Hin. right. apply Hkid. by exists u. }
  assert (∀ r u kk, A !! r = Some (VRoot u kk) → r ≠ w → r ∉ w :: kids) as Hr2.
  { intros r u kk Hd Hne [->|Hin]%elem_of_cons; [done|]. by eapply (root_not_kid A W s r u kk w v kids). }
  constructor.
  - intros d. unfold release. rewrite !lookup_release. destruct (decide (d ∈ w :: kids)) as [Hd|Hd]; [done|].
    pose proof (r_at _ _ _ R d) as Hf. destruct (A !! d) as [vw|] eqn:EA, (W !! d) as [y|] eqn:EW; try done.
    assert (d ≠ w) as Hdw by (intros ->; apply Hd; by left).
    eapply (fits_move A _ W); [|eapply (fits_other A W s s' d vw y (λ o, j_node x = Some o)); try done].
    + destruct vw as [u kk|r u].
      * split.
        -- intros c z Hc Hz. exists z. rewrite lookup_release, decide_False; [done|]. intros Hin. destruct (rel_some _ _ _ _ _ R EA) as (? & _ & _ & _ & _ & _ & _ & _ & Hkk).
           apply Hkk in Hc as [uc Huc]. apply elem_of_cons in Hin as [->|Hin]; [congruence|]. apply Hkid in Hin as [uc' Huc']. congruence.
        -- intros c. rewrite lookup_release. destruct (decide (c ∈ w :: kids)) as [Hin|]; [|done]. split; [|by intros [? ?]]. intros [uc Huc].
           apply elem_of_cons in Hin as [->|Hin]; [congruence|]. apply Hkid in Hin as [uc' Huc']. congruence.
      * destruct (child_root _ _ _ _ _ _ R EA) as (jr & kk & HR & _). pose proof (Hr2 r jr kk HR (Hr d r u EA Hd)) as Hnr.
        split; [intros z Hz; exists z|intros jr' kk' Hj; exists jr', kk']; by rewrite lookup_release, decide_False.
    + intros z p Hz Oz Nz Ex. assert (root_at A d = w) as Hw by (eapply (r_sep _ _ _ R); done). unfold root_at in Hw. rewrite EA in Hw.
      destruct vw; [done|]. by eapply Hr.
  - intros a b xa xb p Ha Hb. rewrite lookup_release in Ha, Hb. repeat case_decide; try done. by eapply (r_sep _ _ _ R).
  - intros q o Ho. destruct (Hn q o Ho) as [Hq Hx]. destruct (r_cover _ _ _ R q o Hq) as (d & y & Hd & Oy & Ny). exists d, y. split; [|done].
    rewrite lookup_release, decide_False; [done|]. intros [->|Hin]%elem_of_cons; [congruence|]. apply Hkid in Hin as [u Hu].
    destruct (rel_some _ _ _ _ _ R Hu) as (y' & Hy & _ & Hf & _). congruence.
Qed.

(** A root from which nothing is borrowed changes its value, and takes in the
    tree of [c]. *)
Definition wraps_without (W : gmap positive wrapper) (c : option positive) : gmap positive wrapper := match c with Some d => delete d W | None => W end.
Definition node_at (W : gmap positive wrapper) (c : option positive) : list positive :=
  match c with Some d => match W !! d with Some x => option_list (j_node x) | None => [] end | None => [] end.
Lemma rel_edit A W s s' w c x p j j' :
  rel A W s → A !! w = Some (VRoot (Some j) []) → W !! w = Some x → j_node x = Some p → loose A c → c ≠ Some w →
  Json.json_object_get_string j = None → edits s s' p (node_at W c) j' →
  rel (<[w := VRoot (Some j') []]> (without A c)) (wraps_without W c) s'.
Proof.
  intros R HA HW Hp Hc Hcw Hj (Ev & Eo & Ek & En).
  destruct (rel_some _ _ _ _ _ R HA) as (x' & HW' & Hcv & Hown & Hroot & _ & Hch & _ & Hkid). assert (x' = x) as -> by congruence.
  assert (∀ d, Some d ≠ c → without A c !! d = A !! d ∧ wraps_without W c !! d = W !! d) as Hne.
  { intros d Hd. destruct c as [c|]; [|done]. cbn. rewrite !lookup_delete_ne by congruence. done. }
  assert (∀ d, Some d = c → without A c !! d = None ∧ wraps_without W c !! d = None) as Heq.
  { intros d <-. cbn. by rewrite !lookup_delete_eq. }
  assert (∀ d r u, A !! d = Some (VChild r u) → r ≠ w ∧ Some r ≠ c) as Hr.
  { intros d r u Hd. destruct (child_root _ _ _ _ _ _ R Hd) as (jr & kk & HR & Hin). split; [intros ->|intros <-; destruct Hc as [vc Hc]].
    - assert (kk = []) as -> by congruence. by apply not_elem_of_nil in Hin.
    - assert (kk = []) as -> by congruence. by apply not_elem_of_nil in Hin. }
  assert (∀ d u r, A !! d = Some (VChild r u) → Some d ≠ c) as Hcc.
  { intros d u r Hd <-. destruct Hc as [vc Hc]. congruence. }
  assert (∀ d y o, W !! d = Some y → j_owned y = true → j_node y = Some o → d ≠ w → Some d ≠ c → ¬ (o = p ∨ o ∈ node_at W c)) as Hsep.
  { intros d y o Hd Oy Ny Hdw Hdc [->|Ho]; [by apply Hdw, (r_sep _ _ _ R d w y x p)|]. destruct c as [c|]; [|by apply not_elem_of_nil in Ho]. cbn in Ho.
    destruct Hc as [vc HAc]. destruct (rel_some _ _ _ _ _ R HAc) as (xc & HWc & _ & Oc & _). rewrite HWc in Ho. destruct (j_node xc) as [pc|] eqn:Epc; [|by apply not_elem_of_nil in Ho].
    apply list_elem_of_singleton in Ho as ->. apply Hdc. f_equal. by apply (r_sep _ _ _ R d c y xc pc). }
  constructor.
  - intros d. destruct (decide (d = w)) as [->|Hdw].
    { rewrite lookup_insert_eq. destruct (Hne w) as [_ ->]; [done|]. rewrite HW. split; [left; destruct Hcv as [Hcv|Hcv]; [done|]; by rewrite Hcv; cbn; rewrite Hj|].
      split_and!; try done; [by rewrite Hp|constructor|]. intros e. split; [by intros ?%not_elem_of_nil|]. intros [u Hu].
      destruct (decide (e = w)) as [->|]; [by rewrite lookup_insert_eq in Hu|]. rewrite lookup_insert_ne in Hu by done.
      destruct (decide (Some e = c)) as [E|E]; [by rewrite (proj1 (Heq e E)) in Hu|]. rewrite (proj1 (Hne e E)) in Hu. by destruct (Hr _ _ _ Hu). }
    rewrite lookup_insert_ne by done. destruct (decide (Some d = c)) as [E|E]; [by destruct (Heq d E) as [-> ->]|]. destruct (Hne d E) as [-> ->].
    pose proof (r_at _ _ _ R d) as Hf. destruct (A !! d) as [vw|] eqn:EA, (W !! d) as [y|] eqn:EW; try done.
    eapply (fits_move A _ W); [|eapply (fits_other A W s s' d vw y (λ o, o = p ∨ o ∈ node_at W c)); try done].
    + destruct vw as [u kk|r u].
      * split.
        -- intros e z He Hz. exists z. split; [|done]. rewrite <- Hz. apply Hne. destruct (rel_some _ _ _ _ _ R EA) as (? & _ & _ & _ & _ & _ & _ & _ & Hkk).
           apply Hkk in He as [ue Hue]. by eapply Hcc.
        -- intros e. destruct (decide (e = w)) as [->|]; [rewrite lookup_insert_eq, HA; split; intros [? ?]; congruence|]. rewrite lookup_insert_ne by done.
           destruct (decide (Some e = c)) as [Ec|Ec]; [|by rewrite (proj1 (Hne e Ec))]. rewrite (proj1 (Heq e Ec)). split; [|by intros [? ?]]. intros [ue Hue]. by destruct (Hcc _ _ _ Hue).
      * destruct (Hr d r u EA) as [Hrw Hrc]. split; [intros z Hz; exists z|intros jr kk HR; exists jr, kk]; rewrite ?lookup_insert_ne by done; by rewrite ?(proj1 (Hne r Hrc)), ?(proj2 (Hne r Hrc)).
    + intros q o Ho Hno. destruct (Ek q o Ho) as [-> ->]; [by intros ->; apply Hno; left|by intros Hin; apply Hno; right|done].
    + intros z o Hz Oz Nz. eapply Hsep; try done; unfold root_at; rewrite EA; destruct vw as [|r u]; try done; by apply (Hr d r u).
  - intros a b xa xb n Ha Hb. destruct (decide (Some a = c)) as [E|E]; [by rewrite (proj2 (Heq a E)) in Ha|]. rewrite (proj2 (Hne a E)) in Ha.
    destruct (decide (Some b = c)) as [F|F]; [by rewrite (proj2 (Heq b F)) in Hb|]. rewrite (proj2 (Hne b F)) in Hb. by eapply (r_sep _ _ _ R).
  - intros q o Ho. destruct (En q o Ho) as [->|[Hq Hg]]; [exists w, x; rewrite (proj2 (Hne w ltac:(congruence))); by split_and!|].
    destruct (r_cover _ _ _ R q o Hq) as (d & y & Hd & Oy & Ny). exists d, y. split; [|done]. rewrite <- Hd. apply Hne. intros <-. apply Hg. cbn. rewrite Hd, Ny. by left.
Qed.

(** ** The operations follow the abstract machine *)

Context (mem : nat → bool) (full : bool) (Hfull : full = true → (∀ n, mem n = true) ∧ cjson_plenty).

Lemma mem_short t : mem t = false → full = false.
Proof using Hfull. intros Ht. destruct full; [|done]. destruct (Hfull eq_refl) as [Hm _]. by rewrite Hm in Ht. Qed.
Lemma fresh_none {X} (W : gmap positive X) : W !! fresh (dom W) = None.
Proof. apply not_elem_of_dom, is_fresh. Qed.

Lemma creates_none s s' j : creates s s' None j → same s s'.
Proof.
  intros [Hk Hn]. split; [|done]. intros q o Hq. destruct (Hk q) as [E1 E2]; [apply c_owned; by exists o|]. by rewrite E2.
Qed.
Lemma creates_deleted s s' p j : creates s s' (Some p) j → same s (cJSON_Delete p s').
Proof.
  intros (Hk & Hf & Hv & Ho & Hn).
  assert (∀ q o, c_owner s q = Some o → o ≠ p ∧ c_val s' q = c_val s q ∧ c_owner s' q = Some o) as Hs.
  { intros q o Hq. destruct (Hk q) as [E1 E2]; [apply c_owned; by exists o|]. rewrite Hq in E2. split_and!; try done. intros ->.
    apply c_owner_root in Hq. destruct (proj2 (c_owned s p)); [by exists p|congruence]. }
  split.
  - intros q o Hq. destruct (Hs q o Hq) as (Hne & E1 & E2). pose proof (c_delete_ok p s' Ho q o E2) as Hd. rewrite decide_False in Hd by done. by rewrite <- E1.
  - intros q o Hq. destruct (c_owner s' q) as [o'|] eqn:E; [|by rewrite c_delete_new in Hq].
    pose proof (c_delete_ok p s' Ho q o' E) as Hd. case_decide; [congruence|]. destruct Hd as [_ Hd]. destruct (Hn q o' E); [done|congruence].
Qed.

Lemma run_wrap_new A W s s' t n j :
  rel A W s → (n = None ∧ same s s' ∨ ∃ p, n = Some p ∧ creates s s' (Some p) j) →
  ∃ out h', wrap_new mem n true (mkHeap W s' t) = Some (out, h') ∧
    match out with
    | None => full = false ∧ rel A (h_wrap h') (h_c h')
    | Some w => A !! w = None ∧ rel (<[w := VRoot (j ← Some j; _ ← n; Some j) []]> A) (h_wrap h') (h_c h')
    end.
Proof using Type*.
  intros R Hn. unfold wrap_new, jalloc, jmalloc, jbind, jret. cbn. destruct (mem t) eqn:Em; cbn.
  - eexists _, _. split; [done|]. cbn. assert (A !! fresh (dom W) = None) as HA by (apply (rel_none _ _ _ _ R), fresh_none). split; [done|].
    eapply rel_root; [exact R|done| |done]. destruct Hn as [[-> Hs]|(p & -> & Hc)]; [by left|right; by exists p, j].
  - apply mem_short in Em. destruct Hn as [[-> Hs]|(p & -> & Hc)]; cbn.
    + eexists _, _. split; [done|]. cbn. split; [done|]. by eapply rel_same.
    + unfold jbind, node_val. cbn. pose proof Hc as (_ & _ & Hv & _). rewrite Hv. cbn. eexists _, _. split; [done|]. cbn. split; [done|].
      eapply rel_same; [by eapply creates_deleted|done].
Qed.

Lemma run_create A W s t j :
  rel A W s →
  ∃ out h', create mem j (mkHeap W s t) = Some (out, h') ∧
    match out with
    | None => full = false ∧ rel A (h_wrap h') (h_c h')
    | Some w => A !! w = None ∧ (rel (<[w := VRoot (Some j) []]> A) (h_wrap h') (h_c h') ∨ full = false ∧ rel (<[w := VRoot None []]> A) (h_wrap h') (h_c h'))
    end.
Proof using Type*.
  intros R. unfold create, jbind, jc. cbn. pose proof (c_create_ok j s) as Hc. destruct (cJSON_Create j s) as [n s'] eqn:E. cbn in *.
  assert (n = None → full = false) as Hshort.
  { intros ->. destruct full; [|done]. destruct (Hfull eq_refl) as [_ Hp]. destruct (cp_create Hp j s) as [x Hx]. by rewrite E in Hx. }
  destruct (run_wrap_new A W s s' t n j R) as (out & h' & Hr & Hout).
  { destruct n as [p|]; [right; by exists p|left]. split; [done|]. by eapply creates_none. }
  exists out, h'. split; [done|]. destruct out as [w|]; [|done]. destruct Hout as [HA Hout]. split; [done|]. destruct n; cbn in Hout; [by left|right]. auto.
Qed.

Definition follows (A : owners) (op : jop) (h : jheap) : Prop :=
  ∃ out h' A', exec mem op h = Some (out, h') ∧ astep full A op out A' ∧ rel A' (h_wrap h') (h_c h').

Lemma follows_create A W s t op j :
  rel A W s → makes op = Some j → creation op = true →
  exec mem op (mkHeap W s t) = (jbind (create mem j) (λ p, jret (OutPtr p))) (mkHeap W s t) → follows A op (mkHeap W s t).
Proof using Type*.
  intros R Hm Hc He. destruct (run_create A W s t j R) as (out & h' & Hr & Hout). unfold follows. rewrite He. unfold jbind. rewrite Hr. unfold jret. destruct out as [w|].
  - destruct Hout as [HA [Hout|[Hs Hout]]]; eexists _, _, _; (split; [done|]); (split; [|exact Hout]); [by apply S_make|by apply S_make_bare; [rewrite Hm| |]].
  - destruct Hout as [Hs Hout]. eexists _, _, _. split; [done|]. split; [|exact Hout]. apply S_make_null; [done|by left].
Qed.

Lemma follows_parse A W s t text : rel A W s → follows A (OParse text) (mkHeap W s t).
Proof using Type*.
  intros R. unfold follows. cbn. unfold jbind at 1, json_tokener_parse. destruct text as [text|]; [|by eexists _, _, A; split; [done|]; split; [by apply S_make_null; [|right]|]].
  pose proof (c_parse_ok text s) as Hc. unfold jbind at 1, jc. cbn. destruct (cJSON_Parse text s) as [n s'] eqn:E. cbn in *. destruct (c_text text) as [j|] eqn:Et.
  - destruct n as [p|].
    + destruct (run_wrap_new A W s s' t (Some p) j R) as (out & h' & Hr & Hout); [right; by exists p|]. rewrite Hr. unfold jret. destruct out as [w|].
      * destruct Hout as [HA Hout]. eexists _, _, _. split; [done|]. split; [|exact Hout]. by apply S_make.
      * destruct Hout as [Hs Hout]. eexists _, _, _. split; [done|]. split; [|exact Hout]. apply S_make_null; [done|by left].
    + eexists _, _, A. split; [done|]. split; [|eapply rel_same; [by eapply creates_none|done]]. apply S_make_null; [done|left]. destruct full; [|done].
      destruct (Hfull eq_refl) as [_ Hp]. destruct (cp_parse Hp text s) as [x Hx]; [by rewrite Et|by rewrite E in Hx].
  - injection Hc as -> ->. eexists _, _, A. split; [done|]. split; [|done]. apply S_make_null; [done|right]. cbn. by rewrite Et.
Qed.

(** *** Reading *)

Lemma live_node A W s w vw v :
  rel A W s → A !! w = Some vw → view_val vw = Some v →
  ∃ x q p y u kids, W !! w = Some x ∧ j_node x = Some q ∧ c_val s q = Some v ∧ c_owner s q = Some p ∧
    default w (j_root x) = root_at A w ∧ W !! root_at A w = Some y ∧ j_node y = Some p ∧ A !! root_at A w = Some (VRoot u kids).
Proof.
  intros R HA Hv. destruct (rel_some _ _ _ _ _ R HA) as (x & HW & _ & Hf). unfold root_at. rewrite HA. destruct vw as [v' kids|r v']; cbn in Hv.
  - subst v'. destruct Hf as (_ & Hr & Hn & _). destruct (j_node x) as [q|] eqn:Eq; [|done]. destruct Hn as [Hv Ho].
    exists x, q, q, x, (Some v), kids. rewrite Hr. by split_and!.
  - injection Hv as ->. destruct Hf as (_ & Hr & q & p & y & jr & kids & H1 & H2 & H3 & H4 & H5 & H6). exists x, q, p, y, jr, kids. rewrite Hr. by split_and!.
Qed.
Lemma run_wrapped A W s t w vw :
  rel A W s → A !! w = Some vw →
  ∃ x, W !! w = Some x ∧ (view_val vw = None → j_node x = None) ∧
    wrapped (Some w) (mkHeap W s t) = Some (Some (j_node x, view_val vw), mkHeap W s t).
Proof.
  intros R HA. unfold wrapped, jbind, jget. cbn. destruct (view_val vw) as [v|] eqn:Ev.
  - destruct (live_node A W s w vw v R HA Ev) as (x & q & p & y & u & kids & HW & Hq & Hval & _). exists x. rewrite HW. cbn. rewrite Hq. cbn. by rewrite Hval.
  - destruct (rel_some _ _ _ _ _ R HA) as (x & HW & _ & Hf). exists x. rewrite HW. cbn. destruct vw as [v kids|]; [|done]. cbn in Ev. subst v.
    destruct Hf as (_ & _ & Hn & _). destruct (j_node x); [done|]. by cbn.
Qed.

Lemma follows_plain A W s t op out :
  exec mem op (mkHeap W s t) = Some (out, mkHeap W s t) → astep full A op out A → rel A W s → follows A op (mkHeap W s t).
Proof. intros He Hs R. by exists out, (mkHeap W s t), A. Qed.

Lemma follows_len A W s t p : rel A W s → live A p → follows A (OLen p) (mkHeap W s t).
Proof.
  intros R Hp. destruct p as [w|]; [|by apply (follows_plain A W s t _ (OutInt 0)); [|apply (S_len full A None)|]]. destruct Hp as [vw HA].
  destruct (run_wrapped A W s t w vw R HA) as (x & HW & _ & Hr). eapply follows_plain; [|apply S_len|done]. cbn. unfold json_object_array_length, jbind. rewrite Hr.
  unfold jret. cbn. rewrite HA. cbn. by destruct (view_val vw) as [[]|].
Qed.
Lemma follows_bool A W s t p : rel A W s → live A p → follows A (OBool p) (mkHeap W s t).
Proof.
  intros R Hp. destruct p as [w|]; [|by apply (follows_plain A W s t _ (OutInt 0)); [|apply (S_bool full A None)|]]. destruct Hp as [vw HA].
  destruct (run_wrapped A W s t w vw R HA) as (x & HW & _ & Hr). eapply follows_plain; [|apply S_bool|done]. cbn. unfold json_object_get_boolean, jbind. rewrite Hr.
  unfold jret. cbn. rewrite HA. cbn. by destruct (view_val vw) as [[|[]| | | |]|].
Qed.
Lemma follows_int A W s t p : rel A W s → live A p → (is_Some p → numeric (val_at A p)) → follows A (OInt p) (mkHeap W s t).
Proof.
  intros R Hp Hn. destruct p as [w|]; [|by apply (follows_plain A W s t _ (OutInt 0)); [|apply (S_int full A None)|]]. destruct Hp as [vw HA].
  destruct (run_wrapped A W s t w vw R HA) as (x & HW & _ & Hr). eapply follows_plain; [|apply S_int|done]. cbn. unfold json_object_get_int, jbind. rewrite Hr.
  unfold jret, jub. specialize (Hn ltac:(by eexists)). cbn in *. rewrite HA in *. cbn in *. by destruct (view_val vw) as [[]|].
Qed.

(** Texts that are made and kept. *)
Lemma run_conv A W s t w x v text :
  rel A W s → W !! w = Some x → val_at A (Some w) = Some v → Json.json_object_get_string v = Some text →
  ∃ c h', jbind (set_cached_str mem (j_conv x) text) (λ c, jbind (jput w (set_conv c x)) (λ _, jret c)) (mkHeap W s t) = Some (c, h') ∧
    rel A (h_wrap h') (h_c h') ∧ (c = Some text ∨ c = None ∧ full = false).
Proof using Type*.
  intros R HW Hv Ht. unfold set_cached_str, jmalloc, jput, jbind, jret. cbn. eexists _, _. split; [done|]. cbn.
  destruct (rel_wrap _ _ _ _ _ R HW) as (vw & HA & Hcv & _).
  assert (view_val vw = Some v) as Hvw by (cbn in Hv; by rewrite HA in Hv). rewrite Hvw in Hcv. unfold conv_is in Hcv. cbn in Hcv. rewrite Ht in Hcv. split.
  - eapply rel_note; try done. rewrite Hv. unfold conv_is. cbn. rewrite Ht. destruct (mem t); [by right|done].
  - destruct (mem t) eqn:Em; [by left|]. apply mem_short in Em. destruct Hcv as [->| ->]; [by right|by left].
Qed.
Lemma follows_string A W s t p : rel A W s → live A p → follows A (OString p) (mkHeap W s t).
Proof using Type*.
  intros R Hp. destruct p as [w|]; [|by apply (follows_plain A W s t _ (OutText None)); [|apply (S_string full A None)|]]. destruct Hp as [vw HA].
  destruct (run_wrapped A W s t w vw R HA) as (x & HW & _ & Hr). assert (val_at A (Some w) = view_val vw) as Hv by (cbn; by rewrite HA).
  unfold follows. cbn [exec]. unfold jbind at 1, json_object_get_string. unfold jbind at 1. rewrite Hr.
  assert (∀ out, match view_val vw with Some v => Json.json_object_get_string v | None => None end = out → astep full A (OString (Some w)) (OutText out) A) as Hstep.
  { intros out <-. rewrite <- Hv. exact (S_string full A (Some w)). }
  destruct (view_val vw) as [[| b |i text|text| |]|] eqn:Ev; try (eexists _, _, A; split; [done|]; split; [by apply Hstep|done]).
  - unfold jbind at 1, jget. cbn [h_wrap]. rewrite HW. cbn [mbind option_bind].
    destruct (run_conv A W s t w x (JBool b) (if b then "true" else "false")%string R HW Hv eq_refl) as (c & h' & Hc & R' & Ho). rewrite Hc.
    eexists _, _, A. split; [done|]. split; [|done]. destruct Ho as [->|[-> Ho]]; [by apply Hstep|by apply S_string_short].
  - unfold jbind at 1, jget. cbn [h_wrap]. rewrite HW. cbn [mbind option_bind].
    destruct (run_conv A W s t w x (JNumber i text) text R HW Hv eq_refl) as (c & h' & Hc & R' & Ho). rewrite Hc.
    eexists _, _, A. split; [done|]. split; [|done]. destruct Ho as [->|[-> Ho]]; [by apply Hstep|by apply S_string_short].
Qed.
Lemma follows_print A W s t p : rel A W s → live A p → follows A (OPrint p) (mkHeap W s t).
Proof using Type*.
  intros R Hp. destruct p as [w|]; [|by apply (follows_plain A W s t _ (OutText None)); [|apply (S_print full A None)|]]. destruct Hp as [vw HA].
  destruct (run_wrapped A W s t w vw R HA) as (x & HW & Hno & Hr). assert (val_at A (Some w) = view_val vw) as Hv by (cbn; by rewrite HA).
  unfold follows. cbn [exec]. unfold jbind at 1, json_object_to_json_string_ext. unfold jbind at 1. rewrite Hr. destruct (view_val vw) as [v|] eqn:Ev.
  2: { rewrite Hno by done. eexists _, _, A. split; [done|]. split; [|done]. pose proof (S_print full A (Some w)) as Hs. by rewrite Hv in Hs. }
  destruct (live_node A W s w vw v R HA Ev) as (x' & q & p & y & u & kids & HW' & Hq & Hval & _). assert (x' = x) as -> by congruence. rewrite Hq.
  unfold jbind at 1, jread. cbn [h_c]. destruct (cJSON_PrintUnformatted q s) as [text|] eqn:Ep.
  - pose proof (c_print_ok q s v text Hval Ep) as ->. unfold jbind at 1, jget. cbn [h_wrap]. rewrite HW. cbn.
    eexists _, _, A. split; [done|]. cbn. split; [destruct (mem t) eqn:Em; [|by apply S_print_short; eapply mem_short]|].
    + pose proof (S_print full A (Some w)) as Hs. by rewrite Hv in Hs.
    + eapply rel_note; try done. rewrite Hv. destruct (rel_wrap _ _ _ _ _ R HW) as (vw' & HA' & Hcv & _). assert (vw' = vw) as -> by congruence. by rewrite Ev in Hcv.
  - eexists _, _, A. split; [done|]. split; [|done]. apply S_print_short. destruct full; [|done]. destruct (Hfull eq_refl) as [_ Hp].
    destruct (cp_print Hp q s) as [z Hz]; [by exists v|congruence].
Qed.

(** *** Borrowing *)

Lemma run_borrow A W s t w vw j x q n v :
  rel A W s → A !! w = Some vw → view_val vw = Some j → W !! w = Some x → j_node x = Some q →
  c_val s n = Some v → c_owner s n = c_owner s q →
  ∃ b h', borrow_child mem w n (mkHeap W s t) = Some (b, h') ∧
    match b with
    | None => full = false ∧ rel A (h_wrap h') (h_c h')
    | Some c => A !! c = None ∧ rel (borrow A w c v) (h_wrap h') (h_c h')
    end.
Proof using Type*.
  intros R HA Hj HW Hq Hv Ho. destruct (live_node A W s w vw j R HA Hj) as (x' & q' & p & y & u & kids & HW' & Hq' & _ & Hp & Hroot & Hy & Hny & HAr).
  assert (x' = x) as -> by congruence. assert (q' = q) as -> by congruence. unfold borrow_child, root_of, jbind, jget, jmalloc, jput, jret. cbn. rewrite HW. cbn. rewrite Hroot.
  destruct (mem t) eqn:Em; cbn; [|eexists _, _; split; [done|]; split; [by eapply mem_short|done]].
  rewrite Hy. cbn. eexists _, _. split; [done|]. cbn. assert (A !! fresh (dom W) = None) as HAf by (apply (rel_none _ _ _ _ R), fresh_none). split; [done|].
  unfold borrow. rewrite HAr. eapply rel_borrow; try done. by rewrite Ho.
Qed.
Lemma follows_get A W s t p key : rel A W s → live A p → follows A (OGet p key) (mkHeap W s t).
Proof using Type*.
  intros R Hp. destruct p as [w|]; [|by apply (follows_plain A W s t _ (OutGot false None)); [|apply (S_get_none full A None)|]]. destruct Hp as [vw HA].
  destruct (run_wrapped A W s t w vw R HA) as (x & HW & Hno & Hr). assert (val_at A (Some w) = view_val vw) as Hv by (cbn; by rewrite HA).
  unfold follows. cbn [exec]. unfold jbind at 1, json_object_object_get_ex. unfold jbind at 1. rewrite Hr.
  assert ((∀ l, view_val vw ≠ Some (JObject l)) → astep full A (OGet (Some w) key) (OutGot false None) A) as Hnone.
  { intros Hn. apply S_get_none. rewrite Hv. destruct (view_val vw) as [[]|]; try done. by destruct (Hn l). }
  destruct (view_val vw) as [j|] eqn:Ev; [|rewrite Hno by done; eexists _, _, A; split; [done|]; split; [by apply Hnone|done]].
  destruct (live_node A W s w vw j R HA Ev) as (x' & q & p & y & u & kids & HW' & Hq & Hval & _). assert (x' = x) as -> by congruence. rewrite Hq.
  destruct j as [| | | | |l]; try (eexists _, _, A; split; [done|]; split; [by apply Hnone|done]).
  unfold jbind at 1, jread. cbn [h_c]. pose proof (c_item_ok q key s l Hval) as Hi. destruct (member key l) as [v|] eqn:Em.
  - destruct Hi as (n & -> & Hn & Ho). destruct (run_borrow A W s t w vw (JObject l) x q n v R HA Ev HW Hq Hn Ho) as (b & h' & Hb & Hout). unfold jbind. rewrite Hb. unfold jret.
    destruct b as [c|]; destruct Hout as [H1 Hout]; eexists _, _, _; (split; [done|]); (split; [|exact Hout]).
    + apply S_get; [by rewrite Hv|done].
    + eapply S_get_short; [|done]. rewrite Hv. exact Em.
  - rewrite Hi. eexists _, _, A. split; [done|]. split; [|done]. apply S_get_none. rewrite Hv. exact Em.
Qed.
Lemma follows_nth A W s t p i : rel A W s → live A p → follows A (ONth p i) (mkHeap W s t).
Proof using Type*.
  intros R Hp. destruct p as [w|]; [|by apply (follows_plain A W s t _ (OutPtr None)); [|apply (S_nth_none full A None); right|]]. destruct Hp as [vw HA].
  destruct (run_wrapped A W s t w vw R HA) as (x & HW & Hno & Hr). assert (val_at A (Some w) = view_val vw) as Hv by (cbn; by rewrite HA).
  unfold follows. cbn [exec]. unfold jbind at 1, json_object_array_get_idx. unfold jbind at 1. rewrite Hr.
  assert ((∀ l, view_val vw ≠ Some (JArray l)) → astep full A (ONth (Some w) i) (OutPtr None) A) as Hnone.
  { intros Hn. apply S_nth_none. right. rewrite Hv. destruct (view_val vw) as [[]|]; try done. by destruct (Hn l). }
  destruct (view_val vw) as [j|] eqn:Ev; [|rewrite Hno by done; eexists _, _, A; split; [done|]; split; [by apply Hnone|done]].
  destruct (live_node A W s w vw j R HA Ev) as (x' & q & p & y & u & kids & HW' & Hq & Hval & _). assert (x' = x) as -> by congruence. rewrite Hq.
  destruct j as [| | | |l|]; try (eexists _, _, A; split; [done|]; split; [by apply Hnone|done]).
  unfold jbind at 1, jread. cbn [h_c]. pose proof (c_nth_ok q i s l Hval) as Hi. destruct (l !! i) as [v|] eqn:Em.
  - destruct Hi as (n & -> & Hn & Ho). destruct (run_borrow A W s t w vw (JArray l) x q n v R HA Ev HW Hq Hn Ho) as (b & h' & Hb & Hout). rewrite Hb. unfold jret.
    destruct b as [c|]; destruct Hout as [H1 Hout]; eexists _, _, _; (split; [done|]); (split; [|exact Hout]).
    + apply S_nth; [by rewrite Hv|done].
    + apply S_nth_none. by left.
  - rewrite Hi. eexists _, _, A. split; [done|]. split; [|done]. apply S_nth_none. right. rewrite Hv. exact Em.
Qed.

(** *** Releasing and giving away *)

Lemma run_put A W s t w v kids :
  rel A W s → A !! w = Some (VRoot v kids) →
  ∃ h', json_object_put (Some w) (mkHeap W s t) = Some (1, h') ∧ rel (release A (w :: kids)) (h_wrap h') (h_c h').
Proof.
  intros R HA. destruct (rel_some _ _ _ _ _ R HA) as (x & HW & _ & Hown & _ & Hn & Hch & Hnd & Hk). unfold json_object_put.
  unfold jbind at 1, jget. cbn [h_wrap]. rewrite HW. cbn [mbind option_bind]. rewrite Hown. cbn [negb]. unfold jbind at 1.
  rewrite (run_free_borrowed _ _ kids) by (first [done|by eapply chain_length]). cbn [h_wrap h_c h_tick].
  assert (foldr delete W kids !! w = Some x) as HW2 by (rewrite lookup_release, decide_False; [done|by eapply (root_not_kid A W s w v kids w v kids)]).
  destruct (j_node x) as [p|] eqn:Ep; cbn [delete_node].
  - destruct v as [j|]; [|done]. destruct Hn as [Hv Ho]. unfold jbind, node_val, jc_, jc, jfree, jret. cbn. rewrite Hv. cbn. rewrite HW2. cbn.
    eexists. split; [done|]. cbn. apply (rel_remove A W s _ w (Some j) kids x); try done.
    + intros q o Hq Hne. pose proof (c_delete_ok p s Ho q o Hq) as Hd. rewrite decide_False in Hd by congruence. done.
    + intros q o Hq. destruct (c_owner s q) as [o'|] eqn:E; [|by rewrite c_delete_new in Hq]. pose proof (c_delete_ok p s Ho q o' E) as Hd.
      case_decide; [congruence|]. destruct Hd as [_ Hd]. rewrite Ep. split; congruence.
  - unfold jbind, jret, jfree. cbn. rewrite HW2. cbn. eexists. split; [done|]. cbn. apply (rel_remove A W s _ w v kids x); try done. intros q o Hq. split; [done|congruence].
Qed.
Lemma follows_put A W s t p : rel A W s → live A p → follows A (OPut p) (mkHeap W s t).
Proof.
  intros R Hp. destruct p as [w|]; [|by apply (follows_plain A W s t _ (OutInt 0)); [|apply (S_put_other full A None)|]]. destruct Hp as [[v kids|r v] HA].
  - destruct (run_put A W s t w v kids R HA) as (h' & Hr & R'). unfold follows. cbn [exec]. unfold jbind. rewrite Hr. eexists _, _, _. split; [done|].
    split; [by eapply S_put_root|done].
  - destruct (rel_some _ _ _ _ _ R HA) as (x & HW & _ & Hown & _). eapply follows_plain; [|apply S_put_other|done].
    + cbn. unfold json_object_put, jbind, jget, jret. cbn. rewrite HW. cbn. by rewrite Hown.
    + intros w' v' kids [= <-]. congruence.
Qed.

Lemma run_delete_node W s t p v : c_val s p = Some v → delete_node (Some p) (mkHeap W s t) = Some ((), mkHeap W (cJSON_Delete p s) t).
Proof. intros Hv. unfold delete_node, jbind, node_val. cbn. by rewrite Hv. Qed.
Lemma run_jc W s t f : jc_ f (mkHeap W s t) = Some ((), mkHeap W (f s) t).
Proof. done. Qed.
Lemma run_drop A W s t v :
  rel A W s → loose A v → ∃ h', drop_val v (mkHeap W s t) = Some ((), h') ∧ rel (without A v) (h_wrap h') (h_c h').
Proof.
  intros R Hv. destruct v as [w|]; [|by eexists; split; [done|]]. destruct Hv as [v HA]. destruct (rel_some _ _ _ _ _ R HA) as (x & HW & _ & Hown & _ & Hn & Hch & _).
  cbn in Hch. unfold drop_val, jbind at 1, jget. cbn [h_wrap]. rewrite HW. cbn [mbind option_bind].
  assert (∀ s2, ∃ h', (jbind (jput w (set_node None x)) (λ _, jbind (json_object_put (Some w)) (λ _, jret ()))) (mkHeap W s2 t) = Some ((), h') ∧
    h_wrap h' = delete w W ∧ h_c h' = s2) as Hput.
  { intros s2. unfold jbind, jput, json_object_put, jbind, jget, jret, jfree. cbn. rewrite lookup_insert_eq. cbn. rewrite Hown, Hch. cbn.
    rewrite map_size_insert_Some by eauto. destruct (size W); cbn; rewrite lookup_insert_eq; cbn; eexists; (split; [done|]); by rewrite delete_insert_eq. }
  destruct (j_node x) as [p|] eqn:Ep.
  - destruct v as [j|]; [|done]. destruct Hn as [Hv Ho]. unfold jbind at 1. rewrite (run_delete_node W s t p j Hv).
    destruct (Hput (cJSON_Delete p s)) as (h' & Hr & Hw & Hc). rewrite Hr. exists h'. split; [done|]. rewrite Hw, Hc. apply (rel_remove A W s _ w (Some j) [] x); try done.
    + intros q o Hq Hne. pose proof (c_delete_ok p s Ho q o Hq) as Hd. rewrite decide_False in Hd by congruence. done.
    + intros q o Hq. destruct (c_owner s q) as [o'|] eqn:E; [|by rewrite c_delete_new in Hq]. pose proof (c_delete_ok p s Ho q o' E) as Hd.
      case_decide; [congruence|]. destruct Hd as [_ Hd]. rewrite Ep. split; congruence.
  - cbn [delete_node]. unfold jbind at 1, jret at 1. destruct (Hput s) as (h' & Hr & Hw & Hc). rewrite Hr. exists h'. split; [done|]. rewrite Hw, Hc.
    apply (rel_remove A W s _ w v [] x); try done. intros q o Hq. split; [done|congruence].
Qed.

(** The value that is given away. *)
Lemma loose_node A W s w v :
  rel A W s → A !! w = Some (VRoot v []) →
  ∃ x, W !! w = Some x ∧ match v with Some j => ∃ p, j_node x = Some p ∧ c_val s p = Some j ∧ c_owner s p = Some p | None => j_node x = None end.
Proof.
  intros R HA. destruct (rel_some _ _ _ _ _ R HA) as (x & HW & _ & _ & _ & Hn & _). exists x. split; [done|]. destruct (j_node x) as [p|], v; try done. by exists p.
Qed.
Lemma nodes_apart A W s w c x xc p pc v vc :
  rel A W s → A !! w = Some (VRoot v []) → A !! c = Some (VRoot vc []) → W !! w = Some x → W !! c = Some xc → w ≠ c →
  j_node x = Some p → j_node xc = Some pc → p ≠ pc.
Proof.
  intros R HA HC HW HWc Hne Hp Hpc ->. apply Hne. destruct (rel_some _ _ _ _ _ R HA) as (x1 & H1 & _ & O1 & _), (rel_some _ _ _ _ _ R HC) as (x2 & H2 & _ & O2 & _).
  eapply (r_sep _ _ _ R w c x xc pc); try done; congruence.
Qed.

(** A member is added to an object that has none of that name. *)
Lemma run_add_item A W s t w key c l vc x p :
  rel A W s → A !! w = Some (VRoot (Some (JObject l)) []) → A !! c = Some (VRoot vc []) → w ≠ c → W !! w = Some x → j_node x = Some p →
  ∃ h', (jbind (jget c) (λ xc, match j_node xc with
           | None => drop_val (Some c)
           | Some nc => jbind (node_val (Some nc)) (λ _, jbind (jc (cJSON_AddItemToObject p key nc)) (λ ok, if (ok : bool) then jfree c else drop_val (Some c)))
           end)) (mkHeap W s t) = Some ((), h') ∧
    (rel (<[w := VRoot (Some (JObject (l ++ match vc with Some j => [(key, j)] | None => [] end))) []]> (delete c A)) (h_wrap h') (h_c h') ∨
     full = false ∧ rel (delete c A) (h_wrap h') (h_c h')).
Proof using Type*.
  intros R HA HC Hne HW Hp. destruct (loose_node _ _ _ _ _ R HC) as (xc & HWc & Hn). destruct (loose_node _ _ _ _ _ R HA) as (x' & HW' & p' & Hp' & Hv & Ho).
  assert (x' = x) as -> by congruence. assert (p' = p) as -> by congruence.
  assert (<[w := VRoot (Some (JObject l)) []]> (delete c A) = delete c A) as Hid by (apply insert_id; by rewrite lookup_delete_ne).
  unfold jbind at 1, jget. cbn [h_wrap]. rewrite HWc. cbn [mbind option_bind]. destruct vc as [j|].
  - destruct Hn as (pc & Hpc & Hvc & Hoc). rewrite Hpc. unfold jbind at 1, node_val. cbn [h_c]. rewrite Hvc. cbn [mbind option_bind]. unfold jbind, jc. cbn [h_c].
    pose proof (c_add_ok p key pc s l j Ho Hoc (nodes_apart A W s w c x xc p pc _ _ R HA HC HW HWc Hne Hp Hpc) Hv Hvc) as Ha.
    destruct (cJSON_AddItemToObject p key pc s) as [ok s'] eqn:Ea. cbn [fst snd] in *. destruct ok.
    + unfold jfree. cbn. rewrite HWc. cbn. eexists. split; [done|]. cbn. left.
      apply (rel_edit A W s s' w (Some c) x p (JObject l)); try done; [by eexists|congruence|]. cbn. by rewrite HWc, Hpc.
    + subst s'. cbn. destruct (run_drop A W s t (Some c) R) as (h' & Hr & R'); [by eexists|]. exists h'. split; [done|]. right. split; [|done]. destruct full; [|done].
      destruct (Hfull eq_refl) as [_ Hpl]. pose proof (cp_add Hpl p key pc s) as Hc. by rewrite Ea in Hc.
  - rewrite Hn. destruct (run_drop A W s t (Some c) R) as (h' & Hr & R'); [by eexists|]. exists h'. split; [done|]. left. rewrite app_nil_r, Hid. done.
Qed.

Lemma insert_delete_swap {X} (m : gmap positive X) w c a b : w ≠ c → <[w := b]> (delete c (<[w := a]> m)) = <[w := b]> (delete c m).
Proof. intros Hne. apply map_eq. intros d. destruct (decide (d = w)) as [->|]; [by rewrite !lookup_insert_eq|]. rewrite !lookup_insert_ne by done.
  destruct (decide (d = c)) as [->|]; [by rewrite !lookup_delete_eq|]. by rewrite !lookup_delete_ne, lookup_insert_ne. Qed.

Lemma follows_add A W s t p key v : rel A W s → loose A p → loose A v → (p = v → p = None) → follows A (OAdd p key v) (mkHeap W s t).
Proof using Type*.
  intros R Hp Hv Hne. unfold follows. cbn [exec]. unfold json_object_object_add, jbind at 1, jbind at 1.
  assert ((∀ l, val_at A p ≠ Some (JObject l)) → ∃ out h' A', (jbind (drop_val v) (λ _, jret OutUnit)) (mkHeap W s t) = Some (out, h') ∧
    astep full A (OAdd p key v) out A' ∧ rel A' (h_wrap h') (h_c h')) as Hother.
  { intros Hno. destruct (run_drop A W s t v R Hv) as (h' & Hr & R'). unfold jbind. rewrite Hr. eexists _, _, _. split; [done|]. split; [by apply S_add_other|done]. }
  destruct p as [w|]; [|cbn; by apply Hother]. destruct Hp as [u HA]. destruct (run_wrapped A W s t w _ R HA) as (x & HW & Hno & Hr). rewrite Hr. cbn [view_val].
  assert (val_at A (Some w) = u) as Hval by (cbn; by rewrite HA).
  destruct u as [j|]; [|rewrite Hno by done; apply Hother; by rewrite Hval]. destruct (loose_node _ _ _ _ _ R HA) as (x' & HW' & n & Hn & Hvn & Hon). assert (x' = x) as -> by congruence. rewrite Hn.
  destruct j as [| | | | |l]; try (apply Hother; by rewrite Hval). clear Hother.
  assert (rel (<[w := VRoot (Some (JObject (remove_member key l))) []]> A) W (cJSON_DeleteItemFromObjectCaseSensitive n key s)) as R1.
  { apply (rel_edit A W s _ w None x n (JObject l)); try done. by apply c_remove_ok. }
  destruct v as [c|].
  - destruct Hv as [vc HC]. assert (w ≠ c) as Hwc by (intros ->; by discriminate (Hne eq_refl)). unfold jbind at 1. rewrite run_jc.
    destruct (run_add_item _ W _ t w key c (remove_member key l) vc x n R1) as (h' & Ha & Hout); try done; [by rewrite lookup_insert_eq|by rewrite lookup_insert_ne|].
    rewrite Ha. rewrite insert_delete_swap, delete_insert_ne in Hout by done. unfold jret. assert (val_at A (Some c) = vc) as Hvc by (cbn; by rewrite HC).
    destruct Hout as [R2|[Hs R2]]; eexists _, _, _; (split; [done|]); (split; [|exact R2]); [|by apply (S_add_short full A w key (Some c) l)].
    pose proof (S_add full A w key (Some c) l HA) as Hs. by rewrite Hvc in Hs.
  - unfold jc_, jc, jret. cbn. eexists _, _, _. split; [done|]. split; [|exact R1]. pose proof (S_add full A w key None l HA) as Hs. cbn in Hs. by rewrite app_nil_r in Hs.
Qed.

Lemma follows_push A W s t p v : rel A W s → loose A p → loose A v → (p = v → p = None) → follows A (OPush p v) (mkHeap W s t).
Proof using Type*.
  intros R Hp Hv Hne. unfold follows. cbn [exec]. unfold json_object_array_add, jbind at 1.
  destruct v as [c|]; [|cbn; eexists _, _, A; split; [done|]; split; [apply (S_push_other full A p None); auto|done]]. destruct Hv as [vc HC].
  assert (full = false ∨ vc = None ∨ (∀ l, val_at A p ≠ Some (JArray l)) → ∃ out h' A',
    (jbind (jbind (json_object_put (Some c)) (λ _, jret (-1))) (λ z, jret (OutInt z))) (mkHeap W s t) = Some (out, h') ∧
    astep full A (OPush p (Some c)) out A' ∧ rel A' (h_wrap h') (h_c h')) as Hother.
  { intros Hno. destruct (run_put A W s t c vc [] R HC) as (h' & Hr & R'). unfold jbind. rewrite Hr. eexists _, _, _. split; [done|]. split; [|exact R'].
    apply S_push_other. cbn. rewrite HC. done. }
  destruct p as [w|]; [|cbn; apply Hother; by auto]. destruct Hp as [u HA]. destruct (run_wrapped A W s t w _ R HA) as (x & HW & Hno & Hr). unfold jbind at 1. rewrite Hr. cbn [view_val].
  assert (val_at A (Some w) = u) as Hval by (cbn; by rewrite HA). assert (w ≠ c) as Hwc by (intros ->; by discriminate (Hne eq_refl)).
  destruct u as [j|]; [|rewrite Hno by done; apply Hother; rewrite Hval; by auto]. destruct (loose_node _ _ _ _ _ R HA) as (x' & HW' & n & Hn & Hvn & Hon).
  assert (x' = x) as -> by congruence. rewrite Hn. destruct j as [| | | |l|]; try (apply Hother; rewrite Hval; by auto).
  destruct (loose_node _ _ _ _ _ R HC) as (xc & HWc & Hnc). unfold jbind at 1, jget. cbn [h_wrap]. rewrite HWc. cbn [mbind option_bind]. destruct vc as [jc|]; [|rewrite Hnc; apply Hother; auto].
  destruct Hnc as (pc & Hpc & Hvc & Hoc). rewrite Hpc. unfold jbind at 1, node_val. cbn [h_c]. rewrite Hvc. cbn [mbind option_bind]. unfold jbind at 1, JsonHeap.jc. cbn [h_c].
  pose proof (c_push_ok n pc s l jc Hon Hoc (nodes_apart A W s w c x xc n pc _ _ R HA HC HW HWc Hwc Hn Hpc) Hvn Hvc) as Ha.
  destruct (cJSON_AddItemToArray n pc s) as [ok s'] eqn:Ea. cbn [fst snd] in *. destruct ok.
  - unfold jbind, jfree, jret. cbn. rewrite HWc. cbn. eexists _, _, _. split; [done|]. split; [apply (S_push full A w (Some c) l jc HA); cbn; by rewrite HC|].
    apply (rel_edit A W s s' w (Some c) x n (JArray l)); try done; [by eexists|congruence|]. cbn. by rewrite HWc, Hpc.
  - subst s'. apply Hother. left. destruct full; [|done]. destruct (Hfull eq_refl) as [_ Hpl]. pose proof (cp_push Hpl n pc s) as Hc. by rewrite Ea in Hc.
Qed.

End Sim.
