(* ===== verification/JsonThm.v ===== *)
(** * Programs that follow the ownership rules

    The refinement theorem for [src/port/json_compat.c]: whatever a program
    does with JSON values, deciding on what it has been answered so far, as
    long as it follows the rules of [JsonOwn] it is safe, is answered what the
    abstract machine allows, and leaves nothing behind.  An instance of cJSON
    shows that the laws can hold. *)

From S2P Require Import Prelude Json JsonHeap JsonOwn.

(** ** Programs *)

(** What to do next, from the answers so far. *)
Abbreviation client := (list jout → option jop).

Section Programs.
Context `{Cjson} `{!CjsonOk} (mem : nat → bool).

Fixpoint run_client (n : nat) (cl : client) (hist : list jout) (h : jheap) : option (list jout * jheap) :=
  match n with
  | O => Some (hist, h)
  | S n =>
      match cl hist with
      | None => Some (hist, h)
      | Some op => match exec mem op h with None => None | Some (out, h') => run_client n cl (hist ++ [out]) h' end
      end
  end.

(** The states of the abstract machine a program can reach. *)
Inductive reaches (full : bool) (cl : client) : owners → list jout → Prop :=
| R_start : reaches full cl ∅ []
| R_step A hist op out A' : reaches full cl A hist → cl hist = Some op → astep full A op out A' → reaches full cl A' (hist ++ [out]).
Definition obeys (full : bool) (cl : client) : Prop := ∀ A hist op, reaches full cl A hist → cl hist = Some op → allowed A op.

Lemma exec_follows full A W s t op :
  (full = true → (∀ n, mem n = true) ∧ cjson_plenty) → rel A W s → allowed A op → follows mem full A op (mkHeap W s t).
Proof using Type*.
  intros Hfull R Ha. destruct op; cbn in Ha; try (by eapply follows_create).
  - destruct s0 as [s0|]; [by eapply follows_create|]. eapply (follows_plain mem full A W s t _ (OutPtr None)); [done| |done]. apply S_make_null; [done|by right].
  - by apply follows_parse.
  - by apply follows_put.
  - by apply follows_add; destruct Ha as (? & ? & ?).
  - by apply follows_push; destruct Ha as (? & ? & ?).
  - by apply follows_get.
  - by apply follows_nth.
  - by apply follows_len.
  - by apply follows_string.
  - by apply follows_int; destruct Ha.
  - by apply follows_bool.
  - by apply follows_print.
Qed.

Lemma run_client_follows full cl n A hist W s t :
  (full = true → (∀ n, mem n = true) ∧ cjson_plenty) → obeys full cl → reaches full cl A hist → rel A W s →
  ∃ hist' h A', run_client n cl hist (mkHeap W s t) = Some (hist', h) ∧ reaches full cl A' hist' ∧ rel A' (h_wrap h) (h_c h).
Proof using Type*.
  intros Hfull Ho. revert A hist W s t. induction n as [|n IH]; intros A hist W s t Hr R; cbn [run_client]; [by exists hist, (mkHeap W s t), A|].
  destruct (cl hist) as [op|] eqn:Ec; [|by exists hist, (mkHeap W s t), A].
  destruct (exec_follows full A W s t op Hfull R (Ho _ _ _ Hr Ec)) as (out & h' & A' & He & Hs & R'). rewrite He. destruct h' as [W' s' t'].
  apply (IH A'); [by eapply R_step|done].
Qed.

Lemma rel_empty A W s : rel A W s → (∀ w v kids, A !! w ≠ Some (VRoot v kids)) → W = ∅ ∧ ∀ q, c_val s q = None.
Proof.
  intros R Hno. assert (W = ∅) as HW.
  { apply map_eq. intros w. rewrite lookup_empty. destruct (W !! w) as [x|] eqn:E; [|done]. destruct (rel_wrap _ _ _ _ _ R E) as ([v kids|r v] & HA & _); [by destruct (Hno w v kids)|].
    destruct (child_root _ _ _ _ _ _ R HA) as (jr & kids & HR & _). by destruct (Hno r jr kids). }
  split; [done|]. intros q. destruct (c_val s q) as [v|] eqn:E; [|done]. destruct (proj1 (c_owned s q)) as [o Ho]; [by exists v|].
  destruct (r_cover _ _ _ R q o Ho) as (w & x & Hw & _). by rewrite HW in Hw.
Qed.

(** C9: JSON values are safe for programs that follow the ownership rules:
    run for any number of steps, whatever memory does, such a program uses no
    freed wrapper or node; its answers are those of the abstract machine, in
    which wrappers stand for the values of [Json] (exactly, when memory is
    there); and once it has released every value it owns, no wrapper and no
    node is left. *)
Theorem json_ownership_refines full cl n s t :
  (full = true → (∀ n, mem n = true) ∧ cjson_plenty) → obeys full cl → (∀ q, c_owner s q = None) →
  ∃ hist h A, run_client n cl [] (mkHeap ∅ s t) = Some (hist, h) ∧ reaches full cl A hist ∧
    ((∀ w v kids, A !! w ≠ Some (VRoot v kids)) → h_wrap h = ∅ ∧ ∀ q, c_val (h_c h) q = None).
Proof using Type*.
  intros Hfull Ho Hs. destruct (run_client_follows full cl n ∅ [] ∅ s t Hfull Ho) as (hist & h & A & Hr & Ha & R); [constructor| |].
  - constructor; [intros w; by rewrite !lookup_empty|by intros ? ? ? ? ? ?|]. intros q o Hq. by rewrite Hs in Hq.
  - exists hist, h, A. split; [done|]. split; [done|]. by apply rel_empty.
Qed.

End Programs.

(** ** An instance of cJSON *)

Module ToyCjson.

(** Trees by their number; a node is a tree and the way to it. *)
Fixpoint sub (j : json) (path : list nat) : option json :=
  match path with
  | [] => Some j
  | i :: path => c ← match j with JArray l => l !! i | JObject l => snd <$> l !! i | _ => None end; sub c path
  end.
Abbreviation trees := (gmap positive json).
Definition ptr (r : positive) (path : list nat) : positive := encode (r, path).
Definition at_ptr (p : positive) : option (positive * list nat) := x ← decode p; if decide (encode x = p) then Some x else None.
Lemma at_ptr_ptr r path : at_ptr (ptr r path) = Some (r, path).
Proof. unfold at_ptr, ptr. rewrite decode_encode. cbn. by rewrite decide_True. Qed.
Lemma at_ptr_some p r path : at_ptr p = Some (r, path) → p = ptr r path.
Proof. unfold at_ptr. intros H. apply bind_Some in H as (x & _ & H). case_decide as E; [|done]. injection H as ->. by rewrite <- E. Qed.
Lemma ptr_inj r r' path path' : ptr r path = ptr r' path' → r = r' ∧ path = path'.
Proof. intros E. assert (at_ptr (ptr r path) = at_ptr (ptr r' path')) as E' by by rewrite E. rewrite !at_ptr_ptr in E'. by injection E' as -> ->. Qed.

Definition val (s : trees) (p : positive) : option json := '(r, path) ← at_ptr p; t ← s !! r; sub t path.
Definition owner (s : trees) (p : positive) : option positive := '(r, path) ← at_ptr p; t ← s !! r; _ ← sub t path; Some (ptr r []).
Definition new (j : json) (s : trees) : option positive * trees := let r := fresh (dom s) in (Some (ptr r []), <[r := j]> s).
Definition tree_of (p : positive) : positive := match at_ptr p with Some (r, _) => r | None => 1%positive end.
Fixpoint index (key : string) (l : list (string * json)) : option nat :=
  match l with [] => None | (k, _) :: l => if bool_decide (k = key) then Some O else S <$> index key l end.
Definition item (p : positive) (key : string) (s : trees) : option positive :=
  '(r, path) ← at_ptr p; j ← val s p; match j with JObject l => i ← index key l; Some (ptr r (path ++ [i])) | _ => None end.
Definition nth (p : positive) (i : nat) (s : trees) : option positive :=
  '(r, path) ← at_ptr p; j ← val s p; match j with JArray l => _ ← l !! i; Some (ptr r (path ++ [i])) | _ => None end.
Definition graft (p c : positive) (f : json → json → json) (s : trees) : bool * trees :=
  match s !! tree_of p, s !! tree_of c with
  | Some a, Some b => (true, <[tree_of p := f a b]> (delete (tree_of c) s))
  | _, _ => (true, s)
  end.

Lemma val_ptr s r path : val s (ptr r path) = (t ← s !! r; sub t path).
Proof. unfold val. by rewrite at_ptr_ptr. Qed.
Lemma owner_ptr s r path : owner s (ptr r path) = (t ← s !! r; _ ← sub t path; Some (ptr r [])).
Proof. unfold owner. by rewrite at_ptr_ptr. Qed.
Lemma owner_inv s q o : owner s q = Some o → ∃ r path, q = ptr r path ∧ o = ptr r [] ∧ is_Some (s !! r) ∧ is_Some (val s q).
Proof.
  intros H. unfold owner in H. destruct (at_ptr q) as [[r path]|] eqn:E; [|done]. apply at_ptr_some in E as ->. cbn in H.
  apply bind_Some in H as (t & Ht & H). apply bind_Some in H as (u & Hu & [= <-]). exists r, path. split; [done|]. split; [done|]. split; [by exists t|]. rewrite val_ptr, Ht. by exists u.
Qed.
Lemma owner_self s r : owner s (ptr r []) = Some (ptr r []) ↔ is_Some (s !! r).
Proof. rewrite owner_ptr. destruct (s !! r); cbn; [by split; eauto|]. split; [done|by intros []]. Qed.
Lemma root_ptr s p : owner s p = Some p → p = ptr (tree_of p) [] ∧ is_Some (s !! tree_of p).
Proof.
  intros Ho. destruct (owner_inv s p p Ho) as (r & path & -> & E & Hr & _). apply ptr_inj in E as [_ ->]. unfold tree_of. by rewrite at_ptr_ptr.
Qed.
Lemma keep_other s s' q o r : owner s q = Some o → o ≠ ptr r [] → (∀ r', r' ≠ r → s' !! r' = s !! r') → val s' q = val s q ∧ owner s' q = Some o.
Proof.
  intros Ho Hn Hs. destruct (owner_inv s q o Ho) as (r' & path & -> & -> & _). rewrite !val_ptr, !owner_ptr in *. assert (r' ≠ r) as Hr by congruence. by rewrite (Hs r' Hr).
Qed.

Section Instance.
Context (text : string → option json) (printed : json → string).

Instance toy : Cjson := {
  cst := trees;
  c_val := val;
  c_owner := owner;
  c_text := text;
  c_printed := printed;
  cJSON_Create := new;
  cJSON_Parse t s := match text t with Some j => new j s | None => (None, s) end;
  cJSON_PrintUnformatted p s := printed <$> val s p;
  cJSON_Delete p s := delete (tree_of p) s;
  cJSON_GetObjectItemCaseSensitive := item;
  cJSON_GetArrayItem := nth;
  cJSON_AddItemToObject p key c := graft p c (λ a b, match a with JObject l => JObject (l ++ [(key, b)]) | _ => a end);
  cJSON_AddItemToArray p c := graft p c (λ a b, match a with JArray l => JArray (l ++ [b]) | _ => a end);
  cJSON_DeleteItemFromObjectCaseSensitive p key s :=
    match s !! tree_of p with Some (JObject l) => <[tree_of p := JObject (remove_member key l)]> s | _ => s end;
}.

Lemma new_creates j (s : trees) : creates s (snd (new j s)) (fst (new j s)) j.
Proof.
  assert (s !! fresh (dom s) = None) as Hf by apply fresh_none. split.
  - cbn. intros q [v Hv]. unfold val, owner in *. destruct (at_ptr q) as [[r path]|]; [|done]. cbn in *. apply bind_Some in Hv as (t & Ht & _).
    rewrite lookup_insert_ne; [done|]. intros <-. by rewrite Hf in Ht.
  - unfold new. cbn [fst snd c_val c_owner toy]. set (r0 := fresh (dom s)) in *. rewrite !val_ptr, !owner_ptr, lookup_insert_eq, Hf. cbn [mbind option_bind sub]. split_and!; try done. intros q o Ho. destruct (owner_inv _ _ _ Ho) as (r & path & -> & -> & _).
    destruct (decide (r = r0)) as [->|Hn]; [by left|right]. rewrite owner_ptr in *. by rewrite lookup_insert_ne in Ho.
Qed.
Lemma change_edits (s s' : trees) p c a j :
  owner s p = Some p → s' !! tree_of p = Some j → (∀ r, r ≠ tree_of p → r ∉ (tree_of <$> c) → s' !! r = s !! r) →
  (∀ d, d ∈ c → owner s d = Some d ∧ s' !! tree_of d = None) → s !! tree_of p = Some a → edits s s' p c j.
Proof.
  intros Hp Hj Hs Hc Ha. destruct (root_ptr s p Hp) as [Ep _]. split_and!; cbn.
  - rewrite Ep, val_ptr. by rewrite Hj.
  - rewrite Ep. apply owner_self. by rewrite Hj.
  - intros q o Ho Hne Hnc. destruct (owner_inv _ _ _ Ho) as (r & path & -> & -> & _). rewrite !val_ptr, !owner_ptr in *. rewrite (Hs r); [done|congruence|].
    intros (d & -> & Hd)%list_elem_of_fmap. destruct (Hc d Hd) as [Hd' _]. destruct (root_ptr s d Hd') as [Ed _]. rewrite <- Ed in Hnc. done.
  - intros q o Ho. destruct (owner_inv _ _ _ Ho) as (r & path & -> & -> & [u Hu] & _). destruct (decide (r = tree_of p)) as [->|Hr]; [by left|right].
    assert (r ∉ tree_of <$> c) as Hrc.
    { intros (d & -> & Hd)%list_elem_of_fmap. destruct (Hc d Hd) as [_ Hn]. congruence. }
    rewrite owner_ptr in *. rewrite (Hs r) in Ho by done. split; [done|]. intros Hin. apply Hrc, list_elem_of_fmap. exists (ptr r []). unfold tree_of. by rewrite at_ptr_ptr.
Qed.
Lemma graft_edits f p c (s : trees) a b :
  owner s p = Some p → owner s c = Some c → p ≠ c → val s p = Some a → val s c = Some b → edits s (snd (graft p c f s)) p [c] (f a b) ∧ fst (graft p c f s) = true.
Proof.
  intros Hp Hc Hne Ha Hb. destruct (root_ptr s p Hp) as [Ep [a' Ea]], (root_ptr s c Hc) as [Ec [b' Eb]]. assert (a' = a) as -> by (rewrite Ep, val_ptr, Ea in Ha; by injection Ha).
  assert (b' = b) as -> by (rewrite Ec, val_ptr, Eb in Hb; by injection Hb). assert (tree_of p ≠ tree_of c) as Hpc by congruence.
  unfold graft. rewrite Ea, Eb. split; [|done]. cbn [snd]. apply (change_edits s _ p [c] a); try done.
  - by rewrite lookup_insert_eq.
  - intros r H1 H2. rewrite lookup_insert_ne, lookup_delete_ne; [done| |done]. intros <-. apply H2. by left.
  - intros d ->%list_elem_of_singleton. split; [done|]. by rewrite lookup_insert_ne, lookup_delete_eq.
Qed.
Lemma index_member key l : match member key l with Some v => ∃ i k, index key l = Some i ∧ l !! i = Some (k, v) | None => index key l = None end.
Proof.
  induction l as [|[k v] l IH]; cbn; [done|]. case_bool_decide; [by exists O, k|]. destruct (member key l) as [u|]; [|by rewrite IH].
  destruct IH as (i & k' & -> & Hi). by exists (S i), k'.
Qed.
Lemma sub_app j path path' : sub j (path ++ path') = (c ← sub j path; sub c path').
Proof. revert j. induction path as [|i path IH]; intros j; cbn; [done|]. destruct (match j with JArray l => l !! i | JObject l => snd <$> l !! i | _ => None end); cbn; [apply IH|done]. Qed.

Lemma toy_ok : CjsonOk.
Proof.
  split; cbn.
  - intros s q. unfold val, owner. destruct (at_ptr q) as [[r path]|]; cbn; [|done]. destruct (s !! r) as [t|]; cbn; [|done]. destruct (sub t path); cbn; [|done]. split; by eauto.
  - intros s q o Ho. destruct (owner_inv _ _ _ Ho) as (r & path & -> & -> & Hr & _). by apply owner_self.
  - apply new_creates.
  - intros t s. destruct (text t) as [j|]; [apply new_creates|done].
  - intros p s Hp q o Ho. destruct (root_ptr s p Hp) as [Ep _]. case_decide as E.
    + subst o. destruct (owner_inv _ _ _ Ho) as (r & path & -> & E & _). rewrite Ep in E. apply ptr_inj in E as [E _]. rewrite owner_ptr. by rewrite E, lookup_delete_eq.
    + eapply keep_other; [done| |]; [by rewrite <- Ep|]. intros r Hr. by rewrite lookup_delete_ne.
  - intros p s q Hp Hq. unfold owner in *. destruct (at_ptr q) as [[r path]|]; [|done]. cbn in *. destruct (decide (r = tree_of p)) as [->|]; [by rewrite lookup_delete_eq|].
    by rewrite lookup_delete_ne.
  - intros p s v t Hv Ht. rewrite Hv in Ht. by injection Ht.
  - intros p key s l Hv. unfold item. pose proof Hv as Hv'. unfold val in Hv'. destruct (at_ptr p) as [[r path]|] eqn:E; [|done]. apply at_ptr_some in E as ->. rewrite Hv. cbn in *.
    apply bind_Some in Hv' as (t & Ht & Hsub). pose proof (index_member key l) as Hi. destruct (member key l) as [v|]; [|by rewrite Hi].
    destruct Hi as (i & k & -> & Hl). cbn. eexists. split; [done|]. rewrite !val_ptr, !owner_ptr, Ht. cbn. rewrite !sub_app, Hsub. cbn. by rewrite Hl.
  - intros p i s l Hv. unfold nth. pose proof Hv as Hv'. unfold val in Hv'. destruct (at_ptr p) as [[r path]|] eqn:E; [|done]. apply at_ptr_some in E as ->. rewrite Hv. cbn in *.
    apply bind_Some in Hv' as (t & Ht & Hsub). destruct (l !! i) as [v|] eqn:Hl; [|done]. cbn. eexists. split; [done|]. rewrite !val_ptr, !owner_ptr, Ht. cbn.
    rewrite !sub_app, Hsub. cbn. by rewrite Hl.
  - intros p key c s l j Hp Hc Hne Ha Hb. destruct (graft_edits (λ a b, match a with JObject l => JObject (l ++ [(key, b)]) | _ => a end) p c s _ _ Hp Hc Hne Ha Hb) as [He ->]. exact He.
  - intros p c s l j Hp Hc Hne Ha Hb. destruct (graft_edits (λ a b, match a with JArray l => JArray (l ++ [b]) | _ => a end) p c s _ _ Hp Hc Hne Ha Hb) as [He ->]. exact He.
  - intros p key s l Hp Hv. destruct (root_ptr s p Hp) as [Ep [a Ea]]. assert (a = JObject l) as -> by (rewrite Ep, val_ptr, Ea in Hv; by injection Hv). rewrite Ea.
    apply (change_edits s _ p [] (JObject l)); try done; [by rewrite lookup_insert_eq|intros r H1 _; by rewrite lookup_insert_ne|]. by intros d ?%not_elem_of_nil.
Qed.
Lemma toy_plenty : cjson_plenty.
Proof.
  split; cbn.
  - by eexists.
  - intros t s [j ->]. by eexists.
  - intros p s [v ->]. by eexists.
  - intros p key c s. unfold graft. by destruct (s !! tree_of p), (s !! tree_of c).
  - intros p c s. unfold graft. by destruct (s !! tree_of p), (s !! tree_of c).
Qed.

End Instance.

End ToyCjson.

(** ** A program that reads a message *)

Definition demo_text : string := "{sid:7}".
Definition demo_value : json := JObject [("sid"%string, JNumber 7 "7")].
#[local] Instance demo_cjson : Cjson := ToyCjson.toy (λ t, if decide (t = demo_text) then Some demo_value else None) (λ _, ""%string).
#[local] Instance demo_cjson_ok : CjsonOk := ToyCjson.toy_ok _ _.

(** Parse, look a member up, read it, release. *)
Definition demo_client : client := λ hist,
  match hist with
  | [] => Some (OParse (Some demo_text))
  | [OutPtr (Some w)] => Some (OGet (Some w) "sid")
  | [OutPtr (Some w); OutGot true (Some c)] => Some (OString (Some c))
  | [OutPtr (Some w); OutGot true (Some c); _] => Some (OPut (Some w))
  | _ => None
  end.
Definition demo_state (hist : list jout) (A : owners) : Prop :=
  match hist with
  | [] => A = ∅
  | [OutPtr (Some w)] => A = {[w := VRoot (Some demo_value) []]}
  | [OutPtr (Some w); OutGot true (Some c)] | [OutPtr (Some w); OutGot true (Some c); _] =>
      c ≠ w ∧ A = <[c := VChild w (JNumber 7 "7")]> {[w := VRoot (Some demo_value) [c]]}
  | _ => True
  end.
Lemma demo_reaches A hist : reaches true demo_client A hist → demo_state hist A.
Proof.
  induction 1 as [|A hist op out A' Hr IH Hc Hs]; [done|]. revert IH Hc.
  destruct hist as [|[[w|]| | | |] [|[|[] [c|]| | |] [|o [|? ?]]]]; try done; cbn; intros IH [= <-].
  - subst A. inversion Hs as [? w j Hm| | | | | | | | | | | | | | | | | | | | |]; subst; try done. cbn in Hm. rewrite decide_True in Hm by done. by injection Hm as <-.
  - subst A. inversion Hs; subst; cbn in *; rewrite ?lookup_singleton_eq in *; cbn in *; simplify_eq; try done.
    match goal with H : _ !! c = None |- _ => apply lookup_singleton_None in H as Hne end.
    match goal with H : _ = Some v |- _ => injection H as <- end. split; [done|].
    unfold borrow, root_at. by rewrite !lookup_singleton_eq, insert_singleton_eq.
  - destruct IH as [Hn ->]. by inversion Hs; subst.
Qed.
Lemma demo_obeys : obeys true demo_client.
Proof.
  intros A hist op Hr Hc. apply demo_reaches in Hr.
  destruct hist as [|[[w|]| | | |] [|[|[] [c|]| | |] [|o [|? ?]]]]; try done; cbn in *; injection Hc as <-; try done; cbn.
  - subst A. rewrite lookup_singleton_eq. by eexists.
  - destruct Hr as [Hn ->]. rewrite lookup_insert_eq. by eexists.
  - destruct Hr as [Hn ->]. rewrite lookup_insert_ne, lookup_singleton_eq by done. by eexists.
Qed.

(** No tree yet. *)
Definition demo_cst : @cst demo_cjson := (∅ : gmap positive json).

(** The program gets its text and leaves nothing. *)
Lemma json_ownership_refines_witness :
  (∃ h, run_client (λ _, true) 4 demo_client [] (mkHeap ∅ demo_cst 0) = Some ([OutPtr (Some 1%positive); OutGot true (Some 2%positive); OutText (Some "7"%string); OutInt 1], h) ∧
     h_wrap h = ∅) ∧
  ∃ hist h A, run_client (λ _, true) 4 demo_client [] (mkHeap ∅ demo_cst 0) = Some (hist, h) ∧ reaches true demo_client A hist ∧
    ((∀ w v kids, A !! w ≠ Some (VRoot v kids)) → h_wrap h = ∅ ∧ ∀ q, c_val (h_c h) q = None).
Proof.
  split; [eexists; split; vm_compute; reflexivity|].
  apply (json_ownership_refines (λ _, true) true demo_client 4 demo_cst 0).
  - intros _. split; [done|]. apply ToyCjson.toy_plenty.
  - exact demo_obeys.
  - intros q. cbn. unfold ToyCjson.owner. destruct (ToyCjson.at_ptr q) as [[r path]|]; reflexivity.
Defined.

(** On objects with distinct names, as the program builds them, adding a member
    is what [Json] says. *)
Lemma remove_member_filter key l : NoDup l.*1 → remove_member key l = filter (λ kv, kv.1 ≠ key) l.
Proof.
  induction l as [|[k v] l IH]; [done|]. intros [Hk Hl]%NoDup_cons. cbn [remove_member]. case_bool_decide as E.
  - rewrite filter_cons_False by (cbn; tauto). subst k. clear IH Hl. induction l as [|[k' v'] l IH]; [done|]. cbn in Hk. apply not_elem_of_cons in Hk as [Hk Hk']. rewrite filter_cons_True by (cbn; congruence). by rewrite <- IH.
  - rewrite filter_cons_True by done. by rewrite IH.
Qed.
Lemma add_member_agrees key j l :
  NoDup l.*1 → remove_member key l ++ [(key, j)] = Json.json_object_object_add key (Some j) l ∧ NoDup (Json.json_object_object_add key (Some j) l).*1.
Proof.
  intros Hl. unfold Json.json_object_object_add. rewrite remove_member_filter by done. split; [done|]. rewrite fmap_app. apply NoDup_app. split_and!.
  - clear j. induction l as [|[k v] l IH]; [constructor|]. apply NoDup_cons in Hl as [Hk Hl]. rewrite filter_cons. case_decide; [|by apply IH]. cbn. constructor; [|by apply IH].
    intros ([k' v'] & -> & [_ Hin]%list_elem_of_filter)%list_elem_of_fmap. apply Hk. cbn. by apply (list_elem_of_fmap_2 fst) in Hin.
  - intros k (kv & -> & [Hne _]%list_elem_of_filter)%list_elem_of_fmap Hin. by apply list_elem_of_singleton in Hin.
  - apply NoDup_singleton.
Qed.
