(* ===== verification/World.v ===== *)
(** * The shared state

    The records the client's C structs become, the heap of bufferevents and
    proxy clients, the two hash tables that point into it, and the error-state
    monad in which the handlers of [tcpmux.c], [client.c], [proxy_tcp.c] and
    [control.c] are written.  A pointer is a location; using a location that
    has been freed is undefined behaviour, the [None] of the monad, so a
    theorem that an operation returns also says that it is memory safe.
    The operations on bufferevents are those of [port/mini_event.c], whose
    byte queues [Evbuffer] verifies. *)

From S2P Require Import Prelude Endian Evp CryptoStream Coder Json.

(** ** Streams ([tcpmux.h]) *)

Inductive tcp_mux_state :=
| TMUX_INIT | TMUX_SYN_SEND | TMUX_SYN_RECEIVED | TMUX_ESTABLISHED
| TMUX_LOCAL_CLOSE | TMUX_REMOTE_CLOSE | TMUX_CLOSED | TMUX_RESET.
#[export] Instance tcp_mux_state_eq : EqDecision tcp_mux_state.
Proof. solve_decision. Defined.

Definition MAX_STREAM_WINDOW_SIZE : Z := 8 * 1024 * 1024.
Definition MAX_YAMUX_WINDOW_SIZE : Z := 6 * 1024 * 1024.
Definition DEFAULT_MAX_FRAME_SIZE : Z := 256 * 1024.

(** [enum tcp_mux_type] and [enum tcp_mux_flag]. *)
Definition TMUX_DATA : Z := 0.
Definition WINDOW_UPDATE : Z := 1.
Definition PING : Z := 2.
Definition GO_AWAY : Z := 3.
Definition ZERO : Z := 0.
Definition SYN : Z := 1.
Definition ACK : Z := 2.
Definition FIN : Z := 4.
Definition RST : Z := 8.

(** [struct tmux_stream]; the three [v2_rx] fields are the bytes held. *)
Record tmux_stream := mkStream {
  s_id : Z;
  s_recv_window : Z;
  s_send_window : Z;
  s_state : tcp_mux_state;
  s_v2_magic_sent : bool;
  s_v2_magic_seen : bool;
  s_v2_rx : bytes;
}.

Definition set_s_id (v : Z) (x : tmux_stream) : tmux_stream :=
  mkStream v (s_recv_window x) (s_send_window x) (s_state x) (s_v2_magic_sent x) (s_v2_magic_seen x) (s_v2_rx x).
Definition set_s_recv_window (v : Z) (x : tmux_stream) : tmux_stream :=
  mkStream (s_id x) v (s_send_window x) (s_state x) (s_v2_magic_sent x) (s_v2_magic_seen x) (s_v2_rx x).
Definition set_s_send_window (v : Z) (x : tmux_stream) : tmux_stream :=
  mkStream (s_id x) (s_recv_window x) v (s_state x) (s_v2_magic_sent x) (s_v2_magic_seen x) (s_v2_rx x).
Definition set_s_state (v : tcp_mux_state) (x : tmux_stream) : tmux_stream :=
  mkStream (s_id x) (s_recv_window x) (s_send_window x) v (s_v2_magic_sent x) (s_v2_magic_seen x) (s_v2_rx x).
Definition set_s_v2_magic_sent (v : bool) (x : tmux_stream) : tmux_stream :=
  mkStream (s_id x) (s_recv_window x) (s_send_window x) (s_state x) v (s_v2_magic_seen x) (s_v2_rx x).
Definition set_s_v2_magic_seen (v : bool) (x : tmux_stream) : tmux_stream :=
  mkStream (s_id x) (s_recv_window x) (s_send_window x) (s_state x) (s_v2_magic_sent x) v (s_v2_rx x).
Definition set_s_v2_rx (v : bytes) (x : tmux_stream) : tmux_stream :=
  mkStream (s_id x) (s_recv_window x) (s_send_window x) (s_state x) (s_v2_magic_sent x) (s_v2_magic_seen x) v.

(** Zeroed storage. *)
Definition zero_stream : tmux_stream := mkStream 0 0 0 TMUX_INIT false false [].

(** Where a stream lives: inside the main control, inside a proxy client, or
    the static [abandon_stream]. *)
Inductive sref := SMain | SClient (p : positive) | SAbandon.
#[export] Instance sref_eq : EqDecision sref.
Proof. solve_decision. Defined.

(** ** Configuration *)

Inductive xdpi_service_type :=
| NO_XDPI | SERVICE_MSTSC | SERVICE_RDP | SERVICE_VNC | SERVICE_SSH | SERVICE_TELNET
| SERVICE_HTTP | SERVICE_HTTPS.
#[export] Instance xdpi_service_type_eq : EqDecision xdpi_service_type.
Proof. solve_decision. Defined.

(** The fields of [struct proxy_service] that only go into the registration
    message. *)
Record registration := mkReg {
  rg_remote_port : Z;
  rg_custom_domains : option string;
  rg_subdomain : option string;
  rg_locations : option string;
  rg_host_header_rewrite : option string;
  rg_http_user : option string;
  rg_http_pwd : option string;
  rg_request_headers : option string;
  rg_response_headers : option string;
  rg_group : option string;
  rg_group_key : option string;
  rg_multiplexer : option string;
  rg_route_by_http_user : option string;
  rg_sk : option string;
  rg_allow_users : option string;
}.
Definition plain_registration (remote_port : Z) : registration :=
  mkReg remote_port None None None None None None None None None None None None None None.

(** The fields of [struct proxy_service] the program reads. *)
Record proxy_service := mkPs {
  ps_proxy_name : string;
  ps_proxy_type : option string;
  ps_use_encryption : bool;
  ps_use_compression : bool;
  ps_local_ip : option string;
  ps_local_port : Z;
  ps_start_time : Z;
  ps_end_time : Z;
  ps_service_type : xdpi_service_type;
  ps_plugin : option string;
  ps_plugin_unix_path : option string;
  ps_registration : registration;
}.


(** ** Bufferevents *)

(** The callbacks the client installs. *)
Inductive data_cb :=
| CbNone | tcp_proxy_c2s | tcp_proxy_s2c | socks5_proxy_s2c | xdpi_proxy_s2c
| udp_proxy_c2s | udp_proxy_s2c | CbRecv.
Inductive event_cb :=
| EvNone | xfrp_proxy_event | xfrp_worker_event | EvConnect | EvClientStart.

(** [struct bufferevent]: the two queues, the enabled events, the callbacks and their argument, whether a TLS transport is attached, and the bytes handed to the
    socket without going through the queue. *)
Record bufferevent := mkBev {
  b_in : bytes;
  b_out : bytes;
  b_read : bool;
  b_write : bool;
  b_readcb : data_cb;
  b_eventcb : event_cb;
  b_cbarg : option positive;
  b_ssl : bool;
  b_sock : bytes;
}.

Definition set_b_in (v : bytes) (x : bufferevent) : bufferevent :=
  mkBev v (b_out x) (b_read x) (b_write x) (b_readcb x) (b_eventcb x) (b_cbarg x) (b_ssl x) (b_sock x).
Definition set_b_out (v : bytes) (x : bufferevent) : bufferevent :=
  mkBev (b_in x) v (b_read x) (b_write x) (b_readcb x) (b_eventcb x) (b_cbarg x) (b_ssl x) (b_sock x).
Definition set_b_read (v : bool) (x : bufferevent) : bufferevent :=
  mkBev (b_in x) (b_out x) v (b_write x) (b_readcb x) (b_eventcb x) (b_cbarg x) (b_ssl x) (b_sock x).
Definition set_b_write (v : bool) (x : bufferevent) : bufferevent :=
  mkBev (b_in x) (b_out x) (b_read x) v (b_readcb x) (b_eventcb x) (b_cbarg x) (b_ssl x) (b_sock x).
Definition set_b_readcb (v : data_cb) (x : bufferevent) : bufferevent :=
  mkBev (b_in x) (b_out x) (b_read x) (b_write x) v (b_eventcb x) (b_cbarg x) (b_ssl x) (b_sock x).
Definition set_b_eventcb (v : event_cb) (x : bufferevent) : bufferevent :=
  mkBev (b_in x) (b_out x) (b_read x) (b_write x) (b_readcb x) v (b_cbarg x) (b_ssl x) (b_sock x).
Definition set_b_cbarg (v : option positive) (x : bufferevent) : bufferevent :=
  mkBev (b_in x) (b_out x) (b_read x) (b_write x) (b_readcb x) (b_eventcb x) v (b_ssl x) (b_sock x).
Definition set_b_ssl (v : bool) (x : bufferevent) : bufferevent :=
  mkBev (b_in x) (b_out x) (b_read x) (b_write x) (b_readcb x) (b_eventcb x) (b_cbarg x) v (b_sock x).
Definition set_b_sock (v : bytes) (x : bufferevent) : bufferevent :=
  mkBev (b_in x) (b_out x) (b_read x) (b_write x) (b_readcb x) (b_eventcb x) (b_cbarg x) (b_ssl x) v.

(** ** Proxy clients ([client.h]) *)

Inductive xdpi_state := XDPI_INIT | XDPI_VERIFIED | XDPI_BLOCKED.
#[export] Instance xdpi_state_eq : EqDecision xdpi_state.
Proof. solve_decision. Defined.

(** [enum socks5_state]; the code also stores [TMUX_CLOSED] (6) in it. *)
Definition SOCKS5_INIT : Z := 0.
Definition SOCKS5_HANDSHAKE : Z := 1.
Definition SOCKS5_CONNECT : Z := 2.
Definition SOCKS5_ESTABLISHED : Z := 3.
Definition SOCKS5_STATE_TMUX_CLOSED : Z := 6.

Record socks5_addr := mkAddr { sa_addr : bytes; sa_port : Z; sa_type : Z }.
Definition zero_addr : socks5_addr := mkAddr (replicate 20 0) 0 0.

Section WithCipher.
Context `{Mbedtls}.

(** [struct proxy_client]. *)
Record proxy_client := mkPc {
  pc_ctl_bev : option positive;
  pc_local_bev : option positive;
  pc_base : bool;
  pc_ps : option proxy_service;
  pc_stream : tmux_stream;
  pc_stream_id : Z;
  pc_connected : bool;
  pc_work_started : bool;
  pc_pending_close : bool;
  pc_xdpi_state : xdpi_state;
  pc_remote_addr : socks5_addr;
  pc_state : Z;
  pc_data_tail : bytes;
  pc_enc_pending : option bytes;
  pc_socks5_buf : bytes;
  pc_socks5_cap : Z;
  pc_xdpi_buf : bytes;
  pc_xdpi_cap : Z;
  pc_codec : codec;
}.

Definition set_pc_ctl_bev (v : option positive) (x : proxy_client) : proxy_client :=
  mkPc v (pc_local_bev x) (pc_base x) (pc_ps x) (pc_stream x) (pc_stream_id x) (pc_connected x) (pc_work_started x) (pc_pending_close x) (pc_xdpi_state x) (pc_remote_addr x) (pc_state x) (pc_data_tail x) (pc_enc_pending x) (pc_socks5_buf x) (pc_socks5_cap x) (pc_xdpi_buf x) (pc_xdpi_cap x) (pc_codec x).
Definition set_pc_local_bev (v : option positive) (x : proxy_client) : proxy_client :=
  mkPc (pc_ctl_bev x) v (pc_base x) (pc_ps x) (pc_stream x) (pc_stream_id x) (pc_connected x) (pc_work_started x) (pc_pending_close x) (pc_xdpi_state x) (pc_remote_addr x) (pc_state x) (pc_data_tail x) (pc_enc_pending x) (pc_socks5_buf x) (pc_socks5_cap x) (pc_xdpi_buf x) (pc_xdpi_cap x) (pc_codec x).
Definition set_pc_base (v : bool) (x : proxy_client) : proxy_client :=
  mkPc (pc_ctl_bev x) (pc_local_bev x) v (pc_ps x) (pc_stream x) (pc_stream_id x) (pc_connected x) (pc_work_started x) (pc_pending_close x) (pc_xdpi_state x) (pc_remote_addr x) (pc_state x) (pc_data_tail x) (pc_enc_pending x) (pc_socks5_buf x) (pc_socks5_cap x) (pc_xdpi_buf x) (pc_xdpi_cap x) (pc_codec x).
Definition set_pc_ps (v : option proxy_service) (x : proxy_client) : proxy_client :=
  mkPc (pc_ctl_bev x) (pc_local_bev x) (pc_base x) v (pc_stream x) (pc_stream_id x) (pc_connected x) (pc_work_started x) (pc_pending_close x) (pc_xdpi_state x) (pc_remote_addr x) (pc_state x) (pc_data_tail x) (pc_enc_pending x) (pc_socks5_buf x) (pc_socks5_cap x) (pc_xdpi_buf x) (pc_xdpi_cap x) (pc_codec x).
Definition set_pc_stream (v : tmux_stream) (x : proxy_client) : proxy_client :=
  mkPc (pc_ctl_bev x) (pc_local_bev x) (pc_base x) (pc_ps x) v (pc_stream_id x) (pc_connected x) (pc_work_started x) (pc_pending_close x) (pc_xdpi_state x) (pc_remote_addr x) (pc_state x) (pc_data_tail x) (pc_enc_pending x) (pc_socks5_buf x) (pc_socks5_cap x) (pc_xdpi_buf x) (pc_xdpi_cap x) (pc_codec x).
Definition set_pc_stream_id (v : Z) (x : proxy_client) : proxy_client :=
  mkPc (pc_ctl_bev x) (pc_local_bev x) (pc_base x) (pc_ps x) (pc_stream x) v (pc_connected x) (pc_work_started x) (pc_pending_close x) (pc_xdpi_state x) (pc_remote_addr x) (pc_state x) (pc_data_tail x) (pc_enc_pending x) (pc_socks5_buf x) (pc_socks5_cap x) (pc_xdpi_buf x) (pc_xdpi_cap x) (pc_codec x).
Definition set_pc_connected (v : bool) (x : proxy_client) : proxy_client :=
  mkPc (pc_ctl_bev x) (pc_local_bev x) (pc_base x) (pc_ps x) (pc_stream x) (pc_stream_id x) v (pc_work_started x) (pc_pending_close x) (pc_xdpi_state x) (pc_remote_addr x) (pc_state x) (pc_data_tail x) (pc_enc_pending x) (pc_socks5_buf x) (pc_socks5_cap x) (pc_xdpi_buf x) (pc_xdpi_cap x) (pc_codec x).
Definition set_pc_work_started (v : bool) (x : proxy_client) : proxy_client :=
  mkPc (pc_ctl_bev x) (pc_local_bev x) (pc_base x) (pc_ps x) (pc_stream x) (pc_stream_id x) (pc_connected x) v (pc_pending_close x) (pc_xdpi_state x) (pc_remote_addr x) (pc_state x) (pc_data_tail x) (pc_enc_pending x) (pc_socks5_buf x) (pc_socks5_cap x) (pc_xdpi_buf x) (pc_xdpi_cap x) (pc_codec x).
Definition set_pc_pending_close (v : bool) (x : proxy_client) : proxy_client :=
  mkPc (pc_ctl_bev x) (pc_local_bev x) (pc_base x) (pc_ps x) (pc_stream x) (pc_stream_id x) (pc_connected x) (pc_work_started x) v (pc_xdpi_state x) (pc_remote_addr x) (pc_state x) (pc_data_tail x) (pc_enc_pending x) (pc_socks5_buf x) (pc_socks5_cap x) (pc_xdpi_buf x) (pc_xdpi_cap x) (pc_codec x).
Definition set_pc_xdpi_state (v : xdpi_state) (x : proxy_client) : proxy_client :=
  mkPc (pc_ctl_bev x) (pc_local_bev x) (pc_base x) (pc_ps x) (pc_stream x) (pc_stream_id x) (pc_connected x) (pc_work_started x) (pc_pending_close x) v (pc_remote_addr x) (pc_state x) (pc_data_tail x) (pc_enc_pending x) (pc_socks5_buf x) (pc_socks5_cap x) (pc_xdpi_buf x) (pc_xdpi_cap x) (pc_codec x).
Definition set_pc_remote_addr (v : socks5_addr) (x : proxy_client) : proxy_client :=
  mkPc (pc_ctl_bev x) (pc_local_bev x) (pc_base x) (pc_ps x) (pc_stream x) (pc_stream_id x) (pc_connected x) (pc_work_started x) (pc_pending_close x) (pc_xdpi_state x) v (pc_state x) (pc_data_tail x) (pc_enc_pending x) (pc_socks5_buf x) (pc_socks5_cap x) (pc_xdpi_buf x) (pc_xdpi_cap x) (pc_codec x).
Definition set_pc_state (v : Z) (x : proxy_client) : proxy_client :=
  mkPc (pc_ctl_bev x) (pc_local_bev x) (pc_base x) (pc_ps x) (pc_stream x) (pc_stream_id x) (pc_connected x) (pc_work_started x) (pc_pending_close x) (pc_xdpi_state x) (pc_remote_addr x) v (pc_data_tail x) (pc_enc_pending x) (pc_socks5_buf x) (pc_socks5_cap x) (pc_xdpi_buf x) (pc_xdpi_cap x) (pc_codec x).
Definition set_pc_data_tail (v : bytes) (x : proxy_client) : proxy_client :=
  mkPc (pc_ctl_bev x) (pc_local_bev x) (pc_base x) (pc_ps x) (pc_stream x) (pc_stream_id x) (pc_connected x) (pc_work_started x) (pc_pending_close x) (pc_xdpi_state x) (pc_remote_addr x) (pc_state x) v (pc_enc_pending x) (pc_socks5_buf x) (pc_socks5_cap x) (pc_xdpi_buf x) (pc_xdpi_cap x) (pc_codec x).
Definition set_pc_enc_pending (v : option bytes) (x : proxy_client) : proxy_client :=
  mkPc (pc_ctl_bev x) (pc_local_bev x) (pc_base x) (pc_ps x) (pc_stream x) (pc_stream_id x) (pc_connected x) (pc_work_started x) (pc_pending_close x) (pc_xdpi_state x) (pc_remote_addr x) (pc_state x) (pc_data_tail x) v (pc_socks5_buf x) (pc_socks5_cap x) (pc_xdpi_buf x) (pc_xdpi_cap x) (pc_codec x).
Definition set_pc_socks5_buf (v : bytes) (x : proxy_client) : proxy_client :=
  mkPc (pc_ctl_bev x) (pc_local_bev x) (pc_base x) (pc_ps x) (pc_stream x) (pc_stream_id x) (pc_connected x) (pc_work_started x) (pc_pending_close x) (pc_xdpi_state x) (pc_remote_addr x) (pc_state x) (pc_data_tail x) (pc_enc_pending x) v (pc_socks5_cap x) (pc_xdpi_buf x) (pc_xdpi_cap x) (pc_codec x).
Definition set_pc_socks5_cap (v : Z) (x : proxy_client) : proxy_client :=
  mkPc (pc_ctl_bev x) (pc_local_bev x) (pc_base x) (pc_ps x) (pc_stream x) (pc_stream_id x) (pc_connected x) (pc_work_started x) (pc_pending_close x) (pc_xdpi_state x) (pc_remote_addr x) (pc_state x) (pc_data_tail x) (pc_enc_pending x) (pc_socks5_buf x) v (pc_xdpi_buf x) (pc_xdpi_cap x) (pc_codec x).
Definition set_pc_xdpi_buf (v : bytes) (x : proxy_client) : proxy_client :=
  mkPc (pc_ctl_bev x) (pc_local_bev x) (pc_base x) (pc_ps x) (pc_stream x) (pc_stream_id x) (pc_connected x) (pc_work_started x) (pc_pending_close x) (pc_xdpi_state x) (pc_remote_addr x) (pc_state x) (pc_data_tail x) (pc_enc_pending x) (pc_socks5_buf x) (pc_socks5_cap x) v (pc_xdpi_cap x) (pc_codec x).
Definition set_pc_xdpi_cap (v : Z) (x : proxy_client) : proxy_client :=
  mkPc (pc_ctl_bev x) (pc_local_bev x) (pc_base x) (pc_ps x) (pc_stream x) (pc_stream_id x) (pc_connected x) (pc_work_started x) (pc_pending_close x) (pc_xdpi_state x) (pc_remote_addr x) (pc_state x) (pc_data_tail x) (pc_enc_pending x) (pc_socks5_buf x) (pc_socks5_cap x) (pc_xdpi_buf x) v (pc_codec x).
Definition set_pc_codec (v : codec) (x : proxy_client) : proxy_client :=
  mkPc (pc_ctl_bev x) (pc_local_bev x) (pc_base x) (pc_ps x) (pc_stream x) (pc_stream_id x) (pc_connected x) (pc_work_started x) (pc_pending_close x) (pc_xdpi_state x) (pc_remote_addr x) (pc_state x) (pc_data_tail x) (pc_enc_pending x) (pc_socks5_buf x) (pc_socks5_cap x) (pc_xdpi_buf x) (pc_xdpi_cap x) v.

(** [calloc]. *)
Definition zero_pc : proxy_client :=
  mkPc None None false None zero_stream 0 false false false XDPI_INIT zero_addr SOCKS5_INIT [] None
    [] 0 [] 0 (mkCodec false false None None).

(** ** The world *)

(** [struct common_conf] and the registered services, in the order of the hash
    table. *)
Record config := mkConfig {
  cf_user : option string;
  cf_server_addr : option string;
  cf_server_port : Z;
  cf_oidc : bool;
  cf_heartbeat_interval : Z;
  cf_heartbeat_timeout : Z;
  cf_services : list proxy_service;
}.

(** cJSON, MD5, the chip's name, the clock (seconds, and the hour of the day), what [send] answers (the
    bytes it takes, -1 to try again, -2 for an error), and whether [malloc(0)]
    returns a block. *)
Record externals := mkExt {
  x_json_parse : bytes → option json;
  x_json_print : json → option bytes;
  x_md5 : bytes → option bytes;
  x_machine : string;
  x_time : nat → Z;
  x_hour : nat → Z;
  x_send : nat → Z;
  x_malloc0 : bool;
}.

(** What lies outside: the outcome of the [n]-th allocation or system call,
    the [n]-th random block, and the build and file configuration. *)
Record environment := mkEnv {
  e_ok : nat → bool;
  e_rand : nat → bytes;
  e_snappy : snappy;
  e_pbkdf2 : bytes → bytes → option bytes;
  e_tcp_mux : Z;
  e_auth_token : option bytes;
  e_config : config;
  e_ext : externals;
}.

(** The globals of [control.c], [login.c] and [crypto.c] that make up the
    session: [is_login], [xfrpc_status], [pong_time], the coders, the login
    structure's run id and flag, [g_reconnect_requested], [g_fatal], the retry counter of
    [connect_event_cb], and the two timers with the delay they were armed
    with. *)
Record session := mkSession {
  ss_is_login : bool;
  ss_status : bool;
  ss_pong_time : Z;
  ss_coders : coders;
  ss_run_id : option string;
  ss_logged : bool;
  ss_reconnect : bool;
  ss_fatal : bool;
  ss_retry : Z;
  ss_reconnect_timer : option Z;
  ss_ticker : option Z;
}.

Definition set_ss_is_login (v : bool) (x : session) : session :=
  mkSession v (ss_status x) (ss_pong_time x) (ss_coders x) (ss_run_id x) (ss_logged x) (ss_reconnect x) (ss_fatal x) (ss_retry x) (ss_reconnect_timer x) (ss_ticker x).
Definition set_ss_status (v : bool) (x : session) : session :=
  mkSession (ss_is_login x) v (ss_pong_time x) (ss_coders x) (ss_run_id x) (ss_logged x) (ss_reconnect x) (ss_fatal x) (ss_retry x) (ss_reconnect_timer x) (ss_ticker x).
Definition set_ss_pong_time (v : Z) (x : session) : session :=
  mkSession (ss_is_login x) (ss_status x) v (ss_coders x) (ss_run_id x) (ss_logged x) (ss_reconnect x) (ss_fatal x) (ss_retry x) (ss_reconnect_timer x) (ss_ticker x).
Definition set_ss_coders (v : coders) (x : session) : session :=
  mkSession (ss_is_login x) (ss_status x) (ss_pong_time x) v (ss_run_id x) (ss_logged x) (ss_reconnect x) (ss_fatal x) (ss_retry x) (ss_reconnect_timer x) (ss_ticker x).
Definition set_ss_run_id (v : option string) (x : session) : session :=
  mkSession (ss_is_login x) (ss_status x) (ss_pong_time x) (ss_coders x) v (ss_logged x) (ss_reconnect x) (ss_fatal x) (ss_retry x) (ss_reconnect_timer x) (ss_ticker x).
Definition set_ss_logged (v : bool) (x : session) : session :=
  mkSession (ss_is_login x) (ss_status x) (ss_pong_time x) (ss_coders x) (ss_run_id x) v (ss_reconnect x) (ss_fatal x) (ss_retry x) (ss_reconnect_timer x) (ss_ticker x).
Definition set_ss_reconnect (v : bool) (x : session) : session :=
  mkSession (ss_is_login x) (ss_status x) (ss_pong_time x) (ss_coders x) (ss_run_id x) (ss_logged x) v (ss_fatal x) (ss_retry x) (ss_reconnect_timer x) (ss_ticker x).
Definition set_ss_fatal (v : bool) (x : session) : session :=
  mkSession (ss_is_login x) (ss_status x) (ss_pong_time x) (ss_coders x) (ss_run_id x) (ss_logged x) (ss_reconnect x) v (ss_retry x) (ss_reconnect_timer x) (ss_ticker x).
Definition set_ss_retry (v : Z) (x : session) : session :=
  mkSession (ss_is_login x) (ss_status x) (ss_pong_time x) (ss_coders x) (ss_run_id x) (ss_logged x) (ss_reconnect x) (ss_fatal x) v (ss_reconnect_timer x) (ss_ticker x).
Definition set_ss_reconnect_timer (v : option Z) (x : session) : session :=
  mkSession (ss_is_login x) (ss_status x) (ss_pong_time x) (ss_coders x) (ss_run_id x) (ss_logged x) (ss_reconnect x) (ss_fatal x) (ss_retry x) v (ss_ticker x).
Definition set_ss_ticker (v : option Z) (x : session) : session :=
  mkSession (ss_is_login x) (ss_status x) (ss_pong_time x) (ss_coders x) (ss_run_id x) (ss_logged x) (ss_reconnect x) (ss_fatal x) (ss_retry x) (ss_reconnect_timer x) v.

(** Zeroed storage; the run id is set by [init_login]. *)
Definition zero_session (run_id : option string) : session :=
  mkSession false false 0 no_coders run_id false false false 0 None None.

(** The globals of the four files: the heap, [all_stream], [all_pc],
    [cur_stream], [abandon_stream], [g_session_id], the cached [tcp_mux] flag,
    the go-away flags, the main control's connection and stream, and the
    static variables of [handle_tcp_mux]. *)
Record world := mkWorld {
  w_env : environment;
  w_tick : nat;
  w_next : positive;
  w_bevs : gmap positive bufferevent;
  w_pcs : gmap positive proxy_client;
  w_all_stream : gmap Z sref;
  w_all_pc : gmap Z positive;
  w_cur : option sref;
  w_abandon : tmux_stream;
  w_session_id : Z;
  w_mux_cached : Z;
  w_local_go_away : bool;
  w_remote_go_away : bool;
  w_connect_bev : option positive;
  w_main_stream : tmux_stream;
  w_hdr : bytes;
  w_stream_len : Z;
  w_partial_header : Z;
  w_ctl : session;
}.

Definition set_w_env (v : environment) (x : world) : world :=
  mkWorld v (w_tick x) (w_next x) (w_bevs x) (w_pcs x) (w_all_stream x) (w_all_pc x) (w_cur x) (w_abandon x) (w_session_id x) (w_mux_cached x) (w_local_go_away x) (w_remote_go_away x) (w_connect_bev x) (w_main_stream x) (w_hdr x) (w_stream_len x) (w_partial_header x) (w_ctl x).
Definition set_w_tick (v : nat) (x : world) : world :=
  mkWorld (w_env x) v (w_next x) (w_bevs x) (w_pcs x) (w_all_stream x) (w_all_pc x) (w_cur x) (w_abandon x) (w_session_id x) (w_mux_cached x) (w_local_go_away x) (w_remote_go_away x) (w_connect_bev x) (w_main_stream x) (w_hdr x) (w_stream_len x) (w_partial_header x) (w_ctl x).
Definition set_w_next (v : positive) (x : world) : world :=
  mkWorld (w_env x) (w_tick x) v (w_bevs x) (w_pcs x) (w_all_stream x) (w_all_pc x) (w_cur x) (w_abandon x) (w_session_id x) (w_mux_cached x) (w_local_go_away x) (w_remote_go_away x) (w_connect_bev x) (w_main_stream x) (w_hdr x) (w_stream_len x) (w_partial_header x) (w_ctl x).
Definition set_w_bevs (v : gmap positive bufferevent) (x : world) : world :=
  mkWorld (w_env x) (w_tick x) (w_next x) v (w_pcs x) (w_all_stream x) (w_all_pc x) (w_cur x) (w_abandon x) (w_session_id x) (w_mux_cached x) (w_local_go_away x) (w_remote_go_away x) (w_connect_bev x) (w_main_stream x) (w_hdr x) (w_stream_len x) (w_partial_header x) (w_ctl x).
Definition set_w_pcs (v : gmap positive proxy_client) (x : world) : world :=
  mkWorld (w_env x) (w_tick x) (w_next x) (w_bevs x) v (w_all_stream x) (w_all_pc x) (w_cur x) (w_abandon x) (w_session_id x) (w_mux_cached x) (w_local_go_away x) (w_remote_go_away x) (w_connect_bev x) (w_main_stream x) (w_hdr x) (w_stream_len x) (w_partial_header x) (w_ctl x).
Definition set_w_all_stream (v : gmap Z sref) (x : world) : world :=
  mkWorld (w_env x) (w_tick x) (w_next x) (w_bevs x) (w_pcs x) v (w_all_pc x) (w_cur x) (w_abandon x) (w_session_id x) (w_mux_cached x) (w_local_go_away x) (w_remote_go_away x) (w_connect_bev x) (w_main_stream x) (w_hdr x) (w_stream_len x) (w_partial_header x) (w_ctl x).
Definition set_w_all_pc (v : gmap Z positive) (x : world) : world :=
  mkWorld (w_env x) (w_tick x) (w_next x) (w_bevs x) (w_pcs x) (w_all_stream x) v (w_cur x) (w_abandon x) (w_session_id x) (w_mux_cached x) (w_local_go_away x) (w_remote_go_away x) (w_connect_bev x) (w_main_stream x) (w_hdr x) (w_stream_len x) (w_partial_header x) (w_ctl x).
Definition set_w_cur (v : option sref) (x : world) : world :=
  mkWorld (w_env x) (w_tick x) (w_next x) (w_bevs x) (w_pcs x) (w_all_stream x) (w_all_pc x) v (w_abandon x) (w_session_id x) (w_mux_cached x) (w_local_go_away x) (w_remote_go_away x) (w_connect_bev x) (w_main_stream x) (w_hdr x) (w_stream_len x) (w_partial_header x) (w_ctl x).
Definition set_w_abandon (v : tmux_stream) (x : world) : world :=
  mkWorld (w_env x) (w_tick x) (w_next x) (w_bevs x) (w_pcs x) (w_all_stream x) (w_all_pc x) (w_cur x) v (w_session_id x) (w_mux_cached x) (w_local_go_away x) (w_remote_go_away x) (w_connect_bev x) (w_main_stream x) (w_hdr x) (w_stream_len x) (w_partial_header x) (w_ctl x).
Definition set_w_session_id (v : Z) (x : world) : world :=
  mkWorld (w_env x) (w_tick x) (w_next x) (w_bevs x) (w_pcs x) (w_all_stream x) (w_all_pc x) (w_cur x) (w_abandon x) v (w_mux_cached x) (w_local_go_away x) (w_remote_go_away x) (w_connect_bev x) (w_main_stream x) (w_hdr x) (w_stream_len x) (w_partial_header x) (w_ctl x).
Definition set_w_mux_cached (v : Z) (x : world) : world :=
  mkWorld (w_env x) (w_tick x) (w_next x) (w_bevs x) (w_pcs x) (w_all_stream x) (w_all_pc x) (w_cur x) (w_abandon x) (w_session_id x) v (w_local_go_away x) (w_remote_go_away x) (w_connect_bev x) (w_main_stream x) (w_hdr x) (w_stream_len x) (w_partial_header x) (w_ctl x).
Definition set_w_local_go_away (v : bool) (x : world) : world :=
  mkWorld (w_env x) (w_tick x) (w_next x) (w_bevs x) (w_pcs x) (w_all_stream x) (w_all_pc x) (w_cur x) (w_abandon x) (w_session_id x) (w_mux_cached x) v (w_remote_go_away x) (w_connect_bev x) (w_main_stream x) (w_hdr x) (w_stream_len x) (w_partial_header x) (w_ctl x).
Definition set_w_remote_go_away (v : bool) (x : world) : world :=
  mkWorld (w_env x) (w_tick x) (w_next x) (w_bevs x) (w_pcs x) (w_all_stream x) (w_all_pc x) (w_cur x) (w_abandon x) (w_session_id x) (w_mux_cached x) (w_local_go_away x) v (w_connect_bev x) (w_main_stream x) (w_hdr x) (w_stream_len x) (w_partial_header x) (w_ctl x).
Definition set_w_connect_bev (v : option positive) (x : world) : world :=
  mkWorld (w_env x) (w_tick x) (w_next x) (w_bevs x) (w_pcs x) (w_all_stream x) (w_all_pc x) (w_cur x) (w_abandon x) (w_session_id x) (w_mux_cached x) (w_local_go_away x) (w_remote_go_away x) v (w_main_stream x) (w_hdr x) (w_stream_len x) (w_partial_header x) (w_ctl x).
Definition set_w_main_stream (v : tmux_stream) (x : world) : world :=
  mkWorld (w_env x) (w_tick x) (w_next x) (w_bevs x) (w_pcs x) (w_all_stream x) (w_all_pc x) (w_cur x) (w_abandon x) (w_session_id x) (w_mux_cached x) (w_local_go_away x) (w_remote_go_away x) (w_connect_bev x) v (w_hdr x) (w_stream_len x) (w_partial_header x) (w_ctl x).
Definition set_w_hdr (v : bytes) (x : world) : world :=
  mkWorld (w_env x) (w_tick x) (w_next x) (w_bevs x) (w_pcs x) (w_all_stream x) (w_all_pc x) (w_cur x) (w_abandon x) (w_session_id x) (w_mux_cached x) (w_local_go_away x) (w_remote_go_away x) (w_connect_bev x) (w_main_stream x) v (w_stream_len x) (w_partial_header x) (w_ctl x).
Definition set_w_stream_len (v : Z) (x : world) : world :=
  mkWorld (w_env x) (w_tick x) (w_next x) (w_bevs x) (w_pcs x) (w_all_stream x) (w_all_pc x) (w_cur x) (w_abandon x) (w_session_id x) (w_mux_cached x) (w_local_go_away x) (w_remote_go_away x) (w_connect_bev x) (w_main_stream x) (w_hdr x) v (w_partial_header x) (w_ctl x).
Definition set_w_partial_header (v : Z) (x : world) : world :=
  mkWorld (w_env x) (w_tick x) (w_next x) (w_bevs x) (w_pcs x) (w_all_stream x) (w_all_pc x) (w_cur x) (w_abandon x) (w_session_id x) (w_mux_cached x) (w_local_go_away x) (w_remote_go_away x) (w_connect_bev x) (w_main_stream x) (w_hdr x) (w_stream_len x) v (w_ctl x).

Definition set_w_ctl (v : session) (x : world) : world :=
  mkWorld (w_env x) (w_tick x) (w_next x) (w_bevs x) (w_pcs x) (w_all_stream x) (w_all_pc x) (w_cur x) (w_abandon x) (w_session_id x) (w_mux_cached x) (w_local_go_away x) (w_remote_go_away x) (w_connect_bev x) (w_main_stream x) (w_hdr x) (w_stream_len x) (w_partial_header x) v.

(** ** The monad *)

Definition M (A : Type) : Type := world → option (A * world).
Definition ret {A} (a : A) : M A := λ w, Some (a, w).
Definition bind {A B} (m : M A) (f : A → M B) : M B :=
  λ w, match m w with Some (a, w') => f a w' | None => None end.

#[local] Notation "x <- m ;; k" := (bind m (λ x, k))
  (at level 100, m at next level, right associativity).
#[local] Notation "m ;; k" := (bind m (λ _, k)) (at level 100, right associativity).

(** Undefined behaviour. *)
Definition ub {A} : M A := λ _, None.
Definition gets {A} (f : world → A) : M A := λ w, Some (f w, w).
Definition modify (f : world → world) : M () := λ w, Some ((), f w).
Definition when (b : bool) (m : M ()) : M () := if b then m else ret ().

(** [wp m Q w]: from [w], [m] runs without undefined behaviour and ends in a
    result and a state that satisfy [Q]. *)
Definition wp {A} (m : M A) (Q : A → world → Prop) (w : world) : Prop :=
  match m w with Some (a, w') => Q a w' | None => False end.

(** The next outcome of the environment. *)
Definition oracle : M bool :=
  λ w, Some (e_ok (w_env w) (w_tick w), set_w_tick (S (w_tick w)) w).
(** Nothing the environment is asked for is refused. *)
Definition alloc_ok (w : world) : Prop := ∀ n, e_ok (w_env w) n = true.
Definition random_block : M bytes :=
  λ w, Some (e_rand (w_env w) (w_tick w), set_w_tick (S (w_tick w)) w).

(** ** Pointers *)

Definition get_bev (b : positive) : M bufferevent :=
  λ w, match w_bevs w !! b with Some x => Some (x, w) | None => None end.
Definition put_bev (b : positive) (x : bufferevent) : M () :=
  modify (λ w, set_w_bevs (<[b := x]> (w_bevs w)) w).
Definition upd_bev (b : positive) (f : bufferevent → bufferevent) : M () :=
  x <- get_bev b ;; put_bev b (f x).

Definition get_pc (p : positive) : M proxy_client :=
  λ w, match w_pcs w !! p with Some x => Some (x, w) | None => None end.
Definition put_pc (p : positive) (x : proxy_client) : M () :=
  modify (λ w, set_w_pcs (<[p := x]> (w_pcs w)) w).
Definition upd_pc (p : positive) (f : proxy_client → proxy_client) : M () :=
  x <- get_pc p ;; put_pc p (f x).

Definition lookup_stream (w : world) (r : sref) : option tmux_stream :=
  match r with
  | SMain => Some (w_main_stream w)
  | SAbandon => Some (w_abandon w)
  | SClient p => pc_stream <$> (w_pcs w !! p)
  end.
Definition get_stream (r : sref) : M tmux_stream :=
  λ w, match lookup_stream w r with Some s => Some (s, w) | None => None end.
Definition upd_stream (r : sref) (f : tmux_stream → tmux_stream) : M () :=
  match r with
  | SMain => modify (λ w, set_w_main_stream (f (w_main_stream w)) w)
  | SAbandon => modify (λ w, set_w_abandon (f (w_abandon w)) w)
  | SClient p => upd_pc p (λ x, set_pc_stream (f (pc_stream x)) x)
  end.

Definition fresh : M positive :=
  λ w, Some (w_next w, set_w_next (Pos.succ (w_next w)) w).

(** ** Bufferevent operations ([mini_event.c]) *)

(** [bev_new]: the allocations of the struct and its two queues. *)
Definition bufferevent_new : M (option positive) :=
  ok <- oracle ;;
  if negb ok then ret None
  else
    b <- fresh ;;
    put_bev b (mkBev [] [] false false CbNone EvNone None false []) ;;
    ret (Some b).

Definition bufferevent_free (b : positive) : M () :=
  get_bev b ;; modify (λ w, set_w_bevs (delete b (w_bevs w)) w).

Definition bufferevent_setcb (b : positive) (r : data_cb) (e : event_cb) (arg : option positive)
    : M () :=
  upd_bev b (λ x, set_b_cbarg arg (set_b_eventcb e (set_b_readcb r x))).

Definition bufferevent_enable (b : positive) (rd wr : bool) : M () :=
  upd_bev b (λ x, set_b_write (b_write x || wr) (set_b_read (b_read x || rd) x)).
Definition bufferevent_disable (b : positive) (rd wr : bool) : M () :=
  upd_bev b (λ x, set_b_write (b_write x && negb wr) (set_b_read (b_read x && negb rd) x)).

(** [evbuffer_add] on the output queue: -1 when the queue cannot grow. *)
Definition output_add (b : positive) (data : bytes) : M Z :=
  x <- get_bev b ;;
  ok <- oracle ;;
  if ok then put_bev b (set_b_out (b_out x ++ data) x) ;; ret 0 else ret (-1).

Definition bufferevent_write (bev : option positive) (data : bytes) : M Z :=
  match bev with None => ret (-1) | Some b => output_add b data end.

Definition bufferevent_read (b : positive) (n : Z) : M bytes :=
  x <- get_bev b ;;
  put_bev b (set_b_in (zdrop n (b_in x)) x) ;;
  ret (ztake n (b_in x)).

Definition input_drain (b : positive) (n : Z) : M () :=
  upd_bev b (λ x, set_b_in (zdrop n (b_in x)) x).

(** [evbuffer_remove_buffer] from an input queue to an output queue: the
    number of bytes moved, 0 when the destination cannot grow. *)
Definition remove_to_output (b d : positive) (n : Z) : M Z :=
  x <- get_bev b ;;
  let n := Z.min n (zlen (b_in x)) in
  if n <=? 0 then ret 0
  else
    rc <- output_add d (ztake n (b_in x)) ;;
    if rc <? 0 then ret 0
    else input_drain b n ;; ret n.

(** ** Reasoning *)

Lemma wp_mono {A} (m : M A) (P Q : A → world → Prop) w :
  wp m P w → (∀ a w', P a w' → Q a w') → wp m Q w.
Proof. unfold wp. destruct (m w) as [[a w']|]; auto. Qed.

Lemma wp_ret {A} (a : A) Q w : wp (ret a) Q w ↔ Q a w.
Proof. done. Qed.

Lemma wp_bind {A B} (m : M A) (f : A → M B) Q w :
  wp (bind m f) Q w ↔ wp m (λ a w', wp (f a) Q w') w.
Proof. unfold wp, bind. by destruct (m w) as [[a w']|]. Qed.

(** A step whose effect is summarised by [P]. *)
Lemma wp_seq {A B} (m : M A) (f : A → M B) (P : A → world → Prop) Q w :
  wp m P w → (∀ a w', P a w' → wp (f a) Q w') → wp (bind m f) Q w.
Proof. intros Hm Hf. apply wp_bind. eapply wp_mono; eauto. Qed.

Lemma wp_run {A} (m : M A) Q w : wp m Q w ↔ ∃ a w', m w = Some (a, w') ∧ Q a w'.
Proof. unfold wp. destruct (m w) as [[a w']|]; naive_solver. Qed.

Lemma wp_of_run {A} (m : M A) (Q : A → world → Prop) w a w' : m w = Some (a, w') → Q a w' → wp m Q w.
Proof. intros E HQ. unfold wp. by rewrite E. Qed.

(** Running a sequence step by step. *)
Lemma bind_run {A B} (m : M A) (f : A → M B) w a w1 : m w = Some (a, w1) → bind m f w = f a w1.
Proof. intros E. unfold bind. by rewrite E. Qed.
Lemma bind_gets {A B} (f : world → A) (k : A → M B) w : bind (gets f) k w = k (f w) w.
Proof. done. Qed.
Lemma bind_modify {B} f (k : () → M B) w : bind (modify f) k w = k () (f w).
Proof. done. Qed.
Lemma bind_assoc {A B C} (m : M A) (f : A → M B) (g : B → M C) w :
  bind (bind m f) g w = bind m (λ a, bind (f a) g) w.
Proof. unfold bind. by destruct (m w) as [[a w1]|]. Qed.

Lemma wp_gets {A} (f : world → A) Q w : wp (gets f) Q w ↔ Q (f w) w.
Proof. done. Qed.
Lemma wp_modify (f : world → world) Q w : wp (modify f) Q w ↔ Q () (f w).
Proof. done. Qed.
Lemma wp_oracle Q w :
  wp oracle Q w ↔ Q (e_ok (w_env w) (w_tick w)) (set_w_tick (S (w_tick w)) w).
Proof. done. Qed.
Lemma wp_fresh Q w : wp fresh Q w ↔ Q (w_next w) (set_w_next (Pos.succ (w_next w)) w).
Proof. done. Qed.
Lemma wp_get_bev b Q w x : w_bevs w !! b = Some x → wp (get_bev b) Q w ↔ Q x w.
Proof. intros E. unfold wp, get_bev. by rewrite E. Qed.
Lemma wp_put_bev b x Q w :
  wp (put_bev b x) Q w ↔ Q () (set_w_bevs (<[b := x]> (w_bevs w)) w).
Proof. done. Qed.
Lemma wp_upd_bev b f Q w x :
  w_bevs w !! b = Some x → wp (upd_bev b f) Q w ↔ Q () (set_w_bevs (<[b := f x]> (w_bevs w)) w).
Proof. intros E. unfold upd_bev. by rewrite wp_bind, (wp_get_bev b _ w x E). Qed.
Lemma wp_get_pc p Q w x : w_pcs w !! p = Some x → wp (get_pc p) Q w ↔ Q x w.
Proof. intros E. unfold wp, get_pc. by rewrite E. Qed.
Lemma wp_put_pc p x Q w :
  wp (put_pc p x) Q w ↔ Q () (set_w_pcs (<[p := x]> (w_pcs w)) w).
Proof. done. Qed.
Lemma wp_upd_pc p f Q w x :
  w_pcs w !! p = Some x → wp (upd_pc p f) Q w ↔ Q () (set_w_pcs (<[p := f x]> (w_pcs w)) w).
Proof. intros E. unfold upd_pc. by rewrite wp_bind, (wp_get_pc p _ w x E). Qed.
Lemma wp_get_stream r Q w s : lookup_stream w r = Some s → wp (get_stream r) Q w ↔ Q s w.
Proof. intros E. unfold wp, get_stream. by rewrite E. Qed.

End WithCipher.

#[export] Hint Rewrite @wp_bind @wp_ret @wp_gets @wp_modify @wp_oracle @wp_fresh @wp_put_bev @wp_put_pc : wp.
(** Runs the steps that need no fact about the state. *)
Ltac wps := autorewrite with wp; cbv beta.
(** Runs the first step of a sequence, whose outcome is [E]. *)
Ltac runs E := rewrite (bind_run _ _ _ _ _ E); cbv beta; cbn [negb]; cbv iota.
(** Runs a read or update of a location known to be live by [E]. *)
Ltac wp_pc E :=
  wps; match goal with
  | |- wp (get_pc ?p) ?Q ?w => apply (proj2 (wp_get_pc p Q w _ E))
  | |- wp (upd_pc ?p ?f) ?Q ?w => apply (proj2 (wp_upd_pc p f Q w _ E))
  end; wps.
Ltac wp_bev E :=
  wps; match goal with
  | |- wp (get_bev ?p) ?Q ?w => apply (proj2 (wp_get_bev p Q w _ E))
  | |- wp (upd_bev ?p ?f) ?Q ?w => apply (proj2 (wp_upd_bev p f Q w _ E))
  end; wps.
Ltac wp_st E :=
  wps; match goal with
  | |- wp (get_stream ?p) ?Q ?w => apply (proj2 (wp_get_stream p Q w _ E))
  end; wps.

Notation "x <- m ;; k" := (bind m (λ x, k))
  (at level 100, m at next level, right associativity) : xfrp_scope.
Notation "m ;; k" := (bind m (λ _, k)) (at level 100, right associativity) : xfrp_scope.
