(* ===== verification/Mux.v ===== *)
(** * Stream multiplexer: registry, frames, flow control

    First half of [src/src/tcpmux.c], and the client table of
    [src/src/client.c] it calls back into: the hash table of streams, the
    frame encoder and the senders of control frames, session ids, the flag
    state machine, window accounting, and [tmux_stream_write]. *)

From S2P Require Import Prelude Endian Evp CryptoStream World.

Section Mux.
Context `{Mbedtls}.

(** ** Registry of streams *)

Definition add_stream (r : sref) : M () :=
  s <- get_stream r ;;
  all <- gets w_all_stream ;;
  match all !! s_id s with
  | Some _ => ret ()
  | None => modify (λ w, set_w_all_stream (<[s_id s := r]> all) w)
  end.

Definition del_stream (id : Z) : M () :=
  modify (λ w, set_w_all_stream (delete id (w_all_stream w)) w).

Definition clear_stream : M () := modify (λ w, set_w_all_stream ∅ w).

Definition get_stream_by_id (id : Z) : M (option sref) := gets (λ w, w_all_stream w !! id).

Definition get_cur_stream : M (option sref) := gets w_cur.
Definition set_cur_stream (r : option sref) : M () := modify (λ w, set_w_cur r w).

Definition init_tmux_stream (r : sref) (id : Z) (state : tcp_mux_state) : M () :=
  upd_stream r (λ _, mkStream id MAX_STREAM_WINDOW_SIZE (256 * 1024) state false false []) ;;
  add_stream r.

Definition tmux_stream_release (s : tmux_stream) : tmux_stream := set_s_v2_rx [] s.

(** ** Frames *)

Definition validate_tcp_mux_protocol (h : tcp_mux_header) : bool :=
  if negb (hdr_version h =? 0) then false
  else if GO_AWAY <? hdr_type h then false
  else true.

(** The header after [memset] to zero and the call. *)
Definition tcp_mux_encode (type flags stream_id length : Z) : tcp_mux_header :=
  if GO_AWAY <? type then mkHdr 0 0 0 0 0
  else mkHdr 0 type (htons flags) (htonl stream_id) (if length =? 0 then 0 else htonl length).

Definition tcp_mux_flag : M Z :=
  cached <- gets w_mux_cached ;;
  if 0 <=? cached then ret cached
  else
    c <- gets (λ w, e_tcp_mux (w_env w)) ;;
    modify (set_w_mux_cached c) ;; ret c.

(** ** Session ids *)

Definition reset_session_id : M () := modify (set_w_session_id 1).
Definition get_next_session_id : M Z :=
  id <- gets w_session_id ;;
  modify (set_w_session_id (u32 (id + 2))) ;; ret id.

(** ** Control frames *)

Definition tcp_mux_send_win_update (bout : option positive) (flags stream_id delta : Z) : M () :=
  match bout with
  | None => ret ()
  | Some _ =>
      bufferevent_write bout (hdr_bytes (tcp_mux_encode WINDOW_UPDATE flags stream_id delta)) ;;
      ret ()
  end.

(** The guard shared by the exported senders: multiplexing on. *)
Definition if_mux (m : M ()) : M () :=
  f <- tcp_mux_flag ;; if f =? 0 then ret () else m.

Definition tcp_mux_send_win_update_syn (bout : option positive) (stream_id : Z) : M () :=
  if_mux (tcp_mux_send_win_update bout SYN stream_id 0).
Definition tcp_mux_send_win_update_ack (bout : option positive) (stream_id delta : Z) : M () :=
  if_mux (tcp_mux_send_win_update bout ACK stream_id 0).
Definition tcp_mux_send_win_update_fin (bout : option positive) (stream_id : Z) : M () :=
  if_mux (tcp_mux_send_win_update bout FIN stream_id 0).
Definition tcp_mux_send_win_update_rst (bout : option positive) (stream_id : Z) : M () :=
  if_mux (tcp_mux_send_win_update bout RST stream_id 0).

(** A bare header on [bout]. *)
Definition send_header (bout : option positive) (type flags stream_id length : Z) : M () :=
  if_mux
    match bout with
    | None => ret ()
    | Some _ =>
        bufferevent_write bout (hdr_bytes (tcp_mux_encode type flags stream_id length)) ;; ret ()
    end.

Definition tcp_mux_send_data (bout : option positive) (flags stream_id length : Z) : M () :=
  send_header bout TMUX_DATA flags stream_id length.
Definition tcp_mux_send_ping (bout : option positive) (ping_id : Z) : M () :=
  send_header bout PING SYN 0 ping_id.
Definition tcp_mux_handle_ping (bout : option positive) (ping_id : Z) : M () :=
  send_header bout PING ACK 0 ping_id.
Definition tcp_mux_send_go_away (bout : option positive) (reason : Z) : M () :=
  send_header bout GO_AWAY 0 0 (if 2 <? reason then 2 else reason).

(** ** The client table ([client.c]) *)

Definition get_proxy_client (sid : Z) : M (option positive) :=
  if sid =? 0 then ret None else gets (λ w, w_all_pc w !! sid).

(** The fields [free_proxy_client] releases live inside the record, except the
    local bufferevent. *)
Definition free_proxy_client (p : positive) : M () :=
  pc <- get_pc p ;;
  match pc_local_bev pc with
  | Some b => bufferevent_free b
  | None => ret ()
  end ;;
  modify (λ w, set_w_pcs (delete p (w_pcs w)) w).

Definition del_proxy_client (p : positive) : M Z :=
  pc <- get_pc p ;;
  all <- gets w_all_pc ;;
  if bool_decide (all = ∅) then ret (-1)
  else
    modify (set_w_all_pc (delete (pc_stream_id pc) all)) ;;
    free_proxy_client p ;;
    ret 0.

Definition del_proxy_client_by_stream_id (sid : Z) : M () :=
  if sid =? 0 then ret ()
  else
    del_stream sid ;;
    pc <- get_proxy_client sid ;;
    match pc with
    | Some p => del_proxy_client p ;; ret ()
    | None => ret ()
    end.

Definition new_proxy_client : M (option positive) :=
  ok <- oracle ;;
  if negb ok then ret None
  else
    p <- fresh ;;
    put_pc p zero_pc ;;
    id <- get_next_session_id ;;
    upd_pc p (set_pc_stream_id id) ;;
    init_tmux_stream (SClient p) id TMUX_INIT ;;
    modify (λ w, set_w_all_pc (<[id := p]> (w_all_pc w)) w) ;;
    ret (Some p).

(** [HASH_ITER] over the table: each client is unlinked and freed. *)
Fixpoint free_each (ps : list positive) : M () :=
  match ps with
  | [] => ret ()
  | p :: ps => free_proxy_client p ;; free_each ps
  end.

Definition clear_all_proxy_client : M () :=
  clear_stream ;;
  all <- gets w_all_pc ;;
  free_each (map snd (map_to_list all)) ;;
  modify (set_w_all_pc ∅).

(** ** Stream states *)

(** State after the flags of a received frame: [None] when they are a
    protocol error; the second component is [should_close]. *)
Definition flags_next (flags : Z) (st : tcp_mux_state) : option (tcp_mux_state * bool * bool) :=
  let st1 := if negb (flags &u ACK =? 0) then
               match st with TMUX_SYN_SEND => TMUX_ESTABLISHED | _ => st end
             else st in
  let fin :=
    if negb (flags &u FIN =? 0) then
      match st1 with
      | TMUX_SYN_SEND | TMUX_SYN_RECEIVED | TMUX_ESTABLISHED => Some (TMUX_REMOTE_CLOSE, false, false)
      | TMUX_LOCAL_CLOSE => Some (TMUX_CLOSED, true, false)
      | TMUX_INIT => Some (TMUX_RESET, true, false)
      | TMUX_CLOSED | TMUX_RESET => Some (st1, false, true)
      | TMUX_REMOTE_CLOSE => None
      end
    else Some (st1, false, false) in
  match fin with
  | None => None
  | Some (st2, close, early) =>
      if early then Some (st2, false, true)
      else if negb (flags &u RST =? 0) then Some (TMUX_RESET, true, false)
      else Some (st2, close, false)
  end.

Definition process_flags (flags : Z) (r : sref) : M bool :=
  s <- get_stream r ;;
  match flags_next flags (s_state s) with
  | None => ret false   (** the state is [TMUX_REMOTE_CLOSE] and stays so *)
  | Some (st, close, _) =>
      upd_stream r (set_s_state st) ;;
      (if close then del_proxy_client_by_stream_id (s_id s) else ret ()) ;;
      ret true
  end.

Definition get_send_flags (r : sref) : M Z :=
  s <- get_stream r ;;
  match s_state s with
  | TMUX_INIT => upd_stream r (set_s_state TMUX_SYN_SEND) ;; ret SYN
  | TMUX_SYN_RECEIVED => upd_stream r (set_s_state TMUX_ESTABLISHED) ;; ret ACK
  | _ => ret ZERO
  end.

(** ** Windows *)

Definition send_window_update (bout : option positive) (r : sref) (length : Z) : M () :=
  if length =? 0 then
    flags <- get_send_flags r ;;
    if negb (flags =? ZERO) then
      s <- get_stream r ;; tcp_mux_send_win_update bout flags (s_id s) 0
    else ret ()
  else
    s <- get_stream r ;;
    let delta := if s_recv_window s <? MAX_STREAM_WINDOW_SIZE
                 then MAX_STREAM_WINDOW_SIZE - s_recv_window s else 0 in
    if delta =? 0 then ret ()
    else
      flags <- get_send_flags r ;;
      upd_stream r (set_s_recv_window MAX_STREAM_WINDOW_SIZE) ;;
      tcp_mux_send_win_update bout flags (s_id s) delta.

Definition closed_for_writing (st : tcp_mux_state) : bool :=
  match st with TMUX_LOCAL_CLOSE | TMUX_CLOSED | TMUX_RESET => true | _ => false end.

(** How much one call sends. *)
Definition to_send (available window : Z) : Z :=
  let n := u32 available in
  let n := if window <? n then window else n in
  if DEFAULT_MAX_FRAME_SIZE <? n then DEFAULT_MAX_FRAME_SIZE else n.

(** [src] is the content of the source queue; what is left of it is returned
    with the status. *)
Definition tmux_stream_write (bev : option positive) (src : bytes) (r : sref) : M (Z * bytes) :=
  s <- get_stream r ;;
  if closed_for_writing (s_state s) then ret (-1, src)
  else if zlen src =? 0 then ret (0, src)
  else if s_send_window s =? 0 then ret (0, src)
  else
    flags <- get_send_flags r ;;
    main <- gets w_connect_bev ;;
    match (match bev with Some b => Some b | None => main end) with
    | None => ret (-2, src)
    | Some b =>
        let n := to_send (zlen src) (s_send_window s) in
        if n =? 0 then ret (0, src)
        else
          rc <- output_add b (hdr_bytes (tcp_mux_encode TMUX_DATA flags (s_id s) n)) ;;
          if rc <? 0 then ret (-2, src)
          else
            rc <- output_add b (ztake n src) ;;
            if rc <? 0 then ret (-2, src)
            else
              upd_stream r (λ s, set_s_send_window (u32 (s_send_window s - n)) s) ;;
              ret (n, zdrop n src)
    end.

(** [None] when the state ignores the call; otherwise the next state and
    [should_close]. *)
Definition close_next (st : tcp_mux_state) : option (tcp_mux_state * bool) :=
  match st with
  | TMUX_SYN_SEND | TMUX_SYN_RECEIVED | TMUX_ESTABLISHED => Some (TMUX_LOCAL_CLOSE, false)
  | TMUX_LOCAL_CLOSE | TMUX_REMOTE_CLOSE => Some (TMUX_CLOSED, true)
  | _ => None
  end.

Definition tmux_stream_close (bout : option positive) (r : sref) : M Z :=
  s <- get_stream r ;;
  match close_next (s_state s) with
  | None => ret 0
  | Some (st, should_close) =>
      upd_stream r (set_s_state st) ;;
      flags <- get_send_flags r ;;
      tcp_mux_send_win_update bout (flags |u FIN) (s_id s) 0 ;;
      if negb should_close then ret 1
      else del_proxy_client_by_stream_id (s_id s) ;; ret 0
  end.

Definition window_after (window increment : Z) : Z :=
  let w1 := if MAX_STREAM_WINDOW_SIZE - increment <? window then MAX_STREAM_WINDOW_SIZE
            else window + increment in
  if MAX_YAMUX_WINDOW_SIZE <? w1 then MAX_YAMUX_WINDOW_SIZE else w1.

(** [true] is the C result 1. *)
Definition incr_send_window (bev : option positive) (h : tcp_mux_header) (flags : Z) (r : sref)
    : M bool :=
  match bev with
  | None => ret false
  | Some _ =>
      s <- get_stream r ;;
      let stream_id := s_id s in
      ok <- process_flags flags r ;;
      if negb ok then ret false
      else
        live <- get_stream_by_id stream_id ;;
        match live with
        | None => ret true
        | Some _ =>
            let increment := ntohl (hdr_length h) in
            if MAX_STREAM_WINDOW_SIZE <? increment then ret false
            else
              s <- get_stream r ;;
              let old_window := s_send_window s in
              let window := window_after old_window increment in
              upd_stream r (set_s_send_window window) ;;
              if window =? 0 then ret true
              else
                pc <- get_proxy_client stream_id ;;
                match pc with
                | None => ret true
                | Some p =>
                    x <- get_pc p ;;
                    if pc_pending_close x then
                      bout <- gets w_connect_bev ;;
                      match bout with
                      | Some _ => tmux_stream_close bout r ;; ret true
                      | None => ret true
                      end
                    else
                      match pc_local_bev x with
                      | Some lb =>
                          if (old_window =? 0) && (0 <? window)
                          then bufferevent_enable lb true false ;; ret true
                          else ret true
                      | None => ret true
                      end
                end
        end
  end.

(** ** Frames without payload *)

Definition incoming_stream (stream_id : Z) : M bool :=
  away <- gets w_local_go_away ;;
  if away then
    bout <- gets w_connect_bev ;;
    tcp_mux_send_win_update_rst bout stream_id ;; ret false
  else ret true.

Definition handle_tcp_mux_ping (h : tcp_mux_header) : M () :=
  let flags := ntohs (hdr_flags h) in
  let ping_id := ntohl (hdr_length h) in
  if flags &u SYN =? SYN then
    bout <- gets w_connect_bev ;;
    match bout with
    | None => ret ()
    | Some _ => tcp_mux_handle_ping bout ping_id
    end
  else ret ().

Definition handle_tcp_mux_go_away (h : tcp_mux_header) : M () :=
  let code := ntohl (hdr_length h) in
  if code =? 0 then modify (set_w_remote_go_away true) else ret ().

Definition handle_tcp_mux_stream (h : tcp_mux_header) : M () :=
  let stream_id := ntohl (hdr_stream_id h) in
  let flags := ntohs (hdr_flags h) in
  if flags &u SYN =? SYN then incoming_stream stream_id ;; ret ()
  else
    stream <- get_stream_by_id stream_id ;;
    match stream with
    | None => ret ()
    | Some r =>
        bout <- gets w_connect_bev ;;
        if hdr_type h =? WINDOW_UPDATE then
          ok <- incr_send_window bout h flags r ;;
          if ok then ret () else tcp_mux_send_go_away bout 1
        else ret ()
    end.

End Mux.
