(* ===== verification/MuxInv.v ===== *)
(** * Invariant of the multiplexer

    The well-formedness of the shared state (registry, client table, heap and
    windows agree), and that the operations of [Mux] keep it and never touch
    freed memory. *)

From S2P Require Import Prelude Endian Evp CryptoStream World Mux.

Section Inv.
Context `{Mbedtls}.

Definition stream_ok (s : tmux_stream) : Prop :=
  0 ≤ s_recv_window s ≤ MAX_STREAM_WINDOW_SIZE ∧ 0 ≤ s_send_window s ≤ MAX_YAMUX_WINDOW_SIZE.

(** A client record at home: its two ids agree, its stream's windows are in
    range, its control connection is the main one, and its local connection
    is alive and not the main one. *)
Record pc_ok (w : world) (p : positive) (pc : proxy_client) : Prop := {
  pc_ok_id : s_id (pc_stream pc) = pc_stream_id pc;
  pc_ok_stream : stream_ok (pc_stream pc);
  pc_ok_table : w_all_pc w !! pc_stream_id pc = Some p;
  pc_ok_ctl : ∀ b, pc_ctl_bev pc = Some b → w_connect_bev w = Some b;
  pc_ok_local : ∀ b, pc_local_bev pc = Some b →
    is_Some (w_bevs w !! b) ∧ w_connect_bev w ≠ Some b;
}.

Record mux_ok (w : world) : Prop := {
  ok_pc : ∀ p pc, w_pcs w !! p = Some pc → pc_ok w p pc;
  ok_inj : ∀ p q x y b, w_pcs w !! p = Some x → w_pcs w !! q = Some y →
    pc_local_bev x = Some b → pc_local_bev y = Some b → p = q;
  ok_all_pc : ∀ id p, w_all_pc w !! id = Some p →
    w_all_stream w !! id = Some (SClient p) ∧
    ∃ pc, w_pcs w !! p = Some pc ∧ pc_stream_id pc = id;
  ok_all_stream : ∀ id r, w_all_stream w !! id = Some r →
    1 ≤ id < w_session_id w ∧
    ((r = SMain ∧ s_id (w_main_stream w) = id) ∨
     ∃ p, r = SClient p ∧ w_all_pc w !! id = Some p);
  ok_main : stream_ok (w_main_stream w);
  ok_connect : ∀ b, w_connect_bev w = Some b → is_Some (w_bevs w !! b);
  ok_fresh_pc : ∀ p pc, w_pcs w !! p = Some pc → (p < w_next w)%positive;
  ok_fresh_bev : ∀ p x, w_bevs w !! p = Some x → (p < w_next w)%positive;
  ok_session : Z.odd (w_session_id w) = true ∧ 1 ≤ w_session_id w < 2 ^ 32;
}.

(** Nothing is created, freed, moved or renumbered: only windows, stream
    states, buffered bytes and the flag cache may change. *)
Record keeps (w w' : world) : Prop := {
  k_env : w_env w' = w_env w;
  k_ctl : w_ctl w' = w_ctl w;
  k_next : w_next w' = w_next w;
  k_bevs : ∀ b, is_Some (w_bevs w' !! b) ↔ is_Some (w_bevs w !! b);
  k_all_stream : w_all_stream w' = w_all_stream w;
  k_all_pc : w_all_pc w' = w_all_pc w;
  k_session : w_session_id w' = w_session_id w;
  k_connect : w_connect_bev w' = w_connect_bev w;
  k_cur : w_cur w' = w_cur w;
  k_hdr : w_hdr w' = w_hdr w;
  k_stream_len : w_stream_len w' = w_stream_len w;
  k_partial : w_partial_header w' = w_partial_header w;
  k_main : s_id (w_main_stream w') = s_id (w_main_stream w);
  k_pcs : ∀ p, set_pc_stream zero_stream <$> w_pcs w' !! p
             = set_pc_stream zero_stream <$> w_pcs w !! p;
  k_ids : ∀ r, s_id <$> lookup_stream w' r = s_id <$> lookup_stream w r;
}.

Lemma keeps_refl w : keeps w w.
Proof. by constructor. Qed.

Lemma keeps_trans w1 w2 w3 : keeps w1 w2 → keeps w2 w3 → keeps w1 w3.
Proof.
  intros [] []. constructor; try congruence.
  - intros b. etransitivity; eauto.
Qed.

#[global] Instance keeps_preorder : PreOrder keeps.
Proof. split; [exact keeps_refl|exact keeps_trans]. Qed.

Lemma keeps_pc w w' p pc' :
  keeps w w' → w_pcs w' !! p = Some pc' →
  ∃ pc, w_pcs w !! p = Some pc ∧
    set_pc_stream zero_stream pc' = set_pc_stream zero_stream pc ∧
    s_id (pc_stream pc') = s_id (pc_stream pc).
Proof.
  intros K E. pose proof (k_pcs _ _ K p) as Hp. pose proof (k_ids _ _ K (SClient p)) as Hi.
  simpl in Hi. rewrite E in Hp, Hi. destruct (w_pcs w !! p) as [pc|]; [|done].
  simpl in *. exists pc. split; [done|]. split; congruence.
Qed.

(** Fields that survive the erasure of the stream. *)
Lemma same_pc_fields x y :
  set_pc_stream zero_stream x = set_pc_stream zero_stream y →
  pc_stream_id x = pc_stream_id y ∧ pc_ctl_bev x = pc_ctl_bev y ∧ pc_local_bev x = pc_local_bev y.
Proof. destruct x, y. unfold set_pc_stream. simpl. intros E. by injection E. Qed.

(** The streams of [w'] stay within the windows. *)
Definition windows_ok (w : world) : Prop :=
  stream_ok (w_main_stream w) ∧ ∀ p pc, w_pcs w !! p = Some pc → stream_ok (pc_stream pc).

Lemma mux_ok_keeps w w' : mux_ok w → keeps w w' → windows_ok w' → mux_ok w'.
Proof.
  intros Ok K [Wm Wp]. constructor.
  - intros p pc' E. destruct (keeps_pc _ _ _ _ K E) as (pc & Ep & Es & Ei).
    apply same_pc_fields in Es as (E1 & E2 & E3). destruct (ok_pc _ Ok _ _ Ep) as [? ? ? Hc Hl].
    constructor; rewrite ?E1, ?E2, ?E3, ?Ei, ?(k_all_pc _ _ K), ?(k_connect _ _ K); eauto.
    intros b Hb. destruct (Hl b Hb) as [? ?]. split; [by apply (k_bevs _ _ K)|done].
  - intros p q x y b Ex Ey Hx Hy.
    destruct (keeps_pc _ _ _ _ K Ex) as (x0 & Ex0 & (_ & _ & Hx0)%same_pc_fields & _).
    destruct (keeps_pc _ _ _ _ K Ey) as (y0 & Ey0 & (_ & _ & Hy0)%same_pc_fields & _).
    eapply (ok_inj _ Ok p q x0 y0 b); congruence.
  - intros id p. rewrite (k_all_pc _ _ K), (k_all_stream _ _ K). intros Hin.
    destruct (ok_all_pc _ Ok _ _ Hin) as (Hs & pc & Ep & Hid). split; [done|].
    pose proof (k_pcs _ _ K p) as Hp. rewrite Ep in Hp.
    destruct (w_pcs w' !! p) as [pc'|]; [|done]. injection Hp as Hp.
    exists pc'. split; [done|]. congruence.
  - intros id r. rewrite (k_all_stream _ _ K), (k_all_pc _ _ K), (k_session _ _ K), (k_main _ _ K).
    apply (ok_all_stream _ Ok).
  - done.
  - intros b. rewrite (k_connect _ _ K). intros Hb. apply (k_bevs _ _ K). by apply (ok_connect _ Ok).
  - intros p pc' E. destruct (keeps_pc _ _ _ _ K E) as (pc & Ep & _).
    rewrite (k_next _ _ K). by eapply (ok_fresh_pc _ Ok).
  - intros p x E. rewrite (k_next _ _ K).
    assert (is_Some (w_bevs w !! p)) as [y Ey] by (apply (k_bevs _ _ K); eauto).
    by eapply (ok_fresh_bev _ Ok).
  - rewrite (k_session _ _ K). apply (ok_session _ Ok).
Qed.

Lemma mux_ok_windows w : mux_ok w → windows_ok w.
Proof. intros Ok. split; [apply (ok_main _ Ok)|]. intros p pc E. apply (ok_pc _ Ok _ _ E). Qed.

(** A pair of states as an operation that only updates sees them. *)
Definition stays (w w' : world) : Prop := keeps w w' ∧ (windows_ok w → windows_ok w').

#[global] Instance stays_preorder : PreOrder stays.
Proof.
  split; [by split|]. intros x y z [K1 W1] [K2 W2]. split; [by etransitivity|auto].
Qed.

Lemma mux_ok_stays w w' : mux_ok w → stays w w' → mux_ok w'.
Proof. intros Ok [K W]. eapply mux_ok_keeps; eauto using mux_ok_windows. Qed.

(** ** Elementary updates *)

Lemma stays_tick w n : stays w (set_w_tick n w).
Proof. split; [by constructor|done]. Qed.

Lemma stays_cache w n : stays w (set_w_mux_cached n w).
Proof. split; [by constructor|done]. Qed.

Lemma stays_remote w n : stays w (set_w_remote_go_away n w).
Proof. split; [by constructor|done]. Qed.

Lemma stays_bev w b x y :
  w_bevs w !! b = Some x → stays w (set_w_bevs (<[b := y]> (w_bevs w)) w).
Proof.
  intros E. split; [|done]. constructor; try done; simpl.
  intros c. destruct (decide (b = c)) as [<-|Hn].
  - rewrite lookup_insert_eq, E. split; eauto.
  - by rewrite lookup_insert_ne.
Qed.

(** Changing a client's stream in place. *)
Lemma stays_pc_stream w p pc s :
  w_pcs w !! p = Some pc → s_id s = s_id (pc_stream pc) →
  (stream_ok (pc_stream pc) → stream_ok s) →
  stays w (set_w_pcs (<[p := set_pc_stream s pc]> (w_pcs w)) w).
Proof.
  intros E Hid Hok. split.
  - constructor; try done; simpl.
    + intros q. destruct (decide (p = q)) as [<-|Hn].
      * by rewrite lookup_insert_eq, E.
      * by rewrite lookup_insert_ne.
    + intros [|q|]; simpl; try done. destruct (decide (p = q)) as [<-|Hn].
      * rewrite lookup_insert_eq, E. simpl. by rewrite Hid.
      * by rewrite lookup_insert_ne.
  - intros [Wm Wp]. split; [done|]. simpl. intros q x.
    destruct (decide (p = q)) as [<-|Hn].
    + rewrite lookup_insert_eq. intros [= <-]. simpl. eauto.
    + rewrite lookup_insert_ne by done. eauto.
Qed.

Definition with_stream (r : sref) (s : tmux_stream) (w : world) : world :=
  match r with
  | SMain => set_w_main_stream s w
  | SAbandon => set_w_abandon s w
  | SClient p => match w_pcs w !! p with
                 | Some pc => set_w_pcs (<[p := set_pc_stream s pc]> (w_pcs w)) w
                 | None => w
                 end
  end.

Lemma wp_upd_stream r f Q w s :
  lookup_stream w r = Some s → wp (upd_stream r f) Q w ↔ Q () (with_stream r (f s) w).
Proof.
  destruct r as [|p|]; simpl.
  - by intros [= <-].
  - destruct (w_pcs w !! p) as [pc|] eqn:E; [|done]. simpl. intros [= <-].
    by rewrite (wp_upd_pc p _ _ w pc E).
  - by intros [= <-].
Qed.

Lemma lookup_with_stream r s s' w :
  lookup_stream w r = Some s → lookup_stream (with_stream r s' w) r = Some s'.
Proof.
  destruct r as [|p|]; simpl; try done.
  destruct (w_pcs w !! p) as [pc|] eqn:E; [|done]. simpl. by rewrite lookup_insert_eq.
Qed.

Lemma stays_with_stream r s s' w :
  r ≠ SAbandon → lookup_stream w r = Some s → s_id s' = s_id s →
  (stream_ok s → stream_ok s') → stays w (with_stream r s' w).
Proof.
  destruct r as [|p|]; simpl; [| |done].
  - intros _ [= <-] Hid Hok. split.
    + constructor; try done. intros [|q|]; simpl; try done. by rewrite Hid.
    + intros [Wm Wp]. split; simpl; eauto.
  - intros _. destruct (w_pcs w !! p) as [pc|] eqn:E; [|done]. intros [= <-] Hid Hok.
    by apply stays_pc_stream.
Qed.

(** The streams of clients, seen from outside. *)
Lemma stays_lookup w w' r s :
  stays w w' → lookup_stream w r = Some s → ∃ s', lookup_stream w' r = Some s' ∧ s_id s' = s_id s.
Proof.
  intros [K _] E. pose proof (k_ids _ _ K r) as Hi. rewrite E in Hi.
  destruct (lookup_stream w' r) as [s'|]; [|done]. injection Hi as Hi. eauto.
Qed.

Lemma stays_bev_live w w' b :
  stays w w' → is_Some (w_bevs w !! b) → is_Some (w_bevs w' !! b).
Proof. intros [K _]. apply (k_bevs _ _ K). Qed.

Lemma stays_connect w w' b :
  stays w w' → w_connect_bev w = Some b → w_connect_bev w' = Some b.
Proof. intros [K _]. by rewrite (k_connect _ _ K). Qed.

End Inv.

Ltac wp_ust E :=
  wps; match goal with
  | |- wp (upd_stream ?r ?f) ?Q ?w => apply (proj2 (wp_upd_stream r f Q w _ E))
  end; wps.
