(* ===== verification/MuxSafe.v ===== *)
(** * Specifications of the multiplexer's operations

    For every operation of [Mux]: it runs without touching freed memory from
    any well-formed state, and what it does to the stream, the registry and
    the output queue. *)

From S2P Require Import Prelude Endian Evp CryptoStream World Mux MuxInv.

Section Specs.
Context `{Mbedtls}.

Definition out_of (w : world) (b : positive) : option bytes := b_out <$> w_bevs w !! b.

(** [w'] is [w] with [data] appended to the output of [b], and otherwise the
    same streams and outputs. *)
Definition wrote (b : positive) (data : bytes) (w w' : world) : Prop :=
  stays w w' ∧ (∀ r, lookup_stream w' r = lookup_stream w r) ∧ w_pcs w' = w_pcs w ∧
  (∀ c, out_of w' c = if bool_decide (c = b) then (λ o, o ++ data) <$> out_of w c else out_of w c).

Lemma wrote_nil b w w' :
  stays w w' → (∀ r, lookup_stream w' r = lookup_stream w r) → w_pcs w' = w_pcs w →
  (∀ c, out_of w' c = out_of w c) → wrote b [] w w'.
Proof.
  intros S L P O. split_and!; try done. intros c. rewrite O. case_bool_decide; [|done].
  destruct (out_of w c); [|done]. simpl. by rewrite app_nil_r.
Qed.

Lemma wrote_refl b w : wrote b [] w w.
Proof. apply wrote_nil; done. Qed.

Lemma wrote_trans b x y w1 w2 w3 : wrote b x w1 w2 → wrote b y w2 w3 → wrote b (x ++ y) w1 w3.
Proof.
  intros (S1 & L1 & P1 & O1) (S2 & L2 & P2 & O2). split_and!.
  - by etransitivity.
  - intros r. by rewrite L2.
  - congruence.
  - intros c. rewrite O2, O1. case_bool_decide; [|done].
    destruct (out_of w1 c); [|done]. simpl. by rewrite app_assoc.
Qed.

Lemma wrote_stays b x w w' : wrote b x w w' → stays w w'.
Proof. by intros (? & _). Qed.

Lemma wp_output_add b data w :
  is_Some (w_bevs w !! b) →
  wp (output_add b data) (λ rc w', (rc = 0 ∧ wrote b data w w') ∨ (rc = -1 ∧ wrote b [] w w')) w.
Proof.
  intros [x E]. unfold output_add. wps. rewrite (wp_get_bev b _ w x E). wps.
  destruct (e_ok (w_env w) (w_tick w)); wps.
  - left. split; [done|]. split; [|split; [done|split; [done|]]].
    + etransitivity; [apply stays_tick|]. by apply (stays_bev _ b x).
    + intros c. unfold out_of; simpl. case_bool_decide as Hc.
      * subst. by rewrite lookup_insert_eq, E.
      * by rewrite lookup_insert_ne.
  - right. split; [done|]. by apply wrote_nil.
Qed.

(** Bytes on the wire for a control frame; nothing when the queue could not
    grow or there is no connection. *)
Definition sent_frame (bout : option positive) (h : tcp_mux_header) (w w' : world) : Prop :=
  match bout with
  | None => stays w w' ∧ ∀ r, lookup_stream w' r = lookup_stream w r
  | Some b => wrote b (hdr_bytes h) w w' ∨ wrote b [] w w'
  end.

Lemma sent_frame_stays bout h w w' : sent_frame bout h w w' → stays w w'.
Proof. destruct bout; simpl; [intros [?|?]; by eapply wrote_stays|by intros [? _]]. Qed.

Lemma sent_frame_streams bout h w w' r :
  sent_frame bout h w w' → lookup_stream w' r = lookup_stream w r.
Proof. destruct bout; simpl; [by intros [(?&?&?)|(?&?&?)]|by intros [_ ?]]. Qed.

Definition bev_live (w : world) (bout : option positive) : Prop :=
  ∀ b, bout = Some b → is_Some (w_bevs w !! b).

Lemma bev_live_stays w w' bout : stays w w' → bev_live w bout → bev_live w' bout.
Proof. intros S L b E. eapply stays_bev_live; eauto. Qed.

Lemma wp_send_win_update bout flags id delta w :
  bev_live w bout →
  wp (tcp_mux_send_win_update bout flags id delta)
     (λ _ w', sent_frame bout (tcp_mux_encode WINDOW_UPDATE flags id delta) w w') w.
Proof.
  intros L. unfold tcp_mux_send_win_update. destruct bout as [b|]; simpl; wps; [|done].
  eapply wp_mono; [by apply wp_output_add, L|]. intros rc w' [[_ ?]|[_ ?]]; wps; auto.
Qed.

Lemma wp_tcp_mux_flag w :
  wp tcp_mux_flag (λ _ w', stays w w' ∧ (∀ r, lookup_stream w' r = lookup_stream w r)
                           ∧ w_pcs w' = w_pcs w ∧ ∀ c, out_of w' c = out_of w c) w.
Proof.
  unfold tcp_mux_flag. wps. case_if; wps; [done|]. by split_and!.
Qed.

Lemma wp_if_mux bout h (m : M ()) w :
  (∀ w', stays w w' → wp m (λ _ w'', sent_frame bout h w' w'') w') →
  bev_live w bout →
  wp (if_mux m) (λ _ w', sent_frame bout h w w') w.
Proof.
  intros Hm L. unfold if_mux. eapply wp_seq; [apply wp_tcp_mux_flag|].
  intros f w1 (S & Hl & Hp & Ho). case_if; wps.
  - destruct bout; simpl; [right; by apply wrote_nil|done].
  - eapply wp_mono; [by apply Hm|]. intros u w2. destruct bout as [b|]; simpl.
    + intros [Hw|Hw]; [left|right]; eapply (wrote_trans b []); eauto using wrote_nil.
    + intros [S2 Hl2]. split; [by etransitivity|]. intros r. by rewrite Hl2.
Qed.

Lemma wp_send_win_update_rst bout id w :
  bev_live w bout →
  wp (tcp_mux_send_win_update_rst bout id)
     (λ _ w', sent_frame bout (tcp_mux_encode WINDOW_UPDATE RST id 0) w w') w.
Proof.
  intros L. apply wp_if_mux; [|done]. intros w' S. apply wp_send_win_update.
  by eapply bev_live_stays.
Qed.

Lemma wp_send_header bout type flags id len w :
  bev_live w bout →
  wp (send_header bout type flags id len)
     (λ _ w', sent_frame bout (tcp_mux_encode type flags id len) w w') w.
Proof.
  intros L. apply wp_if_mux; [|done]. intros w' S. destruct bout as [b|]; simpl; wps; [|done].
  eapply wp_mono; [apply wp_output_add; eapply bev_live_stays; eauto|].
  intros rc w2 [[_ ?]|[_ ?]]; wps; auto.
Qed.

(** ** Stream state changes *)

(** Only the state field of [r] differs. *)
Definition state_set (r : sref) (st : tcp_mux_state) (s : tmux_stream) (w w' : world) : Prop :=
  stays w w' ∧ lookup_stream w' r = Some (set_s_state st s) ∧ (∀ b, out_of w' b = out_of w b).

Lemma out_of_with_stream r s w b : out_of (with_stream r s w) b = out_of w b.
Proof. destruct r as [|p|]; simpl; try done. by destruct (w_pcs w !! p). Qed.

Lemma state_set_with r st s w :
  r ≠ SAbandon → lookup_stream w r = Some s →
  state_set r st s w (with_stream r (set_s_state st s) w).
Proof.
  intros Hr E. split_and!.
  - eapply stays_with_stream; eauto.
  - by eapply lookup_with_stream.
  - intros b. apply out_of_with_stream.
Qed.

Definition flags_to_send (st : tcp_mux_state) : Z :=
  match st with TMUX_INIT => SYN | TMUX_SYN_RECEIVED => ACK | _ => ZERO end.
Definition state_after_send (st : tcp_mux_state) : tcp_mux_state :=
  match st with TMUX_INIT => TMUX_SYN_SEND | TMUX_SYN_RECEIVED => TMUX_ESTABLISHED | _ => st end.

Lemma set_s_state_same s : set_s_state (s_state s) s = s.
Proof. by destruct s. Qed.

Lemma wp_get_send_flags r s w :
  r ≠ SAbandon → lookup_stream w r = Some s →
  wp (get_send_flags r)
     (λ f w', f = flags_to_send (s_state s) ∧ state_set r (state_after_send (s_state s)) s w w') w.
Proof.
  intros Hr E. unfold get_send_flags. wp_st E.
  pose proof (state_set_with r (state_after_send (s_state s)) s w Hr E) as Hs.
  destruct (s_state s) eqn:Est; simpl in *; wps; try (rewrite (wp_upd_stream r _ _ w s E));
    try done; split; try done; split_and!; try done; rewrite E; f_equal; rewrite <- Est;
    by rewrite set_s_state_same.
Qed.

Lemma wp_send_window_update bout r s length w :
  r ≠ SAbandon → lookup_stream w r = Some s → bev_live w bout →
  wp (send_window_update bout r length)
     (λ _ w', stays w w' ∧ ∃ s', lookup_stream w' r = Some s' ∧
        s_recv_window s' = (if length =? 0 then s_recv_window s
                            else Z.max MAX_STREAM_WINDOW_SIZE (s_recv_window s)) ∧
        s_send_window s' = s_send_window s) w.
Proof.
  intros Hr E L. unfold send_window_update. destruct (length =? 0) eqn:El; b2p.
  - eapply wp_seq; [by apply wp_get_send_flags|].
    intros f w1 (-> & S1 & E1 & _). case_if.
    + wp_st E1. eapply wp_mono.
      { apply wp_send_win_update. by eapply bev_live_stays. }
      intros u2 w2 Hf. split; [etransitivity; [done|exact (sent_frame_stays _ _ _ _ Hf)]|].
      rewrite (sent_frame_streams _ _ _ _ r Hf), E1. by eexists.
    + wps. split; [done|]. by eexists.
  - wp_st E.
    destruct (s_recv_window s <? MAX_STREAM_WINDOW_SIZE) eqn:Ew; b2p; case_if; try lia; wps.
    + eapply wp_mono; [by apply wp_get_send_flags|].
      intros f w1 (-> & S1 & E1 & _). wps. wp_ust E1.
      set (s2 := set_s_recv_window _ _).
      assert (stays w1 (with_stream r s2 w1)) as S2.
      { eapply stays_with_stream; [done|exact E1|done|]. unfold stream_ok, s2; simpl.
        unfold MAX_STREAM_WINDOW_SIZE. lia. }
      eapply wp_mono.
      { apply wp_send_win_update. eapply bev_live_stays; [exact S2|]. by eapply bev_live_stays. }
      intros u3 w3 Hf. split.
      { etransitivity; [exact S1|]. etransitivity; [exact S2|]. exact (sent_frame_stays _ _ _ _ Hf). }
      rewrite (sent_frame_streams _ _ _ _ r Hf).
      exists s2. split; [by eapply lookup_with_stream|]. unfold s2; simpl. split; [lia|done].
    + split; [done|]. exists s. split; [done|]. split; [lia|done].
Qed.

(** ** Deleting a client *)

(** What is gone after [del_proxy_client_by_stream_id]. *)
Record deleted (sid : Z) (w w' : world) : Prop := {
  d_ok : mux_ok w';
  d_all_stream : w_all_stream w' = delete sid (w_all_stream w);
  d_all_pc : w_all_pc w' = delete sid (w_all_pc w);
  d_connect : w_connect_bev w' = w_connect_bev w;
  d_main : w_main_stream w' = w_main_stream w;
  d_cur : w_cur w' = w_cur w;
  d_pcs : ∀ p pc, w_pcs w' !! p = Some pc → w_pcs w !! p = Some pc;
  d_gone : ∀ p, w_all_pc w !! sid = Some p → w_pcs w' !! p = None;
  d_out : ∀ b, w_connect_bev w = Some b → w_bevs w' !! b = w_bevs w !! b;
}.

Lemma mux_ok_del_stream_only w sid :
  mux_ok w → w_all_pc w !! sid = None →
  deleted sid w (set_w_all_stream (delete sid (w_all_stream w)) w).
Proof.
  intros Ok Hn. constructor; try done; simpl.
  - constructor; simpl.
    + intros p pc E. destruct (ok_pc _ Ok _ _ E). by constructor.
    + apply (ok_inj _ Ok).
    + intros id p Hin. destruct (ok_all_pc _ Ok _ _ Hin) as (Hs & Hp).
      split; [|done]. rewrite lookup_delete_ne; [done|]. congruence.
    + intros id r Hin. apply lookup_delete_Some in Hin as [_ Hin]. by apply (ok_all_stream _ Ok).
    + apply (ok_main _ Ok).
    + apply (ok_connect _ Ok).
    + apply (ok_fresh_pc _ Ok).
    + apply (ok_fresh_bev _ Ok).
    + apply (ok_session _ Ok).
  - symmetry. by apply delete_id.
  - by rewrite Hn.
Qed.

(** The state once the client [p] of [sid] is unlinked and freed. *)
Definition without_pc (sid : Z) (p : positive) (pc : proxy_client) (w : world) : world :=
  set_w_pcs (delete p (w_pcs w))
    (set_w_bevs (match pc_local_bev pc with Some b => delete b (w_bevs w) | None => w_bevs w end)
      (set_w_all_pc (delete sid (w_all_pc w))
        (set_w_all_stream (delete sid (w_all_stream w)) w))).

Lemma without_pc_ok w sid p pc :
  mux_ok w → w_all_pc w !! sid = Some p → w_pcs w !! p = Some pc → pc_stream_id pc = sid →
  deleted sid w (without_pc sid p pc w).
Proof.
  intros Ok Hin Ep Hid. pose proof (ok_pc _ Ok _ _ Ep) as Hpc.
  assert (∀ b, is_Some (w_bevs w !! b) → pc_local_bev pc ≠ Some b →
    w_bevs (without_pc sid p pc w) !! b = w_bevs w !! b) as Hkeep.
  { intros b _ Hne. simpl. destruct (pc_local_bev pc) as [c|]; [|done].
    apply lookup_delete_ne. congruence. }
  assert (∀ b x, w_bevs (without_pc sid p pc w) !! b = Some x → w_bevs w !! b = Some x) as Hsub.
  { intros b x. simpl. destruct (pc_local_bev pc); [|done]. by intros [_ ?]%lookup_delete_Some. }
  assert (∀ b, w_connect_bev w = Some b →
    w_bevs (without_pc sid p pc w) !! b = w_bevs w !! b) as Hconn.
  { intros b Hb. apply Hkeep; [by apply (ok_connect _ Ok)|]. intros Hl.
    by destruct (pc_ok_local _ _ _ Hpc _ Hl). }
  constructor; try done.
  - constructor.
    + simpl. intros q x [Hne E]%lookup_delete_Some. destruct (ok_pc _ Ok _ _ E) as [? ? Ht ? Hl].
      constructor; simpl; try done.
      * rewrite lookup_delete_ne; [done|]. intros ->. congruence.
      * intros b Hb. destruct (Hl b Hb) as [Hlv ?]. split; [|done].
        assert (w_bevs (without_pc sid p pc w) !! b = w_bevs w !! b) as Hk.
        { apply Hkeep; [done|]. intros Hb2. apply Hne. symmetry. by eapply (ok_inj _ Ok). }
        simpl in Hk. by rewrite Hk.
    + simpl. intros q1 q2 x y b [_ E1]%lookup_delete_Some [_ E2]%lookup_delete_Some.
      by eapply (ok_inj _ Ok).
    + simpl. intros id q [Hne E]%lookup_delete_Some.
      destruct (ok_all_pc _ Ok _ _ E) as (Hs & x & Ex & Hx). split.
      * by rewrite lookup_delete_ne.
      * exists x. split; [|done]. rewrite lookup_delete_ne; [done|]. intros ->.
        apply Hne. congruence.
    + simpl. intros id r [Hne E]%lookup_delete_Some. destruct (ok_all_stream _ Ok _ _ E) as [Hr Hc].
      split; [done|]. destruct Hc as [?|(q & -> & Hq)]; [by left|]. right. exists q.
      by rewrite lookup_delete_ne.
    + apply (ok_main _ Ok).
    + intros b Hb. rewrite (Hconn b Hb). by apply (ok_connect _ Ok).
    + simpl. intros q x [_ E]%lookup_delete_Some. by eapply (ok_fresh_pc _ Ok).
    + intros q x E. apply Hsub in E. by eapply (ok_fresh_bev _ Ok).
    + apply (ok_session _ Ok).
  - simpl. by intros q x [_ ?]%lookup_delete_Some.
  - intros q Hq. assert (q = p) as -> by congruence. simpl. apply lookup_delete_eq.
Qed.

Lemma wp_del_proxy_client_by_stream_id sid w :
  mux_ok w → sid ≠ 0 → wp (del_proxy_client_by_stream_id sid) (λ _ w', deleted sid w w') w.
Proof.
  intros Ok Hsid. unfold del_proxy_client_by_stream_id, get_proxy_client, del_stream.
  rewrite (proj2 (Z.eqb_neq _ _) Hsid). wps. simpl.
  destruct (w_all_pc w !! sid) as [p|] eqn:Hin; wps; [|by apply mux_ok_del_stream_only].
  destruct (ok_all_pc _ Ok _ _ Hin) as (_ & pc & Ep & Hid).
  unfold del_proxy_client. wp_pc Ep. simpl.
  rewrite bool_decide_false by (intros E; by rewrite E in Hin). wps.
  unfold free_proxy_client. wp_pc Ep.
  pose proof (without_pc_ok w sid p pc Ok Hin Ep Hid) as Hd. rewrite Hid.
  destruct (pc_local_bev pc) as [b|] eqn:El; wps.
  - destruct (pc_ok_local _ _ _ (ok_pc _ Ok _ _ Ep) b El) as [[x Ex] _].
    unfold bufferevent_free. wp_bev Ex.
    unfold without_pc in Hd. rewrite El in Hd. exact Hd.
  - unfold without_pc in Hd. rewrite El in Hd. exact Hd.
Qed.

(** ** Registered streams *)

Definition registered (w : world) (r : sref) (s : tmux_stream) : Prop :=
  w_all_stream w !! s_id s = Some r ∧ lookup_stream w r = Some s.

Lemma registered_by_id w id r :
  mux_ok w → w_all_stream w !! id = Some r → ∃ s, registered w r s ∧ s_id s = id.
Proof.
  intros Ok Hin. destruct (ok_all_stream _ Ok _ _ Hin) as [_ [[-> Hid]|(p & -> & Hp)]].
  - exists (w_main_stream w). by rewrite <- Hid in Hin.
  - destruct (ok_all_pc _ Ok _ _ Hp) as (_ & pc & Ep & Hpid).
    pose proof (pc_ok_id _ _ _ (ok_pc _ Ok _ _ Ep)) as Hs. exists (pc_stream pc).
    split; [|congruence]. split; [by rewrite Hs, Hpid|]. simpl. by rewrite Ep.
Qed.

Lemma registered_main_or_client w r s :
  mux_ok w → registered w r s → r ≠ SAbandon ∧ s_id s ≠ 0.
Proof.
  intros Ok [Hin _]. destruct (ok_all_stream _ Ok _ _ Hin) as [Hr [[-> _]|(p & -> & _)]];
    (split; [done|lia]).
Qed.

Lemma registered_stays w w' r s s' :
  stays w w' → registered w r s → lookup_stream w' r = Some s' → registered w' r s'.
Proof.
  intros S [Hin E] E'. split; [|done]. destruct (stays_lookup _ _ _ _ S E) as (s2 & E2 & Hid).
  assert (s2 = s') as -> by congruence. rewrite Hid. destruct S as [K _].
  by rewrite (k_all_stream _ _ K).
Qed.

Lemma registered_stream_ok w r s : mux_ok w → registered w r s → stream_ok s.
Proof.
  intros Ok [Hin E]. destruct (mux_ok_windows _ Ok) as [Wm Wp].
  destruct (ok_all_stream _ Ok _ _ Hin) as [_ [[-> _]|(p & -> & _)]]; simpl in E.
  - by injection E as <-.
  - destruct (w_pcs w !! p) as [pc|] eqn:Ep; [|done]. injection E as <-. eauto.
Qed.

Lemma connect_live w : mux_ok w → bev_live w (w_connect_bev w).
Proof. intros Ok b Hb. by apply (ok_connect _ Ok). Qed.

(** ** Received flags *)

Definition after_flags (r : sref) (s : tmux_stream) (flags : Z) (ok : bool) (w w' : world) : Prop :=
  match flags_next flags (s_state s) with
  | None => ok = false ∧ w' = w
  | Some (st, false, _) => ok = true ∧ state_set r st s w w'
  | Some (st, true, _) => ok = true ∧ ∃ w1, state_set r st s w w1 ∧ deleted (s_id s) w1 w'
  end.

Lemma wp_process_flags flags r s w :
  mux_ok w → registered w r s →
  wp (process_flags flags r) (λ ok w', mux_ok w' ∧ after_flags r s flags ok w w') w.
Proof.
  intros Ok Hreg. destruct (registered_main_or_client _ _ _ Ok Hreg) as [Hr Hid].
  pose proof Hreg as [_ E]. unfold process_flags, after_flags. wp_st E.
  destruct (flags_next flags (s_state s)) as [[[st close] early]|]; wps; [|done].
  wp_ust E. set (w1 := with_stream r _ w).
  pose proof (state_set_with r st s w Hr E) as Hs. fold w1 in Hs.
  assert (mux_ok w1) as Ok1 by (destruct Hs; by eapply mux_ok_stays).
  destruct close; wps; [|done].
  eapply wp_mono; [by apply wp_del_proxy_client_by_stream_id|].
  intros u w2 Hd. wps. split; [apply Hd|]. eauto.
Qed.

(** ** Closing *)

Lemma wp_tmux_stream_close bout r s w :
  mux_ok w → registered w r s → bev_live w bout →
  wp (tmux_stream_close bout r) (λ rc w', mux_ok w' ∧ w_connect_bev w' = w_connect_bev w ∧
     match close_next (s_state s) with
     | None => rc = 0 ∧ w' = w
     | Some (st, false) => rc = 1 ∧ stays w w' ∧ lookup_stream w' r = Some (set_s_state st s)
     | Some (st, true) => rc = 0 ∧ w_all_stream w' !! s_id s = None
     end) w.
Proof.
  intros Ok Hreg L. destruct (registered_main_or_client _ _ _ Ok Hreg) as [Hr Hid].
  pose proof Hreg as [_ E]. unfold tmux_stream_close. wp_st E.
  destruct (close_next (s_state s)) as [[st close]|] eqn:Ec; wps; [|done].
  wp_ust E.
  destruct (state_set_with r st s w Hr E) as (S1 & E1 & _). set (w1 := with_stream r _ w) in *.
  eapply wp_mono; [by apply (wp_get_send_flags r _ w1 Hr E1)|].
  intros f w2 (_ & S2 & E2 & _). wps.
  assert (state_after_send st = st) as Hst.
  { revert Ec. destruct (s_state s); simpl; intros [= <- <-]; done. }
  simpl in E2. rewrite Hst in E2.
  eapply wp_mono.
  { apply wp_send_win_update. eapply bev_live_stays; [exact S2|]. by eapply bev_live_stays. }
  intros u w3 Hf. pose proof (sent_frame_streams _ _ _ _ r Hf) as E3. rewrite E2 in E3.
  assert (stays w w3) as S3.
  { etransitivity; [exact S1|]. etransitivity; [exact S2|exact (sent_frame_stays _ _ _ _ Hf)]. }
  assert (mux_ok w3) as Ok3 by by eapply mux_ok_stays.
  destruct close; simpl; wps.
  - eapply wp_mono; [by apply wp_del_proxy_client_by_stream_id|].
    intros u4 w4 Hd. wps. split_and!; [apply Hd| |done|].
    + rewrite (d_connect _ _ _ Hd). apply S3.
    + rewrite (d_all_stream _ _ _ Hd). apply lookup_delete_eq.
  - split; [done|]. split; [apply S3|]. split; [done|]. split; [done|]. by destruct s.
Qed.

(** ** Window updates *)

Lemma window_after_range window increment :
  0 ≤ window ≤ MAX_YAMUX_WINDOW_SIZE → 0 ≤ increment →
  0 ≤ window_after window increment ≤ MAX_YAMUX_WINDOW_SIZE ∧
  window_after window increment ≤ window + increment.
Proof.
  unfold window_after, MAX_YAMUX_WINDOW_SIZE, MAX_STREAM_WINDOW_SIZE. intros.
  destruct (Z.ltb_spec (8 * 1024 * 1024 - increment) window);
    match goal with |- context [?a <? ?b] => destruct (Z.ltb_spec a b) end; lia.
Qed.

(** The send window of stream [id] after an update grew by at most [inc]. *)
Definition grew_by (r : sref) (s : tmux_stream) (inc : Z) (w' : world) : Prop :=
  ∀ r' s', registered w' r' s' → s_id s' = s_id s →
    r' = r ∧ s_send_window s' ≤ s_send_window s + inc.

Lemma grew_by_registered r s s' inc w' :
  registered w' r s' → s_id s' = s_id s → s_send_window s' ≤ s_send_window s + inc →
  grew_by r s inc w'.
Proof.
  intros [Hin E] Hid Hle r2 s2 [Hin2 E2] Hid2.
  assert (r2 = r) as -> by congruence. assert (s2 = s') as -> by congruence. done.
Qed.

Lemma grew_by_gone r s inc w' : w_all_stream w' !! s_id s = None → grew_by r s inc w'.
Proof. intros E r2 s2 [Hin _] Hid. rewrite Hid in Hin. congruence. Qed.

(** What a successful flag check leaves of the stream. *)
Lemma after_flags_true r s flags w w1 :
  registered w r s → after_flags r s flags true w w1 →
  w_connect_bev w1 = w_connect_bev w ∧
  (w_all_stream w1 !! s_id s = None ∨
   ∃ s1, registered w1 r s1 ∧ s_id s1 = s_id s ∧ s_send_window s1 = s_send_window s ∧
         s_recv_window s1 = s_recv_window s ∧ stays w w1).
Proof.
  intros Hreg Hf. unfold after_flags in Hf.
  destruct (flags_next flags (s_state s)) as [[[st []] early]|].
  - destruct Hf as (_ & w2 & ([K _] & _) & Hd). split.
    + by rewrite (d_connect _ _ _ Hd), (k_connect _ _ K).
    + left. rewrite (d_all_stream _ _ _ Hd). apply lookup_delete_eq.
  - destruct Hf as (_ & S & El & _). split; [apply S|]. right. exists (set_s_state st s).
    split; [by eapply registered_stays|]. done.
  - by destruct Hf as [? _].
Qed.

(** The tail of [incr_send_window] once the new window is stored. *)
Lemma incr_tail_ok r s s2 inc (old : Z) w2 (Ok2 : mux_ok w2) (Hreg2 : registered w2 r s2) :
  s_id s2 = s_id s → s_id s ≠ 0 → s_send_window s2 ≤ s_send_window s + inc →
  wp (pc <- get_proxy_client (s_id s) ;;
      match pc with
      | None => ret true
      | Some p =>
          x <- get_pc p ;;
          if pc_pending_close x then
            bout <- gets w_connect_bev ;;
            match bout with
            | Some _ => tmux_stream_close bout r ;; ret true
            | None => ret true
            end
          else
            match pc_local_bev x with
            | Some lb =>
                if (old =? 0) && (0 <? s_send_window s2)
                then bufferevent_enable lb true false ;; ret true
                else ret true
            | None => ret true
            end
      end)
    (λ _ w', mux_ok w' ∧ w_connect_bev w' = w_connect_bev w2 ∧ grew_by r s inc w') w2.
Proof.
  intros Hid Hid0 Hle. pose proof Hreg2 as [_ El2].
  assert (grew_by r s inc w2) as Hg by by eapply grew_by_registered.
  unfold get_proxy_client. rewrite (proj2 (Z.eqb_neq _ _) Hid0). wps.
  destruct (w_all_pc w2 !! s_id s) as [p|] eqn:Hp; wps; [|done].
  destruct (ok_all_pc _ Ok2 _ _ Hp) as (_ & pc & Ep & _). wp_pc Ep.
  destruct (pc_pending_close pc); wps.
  - destruct (w_connect_bev w2) as [bc|] eqn:Hbc; wps; [|done].
    eapply wp_mono.
    { apply (wp_tmux_stream_close _ _ _ _ Ok2 Hreg2). rewrite <- Hbc. by apply connect_live. }
    intros rc w3 (Ok3 & Hc3 & Hcase). wps. split; [done|]. split; [congruence|].
    destruct (close_next (s_state s2)) as [[st []]|].
    + apply grew_by_gone. rewrite <- Hid. apply Hcase.
    + destruct Hcase as (_ & S3 & El3). pose proof (registered_stays _ _ _ _ _ S3 Hreg2 El3).
      by eapply grew_by_registered.
    + destruct Hcase as [_ ->]. done.
  - destruct (pc_local_bev pc) as [lb|] eqn:Hlb; wps; [|done].
    case_if; wps; [|done]. unfold bufferevent_enable.
    destruct (pc_ok_local _ _ _ (ok_pc _ Ok2 _ _ Ep) lb Hlb) as [[x Ex] _]. wp_bev Ex.
    match goal with |- mux_ok ?w3 ∧ _ =>
      assert (stays w2 w3) as S3 by by apply (stays_bev _ lb x) end.
    split; [by eapply mux_ok_stays|]. split; [done|].
    pose proof (registered_stays _ _ _ _ s2 S3 Hreg2 El2). by eapply grew_by_registered.
Qed.

Lemma wp_incr_send_window bout h flags r s w :
  mux_ok w → registered w r s → bev_live w bout →
  wp (incr_send_window bout h flags r)
     (λ _ w', mux_ok w' ∧ w_connect_bev w' = w_connect_bev w ∧
              grew_by r s (ntohl (hdr_length h)) w') w.
Proof.
  intros Ok Hreg L. pose proof Hreg as [_ E]. pose proof (ntohl_range (hdr_length h)) as Hinc.
  assert (grew_by r s (ntohl (hdr_length h)) w) as Hsame.
  { eapply grew_by_registered; [done|done|lia]. }
  unfold incr_send_window. destruct bout as [b|]; wps; [|auto]. wp_st E.
  eapply wp_mono; [by apply wp_process_flags|]. intros ok w1 [Ok1 Hf]. wps.
  destruct ok; simpl; wps; cycle 1.
  { unfold after_flags in Hf. destruct (flags_next _ _) as [[[st []] ?]|]; destruct Hf as [? Hf]; try done.
    subst w1. auto. }
  destruct (after_flags_true _ _ _ _ _ Hreg Hf) as [Hcon Hcase].
  unfold get_stream_by_id. wps.
  destruct (w_all_stream w1 !! s_id s) as [r1|] eqn:E1; wps;
    [|split_and!; [done|done|by apply grew_by_gone]].
  destruct Hcase as [?|(s1 & Hreg1 & Hid1 & Hw1 & _ & _)]; [congruence|]. pose proof Hreg1 as [_ El1].
  case_if; wps.
  { split_and!; [done|done|]. eapply grew_by_registered; [done|done|lia]. }
  wp_st El1. wp_ust El1.
  destruct (registered_main_or_client _ _ _ Ok1 Hreg1) as [Hr _].
  destruct (registered_main_or_client _ _ _ Ok Hreg) as [_ Hid0].
  set (win := window_after (s_send_window s1) (ntohl (hdr_length h))).
  set (s2 := set_s_send_window win s1). set (w2 := with_stream r s2 w1).
  destruct (window_after_range (s_send_window s1) (ntohl (hdr_length h))) as [Hwr Hwl];
    [by apply (registered_stream_ok _ _ _ Ok1 Hreg1)|lia|].
  assert (stays w1 w2) as S2.
  { eapply stays_with_stream; [done|exact El1|done|]. by intros [? _]. }
  assert (mux_ok w2) as Ok2 by by eapply mux_ok_stays.
  assert (lookup_stream w2 r = Some s2) as El2 by by eapply lookup_with_stream.
  assert (registered w2 r s2) as Hreg2 by by eapply registered_stays.
  assert (w_connect_bev w2 = w_connect_bev w) as Hcon2.
  { destruct S2 as [K _]. by rewrite (k_connect _ _ K). }
  case_if.
  { wps. split_and!; [done|done|]. eapply grew_by_registered; [done|done|simpl; lia]. }
  eapply wp_mono.
  { apply (incr_tail_ok r s s2 (ntohl (hdr_length h)) (s_send_window s1) w2 Ok2 Hreg2); try done.
    simpl. lia. }
  intros ok w3 (Ok3 & Hc3 & Hg3). split_and!; [done|congruence|done].
Qed.

(** ** Frames without payload *)

Lemma mux_ok_sent bout h w w' : mux_ok w → sent_frame bout h w w' → mux_ok w'.
Proof. intros Ok Hf. eapply mux_ok_stays; [done|exact (sent_frame_stays _ _ _ _ Hf)]. Qed.

Lemma wp_handle_tcp_mux_stream h w :
  mux_ok w → wp (handle_tcp_mux_stream h) (λ _ w', mux_ok w') w.
Proof.
  intros Ok. unfold handle_tcp_mux_stream, incoming_stream, get_stream_by_id. case_if; wps.
  - destruct (w_local_go_away w); wps; [|done].
    eapply wp_mono; [apply wp_send_win_update_rst, connect_live, Ok|].
    intros u w' Hf. wps. exact (mux_ok_sent _ _ _ _ Ok Hf).
  - destruct (w_all_stream w !! _) as [r|] eqn:Hin; wps; [|done].
    destruct (registered_by_id _ _ _ Ok Hin) as (s & Hreg & _). case_if; wps; [|done].
    eapply wp_mono; [apply (wp_incr_send_window _ _ _ _ _ _ Ok Hreg); by apply connect_live|].
    intros ok w1 (Ok1 & Hcb & _). destruct ok; wps; [done|]. unfold tcp_mux_send_go_away.
    eapply wp_mono.
    { apply wp_send_header. rewrite <- Hcb. by apply connect_live. }
    intros u w' Hf. exact (mux_ok_sent _ _ _ _ Ok1 Hf).
Qed.

Lemma wp_handle_tcp_mux_ping h w :
  mux_ok w → wp (handle_tcp_mux_ping h) (λ _ w', mux_ok w') w.
Proof.
  intros Ok. unfold handle_tcp_mux_ping. case_if; wps; [|done].
  destruct (w_connect_bev w) as [b|] eqn:Hb; wps; [|done]. unfold tcp_mux_handle_ping.
  eapply wp_mono; [apply wp_send_header; rewrite <- Hb; by apply connect_live|].
  intros u w' Hf. exact (mux_ok_sent _ _ _ _ Ok Hf).
Qed.

Lemma wp_handle_tcp_mux_go_away h w :
  mux_ok w → wp (handle_tcp_mux_go_away h) (λ _ w', mux_ok w') w.
Proof.
  intros Ok. unfold handle_tcp_mux_go_away. case_if; wps; [|done].
  eapply mux_ok_stays; [exact Ok|apply stays_remote].
Qed.

End Specs.
