(* ===== verification/MuxThm.v ===== *)
(** * Theorems about the multiplexer

    The functional contract of [tmux_stream_write], flow control over any
    sequence of writes and window updates, the stream state machine, session
    ids and client creation, and memory safety of every frame without
    payload. *)

From S2P Require Import Prelude Endian Evp CryptoStream World Mux MuxInv MuxSafe.

Section Write.
Context `{Mbedtls}.

(** The connection a write goes to. *)
Definition write_target (w : world) (bev : option positive) : option positive :=
  match bev with Some b => Some b | None => w_connect_bev w end.

Definition frame_len (src : bytes) (s : tmux_stream) : Z :=
  Z.min (zlen src) (Z.min (s_send_window s) DEFAULT_MAX_FRAME_SIZE).

Definition data_hdr (s : tmux_stream) (n : Z) : bytes :=
  hdr_bytes (tcp_mux_encode TMUX_DATA (flags_to_send (s_state s)) (s_id s) n).
Definition data_frame (s : tmux_stream) (n : Z) (src : bytes) : bytes :=
  data_hdr s n ++ ztake n src.

(** The stream after sending [n] bytes. *)
Definition stream_sent (s : tmux_stream) (n : Z) : tmux_stream :=
  set_s_send_window (s_send_window s - n) (set_s_state (state_after_send (s_state s)) s).

(** [w'] is reached from [w] by asking the environment [n] times. *)
Definition asked (n : nat) (w w' : world) : Prop := w_env w' = w_env w ∧ w_tick w' = (w_tick w + n)%nat.

(** Why an output queue did not take a frame, and what is queued then: there is
    no connection, the queue could not take the header, or it took the header
    and not the payload. *)
Inductive output_refused (src : bytes) (s : tmux_stream) (w w' : world) : option positive → Prop :=
| no_connection : (∀ c, out_of w' c = out_of w c) → output_refused src s w w' None
| header_refused b :
    e_ok (w_env w) (w_tick w) = false → asked 1 w w' → (∀ c, out_of w' c = out_of w c) →
    output_refused src s w w' (Some b)
| payload_refused b :
    e_ok (w_env w) (w_tick w) = true → e_ok (w_env w) (S (w_tick w)) = false → asked 2 w w' →
    out_of w' b = (λ o, o ++ data_hdr s (frame_len src s)) <$> out_of w b →
    (∀ c, c ≠ b → out_of w' c = out_of w c) → output_refused src s w w' (Some b).

(** The outcomes exclude each other: which one happens is determined by the
    stream's state, the source, the window and the answers of the environment. *)
Inductive write_outcome (bev : option positive) (src : bytes) (r : sref) (s : tmux_stream)
    (w : world) : Z → bytes → world → Prop :=
| write_closed :
    closed_for_writing (s_state s) = true → write_outcome bev src r s w (-1) src w
| write_nothing :
    closed_for_writing (s_state s) = false → src = [] ∨ s_send_window s = 0 →
    write_outcome bev src r s w 0 src w
| write_failed w' :
    closed_for_writing (s_state s) = false → src ≠ [] → s_send_window s ≠ 0 → stays w w' →
    lookup_stream w' r = Some (set_s_state (state_after_send (s_state s)) s) →
    output_refused src s w w' (write_target w bev) →
    write_outcome bev src r s w (-2) src w'
| write_sent b n w' :
    closed_for_writing (s_state s) = false →
    write_target w bev = Some b → n = frame_len src s → 0 < n → stays w w' →
    e_ok (w_env w) (w_tick w) = true → e_ok (w_env w) (S (w_tick w)) = true → asked 2 w w' →
    lookup_stream w' r = Some (stream_sent s n) →
    out_of w' b = (λ o, o ++ data_frame s n src) <$> out_of w b →
    (∀ c, c ≠ b → out_of w' c = out_of w c) →
    write_outcome bev src r s w n (zdrop n src) w'.

Lemma wp_and {A} (m : M A) (Q R : A → world → Prop) w : wp m Q w → wp m R w → wp m (λ a w', Q a w' ∧ R a w') w.
Proof. unfold wp. by destruct (m w) as [[a w']|]. Qed.

(** [output_add] asks once and does what the answer says. *)
Lemma wp_output_add_asks b data w :
  is_Some (w_bevs w !! b) →
  wp (output_add b data) (λ rc w', asked 1 w w' ∧ rc = if e_ok (w_env w) (w_tick w) then 0 else -1) w.
Proof.
  intros [x E]. unfold output_add. wps. rewrite (wp_get_bev b _ w x E). wps. unfold asked.
  destruct (e_ok (w_env w) (w_tick w)); wps; (split; [split; [done|simpl; lia]|done]).
Qed.
Lemma wp_output_add_exact b data w :
  is_Some (w_bevs w !! b) →
  wp (output_add b data) (λ rc w', asked 1 w w' ∧
    if e_ok (w_env w) (w_tick w) then rc = 0 ∧ wrote b data w w' else rc = -1 ∧ wrote b [] w w') w.
Proof.
  intros Hb. eapply wp_mono; [apply wp_and; [by apply (wp_output_add b data)|by apply wp_output_add_asks]|].
  intros rc w' [Hrc [Ha E]]. split; [done|]. destruct (e_ok _ _); destruct Hrc as [[? ?]|[? ?]]; subst; done.
Qed.

Lemma wp_get_send_flags_asks r s w :
  lookup_stream w r = Some s → wp (get_send_flags r) (λ _ w', asked 0 w w') w.
Proof.
  intros E. unfold get_send_flags, asked. wp_st E.
  destruct (s_state s); wps; try (rewrite (wp_upd_stream r _ _ w s E); wps); try (split; [done|lia]);
    destruct r; simpl in *; (split; [|try lia]); repeat case_match; simpl; auto.
Qed.

Lemma asked_with_stream n r s w w' : asked n w w' → asked n w (with_stream r s w').
Proof. intros A. destruct r as [|p|]; simpl; try done. by destruct (w_pcs w' !! p). Qed.
Lemma asked_trans n m w1 w2 w3 : asked n w1 w2 → asked m w2 w3 → asked (n + m) w1 w3.
Proof. unfold asked. intros [E1 T1] [E2 T2]. split; [congruence|lia]. Qed.

Lemma to_send_min src s :
  zlen src < 2 ^ 32 → 0 ≤ s_send_window s → to_send (zlen src) (s_send_window s) = frame_len src s.
Proof.
  intros Hl Hw. unfold to_send, frame_len, DEFAULT_MAX_FRAME_SIZE. pose proof (zlen_nonneg src).
  rewrite u32_small by (change (2 ^ 32) with 4294967296 in Hl; lia).
  destruct (Z.ltb_spec (s_send_window s) (zlen src));
    match goal with |- context [?a <? ?b] => destruct (Z.ltb_spec a b) end; lia.
Qed.

Lemma stays_out_trans w w1 w2 (S1 : stays w w1) (S2 : stays w1 w2) : stays w w2.
Proof. by etransitivity. Qed.

Lemma wp_tmux_stream_write bev src r s w :
  mux_ok w → registered w r s → bev_live w bev → zlen src < 2 ^ 32 →
  wp (tmux_stream_write bev src r)
     (λ res w', write_outcome bev src r s w (fst res) (snd res) w') w.
Proof.
  intros Ok Hreg L Hlen. pose proof Hreg as [_ E].
  destruct (registered_main_or_client _ _ _ Ok Hreg) as [Hr _].
  destruct (registered_stream_ok _ _ _ Ok Hreg) as [_ [Hw0 Hw1]]. pose proof (zlen_nonneg src).
  unfold tmux_stream_write. wp_st E. case_if; wps; [by constructor|]. rename Hc into Hopen.
  case_if; wps; [constructor; [done|left; by apply zlen_0_inv]|].
  case_if; wps; [constructor; [done|by right]|].
  assert (src ≠ []) as Hne by (intros ->; done).
  eapply wp_mono; [apply wp_and; [by apply wp_get_send_flags|by eapply wp_get_send_flags_asks]|].
  intros f w1 [(-> & S1 & E1 & O1) A1]. wps.
  assert (w_connect_bev w1 = w_connect_bev w) as Hcon by apply S1.
  assert (e_ok (w_env w1) (w_tick w1) = e_ok (w_env w) (w_tick w)) as Eok by (destruct A1 as [-> ->]; by rewrite Nat.add_0_r).
  rewrite Hcon. fold (write_target w bev).
  destruct (write_target w bev) as [b|] eqn:Ht; wps.
  2: { constructor; [done..|]. rewrite Ht. by constructor. }
  assert (is_Some (w_bevs w1 !! b)) as Hb.
  { eapply stays_bev_live; [exact S1|]. unfold write_target in Ht. destruct bev as [b'|].
    - apply L. congruence.
    - by apply (ok_connect _ Ok). }
  rewrite to_send_min by done. set (n := frame_len src s).
  assert (0 < n ≤ zlen src ∧ n ≤ s_send_window s ∧ n ≤ DEFAULT_MAX_FRAME_SIZE) as (Hn & Hns & Hnf).
  { unfold n, frame_len, DEFAULT_MAX_FRAME_SIZE. lia. }
  rewrite (proj2 (Z.eqb_neq _ _)) by lia. wps.
  eapply wp_mono; [by apply wp_output_add_exact|]. intros rc w2 [A2 Hrc]. wps. rewrite Eok in Hrc.
  pose proof (asked_trans 0 1 _ _ _ A1 A2) as A12.
  destruct (e_ok (w_env w) (w_tick w)) eqn:K1; destruct Hrc as [-> W2]; simpl; wps; cycle 1.
  { destruct W2 as (S2 & E2 & _ & O2). constructor; [done..|by etransitivity|by rewrite E2|]. rewrite Ht. apply header_refused; [done|done|].
    intros c. rewrite O2, <- O1. case_bool_decide; [|done]. destruct (out_of w1 c); simpl; by rewrite ?app_nil_r. }
  assert (stays w1 w2) as S2 by apply W2.
  eapply wp_mono; [apply wp_output_add_exact; by eapply stays_bev_live|]. intros rc w3 [A3 Hrc]. wps.
  pose proof (asked_trans 1 1 _ _ _ A12 A3) as A13.
  assert (e_ok (w_env w2) (w_tick w2) = e_ok (w_env w) (S (w_tick w))) as Eok2 by (destruct A12 as [-> ->]; f_equal; lia).
  rewrite Eok2 in Hrc. destruct (e_ok (w_env w) (S (w_tick w))) eqn:K2; destruct Hrc as [-> W3]; simpl; wps; cycle 1.
  { pose proof (wrote_trans _ _ _ _ _ _ W2 W3) as (S3 & Hl3 & _ & O3). rewrite app_nil_r in O3.
    constructor; [done..|by etransitivity|by rewrite Hl3|]. rewrite Ht. apply payload_refused; [done..| |].
    - rewrite O3, O1. by rewrite bool_decide_true.
    - intros c Hcb. rewrite O3, O1. by rewrite bool_decide_false. }
  destruct (wrote_trans _ _ _ _ _ _ W2 W3) as (S3 & Hl3 & _ & O3).
  assert (lookup_stream w3 r = Some (set_s_state (state_after_send (s_state s)) s)) as E3.
  { by rewrite Hl3, E1. }
  wp_ust E3.
  assert (u32 (s_send_window (set_s_state (state_after_send (s_state s)) s) - n)
          = s_send_window s - n) as ->.
  { apply u32_small. unfold MAX_YAMUX_WINDOW_SIZE in Hw1. simpl. lia. }
  fold (stream_sent s n).
  assert (stays w3 (with_stream r (stream_sent s n) w3)) as S4.
  { eapply stays_with_stream; [done|exact E3|done|]. unfold stream_ok; simpl. lia. }
  apply (write_sent _ _ _ _ _ b); [done|done|done|lia| |done|done| | | |].
  - etransitivity; [exact S1|]. etransitivity; [exact S3|exact S4].
  - by apply asked_with_stream.
  - by eapply lookup_with_stream.
  - rewrite out_of_with_stream, O3, O1. by rewrite bool_decide_true.
  - intros c Hcb. rewrite out_of_with_stream, O3, O1. by rewrite bool_decide_false.
Qed.

Lemma run_tmux_stream_write bev src r s w :
  mux_ok w → registered w r s → bev_live w bev → zlen src < 2 ^ 32 →
  ∃ rc rest w', tmux_stream_write bev src r w = Some ((rc, rest), w') ∧
    write_outcome bev src r s w rc rest w' ∧ mux_ok w'.
Proof.
  intros Ok Hreg Hlive Hlen. pose proof (wp_tmux_stream_write bev src r s w Ok Hreg Hlive Hlen) as Hw.
  apply wp_run in Hw as ([rc rest] & w' & Hrun & Ho). exists rc, rest, w'. split_and!; [done|done|].
  inversion Ho; subst; try done; by eapply mux_ok_stays.
Qed.

End Write.

(** C4: [tmux_stream_write] does exactly what flow control allows.  From any
    well-formed state and any open stream it either sends nothing and says why
    (-1 closed, 0 no data or no window, -2 the output could not take it, where
    the frame's header may already have been queued), or appends to the
    connection's output one data frame, the header carrying the stream id and
    the length followed by that many bytes from the front of the source, where
    the length is the least of the data, the send window and 256 KiB, and takes
    it off both the source and the window. *)
Theorem tmux_stream_write_spec `{Mbedtls} (bev : option positive) (src : bytes) (r : sref)
    (s : tmux_stream) (w : world)
    (Ok : mux_ok w) (Hreg : registered w r s) (Hlive : bev_live w bev) (Hlen : zlen src < 2 ^ 32) :
  ∃ rc rest w', tmux_stream_write bev src r w = Some ((rc, rest), w') ∧
    write_outcome bev src r s w rc rest w' ∧ mux_ok w'.
Proof. by apply run_tmux_stream_write. Qed.

(** ** Flow control *)

Section Flow.
Context `{Mbedtls}.

(** What happens to one stream: the client writes, the peer updates the
    window (any header: any flags, any increment). *)
Inductive flow_op :=
| FWrite (src : bytes)
| FUpdate (h : tcp_mux_header).

Definition granted (op : flow_op) : Z :=
  match op with FWrite _ => 0 | FUpdate h => ntohl (hdr_length h) end.

(** The output queue of the connection to the server, and the payload bytes a
    write has put there: what was appended after the header of a frame. *)
Definition wire (w : world) : bytes := default [] (w_connect_bev w ≫= out_of w).
Definition payload_sent (w w' : world) : Z := Z.max 0 (zlen (wire w') - zlen (wire w) - sizeof_tcp_mux_header).

(** Runs the operations on stream [id] while it is registered; the result
    counts the payload bytes put on the wire by the writes. *)
Fixpoint run_flow (id : Z) (ops : list flow_op) (w : world) : option (Z * world) :=
  match ops with
  | [] => Some (0, w)
  | op :: ops =>
      match w_all_stream w !! id with
      | None => Some (0, w)
      | Some r =>
          match op with
          | FWrite src =>
              '(_, w1) ← tmux_stream_write None src r w;
              '(sent, w2) ← run_flow id ops w1;
              Some (payload_sent w w1 + sent, w2)
          | FUpdate h =>
              '(_, w1) ← incr_send_window (w_connect_bev w) h (ntohs (hdr_flags h)) r w;
              run_flow id ops w1
          end
      end
  end.

Definition window_left (id : Z) (w : world) : Z :=
  match w_all_stream w !! id with
  | Some r => match lookup_stream w r with Some s => s_send_window s | None => 0 end
  | None => 0
  end.

Lemma window_left_registered w r s : registered w r s → window_left (s_id s) w = s_send_window s.
Proof. intros [Hin E]. unfold window_left. by rewrite Hin, E. Qed.

Lemma window_left_nonneg w id : mux_ok w → 0 ≤ window_left id w.
Proof.
  intros Ok. unfold window_left. destruct (w_all_stream w !! id) as [r|] eqn:Hin; [|done].
  destruct (registered_by_id _ _ _ Ok Hin) as (s & Hreg & _). pose proof Hreg as [_ E]. rewrite E.
  apply (registered_stream_ok _ _ _ Ok Hreg).
Qed.

Lemma wire_grows w w' b d :
  mux_ok w → stays w w' → w_connect_bev w = Some b → out_of w' b = (λ o, o ++ d) <$> out_of w b → zlen (wire w') = zlen (wire w) + zlen d.
Proof.
  intros Ok S Hb E. unfold wire. replace (w_connect_bev w') with (Some b) by (by rewrite <- Hb; symmetry; apply S). rewrite Hb. simpl. rewrite E.
  destruct (ok_connect _ Ok b Hb) as [x Ex]. unfold out_of. rewrite Ex. simpl. by rewrite zlen_app.
Qed.
Lemma wire_same w w' : stays w w' → (∀ c, out_of w' c = out_of w c) → zlen (wire w') = zlen (wire w).
Proof.
  intros S E. unfold wire. replace (w_connect_bev w') with (w_connect_bev w) by (symmetry; apply S).
  destruct (w_connect_bev w); simpl; [by rewrite E|done].
Qed.
Lemma zlen_data_hdr s n : zlen (data_hdr s n) = sizeof_tcp_mux_header.
Proof. apply hdr_bytes_len. Qed.

(** After one operation of either kind. *)
Lemma flow_write src r s w :
  mux_ok w → registered w r s → zlen src < 2 ^ 32 →
  ∃ res w1, tmux_stream_write None src r w = Some (res, w1) ∧ mux_ok w1 ∧
    payload_sent w w1 + window_left (s_id s) w1 ≤ s_send_window s.
Proof.
  intros Ok Hreg Hl. assert (bev_live w None) as L by done.
  destruct (run_tmux_stream_write None src r s w Ok Hreg L Hl) as (rc & rest & w1 & Hrun & Ho & Ok1).
  exists (rc, rest), w1. split_and!; [done..|]. unfold payload_sent, sizeof_tcp_mux_header.
  destruct (registered_stream_ok _ _ _ Ok Hreg) as [_ [Hw0 _]].
  assert (∀ s1, stays w w1 → lookup_stream w1 r = Some s1 → s_id s1 = s_id s → window_left (s_id s) w1 = s_send_window s1) as Hwin.
  { intros s1 S E <-. by apply (window_left_registered w1 r), (registered_stays _ _ _ _ _ S Hreg E). }
  inversion Ho; subst; try (rewrite (window_left_registered _ _ _ Hreg); lia).
  - rewrite (Hwin _ ltac:(done) ltac:(eassumption) eq_refl). simpl.
    match goal with R : output_refused _ _ _ _ _ |- _ => inversion R as [O Eq|b K A O Eq|b K1 K2 A O O' Eq] end.
    + rewrite (wire_same w w1) by done. lia.
    + rewrite (wire_same w w1) by done. lia.
    + rewrite (wire_grows w w1 b _ Ok ltac:(done) ltac:(done) O), zlen_data_hdr. unfold sizeof_tcp_mux_header. lia.
  - rewrite (Hwin _ ltac:(done) ltac:(eassumption) eq_refl). simpl.
    match goal with O : out_of w1 b = _ |- _ => rewrite (wire_grows w w1 b _ Ok ltac:(done) ltac:(done) O) end. unfold data_frame. rewrite zlen_app, zlen_data_hdr.
    unfold sizeof_tcp_mux_header. unfold frame_len in *. rewrite zlen_ztake; lia.
Qed.

Lemma flow_update h r s w :
  mux_ok w → registered w r s →
  ∃ ok w1, incr_send_window (w_connect_bev w) h (ntohs (hdr_flags h)) r w = Some (ok, w1) ∧
    mux_ok w1 ∧ window_left (s_id s) w1 ≤ s_send_window s + ntohl (hdr_length h).
Proof.
  intros Ok Hreg. pose proof (ntohl_range (hdr_length h)).
  pose proof (wp_incr_send_window (w_connect_bev w) h (ntohs (hdr_flags h)) r s w Ok Hreg
                (connect_live _ Ok)) as Hw.
  apply wp_run in Hw as (ok & w1 & Hrun & Ok1 & _ & Hg). exists ok, w1. split_and!; [done..|].
  destruct (registered_stream_ok _ _ _ Ok Hreg) as [_ [Hw0 _]]. unfold window_left.
  destruct (w_all_stream w1 !! s_id s) as [r1|] eqn:Hin; [|lia].
  destruct (registered_by_id _ _ _ Ok1 Hin) as (s1 & Hreg1 & Hid1). pose proof Hreg1 as [_ E1].
  rewrite E1. by apply (Hg r1 s1 Hreg1 Hid1).
Qed.

(** All writes are smaller than the address space. *)
Definition flow_sized (op : flow_op) : Prop :=
  match op with FWrite src => zlen src < 2 ^ 32 | FUpdate _ => True end.

Definition total_granted (ops : list flow_op) : Z := foldr Z.add 0 (map granted ops).

Lemma run_flow_bound ops id w :
  mux_ok w → Forall flow_sized ops →
  ∃ sent w', run_flow id ops w = Some (sent, w') ∧ mux_ok w' ∧ 0 ≤ sent ∧
    sent + window_left id w' ≤ window_left id w + total_granted ops.
Proof.
  revert w. induction ops as [|op ops IH]; intros w Ok Hsz.
  { exists 0, w. unfold total_granted; simpl. split_and!; [done|done|lia|lia]. }
  inversion Hsz as [|? ? Hop Hops]; subst. simpl.
  assert (0 ≤ total_granted ops ∧ 0 ≤ granted op) as [Hg1 Hg2].
  { split.
    - unfold total_granted. clear. induction ops as [|o ops IH]; simpl; [lia|].
      destruct o; simpl; [lia|]. pose proof (ntohl_range (hdr_length h)). lia.
    - destruct op; simpl; [lia|]. pose proof (ntohl_range (hdr_length h)). lia. }
  assert (total_granted (op :: ops) = granted op + total_granted ops) as Ht by done.
  destruct (w_all_stream w !! id) as [r|] eqn:Hin.
  - destruct (registered_by_id _ _ _ Ok Hin) as (s & Hreg & <-).
    rewrite (window_left_registered _ _ _ Hreg). destruct op as [src|h]; simpl in *.
    + destruct (flow_write src r s w Ok Hreg Hop) as (res & w1 & -> & Ok1 & Hle).
      destruct (IH w1 Ok1 Hops) as (sent & w2 & Hrun & Ok2 & Hs & Hb). simpl. rewrite Hrun.
      exists (payload_sent w w1 + sent), w2. split_and!; [done|done|unfold payload_sent; lia|lia].
    + destruct (flow_update h r s w Ok Hreg) as (ok & w1 & -> & Ok1 & Hle).
      destruct (IH w1 Ok1 Hops) as (sent & w2 & Hrun & Ok2 & Hs & Hb). simpl. rewrite Hrun.
      exists sent, w2. split_and!; [done|done|lia|lia].
  - exists 0, w. split_and!; [done|done|lia|lia].
Qed.
End Flow.

(** C5: flow control is never violated.  Over any sequence of client writes
    and received window updates on a stream (any sizes, any header fields,
    updates that close the stream included), the payload bytes put on the wire,
    counted in the output queue of the connection, plus the window that is left never exceed the initial window plus what the
    peer granted, and no step touches freed memory. *)
Theorem flow_control_sound `{Mbedtls} (id : Z) (ops : list flow_op) (w : world)
    (Ok : mux_ok w) (Hsz : Forall flow_sized ops) :
  ∃ sent w', run_flow id ops w = Some (sent, w') ∧ mux_ok w' ∧
    0 ≤ sent ∧ 0 ≤ window_left id w' ∧
    sent + window_left id w' ≤ window_left id w + total_granted ops.
Proof.
  destruct (run_flow_bound ops id w Ok Hsz) as (sent & w' & Hrun & Ok' & Hs & Hb).
  exists sent, w'. split_and!; try done. by apply window_left_nonneg.
Qed.

(** ** The stream state machine *)

(** What can move a stream's state: flags received, a frame sent (which may
    carry SYN or ACK), a local close. *)
Inductive stream_event := EvRecvFlags (flags : Z) | EvSend | EvClose.

(** Errors and ignored closes leave the state alone. *)
Definition state_step (e : stream_event) (st : tcp_mux_state) : tcp_mux_state :=
  match e with
  | EvRecvFlags f => match flags_next f st with Some (st', _, _) => st' | None => st end
  | EvSend => state_after_send st
  | EvClose => match close_next st with Some (st', _) => st' | None => st end
  end.

Lemma closed_step e st : closed_for_writing st = true → closed_for_writing (state_step e st) = true.
Proof.
  destruct e as [f| |]; [|by destruct st..]. unfold state_step, flags_next.
  destruct st; try done; intros _; destruct (f &u ACK =? 0), (f &u FIN =? 0), (f &u RST =? 0); done.
Qed.

(** Closing is final.  Once a stream has been closed locally, closed or
    reset, no sequence of received flags, sends and closes makes it writable
    again, so [tmux_stream_write] refuses forever; and a stream the peer has
    reset is never anything but reset, whatever else arrives in the frame. *)
Lemma stream_closed_is_final (evs : list stream_event) (st : tcp_mux_state)
    (Hc : closed_for_writing st = true) :
  closed_for_writing (foldl (λ st e, state_step e st) st evs) = true ∧
  (∀ f, f &u RST ≠ 0 → state_step (EvRecvFlags f) st ∈ [TMUX_RESET; TMUX_CLOSED]) ∧
  state_step EvClose TMUX_RESET = TMUX_RESET.
Proof.
  split_and!.
  - revert st Hc. induction evs as [|e evs IH]; intros st Hc; simpl; [done|].
    by apply IH, closed_step.
  - intros f Hf. unfold state_step, flags_next. rewrite (proj2 (Z.eqb_neq _ _) Hf). simpl.
    destruct st; try done; destruct (f &u ACK =? 0), (f &u FIN =? 0); simpl; set_solver.
  - done.
Qed.

Lemma stream_closed_is_final_witness :
  closed_for_writing (foldl (λ st e, state_step e st) TMUX_LOCAL_CLOSE
    [EvRecvFlags (ACK |u FIN); EvSend; EvClose; EvRecvFlags RST]) = true.
Proof.
  apply (stream_closed_is_final
    [EvRecvFlags (ACK |u FIN); EvSend; EvClose; EvRecvFlags RST] TMUX_LOCAL_CLOSE).
  reflexivity.
Defined.

(** ** Session ids and new clients *)

Section New.
Context `{Mbedtls}.

Fixpoint take_session_ids (n : nat) (w : world) : option (list Z * world) :=
  match n with
  | O => Some ([], w)
  | S n =>
      '(id, w1) ← get_next_session_id w;
      '(ids, w2) ← take_session_ids n w1;
      Some (id :: ids, w2)
  end.

Lemma take_session_ids_eq n w :
  1 ≤ w_session_id w → w_session_id w + 2 * Z.of_nat n < 2 ^ 32 →
  ∃ w', take_session_ids n w =
    Some (map (λ i, w_session_id w + 2 * Z.of_nat i) (seq 0 n), w').
Proof.
  revert w. induction n as [|n IH]; intros w H1 Hn; [by eexists|].
  cbn [take_session_ids]. unfold get_next_session_id, bind, gets, modify. simpl.
  set (w1 := set_w_session_id _ w).
  assert (w_session_id w1 = w_session_id w + 2) as Hw1.
  { unfold w1; simpl. apply u32_small. change (2 ^ 32) with 4294967296 in Hn. lia. }
  destruct (IH w1) as (w' & ->); [lia|lia|]. exists w'. cbn [mbind option_bind seq map].
  assert (w_session_id w + 2 * Z.of_nat 0 = w_session_id w) as -> by lia.
  rewrite <- seq_shift, map_map. do 3 f_equal. apply map_ext. intros i. lia.
Qed.

Lemma fresh_pc_ok w p id :
  mux_ok w → p = w_next w → id = w_session_id w → w_session_id w + 2 < 2 ^ 32 →
  mux_ok (set_w_all_pc (<[id := p]> (w_all_pc w))
    (set_w_all_stream (<[id := SClient p]> (w_all_stream w))
      (set_w_session_id (u32 (id + 2))
        (set_w_pcs (<[p := set_pc_stream (mkStream id MAX_STREAM_WINDOW_SIZE (256 * 1024) TMUX_INIT
                                           false false []) (set_pc_stream_id id zero_pc)]> (w_pcs w))
          (set_w_next (Pos.succ p) (set_w_tick (S (w_tick w)) w)))))).
Proof.
  intros Ok -> -> Hs.
  destruct (ok_session _ Ok) as [Hodd Hrange].
  rewrite u32_small by (change (2 ^ 32) with 4294967296 in Hs; lia).
  assert (w_pcs w !! w_next w = None) as Hnp.
  { destruct (w_pcs w !! w_next w) eqn:E; [|done]. apply (ok_fresh_pc _ Ok) in E. lia. }
  assert (w_all_stream w !! w_session_id w = None) as Hns.
  { destruct (w_all_stream w !! w_session_id w) eqn:E; [|done]. apply (ok_all_stream _ Ok) in E. lia. }
  assert (w_all_pc w !! w_session_id w = None) as Hnpc.
  { destruct (w_all_pc w !! w_session_id w) eqn:E; [|done]. apply (ok_all_pc _ Ok) in E as [E _].
    congruence. }
  constructor; simpl.
  - intros p pc [[<- <-]|[Hne E]]%lookup_insert_Some.
    + constructor; simpl; try done. apply lookup_insert_eq.
    + destruct (ok_pc _ Ok _ _ E). constructor; simpl; try done.
      rewrite lookup_insert_ne; [done|congruence].
  - intros p q x y b [[<- <-]|[Hne1 E1]]%lookup_insert_Some [[<- <-]|[Hne2 E2]]%lookup_insert_Some;
      simpl; try done. by eapply (ok_inj _ Ok).
  - intros id p [[<- <-]|[Hne E]]%lookup_insert_Some.
    + rewrite lookup_insert_eq. split; [done|]. eexists. rewrite lookup_insert_eq. done.
    + destruct (ok_all_pc _ Ok _ _ E) as (Es & pc & Ep & Hid). split.
      * by rewrite lookup_insert_ne.
      * exists pc. split; [|done]. rewrite lookup_insert_ne; [done|]. congruence.
  - intros id r [[<- <-]|[Hne E]]%lookup_insert_Some.
    + split; [lia|]. right. eexists. split; [done|]. apply lookup_insert_eq.
    + destruct (ok_all_stream _ Ok _ _ E) as [Hr Hc]. split; [lia|].
      destruct Hc as [?|(p & -> & Hp)]; [by left|]. right. exists p. split; [done|].
      by rewrite lookup_insert_ne.
  - apply (ok_main _ Ok).
  - apply (ok_connect _ Ok).
  - intros p pc [[<- <-]|[Hne E]]%lookup_insert_Some; [lia|]. apply (ok_fresh_pc _ Ok) in E. lia.
  - intros p x E. apply (ok_fresh_bev _ Ok) in E. lia.
  - split; [|lia]. rewrite Z.odd_add. by rewrite Hodd.
Qed.

(** A client record as it is created, and the state with it in the tables. *)
Definition fresh_client (id : Z) : proxy_client :=
  set_pc_stream (mkStream id MAX_STREAM_WINDOW_SIZE (256 * 1024) TMUX_INIT false false [])
    (set_pc_stream_id id zero_pc).
Definition with_client (w : world) : world :=
  let p := w_next w in let id := w_session_id w in
  set_w_all_pc (<[id := p]> (w_all_pc w)) (set_w_all_stream (<[id := SClient p]> (w_all_stream w))
    (set_w_session_id (u32 (id + 2)) (set_w_pcs (<[p := fresh_client id]> (w_pcs w))
      (set_w_next (Pos.succ p) (set_w_tick (S (w_tick w)) w))))).

Lemma wp_new_proxy_client w :
  mux_ok w → w_session_id w + 2 < 2 ^ 32 →
  wp new_proxy_client (λ o w', mux_ok w' ∧
    match o with
    | None => stays w w'
    | Some p => p = w_next w ∧ w' = with_client w ∧
                w_pcs w !! p = None ∧ w_all_stream w !! w_session_id w = None ∧
                w_all_pc w !! w_session_id w = None
    end) w.
Proof.
  intros Ok Hs. unfold new_proxy_client. wps. destruct (e_ok _ _); simpl; wps; cycle 1.
  { pose proof (stays_tick w (S (w_tick w))). split; [by eapply mux_ok_stays|done]. }
  set (p := w_next w). set (id := w_session_id w). unfold get_next_session_id. wps.
  match goal with |- wp (upd_pc _ _) _ ?w0 =>
    assert (w_pcs w0 !! p = Some zero_pc) as E1 by apply lookup_insert_eq end. wp_pc E1.
  unfold init_tmux_stream.
  wps.
  match goal with |- wp (upd_stream _ _) _ ?w0 =>
    assert (lookup_stream w0 (SClient p) = Some zero_stream) as E2
      by (simpl; by rewrite lookup_insert_eq) end. wp_ust E2.
  unfold add_stream, with_stream.
  assert (w_all_stream w !! id = None) as Hns.
  { destruct (w_all_stream w !! id) eqn:E; [|done]. apply (ok_all_stream _ Ok) in E. lia. }
  simpl. rewrite lookup_insert_eq. wps.
  match goal with |- wp (get_stream _) _ ?w0 =>
    assert (lookup_stream w0 (SClient p) = Some (mkStream id MAX_STREAM_WINDOW_SIZE (256 * 1024)
      TMUX_INIT false false [])) as E3 by (simpl; by rewrite lookup_insert_eq) end. wp_st E3.
  simpl. rewrite Hns. wps. simpl. rewrite !insert_insert_eq.
  split; [by apply (fresh_pc_ok w p id)|]. split_and!; [done|done| |done|].
  - destruct (w_pcs w !! p) eqn:E; [|done]. apply (ok_fresh_pc _ Ok) in E. unfold p in E. lia.
  - destruct (w_all_pc w !! id) eqn:E; [|done]. apply (ok_all_pc _ Ok) in E as [E _]. congruence.
Qed.
End New.

(** ** Clearing every client *)

Section Clear.
Context `{Mbedtls}.

(** What the freeing loop needs of the clients still to free. *)
Definition freeable (ps : list positive) (w : world) : Prop :=
  NoDup ps ∧
  (∀ p, p ∈ ps → ∃ pc, w_pcs w !! p = Some pc ∧
     ∀ b, pc_local_bev pc = Some b → is_Some (w_bevs w !! b) ∧ w_connect_bev w ≠ Some b) ∧
  (∀ p q x y b, p ∈ ps → q ∈ ps → w_pcs w !! p = Some x → w_pcs w !! q = Some y →
     pc_local_bev x = Some b → pc_local_bev y = Some b → p = q).

(** What it leaves. *)
Record freed (ps : list positive) (w w' : world) : Prop := {
  f_pcs : ∀ p, w_pcs w' !! p = if bool_decide (p ∈ ps) then None else w_pcs w !! p;
  f_bevs : ∀ b x, w_bevs w' !! b = Some x → w_bevs w !! b = Some x;
  f_conn : ∀ b, w_connect_bev w = Some b → w_bevs w' !! b = w_bevs w !! b;
  f_connect : w_connect_bev w' = w_connect_bev w;
  f_all_stream : w_all_stream w' = w_all_stream w;
  f_all_pc : w_all_pc w' = w_all_pc w;
  f_next : w_next w' = w_next w;
  f_session : w_session_id w' = w_session_id w;
  f_main : w_main_stream w' = w_main_stream w;
  f_locals : ∀ p x b, p ∈ ps → w_pcs w !! p = Some x → pc_local_bev x = Some b → w_bevs w' !! b = None;
}.

Lemma wp_free_one p ps w :
  freeable (p :: ps) w →
  wp (free_proxy_client p) (λ _ w', freed [p] w w' ∧ freeable ps w') w.
Proof.
  intros (Hnd & Hlive & Hinj). apply NoDup_cons in Hnd as [Hp Hnd].
  destruct (Hlive p) as (pc & Ep & Hl); [set_solver|]. unfold free_proxy_client. wp_pc Ep.
  set (bevs' := match pc_local_bev pc with Some b => delete b (w_bevs w) | None => w_bevs w end).
  set (w' := set_w_pcs (delete p (w_pcs w)) (set_w_bevs bevs' w)).
  assert (freed [p] w w' ∧ freeable ps w') as Hgoal.
  { assert (∀ q x, w_pcs w' !! q = Some x → q ≠ p ∧ w_pcs w !! q = Some x) as Hsub.
    { simpl. intros q x [? ?]%lookup_delete_Some. done. }
    assert (∀ b, pc_local_bev pc ≠ Some b → bevs' !! b = w_bevs w !! b) as Hkeep.
    { intros b Hb. unfold bevs'. destruct (pc_local_bev pc) as [c|]; [|done].
      apply lookup_delete_ne. congruence. }
    split; [constructor; try done|split; [done|split]]; simpl.
    - intros q. case_bool_decide as Hq.
      + assert (q = p) as -> by set_solver. apply lookup_delete_eq.
      + apply lookup_delete_ne. set_solver.
    - intros b x. unfold bevs'. destruct (pc_local_bev pc); [|done].
      by intros [_ ?]%lookup_delete_Some.
    - intros b Hb. apply Hkeep. intros Hpb. by apply (Hl b) in Hpb as [_ ?].
    - intros q x b Hq Ex Hb. assert (q = p) as -> by set_solver. unfold bevs'.
      assert (x = pc) as -> by congruence. rewrite Hb. apply lookup_delete_eq.
    - intros q Hq. destruct (Hlive q) as (x & Ex & Hlx); [set_solver|]. exists x.
      assert (q ≠ p) by set_solver. rewrite lookup_delete_ne by done. split; [done|].
      intros b Hb. destruct (Hlx b Hb) as [? ?]. rewrite Hkeep; [done|]. intros Hpb.
      assert (p = q); [|done]. eapply (Hinj p q); eauto; set_solver.
    - intros q1 q2 x y b Hq1 Hq2 [_ E1]%lookup_delete_Some [_ E2]%lookup_delete_Some ? ?.
      eapply (Hinj q1 q2); eauto; set_solver. }
  destruct (pc_local_bev pc) as [b|] eqn:El; wps.
  - destruct (Hl b eq_refl) as [[x Ex] _]. unfold bufferevent_free. wp_bev Ex. exact Hgoal.
  - exact Hgoal.
Qed.

Lemma freed_trans p ps w1 w2 w3 : freed [p] w1 w2 → freed ps w2 w3 → freed (p :: ps) w1 w3.
Proof.
  intros F1 F2. destruct F1 as [p1 b1 c1 ? ? ? ? ? ? l1], F2 as [p2 b2 c2 ? ? ? ? ? ? l2].
  constructor; try congruence.
  - intros q. rewrite p2, p1. repeat case_bool_decide; set_solver.
  - eauto.
  - intros b Hb. rewrite c2 by congruence. auto.
  - intros q x b Hq Ex Hb. destruct (decide (q = p)) as [->|Hne].
    + destruct (w_bevs w3 !! b) eqn:E; [|done]. apply b2 in E.
      rewrite (l1 p x b) in E; [done|set_solver|done|done].
    + apply (l2 q x b); [set_solver| |done]. rewrite p1, bool_decide_false; [done|set_solver].
Qed.

Lemma wp_free_each ps w :
  freeable ps w → wp (free_each ps) (λ _ w', freed ps w w') w.
Proof.
  revert w. induction ps as [|p ps IH]; intros w Hf; simpl; wps.
  { constructor; try done. intros p x b Hp. by apply not_elem_of_nil in Hp. }
  eapply wp_mono; [by apply wp_free_one|]. intros u w1 [F1 Hf1].
  eapply wp_mono; [by apply IH|]. intros u2 w2 F2. by eapply freed_trans.
Qed.

Lemma all_pc_freeable w :
  mux_ok w → freeable (map snd (map_to_list (w_all_pc w))) w.
Proof.
  intros Ok. split; [|split].
  - change (map snd ?l) with (l.*2). apply NoDup_fmap_2_strong; [|apply NoDup_map_to_list].
    intros [i1 p1] [i2 p2] H1 H2 E. simpl in E. subst p2.
    apply elem_of_map_to_list in H1, H2.
    destruct (ok_all_pc _ Ok _ _ H1) as (_ & x & Ex & <-).
    destruct (ok_all_pc _ Ok _ _ H2) as (_ & y & Ey & <-). congruence.
  - intros p Hp. change (map snd ?l) with (l.*2) in Hp.
    apply list_elem_of_fmap in Hp as ([i q] & -> & Hin). apply elem_of_map_to_list in Hin.
    destruct (ok_all_pc _ Ok _ _ Hin) as (_ & pc & Ep & _). exists pc. split; [done|].
    apply (pc_ok_local _ _ _ (ok_pc _ Ok _ _ Ep)).
  - intros p q x y b _ _. apply (ok_inj _ Ok).
Qed.

(** What clearing leaves. *)
Record cleared (w w' : world) : Prop := {
  cl_pcs : w_pcs w' = ∅;
  cl_all_pc : w_all_pc w' = ∅;
  cl_all_stream : w_all_stream w' = ∅;
  cl_bevs : ∀ b x, w_bevs w' !! b = Some x → w_bevs w !! b = Some x;
  cl_conn : ∀ b, w_connect_bev w = Some b → w_bevs w' !! b = w_bevs w !! b;
  cl_connect : w_connect_bev w' = w_connect_bev w;
  cl_next : w_next w' = w_next w;
  cl_session : w_session_id w' = w_session_id w;
  cl_main : w_main_stream w' = w_main_stream w;
  cl_locals : ∀ p x b, w_pcs w !! p = Some x → pc_local_bev x = Some b → w_bevs w' !! b = None;
}.

(** Only the client table and the heap matter, so this also holds when the
    session counter has already been reset. *)
Lemma wp_clear_tables w :
  freeable (map snd (map_to_list (w_all_pc w))) w →
  (∀ p x, w_pcs w !! p = Some x → w_all_pc w !! pc_stream_id x = Some p) →
  wp clear_all_proxy_client (λ _ w', cleared w w') w.
Proof.
  intros Hf Hin. unfold clear_all_proxy_client, clear_stream. wps.
  eapply wp_mono; [apply wp_free_each; exact Hf|]. intros u w1 F. wps.
  assert (∀ p x, w_pcs w !! p = Some x → p ∈ map snd (map_to_list (w_all_pc w))) as Hall.
  { intros p x Ep. change (map snd ?l) with (l.*2). apply list_elem_of_fmap.
    exists (pc_stream_id x, p). split; [done|]. apply elem_of_map_to_list. by apply Hin. }
  destruct F as [Fp ? ? ? Fs ? ? ? ? Fl]. constructor; try done; simpl.
  - apply map_empty. intros p. rewrite Fp. case_bool_decide as Hp; [done|]. simpl.
    destruct (w_pcs w !! p) as [pc|] eqn:Ep; [|done]. exfalso. apply Hp. by eapply Hall.
  - intros p x b Ep. apply (Fl p x b); [by eapply Hall|done].
Qed.

Lemma all_pc_covered w p x :
  mux_ok w → w_pcs w !! p = Some x → w_all_pc w !! pc_stream_id x = Some p.
Proof. intros Ok Ep. apply (ok_pc _ Ok _ _ Ep). Qed.

(** A state without clients is well-formed when what is left is. *)
Lemma cleared_ok w w' :
  cleared w w' → stream_ok (w_main_stream w) →
  (∀ b, w_connect_bev w = Some b → is_Some (w_bevs w !! b)) →
  (∀ b x, w_bevs w !! b = Some x → (b < w_next w)%positive) →
  Z.odd (w_session_id w) = true ∧ 1 ≤ w_session_id w < 2 ^ 32 → mux_ok w'.
Proof.
  intros [Hp Ha Hs Hb Hc Hcn Hn Hse Hm _] H1 H2 H3 H4.
  constructor; rewrite ?Hp, ?Ha, ?Hs, ?Hm, ?Hcn, ?Hse; try done.
  - intros b Eb. rewrite Hc by done. by apply H2.
  - intros p x E. rewrite Hn. eapply H3. by apply Hb.
Qed.

Lemma wp_clear_all_proxy_client w :
  mux_ok w →
  wp clear_all_proxy_client (λ _ w', mux_ok w' ∧ w_pcs w' = ∅ ∧ w_all_pc w' = ∅ ∧
    w_all_stream w' = ∅ ∧ ∀ b, w_connect_bev w = Some b → w_bevs w' !! b = w_bevs w !! b) w.
Proof.
  intros Ok. eapply wp_mono; [apply wp_clear_tables|].
  - by apply all_pc_freeable.
  - intros p x. by apply all_pc_covered.
  - intros u w' C. split; [|by destruct C].
    eapply cleared_ok; [exact C|apply (ok_main _ Ok)|apply (ok_connect _ Ok)
      |apply (ok_fresh_bev _ Ok)|apply (ok_session _ Ok)].
Qed.
End Clear.

(** Client-side session ids are what the protocol requires: successive
    calls of [get_next_session_id] after a reset give 1, 3, 5, ..., all odd,
    in range and pairwise distinct until the 32-bit counter would wrap. *)
Lemma session_ids_odd_distinct `{Mbedtls} (n : nat) (w : world) (Hn : 2 * Z.of_nat n < 2 ^ 32 - 2) :
  ∃ ids w', take_session_ids n (set_w_session_id 1 w) = Some (ids, w') ∧
    ids = map (λ i, 1 + 2 * Z.of_nat i) (seq 0 n) ∧
    NoDup ids ∧ Forall (λ id, Z.odd id = true ∧ 1 ≤ id < 2 ^ 32) ids.
Proof.
  destruct (take_session_ids_eq n (set_w_session_id 1 w)) as (w' & Hrun);
    [simpl; lia|simpl; change (2 ^ 32) with 4294967296 in *; lia|].
  simpl in Hrun. eexists _, w'. split_and!; [exact Hrun|done| |].
  - change (map ?f ?l) with (f <$> l). apply NoDup_fmap_2_strong; [intros x y _ _ ?; lia|apply NoDup_seq].
  - apply Forall_forall. intros id Hin. change (map ?f ?l) with (f <$> l) in Hin.
    apply list_elem_of_fmap in Hin as (i & -> & Hi%elem_of_seq). split.
    + by rewrite Z.odd_add_mul_2.
    + change (2 ^ 32) with 4294967296 in *. lia.
Qed.

(** Making and clearing clients keeps the tables coherent.
    [new_proxy_client] allocates a client under an id nobody has, registers
    its stream under the same id and leaves a well-formed state;
    [clear_all_proxy_client] frees every client and local connection exactly
    once, empties both tables and leaves the main connection alone. *)
Lemma client_table_sound `{Mbedtls} (w : world) (Ok : mux_ok w)
    (Hs : w_session_id w + 2 < 2 ^ 32) :
  (∃ o w', new_proxy_client w = Some (o, w') ∧ mux_ok w' ∧
     ∀ p, o = Some p → w_pcs w !! p = None ∧ w_all_pc w !! w_session_id w = None ∧
       w_all_pc w' !! w_session_id w = Some p ∧
       w_all_stream w' !! w_session_id w = Some (SClient p)) ∧
  (∃ w', clear_all_proxy_client w = Some ((), w') ∧ mux_ok w' ∧ w_pcs w' = ∅ ∧
     w_all_pc w' = ∅ ∧ w_all_stream w' = ∅ ∧
     ∀ b, w_connect_bev w = Some b → w_bevs w' !! b = w_bevs w !! b).
Proof.
  split.
  - pose proof (wp_new_proxy_client w Ok Hs) as Hw. apply wp_run in Hw as (o & w' & Hr & Ok' & Ho).
    exists o, w'. split_and!; [done|done|]. intros p ->. destruct Ho as (-> & -> & ? & _ & ?).
    split_and!; [done|done| |]; apply lookup_insert_eq.
  - pose proof (wp_clear_all_proxy_client w Ok) as Hw. apply wp_run in Hw as ([] & w' & Hr & Hq).
    exists w'. done.
Qed.

(** C6: no frame without payload can corrupt memory.  Whatever header arrives
    (unknown stream, any flags, any increment, pings, go-aways), handling it
    from a well-formed state runs to completion, touches no freed client or
    connection, and leaves a well-formed state with all windows in range. *)
Theorem control_frames_safe `{Mbedtls} (h : tcp_mux_header) (w : world) (Ok : mux_ok w) :
  (∃ w', handle_tcp_mux_stream h w = Some ((), w') ∧ mux_ok w') ∧
  (∃ w', handle_tcp_mux_ping h w = Some ((), w') ∧ mux_ok w') ∧
  (∃ w', handle_tcp_mux_go_away h w = Some ((), w') ∧ mux_ok w').
Proof.
  pose proof (wp_handle_tcp_mux_stream h w Ok) as H1. pose proof (wp_handle_tcp_mux_ping h w Ok) as H2.
  pose proof (wp_handle_tcp_mux_go_away h w Ok) as H3.
  apply wp_run in H1 as ([] & w1 & R1 & O1). apply wp_run in H2 as ([] & w2 & R2 & O2).
  apply wp_run in H3 as ([] & w3 & R3 & O3). eauto 10.
Qed.

(** ** A concrete state

    The main connection at location 1; a client at location 2 with stream 3
    and a local connection at location 3; the main stream is stream 1. *)
Module Demo.
#[local] Existing Instance Toy.mbedtls.

Definition config : World.config := mkConfig None (Some "198.51.100.7"%string) 7000 false 10 30 [].
Definition externals : World.externals := 
  mkExt (λ _, None) (λ _, None) (λ _, Some (replicate 16 0)) "esp32" (λ _, 1000) (λ _, 12) (λ _, 1500) false.
Definition env (mux : Z) : environment :=
  mkEnv (λ _, true) (λ _, replicate 16 9) no_snappy (λ _ _, None) mux None config externals.

Definition bev (inp : bytes) : bufferevent :=
  mkBev inp [] true true CbNone EvNone None false [].

Definition service : proxy_service :=
  mkPs "ssh" (Some "tcp"%string) false false (Some "127.0.0.1"%string) 22 0 0 NO_XDPI None None (plain_registration 6000).

Definition stream (id : Z) (st : tcp_mux_state) : tmux_stream :=
  mkStream id MAX_STREAM_WINDOW_SIZE (256 * 1024) st false false [].

Definition client (st : tcp_mux_state) (local : option positive) : proxy_client :=
  set_pc_ps (Some service) (set_pc_local_bev local (set_pc_ctl_bev (Some 1%positive)
    (set_pc_base true (set_pc_stream_id 3 (set_pc_stream (stream 3 st) zero_pc))))).

Definition world (st : tcp_mux_state) (input : bytes) : World.world :=
  mkWorld (env 1) 0 4 {[ 1%positive := bev input; 3%positive := bev [] ]}
    {[ 2%positive := client st (Some 3%positive) ]} {[ 1 := SMain; 3 := SClient 2 ]}
    {[ 3 := 2%positive ]} None zero_stream 5 1 false false (Some 1%positive)
    (stream 1 TMUX_ESTABLISHED) (replicate 12 0) 0 0 (zero_session None).

Lemma world_ok st input : mux_ok (world st input).
Proof.
  constructor; simpl.
  - intros p pc [<- <-]%lookup_singleton_Some. constructor; simpl; try done.
    intros b [= <-]. split; [by eexists|done].
  - intros p q x y b [<- <-]%lookup_singleton_Some [<- <-]%lookup_singleton_Some. done.
  - intros id p [<- <-]%lookup_singleton_Some. split; [done|]. by eexists.
  - intros id r [[<- <-]|[_ [<- <-]%lookup_singleton_Some]]%lookup_insert_Some.
    + split; [lia|]. by left.
    + split; [lia|]. right. by eexists.
  - done.
  - intros b [= <-]. by eexists.
  - intros p pc [<- <-]%lookup_singleton_Some. done.
  - intros p x [[<- <-]|[_ [<- <-]%lookup_singleton_Some]]%lookup_insert_Some; done.
  - done.
Qed.

Lemma registered_client st input : registered (world st input) (SClient 2) (stream 3 st).
Proof. done. Qed.

End Demo.

#[local] Existing Instance Toy.mbedtls.

(** A write of three bytes on a stream that has not sent anything yet. *)
Lemma tmux_stream_write_spec_witness :
  ∃ rc rest w', tmux_stream_write None [7; 8; 9] (SClient 2) (Demo.world TMUX_INIT []) =
                  Some ((rc, rest), w') ∧
    write_outcome None [7; 8; 9] (SClient 2) (Demo.stream 3 TMUX_INIT) (Demo.world TMUX_INIT [])
      rc rest w' ∧ mux_ok w'.
Proof.
  apply (tmux_stream_write_spec None [7; 8; 9] (SClient 2) (Demo.stream 3 TMUX_INIT)
           (Demo.world TMUX_INIT []) (Demo.world_ok _ _) (Demo.registered_client _ _)).
  - intros b [=].
  - vm_compute. reflexivity.
Defined.

Lemma flow_control_sound_witness :
  ∃ sent w', run_flow 3 [FWrite [7; 8; 9]; FUpdate (mkHdr 0 1 0 0 (htonl 100)); FWrite [1]]
               (Demo.world TMUX_INIT []) = Some (sent, w') ∧ mux_ok w' ∧
    0 ≤ sent ∧ 0 ≤ window_left 3 w' ∧ sent + window_left 3 w' ≤ 256 * 1024 + 100.
Proof.
  apply (flow_control_sound 3
    [FWrite [7; 8; 9]; FUpdate (mkHdr 0 1 0 0 (htonl 100)); FWrite [1]]
    (Demo.world TMUX_INIT []) (Demo.world_ok _ _)).
  repeat constructor; vm_compute; reflexivity.
Defined.

Lemma session_ids_odd_distinct_witness :
  ∃ w', take_session_ids 3 (set_w_session_id 1 (Demo.world TMUX_INIT [])) = Some ([1; 3; 5], w').
Proof.
  destruct (session_ids_odd_distinct 3 (Demo.world TMUX_INIT [])) as (ids & w' & Hr & Hi & _).
  - vm_compute. reflexivity.
  - exists w'. rewrite Hr, Hi. reflexivity.
Defined.

Lemma client_table_sound_witness :
  (∃ o w', new_proxy_client (Demo.world TMUX_INIT []) = Some (o, w') ∧ mux_ok w') ∧
  (∃ w', clear_all_proxy_client (Demo.world TMUX_INIT []) = Some ((), w') ∧ w_pcs w' = ∅).
Proof.
  destruct (client_table_sound (Demo.world TMUX_INIT []) (Demo.world_ok _ _))
    as [(o & w1 & R1 & O1 & _) (w2 & R2 & O2 & P2 & _)]; [vm_compute; reflexivity|].
  split; eauto.
Defined.

(** A window update with RST for the client's stream. *)
Lemma control_frames_safe_witness :
  ∃ w', handle_tcp_mux_stream (mkHdr 0 1 (htons RST) (htonl 3) 0) (Demo.world TMUX_ESTABLISHED [])
        = Some ((), w') ∧ mux_ok w'.
Proof.
  apply (control_frames_safe (mkHdr 0 1 (htons RST) (htonl 3) 0)
           (Demo.world TMUX_ESTABLISHED []) (Demo.world_ok _ _)).
Defined.
