(* ===== verification/ProxyTcp.v ===== *)
(** * Proxied connections

    Models [src/src/proxy_tcp.c] (SOCKS5 and XDPI parsing, the two data
    callbacks), the connection life cycle of [src/src/client.c], the work
    connection start of [src/src/control.c], and [process_data] of
    [src/src/tcpmux.c], which dispatches a data frame to them. *)

From S2P Require Import Prelude Growth Endian Evp CryptoStream World Mux.

(** ** Pure parts *)

Definition SOCKS5_ADDRES_LEN : Z := 20.
Definition SOCKS5_MAX_DOMAIN_LEN : Z := 253.
Definition SOCKS5_BUF_INIT_CAP : Z := 256.
Definition XDPI_BUF_INIT_CAP : Z := 4096.

(** [memcpy] into the zeroed 20-byte array. *)
Definition addr_of (d : bytes) : bytes := d ++ replicate (20 - length d) 0.

(** The port field: two bytes as they lie in memory. *)
Definition port_of (l : bytes) : Z :=
  match l with p0 :: p1 :: _ => le16_get p0 p1 | _ => 0 end.

(** [None]: result 0, with the address as far as it was filled. *)
Definition parse_socks5_addr (buf : bytes) : option Z * socks5_addr :=
  match buf with
  | [] => (None, zero_addr)
  | t :: rest =>
      let bad := (None, mkAddr (replicate 20 0) 0 t) in
      let len := zlen buf in
      if t =? 1 then
        if len <? 7 then bad
        else (Some 7, mkAddr (addr_of (ztake 4 rest)) (port_of (zdrop 4 rest)) t)
      else if t =? 4 then
        if len <? 19 then bad
        else (Some 19, mkAddr (addr_of (ztake 16 rest)) (port_of (zdrop 16 rest)) t)
      else if t =? 3 then
        if len <? 2 then bad
        else match rest with
        | [] => bad
        | domain_len :: rest =>
            if (domain_len =? 0) || (SOCKS5_MAX_DOMAIN_LEN <? domain_len)
               || (SOCKS5_ADDRES_LEN <? domain_len) then bad
            else if len <? 2 + domain_len + 2 then bad
            else (Some (2 + domain_len + 2),
                  mkAddr (addr_of (ztake domain_len rest)) (port_of (zdrop domain_len rest)) t)
        end
      else bad
  end.

(** The C string at [addr->addr]: up to the first NUL of the struct, whose
    next members are the port, the type and a zero byte. *)
Fixpoint c_string (l : bytes) : bytes :=
  match l with
  | [] => []
  | b :: l => if b =? 0 then [] else b :: c_string l
  end.
Definition socks5_hostname (a : socks5_addr) : bytes :=
  c_string (sa_addr a ++ le16_put (sa_port a) ++ [sa_type a; 0]).

Definition is_proxy_type (ps : option proxy_service) (type : string) : bool :=
  match ps with
  | Some p => bool_decide (ps_proxy_type p = Some type)
  | None => false
  end.
Definition is_socks5_proxy (ps : option proxy_service) : bool := is_proxy_type ps "socks5".
Definition is_udp_proxy (ps : option proxy_service) : bool := is_proxy_type ps "udp".
Definition is_tcpmux_proxy (ps : option proxy_service) : bool := is_proxy_type ps "tcpmux".
Definition is_stcp_proxy (ps : option proxy_service) : bool := is_proxy_type ps "stcp".
Definition has_service_type (ps : option proxy_service) : bool :=
  match ps with Some p => negb (bool_decide (ps_service_type p = NO_XDPI)) | None => false end.
Definition is_uds_proxy (ps : option proxy_service) : bool :=
  match ps with
  | Some p => bool_decide (ps_plugin p = Some "unix_domain_socket"%string)
              && bool_decide (ps_plugin_unix_path p ≠ None)
  | None => false
  end.

(** ** Protocol detection *)

(** [d] starts with [pre]. *)
Definition starts (pre d : bytes) : bool := bool_decide (take (length pre) d = pre).

(** The search for [" HTTP/"] from offset 4. *)
Fixpoint has_http (d : bytes) : bool :=
  match d with
  | [] => false
  | _ :: d' => starts [32; 72; 84; 84; 80; 47] d || has_http d'
  end.

Definition xdpi_match (t : xdpi_service_type) (d : bytes) : bool :=
  let len := zlen d in
  match t with
  | SERVICE_SSH => (8 <=? len) && (len <=? 255) && starts [83; 83; 72; 45; 50; 46; 48; 45] d
  | SERVICE_HTTP =>
      (8 <=? len) &&
      (starts [71; 69; 84; 32] d || starts [80; 79; 83; 84] d || starts [72; 69; 65; 68] d
       || starts [80; 85; 84; 32] d || starts [68; 69; 76; 69] d) &&
      has_http (zdrop 4 d)
  | SERVICE_HTTPS => (3 <=? len) && starts [0x16; 0x03] d
  | SERVICE_MSTSC | SERVICE_RDP => (19 <=? len) && starts [3; 0; 0] d
  | SERVICE_VNC => (4 <=? len) && starts [82; 70; 66; 32] d
  | SERVICE_TELNET => (3 <=? len) && starts [0xFF; 0xFB] d
  | NO_XDPI => true
  end.

(** The status and the new state. *)
Definition xdpi_engine (st : xdpi_state) (ps : option proxy_service) (d : bytes)
    : Z * xdpi_state :=
  match ps with
  | None => (-1, st)
  | Some p =>
      if zlen d =? 0 then (-1, st)
      else match st with
      | XDPI_BLOCKED => (-1, st)
      | XDPI_VERIFIED => (0, st)
      | XDPI_INIT => if xdpi_match (ps_service_type p) d then (0, XDPI_VERIFIED)
                     else (-1, XDPI_BLOCKED)
      end
  end.

Section Proxy.
Context `{Mbedtls}.

(** ** Connections *)

(** [connect_server] to a local service: a null or invalid target, the new
    bufferevent, then the connect call. *)
Definition connect_server (base : bool) (name : option string) (port : Z) : M (option positive) :=
  match name with
  | Some _ =>
      if negb base || (port <=? 0) then ret None
      else
        b <- bufferevent_new ;;
        match b with
        | None => ret None
        | Some b =>
            ok <- oracle ;;
            if ok then bufferevent_enable b true true ;; ret (Some b)
            else bufferevent_free b ;; ret None
        end
  | None => ret None
  end.

Definition connect_udp_server (base : bool) : M (option positive) :=
  if negb base then ret None
  else
    ok <- oracle ;;
    if negb ok then ret None else bufferevent_new.

Definition socks5_proxy_connect (p : positive) (a : socks5_addr) : M (option positive) :=
  b <- bufferevent_new ;;
  match b with
  | None => ret None
  | Some b =>
      ok <- oracle ;;
      if negb ok then bufferevent_free b ;; ret None
      else
        bufferevent_setcb b tcp_proxy_c2s xfrp_proxy_event (Some p) ;;
        bufferevent_enable b true true ;;
        ret (Some b)
  end.

(** ** Staging buffers *)

(** The doubling from [cap], and whether the [realloc] succeeds. *)
Definition ensure_cap (cap init need : Z) : M (option Z) :=
  if need <=? cap then ret (Some cap)
  else
    match grow grow_fuel (if cap =? 0 then init else cap) need with
    | None => ub
    | Some n => ok <- oracle ;; ret (if ok then Some n else None)
    end.

Definition socks5_buf_ensure (p : positive) (need : Z) : M Z :=
  pc <- get_pc p ;;
  c <- ensure_cap (pc_socks5_cap pc) SOCKS5_BUF_INIT_CAP need ;;
  match c with
  | Some c => upd_pc p (set_pc_socks5_cap c) ;; ret 0
  | None => ret (-1)
  end.

Definition xdpi_buf_ensure (p : positive) (need : Z) : M Z :=
  pc <- get_pc p ;;
  c <- ensure_cap (pc_xdpi_cap pc) XDPI_BUF_INIT_CAP need ;;
  match c with
  | Some c => upd_pc p (set_pc_xdpi_cap c) ;; ret 0
  | None => ret (-1)
  end.

(** A short reply to the visitor: on the work connection, or as one write of a
    temporary queue on the stream (what the window does not take is dropped). *)
Definition reply (p : positive) (data : bytes) : M () :=
  pc <- get_pc p ;;
  mux <- gets (λ w, e_tcp_mux (w_env w)) ;;
  if mux =? 0 then bufferevent_write (pc_ctl_bev pc) data ;; ret ()
  else
    ok <- oracle ;;
    if ok then tmux_stream_write (pc_ctl_bev pc) data (SClient p) ;; ret () else ret ().

(** ** SOCKS5 *)

Inductive loop_next := LoopContinue | LoopBreak.

Definition socks5_init_step (p : positive) (buf : bytes) : M loop_next :=
  match buf with
  | b0 :: b1 :: _ :: _ =>
      if negb (b0 =? 5) then upd_pc p (set_pc_state SOCKS5_STATE_TMUX_CLOSED) ;; ret LoopBreak
      else
        reply p [0x05; 0x00] ;;
        let consumed := 2 + b1 in
        if zlen buf <? consumed then ret LoopBreak
        else
          upd_pc p (λ x, set_pc_state SOCKS5_HANDSHAKE (set_pc_socks5_buf (zdrop consumed buf) x)) ;;
          ret LoopContinue
  | _ => ret LoopBreak
  end.

Definition socks5_handshake_step (p : positive) (buf : bytes) : M loop_next :=
  match buf with
  | b0 :: b1 :: b2 :: (_ :: _) as addr =>
      if negb (b0 =? 5) || negb (b1 =? 1) || negb (b2 =? 0)
      then upd_pc p (set_pc_state SOCKS5_STATE_TMUX_CLOSED) ;; ret LoopBreak
      else
        let '(off, a) := parse_socks5_addr (zdrop 3 buf) in
        upd_pc p (set_pc_remote_addr a) ;;
        match off with
        | None => ret LoopBreak
        | Some off =>
            b <- socks5_proxy_connect p a ;;
            upd_pc p (set_pc_local_bev b) ;;
            match b with
            | None => ret LoopBreak
            | Some lb =>
                let rest := zdrop (3 + off) buf in
                (if 0 <? zlen rest then output_add lb rest ;; ret () else ret ()) ;;
                upd_pc p (λ x, set_pc_state SOCKS5_CONNECT (set_pc_socks5_buf [] x)) ;;
                ret LoopBreak
            end
        end
  | _ => ret LoopBreak
  end.

(** At most one round ends in [continue], so three rounds are all of them. *)
Fixpoint socks5_loop (fuel : nat) (p : positive) : M () :=
  match fuel with
  | O => ub
  | S fuel =>
      pc <- get_pc p ;;
      let buf := pc_socks5_buf pc in
      if zlen buf =? 0 then ret ()
      else
        next <- (if pc_state pc =? SOCKS5_INIT then socks5_init_step p buf
                 else if pc_state pc =? SOCKS5_HANDSHAKE then socks5_handshake_step p buf
                 else ret LoopBreak) ;;
        match next with LoopContinue => socks5_loop fuel p | LoopBreak => ret () end
  end.

Definition handle_socks5 (p b : positive) (len : Z) : M () :=
  if len =? 0 then ret ()
  else
    pc <- get_pc p ;;
    if pc_state pc =? SOCKS5_ESTABLISHED then
      match pc_local_bev pc with
      | Some lb => remove_to_output b lb len ;; ret ()
      | None => ret ()
      end
    else
      rc <- socks5_buf_ensure p (u32 (zlen (pc_socks5_buf pc) + len)) ;;
      if rc <? 0 then ret ()
      else
        d <- bufferevent_read b len ;;
        if zlen d =? 0 then ret ()
        else
          upd_pc p (λ x, set_pc_socks5_buf (pc_socks5_buf x ++ d) x) ;;
          socks5_loop 3 p.

(** ** XDPI *)

(** Connects if needed, then flushes what was held back. *)
Definition xdpi_open (p : positive) : M () :=
  pc <- get_pc p ;;
  opened <-
    match pc_local_bev pc with
    | Some _ => ret true
    | None =>
        match pc_ps pc with
        | None => ub
        | Some ps =>
            if bool_decide (ps_local_ip ps = None) || (ps_local_port ps =? 0)
            then upd_pc p (set_pc_xdpi_buf []) ;; ret false
            else
              b <- connect_server (pc_base pc) (ps_local_ip ps) (ps_local_port ps) ;;
              upd_pc p (set_pc_local_bev b) ;;
              match b with
              | None => ret false
              | Some lb =>
                  bufferevent_setcb lb tcp_proxy_c2s xfrp_proxy_event (Some p) ;;
                  bufferevent_enable lb true true ;;
                  ret true
              end
        end
    end ;;
  if negb opened then ret ()
  else
    pc <- get_pc p ;;
    (match pc_local_bev pc with
     | Some lb =>
         if 0 <? zlen (pc_xdpi_buf pc) then
           output_add lb (pc_xdpi_buf pc) ;; upd_pc p (set_pc_xdpi_buf [])
         else ret ()
     | None => ret ()
     end) ;;
    upd_pc p (set_pc_xdpi_state XDPI_VERIFIED).

Definition handle_xdpi (p b : positive) (len : Z) : M () :=
  if len =? 0 then ret ()
  else
    pc <- get_pc p ;;
    match (if bool_decide (pc_xdpi_state pc = XDPI_VERIFIED) then pc_local_bev pc else None) with
    | Some lb => remove_to_output b lb len ;; ret ()
    | None =>
        rc <- xdpi_buf_ensure p (u32 (zlen (pc_xdpi_buf pc) + len)) ;;
        if rc <? 0 then ret ()
        else
          d <- bufferevent_read b len ;;
          if zlen d =? 0 then ret ()
          else
            let buf := pc_xdpi_buf pc ++ d in
            upd_pc p (set_pc_xdpi_buf buf) ;;
            ok <- oracle ;;
            if negb ok then ret ()
            else
              let '(rc, st) := xdpi_engine (pc_xdpi_state pc) (pc_ps pc) buf in
              if rc <? 0 then
                upd_pc p (λ x, set_pc_xdpi_buf [] (set_pc_xdpi_state XDPI_BLOCKED x))
              else upd_pc p (set_pc_xdpi_state st) ;; xdpi_open p
    end.

(** ** Local service to server *)

(** [while (evbuffer_get_length(src) > 0) tmux_stream_write(...)]: ends with
    the last status and what is left of [src]. *)
Fixpoint write_loop (fuel : nat) (ctl : option positive) (src : bytes) (r : sref) : M (Z * bytes) :=
  match fuel with
  | O => ub
  | S fuel =>
      if zlen src =? 0 then ret (1, src)
      else
        res <- tmux_stream_write ctl src r ;;
        let '(written, rest) := res in
        if written <? 0 then ret (written, rest)
        else if written =? 0 then ret (0, rest)
        else write_loop fuel ctl rest r
  end.

(** A round that goes on removes at least one byte. *)
Definition write_fuel (src : bytes) : nat := S (length src).

Definition encode_src (p b : positive) : M bytes :=
  x <- get_bev b ;;
  pc <- get_pc p ;;
  mem <- oracle ;;
  sn <- gets (λ w, e_snappy (w_env w)) ;;
  let '(c, lft, out) := crypto_encode_evbuffer sn mem (pc_codec pc) (b_in x) in
  upd_pc p (set_pc_codec c) ;;
  put_bev b (set_b_in lft x) ;;
  ret out.

(** The encrypted leftover goes first: moved to the new queue, unless that
    queue cannot grow. *)
Definition take_pending (p : positive) : M bytes :=
  pc <- get_pc p ;;
  match pc_enc_pending pc with
  | Some (c :: d) =>
      ok <- oracle ;;
      if ok then upd_pc p (set_pc_enc_pending (Some [])) ;; ret (c :: d) else ret []
  | _ => ret []
  end.

(** The encrypted remainder is set aside, in a queue made on first use. *)
Definition stash_pending (p : positive) (rest : bytes) : M () :=
  pc <- get_pc p ;;
  have <- match pc_enc_pending pc with
          | Some d => ret (Some d)
          | None => ok <- oracle ;; ret (if ok then Some [] else None)
          end ;;
  match have with
  | None => ret ()
  | Some d =>
      ok <- oracle ;;
      upd_pc p (set_pc_enc_pending (Some (if ok then d ++ rest else d)))
  end.

Definition tcp_proxy_c2s_cb (b p : positive) : M () :=
  pc <- get_pc p ;;
  match pc_ctl_bev pc with
  | None => ret ()
  | Some ctl =>
      x <- get_bev b ;;
      mux <- gets (λ w, e_tcp_mux (w_env w)) ;;
      if zlen (b_in x) =? 0 then ret ()
      else if use_encryption (pc_codec pc) || use_compression (pc_codec pc) then
        ok <- oracle ;;
        if negb ok then ret ()
        else
          pending <- take_pending p ;;
          enc <- encode_src p b ;;
          let processed := pending ++ enc in
          if mux =? 0 then output_add ctl processed ;; ret ()
          else
            res <- write_loop (write_fuel processed) (Some ctl) processed (SClient p) ;;
            let '(st, rest) := res in
            if st <? 0 then del_proxy_client_by_stream_id (s_id (pc_stream pc))
            else if st =? 0 then
              stash_pending p rest ;; bufferevent_disable b true false
            else ret ()
      else if mux =? 0 then
        rc <- output_add ctl (b_in x) ;;
        if rc <? 0 then ret () else upd_bev b (set_b_in [])
      else
        res <- write_loop (write_fuel (b_in x)) (Some ctl) (b_in x) (SClient p) ;;
        let '(st, rest) := res in
        upd_bev b (set_b_in rest) ;;
        if st <? 0 then del_proxy_client_by_stream_id (s_id (pc_stream pc))
        else if st =? 0 then bufferevent_disable b true false
        else ret ()
  end.

(** ** Server to local service *)

(** Runs [src] through the client's decoder into the local connection; what
    the decoder leaves of [src] is returned. *)
Definition decode_to (p lb : positive) (src : bytes) : M bytes :=
  pc <- get_pc p ;;
  mem1 <- oracle ;; mem2 <- oracle ;;
  sn <- gets (λ w, e_snappy (w_env w)) ;;
  let '(c, lft, out) := proxy_crypto_decode_evbuffer sn mem1 mem2 (pc_codec pc) src in
  upd_pc p (set_pc_codec c) ;;
  (if zlen out =? 0 then ret () else output_add lb out ;; ret ()) ;;
  ret lft.

Definition tcp_proxy_s2c_cb (b p : positive) : M () :=
  pc <- get_pc p ;;
  match pc_local_bev pc with
  | None => ret ()
  | Some lb =>
      x <- get_bev b ;;
      mux <- gets (λ w, e_tcp_mux (w_env w)) ;;
      if zlen (b_in x) =? 0 then ret ()
      else if use_encryption (pc_codec pc) || use_compression (pc_codec pc) then
        ok <- oracle ;;
        if negb ok then ret ()
        else lft <- decode_to p lb (b_in x) ;; upd_bev b (set_b_in lft)
      else if mux =? 0 then
        rc <- output_add lb (b_in x) ;;
        if rc <? 0 then ret () else upd_bev b (set_b_in [])
      else ret ()
  end.

Definition socks5_proxy_s2c_cb (b p : positive) : M () :=
  x <- get_bev b ;;
  if zlen (b_in x) =? 0 then ret () else handle_socks5 p b (u32 (zlen (b_in x))).
Definition xdpi_proxy_s2c_cb (b p : positive) : M () :=
  x <- get_bev b ;;
  if zlen (b_in x) =? 0 then ret () else handle_xdpi p b (u32 (zlen (b_in x))).

(** ** A data frame ([tcpmux.c]) *)

(** The handler the demultiplexer passes: [handle_frps_msg] with the client or
    null. *)
Definition handler : Type := bytes → option positive → M ().

(** The final step of [process_data], once the payload has been consumed. *)
Definition data_done (r : sref) (processed length : Z) : M Z :=
  bout <- gets w_connect_bev ;;
  if negb (processed =? length) then
    s <- get_stream r ;;
    tcp_mux_send_win_update_rst bout (s_id s) ;;
    upd_stream r (set_s_state TMUX_LOCAL_CLOSE) ;;
    ret length
  else send_window_update bout r processed ;; ret length.

(** The payload to the handler: [false] is the [return 0] of a failed
    allocation or a short read. *)
Definition to_handler (handle_fn : handler) (b : positive) (length : Z) (pc : option positive)
    : M bool :=
  ok <- oracle ;;
  if negb ok then ret false
  else
    d <- bufferevent_read b length ;;
    if negb (zlen d =? length) then ret false
    else handle_fn d pc ;; ret true.

(** The payload through the decoder to the local connection. *)
Definition to_decoder (p lb b : positive) (length : Z) : M bool :=
  ok1 <- oracle ;; ok2 <- oracle ;;
  if negb (ok1 && ok2) then ret false
  else
    mem <- oracle ;;
    frame <- (if mem then bufferevent_read b length else ret []) ;;
    decode_to p lb frame ;;
    ret true.

Definition process_data (handle_fn : handler) (b : positive) (r : sref) (length flags : Z)
    (pc : option positive) : M Z :=
  s <- get_stream r ;;
  let stream_id := s_id s in
  ok <- process_flags flags r ;;
  if negb ok then ret 0
  else
    live <- get_stream_by_id stream_id ;;
    match live with
    | None => ret length
    | Some _ =>
        s <- get_stream r ;;
        if s_recv_window s <? length then ret 0
        else
          upd_stream r (set_s_recv_window (s_recv_window s - length)) ;;
          match pc with
          | None =>
              ok <- to_handler handle_fn b length None ;;
              if ok then data_done r length length else ret 0
          | Some p =>
              x <- get_pc p ;;
              let ps := pc_ps x in
              if bool_decide (pc_local_bev x = None) && negb (is_socks5_proxy ps)
                 && negb (has_service_type ps) then
                ok <- to_handler handle_fn b length (Some p) ;;
                if ok then data_done r length length else ret 0
              else if has_service_type ps then
                handle_xdpi p b length ;; data_done r length length
              else if is_socks5_proxy ps then
                handle_socks5 p b length ;; data_done r length length
              else if is_udp_proxy ps then
                ok <- to_handler handle_fn b length (Some p) ;;
                if ok then data_done r length length else ret 0
              else
                match pc_local_bev x with
                | None => ub
                | Some lb =>
                    if use_encryption (pc_codec x) || use_compression (pc_codec x) then
                      ok <- to_decoder p lb b length ;;
                      if ok then data_done r length length else ret 0
                    else
                      n <- remove_to_output b lb length ;;
                      data_done r n length
                end
          end
    end.

(** ** Life cycle ([client.c]) *)

Definition xfrp_worker_event_cb (b : positive) (eof : bool) (ctx : option positive) : M () :=
  if negb eof then ret ()
  else
    match ctx with
    | Some p =>
        pc <- get_pc p ;;
        if bool_decide (pc_ctl_bev pc = Some b) then upd_pc p (set_pc_ctl_bev None) else ret ()
    | None => ret ()
    end ;;
    bufferevent_free b.

(** The status is ignored by the caller. *)
Definition send_client_data_tail (p : positive) : M () :=
  pc <- get_pc p ;;
  if zlen (pc_data_tail pc) =? 0 then ret ()
  else
    match pc_local_bev pc with
    | None => ret ()
    | Some lb =>
        (if use_encryption (pc_codec pc) || use_compression (pc_codec pc) then
           ok1 <- oracle ;; ok2 <- oracle ;;
           if negb (ok1 && ok2) then ret ()
           else
             mem <- oracle ;;
             decode_to p lb (if mem then pc_data_tail pc else []) ;; ret ()
         else output_add lb (pc_data_tail pc) ;; ret ()) ;;
        upd_pc p (set_pc_data_tail [])
    end.

Definition handle_post_connection_data (p : positive) : M () :=
  pc <- get_pc p ;;
  if is_socks5_proxy (pc_ps pc) then
    (match pc_local_bev pc with
     | Some lb =>
         if 0 <? zlen (pc_socks5_buf pc) then
           output_add lb (pc_socks5_buf pc) ;; upd_pc p (set_pc_socks5_buf [])
         else ret ()
     | None => ret ()
     end) ;;
    reply p [0x05; 0x00; 0x00; 0x01; 0x00; 0x00; 0x00; 0x00; 0x00; 0x00] ;;
    upd_pc p (set_pc_state SOCKS5_ESTABLISHED)
  else if 0 <? zlen (pc_data_tail pc) then send_client_data_tail p
  else ret ().

Definition handle_proxy_disconnect (p b : positive) : M () :=
  pc <- get_pc p ;;
  match pc_ps pc with
  | None => ret ()
  | Some _ =>
      (match pc_ctl_bev pc with
       | None => ret ()
       | Some ctl =>
           x <- get_bev b ;;
           mux <- gets (λ w, e_tcp_mux (w_env w)) ;;
           if mux =? 0 then
             (if zlen (b_in x) =? 0 then ret () else
              rc <- output_add ctl (b_in x) ;;
              if rc <? 0 then ret () else upd_bev b (set_b_in []))
           else
             res <- write_loop (write_fuel (b_in x)) (Some ctl) (b_in x) (SClient p) ;;
             upd_bev b (set_b_in (snd res))
       end) ;;
      bufferevent_free b ;;
      upd_pc p (set_pc_local_bev None) ;;
      pc <- get_pc p ;;
      if s_send_window (pc_stream pc) =? 0 then upd_pc p (set_pc_pending_close true)
      else tmux_stream_close (pc_ctl_bev pc) (SClient p) ;; ret ()
  end.

(** [what]: [true] for EOF or error, [false] for connected. *)
Definition xfrp_proxy_event_cb (b p : positive) (eof connected : bool) : M () :=
  pc <- get_pc p ;;
  if eof then
    if is_udp_proxy (pc_ps pc) then ret () else handle_proxy_disconnect p b
  else if connected then handle_post_connection_data p
  else ret ().

Definition setup_proxy_callbacks (ps : option proxy_service) : data_cb * data_cb :=
  if is_udp_proxy ps then (udp_proxy_c2s, udp_proxy_s2c)
  else if is_socks5_proxy ps then (tcp_proxy_c2s, socks5_proxy_s2c)
  else if has_service_type ps then (tcp_proxy_c2s, xdpi_proxy_s2c)
  else (tcp_proxy_c2s, tcp_proxy_s2c).

Definition setup_local_connection (p : positive) : M Z :=
  pc <- get_pc p ;;
  match pc_ps pc with
  | None => ub
  | Some ps =>
      let finish b :=
        upd_pc p (set_pc_local_bev b) ;;
        match b with
        | Some _ => ret 1
        | None => del_proxy_client_by_stream_id (pc_stream_id pc) ;; ret (-1)
        end in
      if is_udp_proxy (Some ps) then b <- connect_udp_server (pc_base pc) ;; finish b
      else if is_uds_proxy (Some ps) then finish None
      else if negb (is_socks5_proxy (Some ps)) && negb (has_service_type (Some ps)) then
        b <- connect_server (pc_base pc) (ps_local_ip ps) (ps_local_port ps) ;; finish b
      else ret 0
  end.

(** The codec of the new connection: contexts exist only when the token gave a
    key. *)
Definition init_codec (ps : proxy_service) : M codec :=
  token <- gets (λ w, e_auth_token (w_env w)) ;;
  kdf <- gets (λ w, e_pbkdf2 (w_env w)) ;;
  match (if ps_use_encryption ps then crypto_derive_key kdf token else None) with
  | None => ret (mkCodec (ps_use_encryption ps) (ps_use_compression ps) None None)
  | Some key =>
      m1 <- oracle ;; iv <- random_block ;; m2 <- oracle ;;
      ret (mkCodec (ps_use_encryption ps) (ps_use_compression ps)
             (crypto_ctx_new_writer m1 (Some iv) key) (crypto_ctx_new_reader m2 key))
  end.

Definition start_xfrp_tunnel (p : positive) : M () :=
  pc <- get_pc p ;;
  match pc_ctl_bev pc, pc_ps pc with
  | Some ctl, Some ps =>
      if negb (pc_base pc) || ((ps_local_port ps =? 0) && negb (is_uds_proxy (Some ps)))
      then ret ()
      else
        c <- init_codec ps ;;
        upd_pc p (set_pc_codec c) ;;
        rc <- setup_local_connection p ;;
        if rc <=? 0 then ret ()
        else
          let '(c2s, s2c) := setup_proxy_callbacks (Some ps) in
          mux <- gets (λ w, e_tcp_mux (w_env w)) ;;
          (if mux =? 0 then
             bufferevent_setcb ctl s2c xfrp_worker_event (Some p) ;;
             bufferevent_enable ctl true true
           else ret ()) ;;
          pc <- get_pc p ;;
          match pc_local_bev pc with
          | None => ub
          | Some lb =>
              bufferevent_setcb lb c2s xfrp_proxy_event (Some p) ;;
              bufferevent_enable lb true true
          end
  | _, _ => ret ()
  end.

(** The tail of [handle_type_start_work_conn] ([control.c]), for a service
    that was found and is available: [tail] is what followed the message. *)
Definition start_work_conn (p : positive) (ps : proxy_service) (tail : bytes) : M () :=
  upd_pc p (set_pc_ps (Some ps)) ;;
  ok <- (if 0 <? zlen tail then oracle else ret true) ;;
  if negb ok then ret ()
  else
    (if 0 <? zlen tail then upd_pc p (set_pc_data_tail tail) else ret ()) ;;
    if is_proxy_type (Some ps) "xtcp" then ret ()
    else
      start_xfrp_tunnel p ;;
      (* [set_client_work_start(client, 1)] *)
      pc <- get_pc p ;;
      match pc_ps pc with
      | None => ret ()
      | Some _ => upd_pc p (set_pc_work_started true)
      end.

End Proxy.
