(* ===== verification/Frame.v ===== *)
(** * Frame conditions

    Which parts of the shared state an operation leaves alone, whatever its
    arguments and whatever the environment answers.  A frame condition is a
    preorder on states, [pres R m] says that every run of [m] respects it.
    Two interfaces say which elementary writes respect [R]: [MuxFrame] those of
    [tcpmux.c] and the client table, [DataFrame] also those of the data path.
    The operations' frame lemmas are proved once, against the interfaces. *)

From S2P Require Import Prelude Endian Evp CryptoStream World Mux ProxyTcp.

Section Pres.
Context `{Mbedtls}.

Definition pres (R : relation world) {A} (m : M A) : Prop :=
  ∀ w a w', m w = Some (a, w') → R w w'.

(** The writes of the multiplexer. *)
Class MuxFrame (R : relation world) : Prop := {
  mf_pre :: PreOrder R;
  mf_tick : ∀ w n, R w (set_w_tick n w);
  mf_bevs : ∀ w v, R w (set_w_bevs v w);
  mf_main : ∀ w s, R w (set_w_main_stream s w);
  mf_abandon : ∀ w s, R w (set_w_abandon s w);
  mf_stream : ∀ w p x s, w_pcs w !! p = Some x →
    R w (set_w_pcs (<[p := set_pc_stream s x]> (w_pcs w)) w);
  mf_free : ∀ w p, R w (set_w_pcs (delete p (w_pcs w)) w);
  mf_all_stream : ∀ w v, R w (set_w_all_stream v w);
  mf_all_pc : ∀ w v, R w (set_w_all_pc v w);
  mf_cache : ∀ w v, R w (set_w_mux_cached v w);
  mf_away : ∀ w v, R w (set_w_remote_go_away v w);
}.

(** The writes of the data path. *)
Class DataFrame (R : relation world) : Prop := {
  df_mux :: MuxFrame R;
  df_next : ∀ w v, R w (set_w_next v w);
  df_pcs : ∀ w v, R w (set_w_pcs v w);
}.

(** A frame condition joins the postcondition of a run. *)
Lemma wp_pres {A} (R : relation world) (m : M A) Q w :
  pres R m → wp m Q w → wp m (λ a w', Q a w' ∧ R w w') w.
Proof.
  intros Hp. unfold wp. destruct (m w) as [[a w']|] eqn:E; [|done]. intros HQ.
  split; [done|]. by eapply Hp.
Qed.

Section Basic.
Context (R : relation world) `{!MuxFrame R}.

Lemma pres_ret {A} (a : A) : pres R (ret a).
Proof. by intros w a' w' [= <- <-]. Qed.
Lemma pres_ub {A} : pres R (@ub _ A).
Proof. by intros w a w'. Qed.
Lemma pres_gets {A} (f : world → A) : pres R (gets f).
Proof. by intros w a w' [= <- <-]. Qed.
Lemma pres_modify f : (∀ w, R w (f w)) → pres R (modify f).
Proof. intros Hf w a w' [= <- <-]. apply Hf. Qed.
Lemma pres_bind {A B} (m : M A) (f : A → M B) :
  pres R m → (∀ a, pres R (f a)) → pres R (bind m f).
Proof.
  intros Hm Hf w b w'. unfold bind. destruct (m w) as [[a w1]|] eqn:E; [|done]. intros E2.
  apply Hf in E2. apply Hm in E. by etransitivity.
Qed.
Lemma pres_oracle : pres R oracle.
Proof. intros w a w' [= <- <-]. apply mf_tick. Qed.
Lemma pres_random_block : pres R random_block.
Proof. intros w a w' [= <- <-]. apply mf_tick. Qed.
Lemma pres_get_bev b : pres R (get_bev b).
Proof. intros w a w'. unfold get_bev. destruct (w_bevs w !! b); [|done]. by intros [= <- <-]. Qed.
Lemma pres_get_pc b : pres R (get_pc b).
Proof. intros w a w'. unfold get_pc. destruct (w_pcs w !! b); [|done]. by intros [= <- <-]. Qed.
Lemma pres_get_stream r : pres R (get_stream r).
Proof. intros w a w'. unfold get_stream. destruct (lookup_stream w r); [|done]. by intros [= <- <-]. Qed.
Lemma pres_upd_stream r f : pres R (upd_stream r f).
Proof.
  destruct r as [|p|]; intros w a w'; simpl.
  - intros [= <- <-]. apply mf_main.
  - unfold upd_pc, put_pc, get_pc, bind. destruct (w_pcs w !! p) eqn:E; [|done].
    intros [= <- <-]. by apply mf_stream.
  - intros [= <- <-]. apply mf_abandon.
Qed.
End Basic.
End Pres.

#[export] Hint Resolve pres_ret pres_ub pres_gets pres_oracle pres_random_block
  pres_get_bev pres_get_pc pres_get_stream pres_upd_stream : pres.
(** A write allowed by an interface. *)
Ltac frame_write :=
  first [apply mf_tick | apply mf_bevs | apply mf_main | apply mf_abandon | apply mf_free
        | apply mf_all_stream | apply mf_all_pc | apply mf_cache | apply mf_away
        | apply df_next | apply df_pcs].
(** Goes through the binds and case distinctions of an operation. *)
Ltac pres_step :=
  first
    [ solve [eauto with pres typeclass_instances]
    | apply pres_modify; intros; frame_write
    | apply (pres_bind _); [|intros]
    | progress intros
    | match goal with
      | |- pres _ (if ?b then _ else _) => destruct b
      | |- pres _ (match ?x with _ => _ end) => destruct x
      | |- pres _ (let '(_, _) := ?x in _) => destruct x
      end ].
Ltac pres_auto := repeat pres_step.

Section MuxPres.
Context `{Mbedtls} (R : relation world) `{!MuxFrame R}.

Lemma pres_put_bev b x : pres R (put_bev b x). Proof. unfold put_bev. pres_auto. Qed.
#[local] Hint Resolve pres_put_bev : pres.
Lemma pres_upd_bev b f : pres R (upd_bev b f). Proof. unfold upd_bev, put_bev. pres_auto. Qed.
#[local] Hint Resolve pres_upd_bev : pres.
Lemma pres_output_add b d : pres R (output_add b d). Proof. unfold output_add. pres_auto. Qed.
#[local] Hint Resolve pres_output_add : pres.
Lemma pres_bev_write b d : pres R (bufferevent_write b d). Proof. unfold bufferevent_write. pres_auto. Qed.
#[local] Hint Resolve pres_bev_write : pres.
Lemma pres_bev_read b n : pres R (bufferevent_read b n). Proof. unfold bufferevent_read. pres_auto. Qed.
#[local] Hint Resolve pres_bev_read : pres.
Lemma pres_bev_free b : pres R (bufferevent_free b). Proof. unfold bufferevent_free. pres_auto. Qed.
#[local] Hint Resolve pres_bev_free : pres.
Lemma pres_bev_enable b x y : pres R (bufferevent_enable b x y).
Proof. unfold bufferevent_enable. pres_auto. Qed.
#[local] Hint Resolve pres_bev_enable : pres.
Lemma pres_bev_setcb b x y z : pres R (bufferevent_setcb b x y z).
Proof. unfold bufferevent_setcb. pres_auto. Qed.
#[local] Hint Resolve pres_bev_setcb : pres.
Lemma pres_input_drain b n : pres R (input_drain b n). Proof. unfold input_drain. pres_auto. Qed.
#[local] Hint Resolve pres_input_drain : pres.
Lemma pres_remove_to_output b d n : pres R (remove_to_output b d n).
Proof. unfold remove_to_output. pres_auto. Qed.
#[local] Hint Resolve pres_remove_to_output : pres.
Lemma pres_tcp_mux_flag : pres R tcp_mux_flag. Proof. unfold tcp_mux_flag. pres_auto. Qed.
#[local] Hint Resolve pres_tcp_mux_flag : pres.
Lemma pres_win_update b f i d : pres R (tcp_mux_send_win_update b f i d).
Proof. unfold tcp_mux_send_win_update. pres_auto. Qed.
#[local] Hint Resolve pres_win_update : pres.
Lemma pres_win_update_rst b i : pres R (tcp_mux_send_win_update_rst b i).
Proof. unfold tcp_mux_send_win_update_rst, if_mux. pres_auto. Qed.
#[local] Hint Resolve pres_win_update_rst : pres.
Lemma pres_send_header b t f i l : pres R (send_header b t f i l).
Proof. unfold send_header, if_mux. pres_auto. Qed.
#[local] Hint Resolve pres_send_header : pres.
Lemma pres_get_send_flags r : pres R (get_send_flags r). Proof. unfold get_send_flags. pres_auto. Qed.
#[local] Hint Resolve pres_get_send_flags : pres.
Lemma pres_get_proxy_client i : pres R (get_proxy_client i). Proof. unfold get_proxy_client. pres_auto. Qed.
#[local] Hint Resolve pres_get_proxy_client : pres.
Lemma pres_free_proxy_client p : pres R (free_proxy_client p).
Proof. unfold free_proxy_client. pres_auto. Qed.
#[local] Hint Resolve pres_free_proxy_client : pres.
Lemma pres_del_proxy_client_by_stream_id i : pres R (del_proxy_client_by_stream_id i).
Proof. unfold del_proxy_client_by_stream_id, del_stream, del_proxy_client. pres_auto. Qed.
#[local] Hint Resolve pres_del_proxy_client_by_stream_id : pres.
Lemma pres_process_flags f r : pres R (process_flags f r). Proof. unfold process_flags. pres_auto. Qed.
#[local] Hint Resolve pres_process_flags : pres.
Lemma pres_send_window_update b r l : pres R (send_window_update b r l).
Proof. unfold send_window_update. pres_auto. Qed.
#[local] Hint Resolve pres_send_window_update : pres.
Lemma pres_tmux_stream_close b r : pres R (tmux_stream_close b r).
Proof. unfold tmux_stream_close. pres_auto. Qed.
#[local] Hint Resolve pres_tmux_stream_close : pres.
Lemma pres_tmux_stream_write b d r : pres R (tmux_stream_write b d r).
Proof. unfold tmux_stream_write. pres_auto. Qed.
#[local] Hint Resolve pres_tmux_stream_write : pres.
Lemma pres_handle_tcp_mux_stream h : pres R (handle_tcp_mux_stream h).
Proof.
  unfold handle_tcp_mux_stream, incoming_stream, get_stream_by_id, incr_send_window,
    tcp_mux_send_go_away, get_stream_by_id. pres_auto.
Qed.
#[local] Hint Resolve pres_handle_tcp_mux_stream : pres.
Lemma pres_handle_tcp_mux_ping h : pres R (handle_tcp_mux_ping h).
Proof. unfold handle_tcp_mux_ping, tcp_mux_handle_ping. pres_auto. Qed.
#[local] Hint Resolve pres_handle_tcp_mux_ping : pres.
Lemma pres_handle_tcp_mux_go_away h : pres R (handle_tcp_mux_go_away h).
Proof. unfold handle_tcp_mux_go_away. pres_auto. Qed.
#[local] Hint Resolve pres_handle_tcp_mux_go_away : pres.
Lemma pres_reply p d : pres R (reply p d). Proof. unfold reply. pres_auto. Qed.
#[local] Hint Resolve pres_reply : pres.
Lemma pres_data_done r a b : pres R (data_done r a b). Proof. unfold data_done. pres_auto. Qed.
#[local] Hint Resolve pres_data_done : pres.
End MuxPres.

#[export] Hint Resolve pres_put_bev pres_upd_bev pres_output_add pres_bev_write pres_bev_read pres_bev_free pres_bev_enable pres_bev_setcb pres_input_drain pres_remove_to_output pres_tcp_mux_flag pres_win_update pres_win_update_rst pres_send_header pres_get_send_flags pres_get_proxy_client pres_free_proxy_client pres_del_proxy_client_by_stream_id pres_process_flags pres_send_window_update pres_tmux_stream_close pres_tmux_stream_write pres_handle_tcp_mux_stream pres_handle_tcp_mux_ping pres_handle_tcp_mux_go_away pres_reply pres_data_done : pres.

Section DataPres.
Context `{Mbedtls} (R : relation world) `{!DataFrame R}.

Lemma pres_fresh : pres R fresh.
Proof. intros w a w' [= <- <-]. apply df_next. Qed.
#[local] Hint Resolve pres_fresh : pres.
Lemma pres_upd_pc b f : pres R (upd_pc b f). Proof. unfold upd_pc, put_pc. pres_auto. Qed.
#[local] Hint Resolve pres_upd_pc : pres.
Lemma pres_bev_new : pres R bufferevent_new. Proof. unfold bufferevent_new. pres_auto. Qed.
#[local] Hint Resolve pres_bev_new : pres.
Lemma pres_socks5_proxy_connect p a : pres R (socks5_proxy_connect p a).
Proof. unfold socks5_proxy_connect. pres_auto. Qed.
#[local] Hint Resolve pres_socks5_proxy_connect : pres.
Lemma pres_connect_server x y z : pres R (connect_server x y z).
Proof. unfold connect_server. pres_auto. Qed.
#[local] Hint Resolve pres_connect_server : pres.
Lemma pres_socks5_loop fuel p : pres R (socks5_loop fuel p).
Proof.
  induction fuel as [|fuel IH]; simpl; [apply pres_ub|].
  unfold socks5_init_step, socks5_handshake_step. pres_auto.
Qed.
#[local] Hint Resolve pres_socks5_loop : pres.
Lemma pres_ensure_cap a b c : pres R (ensure_cap a b c). Proof. unfold ensure_cap. pres_auto. Qed.
#[local] Hint Resolve pres_ensure_cap : pres.
Lemma pres_handle_socks5 p b l : pres R (handle_socks5 p b l).
Proof. unfold handle_socks5, socks5_buf_ensure. pres_auto. Qed.
#[local] Hint Resolve pres_handle_socks5 : pres.
Lemma pres_handle_xdpi p b l : pres R (handle_xdpi p b l).
Proof. unfold handle_xdpi, xdpi_buf_ensure, xdpi_open. pres_auto. Qed.
#[local] Hint Resolve pres_handle_xdpi : pres.
Lemma pres_decode_to p b d : pres R (decode_to p b d). Proof. unfold decode_to. pres_auto. Qed.
#[local] Hint Resolve pres_decode_to : pres.
Lemma pres_process_data h b r l f pc : (∀ d o, pres R (h d o)) → pres R (process_data h b r l f pc).
Proof.
  intros Hh. unfold process_data, to_handler, to_decoder, get_stream_by_id. pres_auto.
Qed.
#[local] Hint Resolve pres_process_data : pres.
End DataPres.
