(* ===== verification/Demux.v ===== *)
(** * The demultiplexer

    Models [handle_tcp_mux] of [src/src/control.c]: cutting the byte stream of
    the main connection into frames, with its static variables (header,
    remaining payload length, header bytes read so far) and [cur_stream], and
    the read callback in front of it. *)

From S2P Require Import Prelude Endian Evp CryptoStream World Mux ProxyTcp.


Section Demux.
Context `{Mbedtls} (handle_fn : handler).

(** How a round of [while (len > 0)] ends. *)
Inductive round_end := RBreak | RNext (len : Z).

(** The header in the static buffer. *)
Definition read_hdr : M tcp_mux_header :=
  l <- gets w_hdr ;;
  match hdr_of_bytes l with Some h => ret h | None => ub end.

(** Header accumulation: the remaining [len] once the header is complete,
    [None] for [break]. *)
Definition fill_header (b : positive) (len : Z) : M (option Z) :=
  partial <- gets w_partial_header ;;
  if 0 <? partial then
    d <- bufferevent_read b (sizeof_tcp_mux_header - partial) ;;
    modify (λ w, set_w_hdr (ztake partial (w_hdr w) ++ d ++ zdrop (partial + zlen d) (w_hdr w)) w) ;;
    let partial' := u8 (partial + zlen d) in
    modify (set_w_partial_header partial') ;;
    if partial' <? sizeof_tcp_mux_header then ret None
    else modify (set_w_partial_header 0) ;; ret (Some (len - zlen d))
  else
    modify (set_w_hdr (replicate 12 0)) ;;
    let n := if len <? sizeof_tcp_mux_header then len else sizeof_tcp_mux_header in
    d <- bufferevent_read b n ;;
    modify (set_w_hdr (d ++ replicate (12 - length d) 0)) ;;
    if len <? sizeof_tcp_mux_header then
      modify (set_w_partial_header (u8 (zlen d))) ;; ret None
    else if negb (zlen d =? sizeof_tcp_mux_header) then ret None
    else ret (Some (len - zlen d)).

(** Discarding the payload of an unknown stream. *)
Definition discard (b : positive) (to_read len stream_len : Z) : M round_end :=
  input_drain b to_read ;;
  modify (set_w_stream_len (stream_len - to_read)) ;;
  (if stream_len - to_read =? 0 then
     modify (set_w_abandon zero_stream) ;; set_cur_stream None
   else ret ()) ;;
  ret (RNext (len - to_read)).

(** The part after the header. *)
Definition consume (b : positive) (cur : option sref) (len : Z) : M round_end :=
  h <- read_hdr ;;
  stream_len <- gets w_stream_len ;;
  if (hdr_type h =? TMUX_DATA) && (0 <? stream_len) then
    let to_read := if u32 len <? stream_len then u32 len else stream_len in
    match cur with
    | Some SAbandon => discard b to_read len stream_len
    | None => ub
    | Some r =>
        s <- get_stream r ;;
        if to_read <? stream_len then set_cur_stream (Some r) ;; ret RBreak
        else
          let flags := ntohs (hdr_flags h) in
          pc <- get_proxy_client (s_id s) ;;
          process_data handle_fn b r stream_len flags pc ;;
          modify (set_w_stream_len 0) ;;
          set_cur_stream None ;;
          ret (RNext (len - stream_len))
    end
  else if hdr_type h =? WINDOW_UPDATE then
    handle_tcp_mux_stream h ;; set_cur_stream None ;; ret (RNext len)
  else if hdr_type h =? PING then
    handle_tcp_mux_ping h ;; set_cur_stream None ;; ret (RNext len)
  else if hdr_type h =? GO_AWAY then
    handle_tcp_mux_go_away h ;; set_cur_stream None ;; ret (RNext len)
  else ret RBreak.

(** The part after a complete header: [len] bytes are left. *)
Definition dispatch (b : positive) (len : Z) : M round_end :=
  h <- read_hdr ;;
  if negb (validate_tcp_mux_protocol h) then ret RBreak
  else if hdr_type h =? TMUX_DATA then
    let stream_id := ntohl (hdr_stream_id h) in
    let stream_len := ntohl (hdr_length h) in
    modify (set_w_stream_len stream_len) ;;
    if MAX_STREAM_WINDOW_SIZE <? stream_len then ret RBreak
    else
      known <- get_stream_by_id stream_id ;;
      match known with
      | None =>
          if 0 <? stream_len then
            if len =? 0 then set_cur_stream (Some SAbandon) ;; ret RBreak
            else consume b (Some SAbandon) len
          else ret (RNext len)
      | Some r =>
          if len =? 0 then set_cur_stream (Some r) ;; ret RBreak
          else consume b (Some r) len
      end
  else consume b None len.

Definition demux_round (b : positive) (len : Z) : M round_end :=
  cur <- get_cur_stream ;;
  match cur with
  | Some r => consume b (Some r) len
  | None =>
      full <- fill_header b len ;;
      match full with
      | None => ret RBreak
      | Some len => dispatch b len
      end
  end.

(** [false]: the fuel ran out ([demux_safe] shows it does not). *)
Fixpoint demux_loop (fuel : nat) (b : positive) (len : Z) : M bool :=
  if len <=? 0 then ret true
  else match fuel with
  | O => ret false
  | S fuel =>
      e <- demux_round b len ;;
      match e with
      | RBreak => ret true
      | RNext len => demux_loop fuel b len
      end
  end.

Definition handle_tcp_mux (b : positive) (len : Z) : M bool := demux_loop (Z.to_nat len) b len.

(** The reset: [handle_tcp_mux(NULL, 0, NULL)]. *)
Definition handle_tcp_mux_reset : M () :=
  modify (set_w_hdr (replicate 12 0)) ;;
  modify (set_w_stream_len 0) ;;
  modify (set_w_partial_header 0) ;;
  set_cur_stream None.

(** Bytes arrive on the connection and the read callback runs: [recv_cb] calls
    the demultiplexer with the length of the input queue. *)
Definition receive (b : positive) (data : bytes) : M bool :=
  upd_bev b (λ x, set_b_in (b_in x ++ data) x) ;;
  x <- get_bev b ;;
  handle_tcp_mux b (zlen (b_in x)).

Fixpoint receive_all (b : positive) (chunks : list bytes) : M bool :=
  match chunks with
  | [] => ret true
  | c :: chunks => ok <- receive b c ;; if ok then receive_all b chunks else ret false
  end.

End Demux.
