(* ===== verification/ProxySafe.v ===== *)
(** * Memory safety of the data path

    [process_data] and the protocol handlers it dispatches to never touch
    freed memory and keep the shared state well-formed, provided the message
    handler does.  [handler_ok] is the interface: what the demultiplexer needs
    of the handler it is given. *)

From S2P Require Import Prelude Growth Endian Evp CryptoStream World Mux MuxInv MuxSafe MuxThm ProxyTcp Frame Demux.

Section Good.
Context `{Mbedtls}.

(** Nothing registered or live went away, and the demultiplexer's own variables
    are untouched. *)
Record evolves (w w' : world) : Prop := {
  ev_stream : ∀ id r, w_all_stream w !! id = Some r → w_all_stream w' !! id = Some r;
  ev_connect : w_connect_bev w' = w_connect_bev w;
  ev_hdr : w_hdr w' = w_hdr w;
  ev_partial : w_partial_header w' = w_partial_header w;
  ev_ids : ∀ r s, lookup_stream w r = Some s →
    ∃ s', lookup_stream w' r = Some s' ∧ s_id s' = s_id s;
  ev_bev : ∀ b, is_Some (w_bevs w !! b) → is_Some (w_bevs w' !! b);
}.

#[global] Instance evolves_preorder : PreOrder evolves.
Proof.
  split; [intros x; constructor; eauto|]. intros x y z [] []. constructor; try congruence; eauto.
  intros r s E. edestruct ev_ids0 as (s1 & E1 & H1); [done|].
  edestruct ev_ids1 as (s2 & E2 & H2); [done|]. exists s2. split; congruence.
Qed.

Definition good (w w' : world) : Prop := mux_ok w' ∧ evolves w w'.

Lemma good_trans w1 w2 w3 : good w1 w2 → good w2 w3 → good w1 w3.
Proof. intros [_ E1] [O2 E2]. split; [done|by etransitivity]. Qed.

Lemma good_refl w : mux_ok w → good w w.
Proof. by split. Qed.

Lemma stays_good w w' : mux_ok w → stays w w' → good w w'.
Proof.
  intros Ok S. split; [by eapply mux_ok_stays|].
  pose proof (λ r s, stays_lookup w w' r s S) as Hl. destruct S as [K _].
  constructor; try (by apply K); [|done]. intros id r. by rewrite (k_all_stream _ _ K).
Qed.

Lemma good_live w w' p : good w w' → is_Some (w_pcs w !! p) → is_Some (w_pcs w' !! p).
Proof.
  intros [_ E] [x Ex]. destruct (ev_ids _ _ E (SClient p) (pc_stream x)) as (s & Es & _).
  { simpl. by rewrite Ex. }
  simpl in Es. destruct (w_pcs w' !! p); [by eexists|done].
Qed.

Lemma good_registered w w' r s :
  good w w' → registered w r s → ∃ s', registered w' r s' ∧ s_id s' = s_id s.
Proof.
  intros [_ E] [Hin El]. destruct (ev_ids _ _ E r s El) as (s' & El' & Hi).
  exists s'. split; [|done]. split; [by rewrite Hi; apply (ev_stream _ _ E)|done].
Qed.

Lemma client_registered w p x :
  mux_ok w → w_pcs w !! p = Some x → registered w (SClient p) (pc_stream x).
Proof.
  intros Ok Ep. pose proof (ok_pc _ Ok _ _ Ep) as Hp. split; [|simpl; by rewrite Ep].
  rewrite (pc_ok_id _ _ _ Hp). by apply (ok_all_pc _ Ok _ _ (pc_ok_table _ _ _ Hp)).
Qed.

Lemma ctl_live w p x : mux_ok w → w_pcs w !! p = Some x → bev_live w (pc_ctl_bev x).
Proof.
  intros Ok Ep b Hb. apply (ok_connect _ Ok). by apply (pc_ok_ctl _ _ _ (ok_pc _ Ok _ _ Ep)).
Qed.

(** ** Updating a client *)

(** A connection no client owns. *)
Definition unowned (w : world) (b : positive) : Prop :=
  is_Some (w_bevs w !! b) ∧ w_connect_bev w ≠ Some b ∧
  ∀ p x, w_pcs w !! p = Some x → pc_local_bev x ≠ Some b.

(** [y] may replace [x]: same identity, its control connection is the same or
    the main one, and its local connection is the same, none, or one nobody
    owned. *)
Definition may_become (w : world) (x y : proxy_client) : Prop :=
  pc_stream_id y = pc_stream_id x ∧ pc_stream y = pc_stream x ∧
  (pc_ctl_bev y = pc_ctl_bev x ∨ pc_ctl_bev y = w_connect_bev w) ∧
  (pc_local_bev y = pc_local_bev x ∨ pc_local_bev y = None ∨
   ∃ b, pc_local_bev y = Some b ∧ unowned w b).

Lemma good_put_pc w p x y :
  mux_ok w → w_pcs w !! p = Some x → may_become w x y →
  good w (set_w_pcs (<[p := y]> (w_pcs w)) w).
Proof.
  intros Ok Ep (Hid & Hs & Hc & Hl). pose proof (ok_pc _ Ok _ _ Ep) as Hx.
  assert (∀ b, pc_local_bev y = Some b →
    is_Some (w_bevs w !! b) ∧ w_connect_bev w ≠ Some b ∧
    ∀ q z, q ≠ p → w_pcs w !! q = Some z → pc_local_bev z ≠ Some b) as Hloc.
  { intros b Hb. destruct Hl as [Hl|[Hl|(b' & Hl & U1 & U2 & U3)]]; [|congruence|].
    - rewrite Hl in Hb. destruct (pc_ok_local _ _ _ Hx b Hb). split_and!; [done|done|].
      intros q z Hq Ez Hz. apply Hq. by eapply (ok_inj _ Ok).
    - assert (b' = b) as -> by congruence. eauto. }
  split.
  - constructor; simpl.
    + intros q z [[<- <-]|[Hne E]]%lookup_insert_Some.
      * constructor; simpl; rewrite ?Hid, ?Hs; try (by apply Hx).
        -- intros b Hb. destruct Hc as [Hc|Hc]; [apply Hx|]; congruence.
        -- intros b Hb. destruct (Hloc b Hb) as (? & ? & _). done.
      * destruct (ok_pc _ Ok _ _ E). by constructor.
    + intros q1 q2 z1 z2 b [[<- <-]|[Hne1 E1]]%lookup_insert_Some
        [[<- <-]|[Hne2 E2]]%lookup_insert_Some H1 H2; [done| | |].
      * exfalso. destruct (Hloc b H1) as (_ & _ & Hn). by eapply (Hn q2 z2).
      * exfalso. destruct (Hloc b H2) as (_ & _ & Hn). by eapply (Hn q1 z1).
      * by eapply (ok_inj _ Ok).
    + intros id q Hin. destruct (ok_all_pc _ Ok _ _ Hin) as (? & z & Ez & Hz). split; [done|].
      destruct (decide (q = p)) as [->|Hne].
      * exists y. rewrite lookup_insert_eq. split; [done|]. congruence.
      * exists z. by rewrite lookup_insert_ne.
    + apply (ok_all_stream _ Ok).
    + apply (ok_main _ Ok).
    + apply (ok_connect _ Ok).
    + intros q z [[<- <-]|[Hne E]]%lookup_insert_Some; by eapply (ok_fresh_pc _ Ok).
    + apply (ok_fresh_bev _ Ok).
    + apply (ok_session _ Ok).
  - constructor; try done. intros [|q|] s; simpl; try by eauto.
    destruct (decide (p = q)) as [<-|Hne]; [|rewrite lookup_insert_ne by done; eauto].
    rewrite lookup_insert_eq, Ep. intros [= <-]. simpl. rewrite Hs. eauto.
Qed.

Lemma wp_upd_pc_good p f w x :
  mux_ok w → w_pcs w !! p = Some x → may_become w x (f x) →
  wp (upd_pc p f) (λ _ w', good w w' ∧ w_pcs w' !! p = Some (f x) ∧ w_bevs w' = w_bevs w) w.
Proof.
  intros Ok Ep Hm. apply (proj2 (wp_upd_pc p f _ w x Ep)). split; [by eapply good_put_pc|].
  split; [apply lookup_insert_eq|done].
Qed.

(** Field updates that do not concern ownership. *)
Lemma may_become_same w x y :
  pc_stream_id y = pc_stream_id x → pc_stream y = pc_stream x → pc_ctl_bev y = pc_ctl_bev x →
  pc_local_bev y = pc_local_bev x → may_become w x y.
Proof. unfold may_become. auto. Qed.

(** ** New connections *)

Lemma good_new_bev w x :
  mux_ok w →
  let w' := set_w_bevs (<[w_next w := x]> (w_bevs w))
              (set_w_next (Pos.succ (w_next w)) (set_w_tick (S (w_tick w)) w)) in
  good w w' ∧ unowned w' (w_next w).
Proof.
  intros Ok. simpl.
  assert (∀ b, is_Some (w_bevs w !! b) → is_Some (<[w_next w := x]> (w_bevs w) !! b)) as Hmono.
  { intros b [y Ey]. apply (ok_fresh_bev _ Ok) in Ey as Hlt.
    rewrite lookup_insert_ne by lia. by eexists. }
  split.
  - split; [|constructor; try done; intros [|q|] s E; eauto]. constructor; simpl.
    + intros p pc E. destruct (ok_pc _ Ok _ _ E) as [? ? ? ? Hl]. constructor; simpl; try done.
      intros b Hb. destruct (Hl b Hb). eauto.
    + apply (ok_inj _ Ok).
    + apply (ok_all_pc _ Ok).
    + apply (ok_all_stream _ Ok).
    + apply (ok_main _ Ok).
    + intros b Hb. apply Hmono. by apply (ok_connect _ Ok).
    + intros p pc E. apply (ok_fresh_pc _ Ok) in E. lia.
    + intros p y [[<- _]|[_ E]]%lookup_insert_Some; [lia|]. apply (ok_fresh_bev _ Ok) in E. lia.
    + apply (ok_session _ Ok).
  - split; [simpl; rewrite lookup_insert_eq; by eexists|]. simpl. split.
    + intros Hc. destruct (ok_connect _ Ok _ Hc) as [y Ey]. apply (ok_fresh_bev _ Ok) in Ey. lia.
    + intros p y E Hl. destruct (pc_ok_local _ _ _ (ok_pc _ Ok _ _ E) _ Hl) as [[z Ez] _].
      apply (ok_fresh_bev _ Ok) in Ez. lia.
Qed.

Definition new_bev_post (w : world) (o : option positive) (w' : world) : Prop :=
  good w w' ∧ w_pcs w' = w_pcs w ∧ ∀ b, o = Some b → unowned w' b ∧ w_bevs w !! b = None.

Lemma wp_bufferevent_new w : mux_ok w → wp bufferevent_new (new_bev_post w) w.
Proof.
  intros Ok. unfold bufferevent_new. wps. destruct (e_ok _ _); simpl; wps.
  - destruct (good_new_bev w (mkBev [] [] false false CbNone EvNone None false []) Ok) as [Hg Hu].
    split; [exact Hg|]. split; [done|]. intros b [= <-]. split; [exact Hu|].
    destruct (w_bevs w !! w_next w) eqn:E; [|done]. apply (ok_fresh_bev _ Ok) in E. lia.
  - split; [|done]. apply stays_good; [done|apply stays_tick].
Qed.

(** Freeing a connection that was just made gives back the state before. *)
Lemma good_free_unowned w w1 b :
  mux_ok w → good w w1 → unowned w1 b → w_bevs w !! b = None →
  good w (set_w_bevs (delete b (w_bevs w1)) w1).
Proof.
  intros Ok [Ok1 E1] (U1 & U2 & U3) Hn.
  assert (∀ c, is_Some (w_bevs w1 !! c) → c ≠ b → is_Some (delete b (w_bevs w1) !! c)) as Hk.
  { intros c Hc Hne. by rewrite lookup_delete_ne. }
  split.
  - constructor; simpl.
    + intros p pc E. destruct (ok_pc _ Ok1 _ _ E) as [? ? ? ? Hl]. constructor; simpl; try done.
      intros c Hc. destruct (Hl c Hc). split; [|done]. apply Hk; [done|]. intros ->. by eapply U3.
    + apply (ok_inj _ Ok1).
    + apply (ok_all_pc _ Ok1).
    + apply (ok_all_stream _ Ok1).
    + apply (ok_main _ Ok1).
    + intros c Hc. apply Hk; [by apply (ok_connect _ Ok1)|]. congruence.
    + apply (ok_fresh_pc _ Ok1).
    + intros p x [_ E]%lookup_delete_Some. by eapply (ok_fresh_bev _ Ok1).
    + apply (ok_session _ Ok1).
  - destruct E1. constructor; try done. simpl. intros c Hc. apply Hk; [auto|].
    intros ->. rewrite Hn in Hc. by destruct Hc.
Qed.

(** A change of flags or callbacks of a live connection. *)
Lemma wp_upd_bev_good b f w x :
  mux_ok w → w_bevs w !! b = Some x →
  wp (upd_bev b f) (λ _ w', good w w' ∧ w_pcs w' = w_pcs w ∧ is_Some (w_bevs w' !! b)) w.
Proof.
  intros Ok E. apply (proj2 (wp_upd_bev b f _ w x E)).
  split; [apply stays_good; [done|by apply (stays_bev _ b x)]|]. split; [done|].
  simpl. rewrite lookup_insert_eq. by eexists.
Qed.

Lemma unowned_good w w' b :
  good w w' → w_pcs w' = w_pcs w → unowned w b → unowned w' b.
Proof.
  intros [Ok E] Hp (U1 & U2 & U3). split; [by apply (ev_bev _ _ E)|].
  split; [by rewrite (ev_connect _ _ E)|]. rewrite Hp. done.
Qed.

Lemma wp_connect_server base name port w :
  mux_ok w → wp (connect_server base name port) (new_bev_post w) w.
Proof.
  intros Ok. unfold connect_server, bufferevent_enable.
  assert (new_bev_post w None w) as Hno by (split; [by apply good_refl|done]).
  destruct name as [n|]; wps; [|done]. case_if; wps; [done|]. clear Hno.
  eapply wp_mono; [by apply wp_bufferevent_new|]. intros o w1 (Hg & Hp & Hu).
  destruct o as [b|]; wps; [|done]. destruct (Hu b eq_refl) as [Hub Hn]. clear Hu.
  pose proof (stays_good _ _ (proj1 Hg) (stays_tick w1 (S (w_tick w1)))) as Hg2.
  set (w2 := set_w_tick _ w1) in *. destruct (e_ok _ _); wps.
  - destruct Hub as ([x Ex] & Hub'). pose proof (conj (ex_intro _ x Ex : is_Some _) Hub') as Hub.
    eapply wp_mono; [apply (wp_upd_bev_good b _ w2 x); [apply Hg2|exact Ex]|].
    intros u w3 (Hg3 & Hp3 & _). wps. split; [eapply good_trans; [exact Hg|by eapply good_trans]|].
    split; [by rewrite Hp3|]. intros b' [= <-]. split; [|done].
    eapply unowned_good; [exact Hg3|done|]. by eapply unowned_good; [exact Hg2| |].
  - destruct Hub as ([x Ex] & Hub'). unfold bufferevent_free. wp_bev Ex.
    split; [|done]. apply good_free_unowned; [done|by eapply good_trans| |done].
    by split; [eexists|].
Qed.

Lemma wp_socks5_proxy_connect p a w :
  mux_ok w → wp (socks5_proxy_connect p a) (new_bev_post w) w.
Proof.
  intros Ok. unfold socks5_proxy_connect, bufferevent_setcb, bufferevent_enable. wps.
  eapply wp_mono; [by apply wp_bufferevent_new|]. intros o w1 (Hg & Hp & Hu).
  destruct o as [b|]; wps; [|done]. destruct (Hu b eq_refl) as [Hub Hn]. clear Hu.
  pose proof (stays_good _ _ (proj1 Hg) (stays_tick w1 (S (w_tick w1)))) as Hg2.
  set (w2 := set_w_tick _ w1) in *. destruct Hub as ([x Ex] & Hub').
  assert (unowned w1 b) as Hub by (split; [by eexists|done]).
  destruct (e_ok _ _); simpl; wps; cycle 1.
  { unfold bufferevent_free. wp_bev Ex. split; [|done].
    apply good_free_unowned; [done|by eapply good_trans|exact Hub|done]. }
  eapply wp_mono; [apply (wp_upd_bev_good b _ w2 x); [apply Hg2|exact Ex]|].
  intros u w3 (Hg3 & Hp3 & [x3 Ex3]). wps.
  eapply wp_mono; [apply (wp_upd_bev_good b _ w3 x3); [apply Hg3|exact Ex3]|].
  intros u4 w4 (Hg4 & Hp4 & _). wps.
  split; [eapply good_trans; [exact Hg|]; eapply good_trans; [exact Hg2|by eapply good_trans]|].
  split; [by rewrite Hp4, Hp3|]. intros b' [= <-]. split; [|done].
  eapply unowned_good; [exact Hg4|done|]. eapply unowned_good; [exact Hg3|done|].
  by eapply unowned_good; [exact Hg2| |].
Qed.

(** ** Room in the staging buffers *)

(** [n] more bytes fit in half the address space. *)
Definition buf_room (w : world) (n : Z) : Prop :=
  n ≤ 2 ^ 31 ∧ ∀ p x, w_pcs w !! p = Some x →
    0 ≤ pc_socks5_cap x ∧ zlen (pc_socks5_buf x) + n ≤ 2 ^ 31 ∧
    0 ≤ pc_xdpi_cap x ∧ zlen (pc_xdpi_buf x) + n ≤ 2 ^ 31.

Lemma buf_room_same w w' m n : w_pcs w' = w_pcs w → m ≤ n → buf_room w n → buf_room w' m.
Proof.
  intros E Hle [Hn Hr]. split; [lia|]. rewrite E. intros p x Ex.
  destruct (Hr p x Ex) as (? & ? & ? & ?). lia.
Qed.
Lemma buf_room_le w m n : buf_room w n → m ≤ n → buf_room w m.
Proof. intros Hr Hle. by eapply buf_room_same. Qed.

(** A good step that buffers at most [k] bytes. *)
Definition step (k : Z) (w w' : world) : Prop :=
  good w w' ∧ ∀ m, buf_room w (k + m) → buf_room w' m.

Lemma step_trans j k w1 w2 w3 : step j w1 w2 → step k w2 w3 → step (j + k) w1 w3.
Proof.
  intros [G1 R1] [G2 R2]. split; [by eapply good_trans|]. intros m Hr. apply R2, R1.
  by replace (j + (k + m)) with (j + k + m) by lia.
Qed.

Lemma step_trans0 k w1 w2 w3 : step 0 w1 w2 → step k w2 w3 → step k w1 w3.
Proof. intros S1 S2. by pose proof (step_trans 0 k _ _ _ S1 S2). Qed.

Lemma step_trans_0 k w1 w2 w3 : step k w1 w2 → step 0 w2 w3 → step k w1 w3.
Proof. intros S1 S2. pose proof (step_trans k 0 _ _ _ S1 S2) as S. by rewrite Z.add_0_r in S. Qed.

Lemma step_weaken j k w w' : step j w w' → j ≤ k → step k w w'.
Proof.
  intros [G R] Hle. split; [done|]. intros m [Hm Hr]. apply R. split; [lia|]. intros p x E.
  destruct (Hr p x E) as (? & ? & ? & ?). lia.
Qed.

Lemma step_up k w w' : 0 ≤ k → step 0 w w' → step k w w'.
Proof. intros Hk S. by eapply step_weaken. Qed.

Lemma step_ok k w w' : step k w w' → mux_ok w'.
Proof. by intros [[? _] _]. Qed.

Lemma step_refl w : mux_ok w → step 0 w w.
Proof. intros Ok. split; [by apply good_refl|done]. Qed.

Lemma step_same_pcs w w' : good w w' → w_pcs w' = w_pcs w → step 0 w w'.
Proof. intros G E. split; [done|]. unfold buf_room. by rewrite E. Qed.

Lemma step_stays w w' : mux_ok w → stays w w' → step 0 w w'.
Proof.
  intros Ok S. split; [by apply stays_good|]. intros m [Hm Hr]. split; [done|]. intros p x' E'. destruct S as [K _].
  destruct (keeps_pc _ _ _ _ K E') as (x & E & Hs & _). specialize (Hr p x E). simpl in Hr.
  replace (pc_socks5_buf x') with (pc_socks5_buf x); [|by destruct x, x'; injection Hs].
  replace (pc_xdpi_buf x') with (pc_xdpi_buf x); [|by destruct x, x'; injection Hs].
  replace (pc_socks5_cap x') with (pc_socks5_cap x); [|by destruct x, x'; injection Hs].
  replace (pc_xdpi_cap x') with (pc_xdpi_cap x); [done|by destruct x, x'; injection Hs].
Qed.

(** [y] holds at most [k] bytes more than [x]. *)
Definition buf_grows (k : Z) (x y : proxy_client) : Prop :=
  (0 ≤ pc_socks5_cap x → 0 ≤ pc_socks5_cap y) ∧ (0 ≤ pc_xdpi_cap x → 0 ≤ pc_xdpi_cap y) ∧
  zlen (pc_socks5_buf y) ≤ zlen (pc_socks5_buf x) + k ∧
  zlen (pc_xdpi_buf y) ≤ zlen (pc_xdpi_buf x) + k.

Lemma wp_upd_pc_step k p f w x :
  mux_ok w → w_pcs w !! p = Some x → 0 ≤ k → may_become w x (f x) → buf_grows k x (f x) →
  wp (upd_pc p f) (λ _ w', step k w w' ∧ w_pcs w' !! p = Some (f x) ∧ w_bevs w' = w_bevs w) w.
Proof.
  intros Ok Ep Hk Hm (G1 & G2 & G3 & G4). apply (proj2 (wp_upd_pc p f _ w x Ep)).
  split; [|split; [apply lookup_insert_eq|done]]. split; [by eapply good_put_pc|].
  intros m [Hm' Hr]. split; [lia|]. intros q z. simpl. intros [[<- <-]|[Hne E]]%lookup_insert_Some.
  - destruct (Hr _ _ Ep) as (? & ? & ? & ?). split_and!; [auto|lia|auto|lia].
  - destruct (Hr _ _ E) as (? & ? & ? & ?). split_and!; [auto|lia|auto|lia].
Qed.

Lemma step_live k w w' p : step k w w' → is_Some (w_pcs w !! p) → is_Some (w_pcs w' !! p).
Proof. intros [G _]. by apply good_live. Qed.
Lemma step_bev k w w' b : step k w w' → is_Some (w_bevs w !! b) → is_Some (w_bevs w' !! b).
Proof. intros [[_ E] _]. apply (ev_bev _ _ E). Qed.

Lemma wp_output_add_step b d w :
  mux_ok w → is_Some (w_bevs w !! b) →
  wp (output_add b d) (λ rc w', step 0 w w' ∧ w_pcs w' = w_pcs w ∧ (rc = 0 ∨ rc = -1)) w.
Proof.
  intros Ok Hb. eapply wp_mono; [by apply wp_output_add|].
  intros rc w' [[-> (S & _ & P & _)]|[-> (S & _ & P & _)]]; split; auto using step_stays.
Qed.

Lemma wp_bev_read_step b n w :
  mux_ok w → is_Some (w_bevs w !! b) →
  wp (bufferevent_read b n) (λ d w', step 0 w w' ∧ w_pcs w' = w_pcs w ∧ zlen d ≤ Z.max 0 n) w.
Proof.
  intros Ok [x Ex]. unfold bufferevent_read. wp_bev Ex. split.
  - apply step_stays; [done|]. by apply (stays_bev _ b x).
  - split; [done|]. lens.
Qed.

Lemma wp_input_drain_step b n w :
  mux_ok w → is_Some (w_bevs w !! b) → wp (input_drain b n) (λ _ w', step 0 w w') w.
Proof.
  intros Ok [x Ex]. unfold input_drain. wp_bev Ex. apply step_stays; [done|].
  by apply (stays_bev _ b x).
Qed.

Lemma wp_remove_to_output b d n w :
  mux_ok w → is_Some (w_bevs w !! b) → is_Some (w_bevs w !! d) →
  wp (remove_to_output b d n) (λ _ w', step 0 w w') w.
Proof.
  intros Ok Hb Hd. unfold remove_to_output. destruct Hb as [x Ex]. wp_bev Ex.
  case_if; wps; [by apply step_refl|]. eapply wp_mono; [by apply wp_output_add_step|].
  intros rc w1 (S1 & _ & _). case_if; wps; [done|].
  eapply wp_mono; [apply wp_input_drain_step; [by eapply step_ok|eapply step_bev; [done|by eexists]]|].
  intros u w2 S2. wps. by eapply step_trans0.
Qed.

Lemma wp_tmux_stream_write_stays ctl src p x w :
  mux_ok w → w_pcs w !! p = Some x → bev_live w ctl → zlen src < 2 ^ 32 →
  wp (tmux_stream_write ctl src (SClient p)) (λ _ w', stays w w') w.
Proof.
  intros Ok Ep L Hl. eapply wp_mono.
  { apply (wp_tmux_stream_write ctl src (SClient p) (pc_stream x)); [done|by apply client_registered|done|done]. }
  intros [rc rest] w' Ho. by inversion Ho; subst.
Qed.

Lemma wp_reply p d w :
  mux_ok w → is_Some (w_pcs w !! p) → zlen d < 2 ^ 32 → wp (reply p d) (λ _ w', stays w w') w.
Proof.
  intros Ok [x Ex] Hl. unfold reply. wp_pc Ex. case_if; wps.
  - unfold bufferevent_write. destruct (pc_ctl_bev x) as [b|] eqn:Eb; wps; [|done].
    eapply wp_mono; [apply wp_output_add; by eapply ctl_live|].
    intros rc w' Ho. wps. destruct Ho as [[_ Ho]|[_ Ho]]; exact (wrote_stays _ _ _ _ Ho).
  - pose proof (stays_tick w (S (w_tick w))) as S1. set (w1 := set_w_tick _ w) in *.
    assert (mux_ok w1) as Ok1 by by eapply mux_ok_stays.
    destruct (e_ok _ _); wps; [|done].
    eapply wp_mono; [apply (wp_tmux_stream_write_stays _ _ p x w1); [done|done|by apply (ctl_live w1 p)|done]|].
    intros res w' S. wps. by etransitivity.
Qed.

(** A client seen through a step that only moves windows and bytes. *)
Lemma stays_client w w' p x :
  stays w w' → w_pcs w !! p = Some x →
  ∃ x', w_pcs w' !! p = Some x' ∧ set_pc_stream zero_stream x' = set_pc_stream zero_stream x.
Proof.
  intros [K _] E. pose proof (k_pcs _ _ K p) as Hp. rewrite E in Hp.
  destruct (w_pcs w' !! p) as [x'|]; [|done]. apply (inj Some) in Hp. eauto.
Qed.
Lemma same_client_buffers x y :
  set_pc_stream zero_stream x = set_pc_stream zero_stream y →
  pc_socks5_buf x = pc_socks5_buf y ∧ pc_socks5_cap x = pc_socks5_cap y ∧
  pc_xdpi_buf x = pc_xdpi_buf y ∧ pc_xdpi_cap x = pc_xdpi_cap y ∧ pc_state x = pc_state y.
Proof. destruct x, y. unfold set_pc_stream. simpl. intros E. by injection E. Qed.

(** ** Protocol handlers *)

Lemma wp_ensure_cap cap init need w :
  mux_ok w → 0 ≤ cap → 0 < init → need ≤ 2 ^ 31 →
  wp (ensure_cap cap init need)
     (λ o w', step 0 w w' ∧ w_pcs w' = w_pcs w ∧ ∀ c, o = Some c → 0 ≤ c) w.
Proof.
  intros Ok Hc Hi Hn. unfold ensure_cap. case_if; wps.
  { split; [by apply step_refl|]. split; [done|]. by intros c [= <-]. }
  destruct (grow_enough (if cap =? 0 then init else cap) need) as (n & -> & ? & Hle);
    [case_if; lia|done|]. wps.
  split; [apply step_stays; [done|apply stays_tick]|]. split; [done|].
  intros c. case_if; [|done]. intros [= <-]. revert Hle. case_if; lia.
Qed.

(** Updates of fields that neither own nor buffer. *)
Ltac plain_update := first [apply may_become_same; done | repeat split; simpl; lia | done].

Lemma wp_upd_plain p f w x :
  mux_ok w → w_pcs w !! p = Some x → may_become w x (f x) → buf_grows 0 x (f x) →
  wp (upd_pc p f) (λ _ w', step 0 w w' ∧ w_pcs w' !! p = Some (f x) ∧ w_bevs w' = w_bevs w) w.
Proof. intros. by apply wp_upd_pc_step. Qed.

Lemma room_u32 a n : 0 ≤ a → 0 ≤ n → a + n ≤ 2 ^ 31 → u32 (a + n) ≤ 2 ^ 31.
Proof. intros. change (2 ^ 31) with 2147483648 in *. rewrite u32_small by lia. lia. Qed.

Lemma wp_socks5_buf_ensure p x need w :
  mux_ok w → w_pcs w !! p = Some x → 0 ≤ pc_socks5_cap x → need ≤ 2 ^ 31 →
  wp (socks5_buf_ensure p need)
     (λ _ w', step 0 w w' ∧ ∃ c, w_pcs w' !! p = Some (set_pc_socks5_cap c x) ∧ 0 ≤ c) w.
Proof.
  intros Ok Ex Hc Hn. unfold socks5_buf_ensure. wp_pc Ex.
  eapply wp_mono; [by apply wp_ensure_cap|]. intros o w1 (S1 & P1 & Ho). rewrite <- P1 in Ex.
  destruct o as [c|]; wps.
  - eapply wp_mono; [apply (wp_upd_plain p _ w1 x (step_ok _ _ _ S1) Ex); [plain_update|]|].
    { specialize (Ho c eq_refl). repeat split; simpl; lia. }
    intros u w2 (S2 & E2 & _). wps. split; [by eapply step_trans0|]. eauto.
  - split; [done|]. exists (pc_socks5_cap x). split; [|done]. rewrite Ex. by destruct x.
Qed.

Lemma wp_xdpi_buf_ensure p x need w :
  mux_ok w → w_pcs w !! p = Some x → 0 ≤ pc_xdpi_cap x → need ≤ 2 ^ 31 →
  wp (xdpi_buf_ensure p need)
     (λ _ w', step 0 w w' ∧ ∃ c, w_pcs w' !! p = Some (set_pc_xdpi_cap c x) ∧ 0 ≤ c) w.
Proof.
  intros Ok Ex Hc Hn. unfold xdpi_buf_ensure. wp_pc Ex.
  eapply wp_mono; [by apply wp_ensure_cap|]. intros o w1 (S1 & P1 & Ho). rewrite <- P1 in Ex.
  destruct o as [c|]; wps.
  - eapply wp_mono; [apply (wp_upd_plain p _ w1 x (step_ok _ _ _ S1) Ex); [plain_update|]|].
    { specialize (Ho c eq_refl). repeat split; simpl; lia. }
    intros u w2 (S2 & E2 & _). wps. split; [by eapply step_trans0|]. eauto.
  - split; [done|]. exists (pc_xdpi_cap x). split; [|done]. rewrite Ex. by destruct x.
Qed.

Lemma new_bev_step w o w' : new_bev_post w o w' → step 0 w w'.
Proof. intros (G & P & _). by apply step_same_pcs. Qed.

(** Storing a connection just made. *)
Lemma wp_set_local p x o w w1 :
  new_bev_post w o w1 → w_pcs w1 !! p = Some x →
  wp (upd_pc p (set_pc_local_bev o)) (λ _ w', step 0 w1 w' ∧
     w_pcs w' !! p = Some (set_pc_local_bev o x) ∧ w_bevs w' = w_bevs w1) w1.
Proof.
  intros (G & P & Hu) Ex. apply wp_upd_plain; [apply G|done| |repeat split; simpl; lia].
  split; [done|]. split; [done|]. split; [by left|]. simpl. destruct o as [b|]; [|by right; left].
  right; right. exists b. split; [done|]. by apply Hu.
Qed.


(** ** SOCKS5 *)

Lemma zlen_drop_le {A} n (l : list A) : zlen (zdrop n l) ≤ zlen l.
Proof. lens. Qed.

Lemma wp_socks5_init_step p buf w x :
  mux_ok w → w_pcs w !! p = Some x → pc_socks5_buf x = buf →
  wp (socks5_init_step p buf) (λ e w', step 0 w w' ∧
     (e = LoopContinue → ∃ y, w_pcs w' !! p = Some y ∧ pc_state y = SOCKS5_HANDSHAKE)) w.
Proof.
  intros Ok Ex Hb. unfold socks5_init_step.
  destruct buf as [|b0 [|b1 [|b2 l]]]; wps; try (by split; [apply step_refl|]).
  case_if; wps.
  { eapply wp_mono; [apply (wp_upd_plain p _ w x Ok Ex); plain_update|].
    intros u w1 (S1 & _ & _). by wps. }
  eapply wp_mono; [apply wp_reply; [done|by eexists|done]|]. intros u w1 St. wps.
  pose proof (step_stays _ _ Ok St) as S1. case_if; wps; [done|].
  destruct (stays_client _ _ p x St Ex) as (x1 & Ex1 & (B1 & _)%same_client_buffers).
  eapply wp_mono; [apply (wp_upd_plain p _ w1 x1 (step_ok _ _ _ S1) Ex1)|].
  - apply may_become_same; done.
  - split; [done|]. split; [done|]. cbn [pc_socks5_buf pc_xdpi_buf set_pc_state set_pc_socks5_buf].
    rewrite B1, Hb. split; [|lia]. rewrite Z.add_0_r. apply zlen_drop_le.
  - intros u2 w2 (S2 & E2 & _). wps. split; [by eapply step_trans0|]. intros _. eauto.
Qed.

Lemma wp_flush_to lb d w :
  mux_ok w → is_Some (w_bevs w !! lb) →
  wp (if 0 <? zlen d then output_add lb d ;; ret () else ret ())
     (λ _ w', step 0 w w' ∧ w_pcs w' = w_pcs w) w.
Proof.
  intros Ok Hl. case_if; wps; [|by split; [apply step_refl|]].
  eapply wp_mono; [by apply wp_output_add_step|]. intros rc w1 (S1 & P1 & _). by wps.
Qed.

Lemma wp_socks5_handshake_step p buf w x :
  mux_ok w → w_pcs w !! p = Some x →
  wp (socks5_handshake_step p buf) (λ e w', step 0 w w' ∧ e = LoopBreak) w.
Proof.
  intros Ok Ex. unfold socks5_handshake_step.
  destruct buf as [|b0 [|b1 [|b2 [|b3 l]]]]; wps; try (by split; [apply step_refl|]).
  case_if; wps.
  { eapply wp_mono; [apply (wp_upd_plain p _ w x Ok Ex); plain_update|].
    intros u w1 (S1 & _ & _). by wps. }
  destruct (parse_socks5_addr _) as [off a]. wps.
  eapply wp_mono; [apply (wp_upd_plain p _ w x Ok Ex); plain_update|]. intros u w1 (S1 & E1 & _).
  destruct off as [off|]; wps; [|done].
  eapply wp_mono; [apply wp_socks5_proxy_connect, (step_ok _ _ _ S1)|].
  intros o w2 Hn. pose proof (new_bev_step _ _ _ Hn) as S2. wps.
  pose proof Hn as (_ & P2 & _). rewrite <- P2 in E1.
  eapply wp_mono; [by eapply wp_set_local|]. intros u3 w3 (S3 & E3 & B3).
  pose proof (step_trans0 _ _ _ _ S1 (step_trans0 _ _ _ _ S2 S3)) as S13.
  destruct o as [lb|]; wps; [|done].
  eapply wp_mono; [apply wp_flush_to; [by eapply step_ok|]|].
  { rewrite B3. destruct Hn as (_ & _ & Hu). by apply (Hu lb). }
  intros u4 w4 (S4 & P4). wps. rewrite <- P4 in E3.
  eapply wp_mono; [apply (wp_upd_plain p _ w4 _ (step_ok _ _ _ S4) E3)|].
  - apply may_become_same; done.
  - split; [done|]. split; [done|]. split; [simpl; lens|simpl; lia].
  - intros u5 w5 (S5 & _ & _). wps. split; [|done].
    eapply step_trans0; [exact S13|]. by eapply step_trans0.
Qed.

Lemma socks5_loop_S fuel p :
  socks5_loop (S fuel) p =
    (pc <- get_pc p ;;
     if zlen (pc_socks5_buf pc) =? 0 then ret ()
     else
       next <- (if pc_state pc =? SOCKS5_INIT then socks5_init_step p (pc_socks5_buf pc)
                else if pc_state pc =? SOCKS5_HANDSHAKE
                     then socks5_handshake_step p (pc_socks5_buf pc)
                else ret LoopBreak) ;;
       match next with LoopContinue => socks5_loop fuel p | LoopBreak => ret () end).
Proof. reflexivity. Qed.

(** The loop in the handshake state ends in its first round. *)
Lemma wp_socks5_loop1 fuel p x w :
  mux_ok w → w_pcs w !! p = Some x → pc_state x ≠ SOCKS5_INIT →
  wp (socks5_loop (S fuel) p) (λ _ w', step 0 w w') w.
Proof.
  intros Ok Ex Hst. rewrite socks5_loop_S. wp_pc Ex. case_if; wps; [by apply step_refl|].
  rewrite (proj2 (Z.eqb_neq _ _) Hst). case_if; wps; [|by apply step_refl].
  eapply wp_mono; [by apply (wp_socks5_handshake_step p _ w x)|].
  intros e w1 [S1 ->]. by wps.
Qed.

Lemma wp_socks5_loop fuel p x w :
  mux_ok w → w_pcs w !! p = Some x → wp (socks5_loop (S (S fuel)) p) (λ _ w', step 0 w w') w.
Proof.
  intros Ok Ex. destruct (decide (pc_state x = SOCKS5_INIT)) as [Hst|Hst];
    [|by eapply wp_socks5_loop1].
  rewrite socks5_loop_S. wp_pc Ex. case_if; wps; [by apply step_refl|].
  rewrite (proj2 (Z.eqb_eq _ _) Hst). wps.
  eapply wp_mono; [by apply (wp_socks5_init_step p _ w x)|].
  intros e w1 [S1 He]. destruct e; wps; [|done].
  destruct (He eq_refl) as (y & Ey & Hy).
  eapply wp_mono; [apply (wp_socks5_loop1 fuel p y w1 (step_ok _ _ _ S1) Ey); by rewrite Hy|].
  intros u w2 S2. by eapply step_trans0.
Qed.

Lemma wp_handle_socks5 p b len w :
  mux_ok w → is_Some (w_pcs w !! p) → is_Some (w_bevs w !! b) → 0 ≤ len → buf_room w len →
  wp (handle_socks5 p b len) (λ _ w', step len w w') w.
Proof.
  intros Ok [x Ex] Hb Hlen Room. unfold handle_socks5.
  assert (step len w w) as Snil by by apply step_up, step_refl.
  case_if; wps; [done|]. wp_pc Ex. case_if; wps.
  { destruct (pc_local_bev x) as [lb|] eqn:El; wps; [|done].
    eapply wp_mono; [apply wp_remove_to_output; [done|done|]|].
    { by apply (pc_ok_local _ _ _ (ok_pc _ Ok _ _ Ex)). }
    intros n w1 S1. wps. exact (step_up _ _ _ Hlen S1). }
  destruct (proj2 Room _ _ Ex) as (R1 & R2 & _).
  eapply wp_mono; [apply (wp_socks5_buf_ensure p x); [done|done|done|]|].
  { apply room_u32; [lens|done|done]. }
  intros rc w1 (S1 & c & E1 & Hcap). case_if; wps; [by apply step_up|].
  eapply wp_mono; [apply wp_bev_read_step; [by eapply step_ok|by eapply step_bev]|].
  intros d w2 (S2 & P2 & Hd). rewrite <- P2 in E1.
  pose proof (step_trans0 _ _ _ _ S1 S2) as S12.
  case_if; wps; [by apply step_up|].
  eapply wp_mono; [apply (wp_upd_pc_step len p _ w2 _ (step_ok _ _ _ S2) E1 Hlen)|].
  - apply may_become_same; done.
  - split; [done|]. split; [done|]. split; [simpl; lens|simpl; lia].
  - intros u w3 (S3 & E3 & _). wps.
    eapply wp_mono; [apply (wp_socks5_loop 1 p _ w3 (step_ok _ _ _ S3) E3)|].
    intros u4 w4 S4. eapply step_trans0; [exact S12|]. by eapply step_trans_0.
Qed.

(** ** XDPI *)

(** The second half of [xdpi_open]. *)
Lemma wp_xdpi_flush p x w :
  mux_ok w → w_pcs w !! p = Some x →
  wp (pc <- get_pc p ;;
      (match pc_local_bev pc with
       | Some lb =>
           if 0 <? zlen (pc_xdpi_buf pc) then
             output_add lb (pc_xdpi_buf pc) ;; upd_pc p (set_pc_xdpi_buf [])
           else ret ()
       | None => ret ()
       end) ;;
      upd_pc p (set_pc_xdpi_state XDPI_VERIFIED)) (λ _ w', step 0 w w') w.
Proof.
  intros Ok Ex. wp_pc Ex.
  assert (∀ w1 y, step 0 w w1 → w_pcs w1 !! p = Some y →
    wp (upd_pc p (set_pc_xdpi_state XDPI_VERIFIED)) (λ _ w', step 0 w w') w1) as Hend.
  { intros w1 y S1 E1.
    eapply wp_mono; [apply (wp_upd_plain p _ w1 y (step_ok _ _ _ S1) E1); plain_update|].
    intros u w2 (S2 & _ & _). by eapply step_trans0. }
  pose proof (Hend w x (step_refl _ Ok) Ex) as Hnow.
  destruct (pc_local_bev x) as [lb|] eqn:El; wps; [|done]. case_if; wps; [|done].
  eapply wp_mono; [apply wp_output_add_step; [done|]|].
  { by apply (pc_ok_local _ _ _ (ok_pc _ Ok _ _ Ex)). }
  intros rc w1 (S1 & P1 & _). rewrite <- P1 in Ex.
  eapply wp_mono; [apply (wp_upd_plain p _ w1 x (step_ok _ _ _ S1) Ex)|].
  - apply may_become_same; done.
  - split; [done|]. split; [done|]. split; [simpl; lia|simpl; lens].
  - intros u2 w2 (S2 & E2 & _). eapply Hend; [by eapply step_trans0|done].
Qed.

Lemma wp_xdpi_open p x w :
  mux_ok w → w_pcs w !! p = Some x → pc_ps x ≠ None → wp (xdpi_open p) (λ _ w', step 0 w w') w.
Proof.
  intros Ok Ex Hps. unfold xdpi_open. wp_pc Ex.
  destruct (pc_local_bev x) as [lb|] eqn:El; wps; [by eapply wp_xdpi_flush|].
  destruct (pc_ps x) as [ps|]; [|done]. wps. case_if; wps.
  { eapply wp_mono; [apply (wp_upd_plain p _ w x Ok Ex)|].
    - apply may_become_same; done.
    - split; [done|]. split; [done|]. split; [simpl; lia|simpl; lens].
    - intros u w1 (S1 & _ & _). by wps. }
  eapply wp_mono; [by apply wp_connect_server|]. intros o w1 Hn. wps.
  pose proof (new_bev_step _ _ _ Hn) as S1. pose proof Hn as (_ & P1 & Hu). rewrite <- P1 in Ex.
  eapply wp_mono; [by eapply wp_set_local|]. intros u w2 (S2 & E2 & B2).
  pose proof (step_trans0 _ _ _ _ S1 S2) as S12.
  destruct o as [lb|]; wps; [|done]. destruct (Hu lb eq_refl) as [([y Ey] & _) _].
  rewrite <- B2 in Ey. unfold bufferevent_setcb, bufferevent_enable.
  eapply wp_mono; [apply (wp_upd_bev_good lb _ w2 y (step_ok _ _ _ S2) Ey)|].
  intros u3 w3 (G3 & P3 & [y3 E3]). wps.
  eapply wp_mono; [apply (wp_upd_bev_good lb _ w3 y3 (proj1 G3) E3)|].
  intros u4 w4 (G4 & P4 & _). wps. rewrite <- P3, <- P4 in E2.
  pose proof (step_same_pcs _ _ (good_trans _ _ _ G3 G4) (eq_trans P4 P3)) as S24.
  eapply wp_mono; [by apply (wp_xdpi_flush p _ w4 (step_ok _ _ _ S24) E2)|].
  intros u5 w5 S5. eapply step_trans0; [exact S12|]. by eapply step_trans0.
Qed.

Lemma wp_handle_xdpi p b len w x :
  mux_ok w → w_pcs w !! p = Some x → pc_ps x ≠ None → is_Some (w_bevs w !! b) → 0 ≤ len →
  buf_room w len → wp (handle_xdpi p b len) (λ _ w', step len w w') w.
Proof.
  intros Ok Ex Hps Hb Hlen Room. unfold handle_xdpi.
  assert (step len w w) as Snil by by apply step_up, step_refl.
  case_if; wps; [done|]. wp_pc Ex.
  destruct (if bool_decide _ then pc_local_bev x else None) as [lb|] eqn:El; wps.
  { eapply wp_mono; [apply wp_remove_to_output; [done|done|]|].
    { case_bool_decide; [|done]. by apply (pc_ok_local _ _ _ (ok_pc _ Ok _ _ Ex)). }
    intros n w1 S1. wps. exact (step_up _ _ _ Hlen S1). }
  destruct (proj2 Room _ _ Ex) as (_ & _ & R1 & R2).
  eapply wp_mono; [apply (wp_xdpi_buf_ensure p x); [done|done|done|]|].
  { apply room_u32; [lens|done|done]. }
  intros rc w1 (S1 & c & E1 & Hcap). case_if; wps; [by apply step_up|].
  eapply wp_mono; [apply wp_bev_read_step; [by eapply step_ok|by eapply step_bev]|].
  intros d w2 (S2 & P2 & Hd). rewrite <- P2 in E1.
  pose proof (step_trans0 _ _ _ _ S1 S2) as S12.
  case_if; wps; [by apply step_up|].
  eapply wp_mono; [apply (wp_upd_pc_step len p _ w2 _ (step_ok _ _ _ S2) E1 Hlen)|].
  { apply may_become_same; done. }
  { split; [done|]. split; [done|]. split; [simpl; lia|simpl; lens]. }
  intros u w3 (S3 & E3 & _). wps. pose proof (step_trans0 _ _ _ _ S12 S3) as S13.
  pose proof (step_stays _ _ (step_ok _ _ _ S3) (stays_tick w3 (S (w_tick w3)))) as St.
  set (w4 := set_w_tick _ w3) in *. pose proof (step_trans_0 _ _ _ _ S13 St) as S14.
  destruct (e_ok _ _); simpl; wps; [|done].
  destruct (xdpi_engine _ _ _) as [rc' st]. case_if; wps.
  - eapply wp_mono; [apply (wp_upd_plain p _ w4 _ (step_ok _ _ _ St) E3)|].
    + apply may_become_same; done.
    + split; [done|]. split; [done|]. split; [simpl; lia|simpl; lens].
    + intros u5 w5 (S5 & _ & _). by eapply step_trans_0.
  - eapply wp_mono; [apply (wp_upd_plain p _ w4 _ (step_ok _ _ _ St) E3); plain_update|].
    intros u5 w5 (S5 & E5 & _). wps.
    eapply wp_mono; [by apply (wp_xdpi_open p _ w5 (step_ok _ _ _ S5) E5)|].
    intros u6 w6 S6. eapply step_trans_0; [exact S14|]. by eapply step_trans0.
Qed.

(** ** The decoder and the handler *)

Lemma wp_decode_to p lb src w :
  mux_ok w → is_Some (w_pcs w !! p) → is_Some (w_bevs w !! lb) →
  wp (decode_to p lb src) (λ _ w', step 0 w w') w.
Proof.
  intros Ok [x Ex] Hl. unfold decode_to. wp_pc Ex.
  match goal with |- context [proxy_crypto_decode_evbuffer ?a ?b ?c ?d ?e] =>
    destruct (proxy_crypto_decode_evbuffer a b c d e) as [[c' lft] out] end.
  set (w1 := set_w_tick _ (set_w_tick _ w)).
  assert (step 0 w w1) as S1.
  { apply step_stays; [done|]. etransitivity; apply stays_tick. }
  wps. eapply wp_mono; [apply (wp_upd_plain p _ w1 x (step_ok _ _ _ S1) Ex); plain_update|].
  intros u w2 (S2 & E2 & B2). wps. pose proof (step_trans0 _ _ _ _ S1 S2) as S12.
  case_if; wps; [done|].
  eapply wp_mono; [apply wp_output_add_step; [by eapply step_ok|by eapply step_bev]|].
  intros rc w3 (S3 & _ & _). wps. by eapply step_trans0.
Qed.

Lemma wp_to_decoder p lb b len w :
  mux_ok w → is_Some (w_pcs w !! p) → is_Some (w_bevs w !! lb) → is_Some (w_bevs w !! b) →
  wp (to_decoder p lb b len) (λ _ w', step 0 w w') w.
Proof.
  intros Ok Hp Hl Hb. unfold to_decoder. wps. set (w2 := set_w_tick _ (set_w_tick _ w)).
  assert (step 0 w w2) as S2 by (apply step_stays; [done|etransitivity; apply stays_tick]).
  case_if; wps; [done|]. set (w3 := set_w_tick _ w2).
  assert (step 0 w w3) as S3.
  { eapply step_trans0; [exact S2|]. apply step_stays; [by eapply step_ok|apply stays_tick]. }
  assert (∀ fr w4, step 0 w w4 → wp (decode_to p lb fr ;; ret true) (λ _ w', step 0 w w') w4) as Hd.
  { intros fr w4 S4. wps. eapply wp_mono; [apply wp_decode_to;
      [by eapply step_ok|by eapply step_live|by eapply step_bev]|].
    intros l w5 S5. wps. by eapply step_trans0. }
  case_if; wps.
  - eapply wp_mono; [apply wp_bev_read_step; [by eapply step_ok|by eapply step_bev]|].
    intros fr w4 (S4 & _ & _). pose proof (Hd fr w4 (step_trans0 _ _ _ _ S3 S4)) as Hx.
    revert Hx. by wps.
  - pose proof (Hd [] w3 S3) as Hx. revert Hx. by wps.
Qed.

End Good.
