(* ===== verification/DemuxSafe.v ===== *)
(** * The demultiplexer is safe

    [process_data] and [handle_tcp_mux] never touch freed memory, never run
    out of rounds and keep the shared state well-formed, for every byte
    sequence the server sends, provided the message handler keeps its side of
    the interface [HandlerOk]. *)

From S2P Require Import Prelude Growth Endian Evp CryptoStream World Mux MuxInv MuxSafe MuxThm ProxyTcp Frame Demux ProxySafe.

(** ** Frame conditions of a round *)

(** The main connection and the header being assembled. *)
Definition steady `{Mbedtls} (w w' : world) : Prop :=
  w_connect_bev w' = w_connect_bev w ∧ w_hdr w' = w_hdr w ∧
  w_partial_header w' = w_partial_header w.

#[export] Instance steady_frame `{Mbedtls} : DataFrame steady.
Proof.
  repeat split; try done; unfold steady in *; intuition congruence.
Qed.

(** No staging buffer grows. *)
Definition no_fuller `{Mbedtls} (w w' : world) : Prop := ∀ m, buf_room w m → buf_room w' m.

#[export] Instance no_fuller_frame `{Mbedtls} : MuxFrame no_fuller.
Proof.
  assert (PreOrder no_fuller) as Hpre.
  { split; [by intros x m|]. intros x y z H1 H2 m Hr. by apply H2, H1. }
  constructor; try done; try (intros w v m Hr; exact Hr).
  - intros w p x s E m [Hm Hr]. split; [done|]. intros q y. simpl.
    intros [[<- <-]|[_ Ey]]%lookup_insert_Some; [exact (Hr _ _ E)|exact (Hr _ _ Ey)].
  - intros w p m [Hm Hr]. split; [done|]. intros q y. simpl. intros [_ Ey]%lookup_delete_Some. exact (Hr _ _ Ey).
Qed.

Section Safe.
Context `{Mbedtls}.

(** ** The handler's side *)

(** What the demultiplexer needs of the handler of a message: from any
    well-formed state, with a live client or none, it runs without undefined
    behaviour, frees nothing that is registered, and buffers no more than it
    was given. *)
Class HandlerOk (handle_fn : handler) : Prop :=
  handler_ok : ∀ d o w, mux_ok w → (∀ p, o = Some p → is_Some (w_pcs w !! p)) →
    buf_room w (zlen d) → wp (handle_fn d o) (λ _ w', step (zlen d) w w') w.

Context (handle_fn : handler) `{!HandlerOk handle_fn}.

(** ** A data frame *)

Lemma wp_data_done r s n len w :
  mux_ok w → registered w r s → wp (data_done r n len) (λ _ w', stays w w') w.
Proof.
  intros Ok Hreg. destruct (registered_main_or_client _ _ _ Ok Hreg) as [Hr _].
  pose proof Hreg as [_ E]. unfold data_done. wps. case_if; wps.
  - wp_st E. eapply wp_mono; [apply wp_send_win_update_rst; by apply connect_live|].
    intros u w1 Hf. pose proof (sent_frame_streams _ _ _ _ r Hf) as E1. rewrite E in E1.
    wp_ust E1. etransitivity; [exact (sent_frame_stays _ _ _ _ Hf)|].
    eapply stays_with_stream; [done|exact E1|done|done].
  - eapply wp_mono; [apply (wp_send_window_update _ r s); [done|done|by apply connect_live]|].
    intros u w1 [S _]. by wps.
Qed.

(** Closing a branch of [process_data]: the payload is with its consumer. *)
Lemma data_done_after k r s n len w w1 :
  step k w w1 → registered w r s → wp (data_done r n len) (λ _ w', step k w w') w1.
Proof.
  intros S1 Hreg. destruct (good_registered _ _ _ _ (proj1 S1) Hreg) as (s1 & Hreg1 & _).
  eapply wp_mono; [by apply (wp_data_done r s1 n len w1); [eapply step_ok|]|].
  intros a w2 St. eapply step_trans_0; [exact S1|]. apply step_stays; [by eapply step_ok|done].
Qed.

Lemma wp_to_handler b len o w :
  mux_ok w → (∀ p, o = Some p → is_Some (w_pcs w !! p)) → is_Some (w_bevs w !! b) → 0 ≤ len →
  buf_room w len → wp (to_handler handle_fn b len o) (λ _ w', step len w w') w.
Proof.
  intros Ok Ho Hb Hlen Room. unfold to_handler. wps.
  pose proof (step_stays _ _ Ok (stays_tick w (S (w_tick w)))) as S1. set (w1 := set_w_tick _ w) in *.
  destruct (e_ok _ _); simpl; wps; [|by apply step_up].
  eapply wp_mono; [apply wp_bev_read_step; [by eapply step_ok|by eapply step_bev]|].
  intros d w2 (S2 & P2 & _). pose proof (step_trans0 _ _ _ _ S1 S2) as S12.
  case_if; wps; [by apply step_up|]. subst len.
  eapply wp_mono; [apply handler_ok; [by eapply step_ok| |]|].
  - intros p Hp. rewrite P2. by apply Ho.
  - apply S12. by rewrite Z.add_0_l.
  - intros u w3 S3. wps. by eapply step_trans0.
Qed.

(** The dispatch of the payload, once the window has been charged. *)
Lemma wp_payload b r s len pc w :
  mux_ok w → registered w r s → (∀ p, pc = Some p → is_Some (w_pcs w !! p)) →
  is_Some (w_bevs w !! b) → 0 ≤ len → buf_room w len →
  wp (match pc with
      | None =>
          ok <- to_handler handle_fn b len None ;;
          if ok then data_done r len len else ret 0
      | Some p =>
          x <- get_pc p ;;
          let ps := pc_ps x in
          if bool_decide (pc_local_bev x = None) && negb (is_socks5_proxy ps)
             && negb (has_service_type ps) then
            ok <- to_handler handle_fn b len (Some p) ;;
            if ok then data_done r len len else ret 0
          else if has_service_type ps then
            handle_xdpi p b len ;; data_done r len len
          else if is_socks5_proxy ps then
            handle_socks5 p b len ;; data_done r len len
          else if is_udp_proxy ps then
            ok <- to_handler handle_fn b len (Some p) ;;
            if ok then data_done r len len else ret 0
          else
            match pc_local_bev x with
            | None => ub
            | Some lb =>
                if use_encryption (pc_codec x) || use_compression (pc_codec x) then
                  ok <- to_decoder p lb b len ;;
                  if ok then data_done r len len else ret 0
                else
                  n <- remove_to_output b lb len ;;
                  data_done r n len
            end
      end) (λ _ w', step len w w') w.
Proof.
  intros Ok Hreg Hpc Hb Hlen Room.
  assert (∀ o, (∀ p, o = Some p → is_Some (w_pcs w !! p)) →
    wp (ok <- to_handler handle_fn b len o ;; if ok then data_done r len len else ret 0)
       (λ _ w', step len w w') w) as Hh.
  { intros o Ho. wps. eapply wp_mono; [by apply wp_to_handler|].
    intros ok w1 S1. destruct ok; wps; [by eapply data_done_after|done]. }
  destruct pc as [p|]; [|by apply Hh]. destruct (Hpc p eq_refl) as [x Ex]. wp_pc Ex. cbv zeta.
  destruct (bool_decide _ && _ && _) eqn:Hc; [by apply Hh|].
  destruct (has_service_type (pc_ps x)) eqn:Exs; wps.
  { eapply wp_mono; [apply (wp_handle_xdpi p b len w x); try done|].
    { intros En. by rewrite En in Exs. }
    intros u w1 S1. by eapply data_done_after. }
  destruct (is_socks5_proxy (pc_ps x)) eqn:Es5; wps.
  { eapply wp_mono; [apply (wp_handle_socks5 p b len w); try done; by eexists|].
    intros u w1 S1. by eapply data_done_after. }
  destruct (is_udp_proxy (pc_ps x)); [by apply Hh|].
  destruct (pc_local_bev x) as [lb|] eqn:El; [|done].
  pose proof (proj1 (pc_ok_local _ _ _ (ok_pc _ Ok _ _ Ex) lb El)) as Hlb.
  case_if; wps.
  - eapply wp_mono; [apply wp_to_decoder; [done|by eexists|done|done]|].
    intros ok w1 S1. pose proof (step_up _ _ _ Hlen S1) as S1'.
    destruct ok; wps; [by eapply data_done_after|done].
  - eapply wp_mono; [by apply wp_remove_to_output|].
    intros n w1 S1. eapply data_done_after; [exact (step_up _ _ _ Hlen S1)|done].
Qed.

(** The state after a data frame of [k] bytes. *)
Definition received (k : Z) (w w' : world) : Prop :=
  mux_ok w' ∧ steady w w' ∧ ∀ m, buf_room w (k + m) → buf_room w' m.

Lemma received_step k w w1 w' :
  steady w w1 → no_fuller w w1 → step k w1 w' → received k w w'.
Proof.
  intros (C & Hh & P) Hr [[Ok E] R]. split; [done|]. split.
  - split; [|split]; [rewrite (ev_connect _ _ E)|rewrite (ev_hdr _ _ E)|rewrite (ev_partial _ _ E)]; done.
  - intros m Hm. by apply R, Hr.
Qed.

Lemma received_nothing k w w1 :
  0 ≤ k → mux_ok w1 → steady w w1 → no_fuller w w1 → received k w w1.
Proof. intros Hk Ok Hs Hn. eapply received_step; [done|done|]. by apply step_up, step_refl. Qed.

Lemma wp_process_data b r s len flags pc w :
  mux_ok w → registered w r s → w_all_pc w !! s_id s = pc →
  is_Some (w_bevs w !! b) → 0 ≤ len → buf_room w len →
  wp (process_data handle_fn b r len flags pc) (λ _ w', received len w w') w.
Proof.
  intros Ok Hreg Hpc Hb Hlen Room. pose proof Hreg as [_ E]. unfold process_data. wp_st E.
  eapply wp_mono.
  { apply (wp_pres steady); [apply pres_process_flags, _|].
    apply (wp_pres no_fuller); [apply pres_process_flags, _|by apply wp_process_flags]. }
  intros ok w1 [[[Ok1 Hf] Hn1] Hs1]. destruct ok; simpl; wps; [|by apply received_nothing].
  destruct (after_flags_true _ _ _ _ _ Hreg Hf) as [_ Hcase].
  unfold get_stream_by_id. wps.
  destruct (w_all_stream w1 !! s_id s) as [r1|] eqn:E1; wps; [|by apply received_nothing].
  destruct Hcase as [?|(s1 & Hreg1 & Hid1 & _ & _ & S1)]; [congruence|]. pose proof Hreg1 as [_ El1].
  wp_st El1. case_if; wps; [by apply received_nothing|]. wp_ust El1.
  destruct (registered_main_or_client _ _ _ Ok1 Hreg1) as [Hr _].
  set (s2 := set_s_recv_window _ s1).
  assert (stays w1 (with_stream r s2 w1)) as S2.
  { eapply stays_with_stream; [done|exact El1|done|]. intros [? ?]. unfold s2, stream_ok; simpl. lia. }
  set (w2 := with_stream r s2 w1) in *.
  assert (stays w w2) as S02 by by etransitivity.
  assert (step 0 w w2) as St2 by by apply step_stays.
  assert (registered w2 r s2) as Hreg2.
  { eapply registered_stays; [exact S2|exact Hreg1|by eapply lookup_with_stream]. }
  eapply wp_mono; [apply (wp_payload b r s2 len pc w2 (step_ok _ _ _ St2) Hreg2)|].
  - intros p Hp. apply (step_live _ _ _ _ St2). rewrite Hp in Hpc.
    destruct (ok_all_pc _ Ok _ _ Hpc) as (_ & x & Ex & _). by eexists.
  - by eapply step_bev.
  - done.
  - apply St2. by rewrite Z.add_0_l.
  - intros n w3 S3. eapply (received_step len w w2); [|exact (proj2 St2)|exact S3].
    destruct S02 as [K _]. split; [apply K|split; apply K].
Qed.

(** ** Rounds *)

(** The demultiplexer between two rounds. *)
Record demux_ok (b : positive) (w : world) : Prop := {
  dm_mux : mux_ok w;
  dm_connect : w_connect_bev w = Some b;
  dm_partial : 0 ≤ w_partial_header w < 12;
  dm_hdr : zlen (w_hdr w) = 12;
  dm_cur : ∀ r, w_cur w = Some r →
    w_partial_header w = 0 ∧ (r = SAbandon ∨ ∃ s, registered w r s) ∧
    ∃ h, hdr_of_bytes (w_hdr w) = Some h ∧ hdr_type h = TMUX_DATA;
}.

(** [w'] differs from [w] in the demultiplexer's variables only. *)
Definition same_shared (w w' : world) : Prop :=
  w_all_stream w' = w_all_stream w ∧ w_all_pc w' = w_all_pc w ∧ w_pcs w' = w_pcs w ∧
  w_bevs w' = w_bevs w ∧ w_main_stream w' = w_main_stream w ∧ w_connect_bev w' = w_connect_bev w ∧
  w_next w' = w_next w ∧ w_session_id w' = w_session_id w.

Lemma mux_ok_shared w w' : same_shared w w' → mux_ok w → mux_ok w'.
Proof.
  intros (E1 & E2 & E3 & E4 & E5 & E6 & E7 & E8) Ok. constructor.
  - rewrite E3. intros p pc E. destruct (ok_pc _ Ok p pc E).
    constructor; rewrite ?E2, ?E4, ?E6; done.
  - rewrite E3. apply (ok_inj _ Ok).
  - rewrite E1, E2, E3. apply (ok_all_pc _ Ok).
  - rewrite E1, E2, E5, E8. apply (ok_all_stream _ Ok).
  - rewrite E5. apply (ok_main _ Ok).
  - rewrite E4, E6. apply (ok_connect _ Ok).
  - rewrite E3, E7. apply (ok_fresh_pc _ Ok).
  - rewrite E4, E7. apply (ok_fresh_bev _ Ok).
  - rewrite E8. apply (ok_session _ Ok).
Qed.

Lemma demux_idle b w w' :
  mux_ok w → same_shared w w' → w_connect_bev w = Some b → 0 ≤ w_partial_header w' < 12 →
  zlen (w_hdr w') = 12 → w_cur w' = None → demux_ok b w'.
Proof.
  intros Ok Hs Hc Hp Hh Hn. constructor; [by eapply mux_ok_shared| |done|done|].
  - destruct Hs as (_ & _ & _ & _ & _ & -> & _). done.
  - by rewrite Hn.
Qed.

(** How a round ends: with the state in order, room for what is left, and less
    left if [data]. *)
Definition round_ok (data : bool) (b : positive) (len : Z) (w : world) (e : round_end) (w' : world) : Prop :=
  demux_ok b w' ∧
  match e with
  | RBreak => ∀ m, buf_room w (len + m) → buf_room w' m
  | RNext len' => (0 ≤ len' ∧ if data then len' < len else len' ≤ len) ∧
                  w_partial_header w' = 0 ∧
                  ∀ m, buf_room w (len + m) → buf_room w' (len' + m)
  end.

(** A frame without payload. *)
Lemma wp_control_frame (m : M ()) b len w :
  pres steady m → pres no_fuller m → wp m (λ _ w', mux_ok w') w →
  w_connect_bev w = Some b → w_partial_header w = 0 → zlen (w_hdr w) = 12 → 0 ≤ len →
  wp (m ;; set_cur_stream None ;; ret (RNext len)) (round_ok false b len w) w.
Proof.
  intros P1 P2 Hm Hc Hp Hh Hlen. unfold set_cur_stream. wps.
  eapply wp_mono; [apply (wp_pres steady); [done|]; apply (wp_pres no_fuller); [done|exact Hm]|].
  intros u w1 [[Ok1 Hn] (C & E & P)]. wps. split.
  - eapply (demux_idle b w1); simpl; try done; try congruence. rewrite P, Hp. lia.
  - split; [lia|]. split; [simpl; congruence|]. exact (λ m, Hn (len + m)).
Qed.

(** The payload of an unknown stream. *)
Lemma wp_discard b len sl w h :
  mux_ok w → w_connect_bev w = Some b → w_partial_header w = 0 → zlen (w_hdr w) = 12 →
  hdr_of_bytes (w_hdr w) = Some h → hdr_type h = TMUX_DATA →
  (w_cur w = None ∨ w_cur w = Some SAbandon) → 0 < len < 2 ^ 32 → 0 < sl →
  wp (discard b (if u32 len <? sl then u32 len else sl) len sl) (round_ok true b len w) w.
Proof.
  intros Ok Hc Hp Hh Eh Ht Hcur Hlen Hsl. rewrite u32_small by lia. unfold discard, input_drain.
  destruct (ok_connect _ Ok _ Hc) as [x Ex]. wp_bev Ex.
  set (w1 := set_w_bevs _ w). assert (mux_ok w1) as Ok1.
  { eapply mux_ok_stays; [exact Ok|by apply (stays_bev _ b x)]. }
  set (n := if len <? sl then len else sl).
  assert (0 < n ≤ len) as Hn by (unfold n; case_if; lia).
  assert (∀ w2, w_pcs w2 = w_pcs w → ∀ m, buf_room w (len + m) → buf_room w2 (len - n + m)) as Hroom.
  { intros w2 E m Hr. eapply buf_room_same; [exact E| |exact Hr]. lia. }
  case_if; unfold set_cur_stream; wps.
  - split; [|split; [lia|split; [done|by apply Hroom]]].
    eapply (demux_idle b w1); simpl; try done. lia.
  - split; [|split; [lia|split; [done|by apply Hroom]]].
    constructor; simpl; try done; [by apply (mux_ok_shared w1)|lia|].
    intros r Hr. destruct Hcur as [Hcur|Hcur]; [congruence|]. assert (r = SAbandon) as -> by congruence.
    split; [done|]. split; [by left|eauto].
Qed.

(** The target of the payload in [consume]. *)
Definition target_ok (w : world) (cur : option sref) (h : tcp_mux_header) : Prop :=
  match cur with
  | None => hdr_type h ≠ TMUX_DATA
  | Some SAbandon => hdr_type h = TMUX_DATA ∧ (w_cur w = None ∨ w_cur w = Some SAbandon)
  | Some r => hdr_type h = TMUX_DATA ∧ ∃ s, registered w r s
  end.

(** The payload of a known stream. *)
Lemma wp_deliver b r s len h w :
  mux_ok w → w_connect_bev w = Some b → w_partial_header w = 0 → zlen (w_hdr w) = 12 →
  hdr_of_bytes (w_hdr w) = Some h → hdr_type h = TMUX_DATA → registered w r s →
  0 ≤ len < 2 ^ 32 → 0 < w_stream_len w → buf_room w len →
  wp (s <- get_stream r ;;
      if (if u32 len <? w_stream_len w then u32 len else w_stream_len w) <? w_stream_len w
      then set_cur_stream (Some r) ;; ret RBreak
      else
        pc <- get_proxy_client (s_id s) ;;
        process_data handle_fn b r (w_stream_len w) (ntohs (hdr_flags h)) pc ;;
        modify (set_w_stream_len 0) ;;
        set_cur_stream None ;;
        ret (RNext (len - w_stream_len w))) (round_ok true b len w) w.
Proof.
  intros Ok Hc Hp Hh Eh Ht Hreg Hlen Hsl Room. rewrite u32_small by done.
  pose proof Hreg as [Hin El]. wp_st El. unfold set_cur_stream.
  destruct (registered_main_or_client _ _ _ Ok Hreg) as [_ Hid].
  set (w' := set_w_cur (Some r) w).
  destruct (Z.ltb_spec len (w_stream_len w)) as [Hlt|Hge];
    [rewrite (proj2 (Z.ltb_lt _ _) Hlt)|rewrite Z.ltb_irrefl]; wps.
  - split; [|intros m Hr; apply (buf_room_le w m (len + m) Hr); lia].
    constructor; simpl; try done; [by apply (mux_ok_shared w)|lia|].
    intros r0 [= <-]. split; [done|]. split; [right; exists s; by split|eauto].
  - unfold get_proxy_client. rewrite (proj2 (Z.eqb_neq _ _) Hid). wps.
    eapply wp_mono.
    { apply (wp_process_data b r s); [done|done|done|by apply (ok_connect _ Ok)|lia|].
      by eapply buf_room_le. }
    intros n w1 (Ok1 & (C1 & H1 & P1) & R1). wps. split.
    + eapply (demux_idle b w1); simpl; try done; try congruence. rewrite P1, Hp. lia.
    + split; [lia|]. split; [simpl; congruence|]. intros m Hr. apply (R1 (len - w_stream_len w + m)).
      by replace (w_stream_len w + (len - w_stream_len w + m)) with (len + m) by lia.
Qed.

Lemma wp_consume b cur len h w :
  mux_ok w → w_connect_bev w = Some b → w_partial_header w = 0 → zlen (w_hdr w) = 12 →
  hdr_of_bytes (w_hdr w) = Some h → target_ok w cur h →
  (∀ r, w_cur w = Some r → cur = Some r) →
  0 ≤ len < 2 ^ 32 → (hdr_type h = TMUX_DATA → 0 < len) → buf_room w len →
  wp (consume handle_fn b cur len) (round_ok (hdr_type h =? TMUX_DATA) b len w) w.
Proof.
  intros Ok Hc Hp Hh Eh Ht Hcur Hlen Hpos Room. unfold consume, read_hdr. wps. rewrite Eh. wps.
  destruct ((hdr_type h =? TMUX_DATA) && (0 <? w_stream_len w)) eqn:Ed; b2p.
  { rewrite (proj2 (Z.eqb_eq (hdr_type h) TMUX_DATA)) by done.
    destruct cur as [[|p|]|]; simpl in Ht; [| | |done].
    - destruct Ht as [_ [s Hreg]]. by eapply wp_deliver.
    - destruct Ht as [_ [s Hreg]]. by eapply wp_deliver.
    - destruct Ht as [_ Hc2]. eapply wp_discard; try done. split; [by apply Hpos|lia]. }
  case_if; [rewrite Hc0; apply wp_control_frame; try done; [by apply (pres_handle_tcp_mux_stream _)|by apply (pres_handle_tcp_mux_stream _)| |lia];
            by apply wp_handle_tcp_mux_stream|].
  case_if; [rewrite Hc1; apply wp_control_frame; try done; [by apply (pres_handle_tcp_mux_ping _)|by apply (pres_handle_tcp_mux_ping _)| |lia];
            by apply wp_handle_tcp_mux_ping|].
  case_if; [rewrite Hc2; apply wp_control_frame; try done; [by apply (pres_handle_tcp_mux_go_away _)|by apply (pres_handle_tcp_mux_go_away _)| |lia];
            by apply wp_handle_tcp_mux_go_away|].
  wps. split; [|intros m Hr; apply (buf_room_le w m (len + m) Hr); lia].
  constructor; try done; [lia|]. intros r Hr. rewrite (Hcur r Hr) in Ht. split; [done|].
  destruct r as [|p|]; simpl in Ht; destruct Ht as [? Ht]; (split; [|by eauto]); auto.
Qed.

(** ** Header assembly *)

Record filled (b : positive) (len : Z) (w : world) (o : option Z) (w' : world) : Prop := {
  fl_mux : mux_ok w';
  fl_connect : w_connect_bev w' = Some b;
  fl_hdr : zlen (w_hdr w') = 12;
  fl_cur : w_cur w' = None;
  fl_pcs : w_pcs w' = w_pcs w;
  fl_len : match o with
           | None => 0 ≤ w_partial_header w' < 12
           | Some len' => w_partial_header w' = 0 ∧ 0 ≤ len' < len
           end;
}.

Lemma zlen_splice (l d : bytes) (k : Z) :
  zlen l = 12 → 0 ≤ k → k + zlen d ≤ 12 → zlen (ztake k l ++ d ++ zdrop (k + zlen d) l) = 12.
Proof. intros Hl Hk Hd. lens. Qed.

Lemma zlen_pad (d : bytes) : zlen d ≤ 12 → zlen (d ++ replicate (12 - length d) 0) = 12.
Proof.
  intros Hd. unfold zlen in *. rewrite length_app, length_replicate. lia.
Qed.

Lemma wp_fill_header b len x w :
  mux_ok w → w_connect_bev w = Some b → 0 ≤ w_partial_header w < 12 → zlen (w_hdr w) = 12 →
  w_cur w = None → w_bevs w !! b = Some x → 0 < len →
  (w_partial_header w = 0 ∨ zlen (b_in x) ≤ len) →
  wp (fill_header b len) (filled b len w) w.
Proof.
  intros Ok Hc Hp Hh Hcur Ex Hlen Hin. unfold fill_header, bufferevent_read, sizeof_tcp_mux_header.
  assert (∀ y w', same_shared (set_w_bevs (<[b := y]> (w_bevs w)) w) w' → mux_ok w') as Hmux.
  { intros y w' Hs. eapply mux_ok_shared; [exact Hs|]. eapply mux_ok_stays; [exact Ok|].
    by apply (stays_bev _ b x). }
  wps. destruct (Z.ltb_spec 0 (w_partial_header w)) as [Hpos|Hz]; wps.
  - wp_bev Ex. cbn [w_hdr w_partial_header set_w_bevs set_w_hdr set_w_partial_header].
    set (d := ztake (12 - w_partial_header w) (b_in x)).
    assert (0 ≤ zlen d ≤ 12 - w_partial_header w ∧ zlen d ≤ zlen (b_in x)) as [Hd Hd2] by (unfold d; lens).
    assert (u8 (w_partial_header w + zlen d) = w_partial_header w + zlen d) as ->.
    { unfold u8. apply Z.mod_small. change (2 ^ 8) with 256. lia. }
    assert (zlen (ztake (w_partial_header w) (w_hdr w) ++ d ++ zdrop (w_partial_header w + zlen d) (w_hdr w)) = 12)
      as Hs by (apply zlen_splice; lia).
    case_if; wps; constructor; try done; try (by eapply Hmux; repeat split).
    + simpl. lia.
    + split; [done|]. destruct Hin; lia.
  - wp_bev Ex. set (n := if len <? 12 then len else 12). set (d := ztake n (b_in x)).
    assert (0 ≤ zlen d ≤ 12 ∧ zlen d ≤ n) as [Hd Hn] by (unfold d, n; case_if; lens).
    pose proof (zlen_pad d (proj2 Hd)) as Hs. unfold n in Hn.
    assert (u8 (zlen d) = zlen d) as Hu.
    { unfold u8. apply Z.mod_small. change (2 ^ 8) with 256. lia. }
    destruct (Z.ltb_spec len 12); wps.
    + constructor; try done; [by eapply Hmux; repeat split|]. simpl. rewrite Hu. lia.
    + case_if; wps; constructor; try done; try (by eapply Hmux; repeat split); simpl; lia.
Qed.

Lemma hdr_of_12 l : zlen l = 12 → ∃ h, hdr_of_bytes l = Some h.
Proof.
  unfold zlen. intros Hl. do 12 (destruct l as [|? l]; [done|]). destruct l; [|simpl in Hl; lia].
  eexists. reflexivity.
Qed.

(** ** A round *)

Lemma round_ok_break b len w w' :
  0 ≤ len → demux_ok b w' → w_pcs w' = w_pcs w → round_ok true b len w RBreak w'.
Proof.
  intros Hlen D E. split; [done|]. intros m Hr. eapply buf_room_same; [exact E| |exact Hr]. lia.
Qed.

(** A round after a header of [len - len1] bytes. *)
Lemma round_ok_after data b len len1 w w1 e w' :
  len1 < len → w_pcs w1 = w_pcs w → round_ok data b len1 w1 e w' → round_ok true b len w e w'.
Proof.
  intros Hle E [D He]. split; [done|].
  assert (∀ m, buf_room w (len + m) → buf_room w1 (len1 + m)) as Hr.
  { intros m Hr. eapply buf_room_same; [exact E| |exact Hr]. lia. }
  destruct e as [|len']; [auto|]. destruct He as ([? Hd] & ? & He).
  split; [|auto]. split; [done|]. destruct data; lia.
Qed.

Lemma wp_demux_round b len x w :
  demux_ok b w → 0 < len < 2 ^ 32 → buf_room w len → w_bevs w !! b = Some x →
  (w_partial_header w = 0 ∨ zlen (b_in x) ≤ len) →
  wp (demux_round handle_fn b len) (round_ok true b len w) w.
Proof.
  intros [Ok Hc Hp Hh Hcur] Hlen Room Ex Hin. unfold demux_round, get_cur_stream. wps.
  destruct (w_cur w) as [r|] eqn:Er.
  { destruct (Hcur r eq_refl) as (Hp0 & Hr & h & Eh & Ht).
    rewrite <- (proj2 (Z.eqb_eq _ _) Ht).
    eapply wp_consume; try done; [|congruence|lia|lia].
    destruct r as [|p|]; simpl; (split; [done|]); destruct Hr as [Hr|Hr]; try done; by right. }
  wps. eapply wp_mono; [apply (wp_fill_header b len x w); try done; lia|].
  intros o w1 [Ok1 Hc1 Hh1 Hcur1 P1 Hl1]. destruct o as [len1|]; wps; cycle 1.
  { apply round_ok_break; [lia| |done]. by eapply (demux_idle b w1). }
  destruct Hl1 as [Hp1 Hl1]. destruct (hdr_of_12 _ Hh1) as [h Eh].
  unfold dispatch, read_hdr. wps. rewrite Eh. wps.
  assert (∀ w2, same_shared w1 w2 → w_hdr w2 = w_hdr w1 → w_partial_header w2 = 0 →
    w_cur w2 = None → round_ok true b len w RBreak w2) as Hbreak.
  { intros w2 Hs E2 P2 C2. pose proof Hs as (_ & _ & Ep & _).
    apply round_ok_break; [lia| |congruence].
    eapply (demux_idle b w1); try done; [lia|congruence]. }
  case_if; wps; [by apply Hbreak|].
  assert (buf_room w1 len1) as Room1.
  { eapply buf_room_same; [exact P1| |exact Room]. lia. }
  destruct (Z.eqb_spec (hdr_type h) TMUX_DATA) as [Ht|Ht]; wps; cycle 1.
  { eapply wp_mono; [eapply (wp_consume b None len1 h w1); try done; [congruence|lia]|].
    intros e w2. apply round_ok_after; [lia|done]. }
  set (w2 := set_w_stream_len _ w1). assert (mux_ok w2) as Ok2 by by apply (mux_ok_shared w1).
  case_if; wps; [by apply Hbreak|]. unfold get_stream_by_id, set_cur_stream. wps.
  assert (∀ r, target_ok w2 (Some r) h →
    wp (if len1 =? 0 then modify (set_w_cur (Some r)) ;; ret RBreak
        else consume handle_fn b (Some r) len1) (round_ok true b len w) w2) as Hgo.
  { intros r Htr. case_if; wps.
    - apply round_ok_break; [lia| |done]. constructor; simpl; try done; [by apply (mux_ok_shared w1)|lia|].
      intros r0 [= <-]. split; [done|]. split; [|eauto].
      destruct r as [|p|]; simpl in Htr; destruct Htr as [_ Htr]; [by right|by right|by left].
    - eapply wp_mono; [eapply (wp_consume b (Some r) len1 h w2); try done; [|lia|lia]|].
      + intros r0 Hr0. simpl in Hr0. congruence.
      + intros e w3. apply round_ok_after; [lia|done]. }
  destruct (w_all_stream w2 !! ntohl (hdr_stream_id h)) as [r|] eqn:Hreg.
  - destruct (registered_by_id _ _ _ Ok2 Hreg) as (s & Hrs & _).
    destruct (registered_main_or_client _ _ _ Ok2 Hrs) as [Hr _].
    apply Hgo. destruct r as [|p|]; simpl; eauto.
  - case_if; [apply Hgo; simpl; auto|]. wps. split.
    + eapply (demux_idle b w1); try done. simpl. lia.
    + split; [lia|]. split; [done|]. intros m Hr. eapply (buf_room_same w); [exact P1| |exact Hr]. lia.
Qed.

(** ** The loop *)

Lemma wp_demux_loop fuel b len x w :
  demux_ok b w → len < 2 ^ 32 → len ≤ Z.of_nat fuel → w_bevs w !! b = Some x →
  (w_partial_header w = 0 ∨ zlen (b_in x) ≤ len) → buf_room w (Z.max 0 len) →
  wp (demux_loop handle_fn fuel b len)
     (λ ok w', ok = true ∧ demux_ok b w' ∧ ∀ m, buf_room w (Z.max 0 len + m) → buf_room w' m) w.
Proof.
  revert len x w. induction fuel as [|fuel IH]; intros len x w D Hlen Hf Ex Hin Room.
  { simpl. rewrite (proj2 (Z.leb_le _ _)) by lia. wps. do 2 (split; [done|]). intros m Hr.
    eapply buf_room_le; [exact Hr|lia]. }
  cbn [demux_loop]. case_if; wps.
  { do 2 (split; [done|]). intros m Hr. eapply buf_room_le; [exact Hr|lia]. }
  rewrite Z.max_r in * by lia.
  eapply wp_mono; [apply (wp_demux_round b len x w); try done; lia|].
  intros e w1 [D1 He]. destruct e as [|len1]; wps; [done|]. destruct He as ([H0 Hlt] & P1 & Hr1).
  destruct (ok_connect _ (dm_mux _ _ D1) _ (dm_connect _ _ D1)) as [x1 Ex1].
  rewrite <- (Z.max_r 0 len1) in Hr1 by lia.
  eapply wp_mono; [apply (IH len1 x1 w1); try done; [lia|lia|by left|]|].
  - rewrite <- (Z.add_0_r (Z.max 0 len1)). apply Hr1. by rewrite Z.add_0_r.
  - intros ok w2 (-> & D2 & Hr2). do 2 (split; [done|]). intros m Hm. by apply Hr2, Hr1.
Qed.

End Safe.


#[local] Existing Instance Toy.mbedtls.

(** A handler that does nothing keeps the contract. *)
#[local] Instance skip_handler_ok : HandlerOk (λ _ _, ret ()).
Proof.
  intros d o w Ok _ _. wps. apply step_up; [apply zlen_nonneg|by apply step_refl].
Qed.

Lemma demo_ok st inp : demux_ok 1 (Demo.world st inp).
Proof. constructor; [apply Demo.world_ok|done|simpl; lia|done|done]. Qed.

Lemma demo_room st inp n : n ≤ 2 ^ 31 → buf_room (Demo.world st inp) n.
Proof.
  intros Hn. split; [done|]. intros p x. simpl. intros [<- <-]%lookup_singleton_Some. repeat split; simpl; try lia; exact Hn.
Qed.

