(* ===== verification/Forward.v ===== *)
(** * Forwarding from the local service to the server

    The write loop of [src/src/proxy_tcp.c] and the callback
    [tcp_proxy_c2s_cb]: every byte read from the local connection is on the
    wire, in order and once, or still waiting in a queue. *)

From S2P Require Import Prelude Endian Evp CryptoStream World Mux MuxInv MuxSafe MuxThm ProxyTcp Frame ProxySafe.

Section Forward.
Context `{Mbedtls}.

(** ** Frames on the wire *)

(** A data frame: its flags and its payload. *)
Definition wire_frame : Type := Z * bytes.

Definition frame_bytes (id : Z) (f : wire_frame) : bytes :=
  hdr_bytes (tcp_mux_encode TMUX_DATA (fst f) id (zlen (snd f))) ++ snd f.
Definition frames_bytes (id : Z) (fs : list wire_frame) : bytes := concat (map (frame_bytes id) fs).
Definition payloads (fs : list wire_frame) : bytes := concat (map snd fs).

Definition frame_sized (f : wire_frame) : Prop := 0 < zlen (snd f) ≤ DEFAULT_MAX_FRAME_SIZE.

(** What a failed write may leave behind: a header without its payload. *)
Definition torn_tail (id st : Z) (tail : bytes) : Prop :=
  tail = [] ∨ st = -2 ∧ ∃ f n, tail = hdr_bytes (tcp_mux_encode TMUX_DATA f id n).

(** How the loop ends: everything went out; or the window is used up; or the
    stream is closed for writing; or the connection's queue refused the frame
    after the [k] frames that went out (each asks the queue twice). *)
Definition loop_end (s s' : tmux_stream) (w : world) (src rest : bytes) (k : nat) (st : Z) : Prop :=
  st = 1 ∧ rest = [] ∧ (src = [] ∨ closed_for_writing (s_state s) = false) ∨
  st = 0 ∧ rest ≠ [] ∧ s_send_window s' = 0 ∧ closed_for_writing (s_state s) = false ∨
  st = -1 ∧ src ≠ [] ∧ closed_for_writing (s_state s) = true ∨
  st = -2 ∧ src ≠ [] ∧ closed_for_writing (s_state s) = false ∧
    (e_ok (w_env w) (w_tick w + 2 * k) = false ∨ e_ok (w_env w) (S (w_tick w + 2 * k)) = false).

(** The effect of the loop on the connection [b] and the stream [r]: the
    frames [fs] went out, [rest] did not. *)
Record forwarded (b : positive) (r : sref) (s : tmux_stream) (src : bytes) (w : world)
    (st : Z) (rest : bytes) (w' : world) (fs : list wire_frame) (tail : bytes)
    (s' : tmux_stream) : Prop := {
  fw_stays : stays w w';
  fw_bytes : payloads fs ++ rest = src;
  fw_sized : Forall frame_sized fs;
  fw_out : out_of w' b = (λ o, o ++ frames_bytes (s_id s) fs ++ tail) <$> out_of w b;
  fw_others : ∀ c, c ≠ b → out_of w' c = out_of w c;
  fw_tail : torn_tail (s_id s) st tail;
  fw_stream : lookup_stream w' r = Some s';
  fw_window : s_send_window s' = s_send_window s - zlen (payloads fs);
  fw_status : loop_end s s' w src rest (length fs) st;
  fw_closed : closed_for_writing (s_state s) = true → fs = [];
}.

Lemma option_app_nil (o : option bytes) : (λ x, x ++ []) <$> o = o.
Proof. destruct o; simpl; by rewrite ?app_nil_r. Qed.

Lemma option_app_app (a b : bytes) (o : option bytes) :
  (λ x, x ++ b) <$> ((λ x, x ++ a) <$> o) = (λ x, x ++ a ++ b) <$> o.
Proof. destruct o; simpl; by rewrite ?app_assoc. Qed.

(** Nothing sent. *)
Lemma forwarded_none b r s src w w' st tail s' :
  stays w w' → out_of w' b = (λ o, o ++ tail) <$> out_of w b →
  (∀ c, c ≠ b → out_of w' c = out_of w c) → torn_tail (s_id s) st tail →
  lookup_stream w' r = Some s' → s_send_window s' = s_send_window s →
  loop_end s s' w src src 0 st →
  forwarded b r s src w st src w' [] tail s'.
Proof. intros. constructor; try done. unfold payloads; simpl. rewrite zlen_nil. lia. Qed.

Lemma forwarded_quiet b r s src w st :
  lookup_stream w r = Some s →
  loop_end s s w src src 0 st →
  forwarded b r s src w st src w [] [] s.
Proof.
  intros E Hst. apply forwarded_none; try done; [by rewrite option_app_nil|by left].
Qed.

Lemma closed_send_same st : closed_for_writing (state_after_send st) = closed_for_writing st.
Proof. by destruct st. Qed.

(** One frame, then the rest of the loop. *)
Lemma forwarded_cons b r s src n w w1 st rest w' fs tail s' :
  n = frame_len src s → 0 < n → stays w w1 → registered w r s →
  lookup_stream w1 r = Some (stream_sent s n) →
  out_of w1 b = (λ o, o ++ data_frame s n src) <$> out_of w b →
  (∀ c, c ≠ b → out_of w1 c = out_of w c) → closed_for_writing (s_state s) = false → asked 2 w w1 →
  forwarded b r (stream_sent s n) (zdrop n src) w1 st rest w' fs tail s' →
  forwarded b r s src w st rest w' ((flags_to_send (s_state s), ztake n src) :: fs) tail s'.
Proof.
  intros Hn Hpos S1 Hreg E1 O1 C1 Hop [Ea Ta] [S2 Hb Hf Ho Hc Ht Hs Hw Hst].
  assert (n ≤ zlen src) as Hle by (rewrite Hn; unfold frame_len; lia).
  assert (zlen (ztake n src) = n) as Hz by lens.
  constructor; try done.
  - by etransitivity.
  - unfold payloads in *. simpl. rewrite <- app_assoc, Hb. apply ztake_zdrop.
  - constructor; [|done]. unfold frame_sized. simpl. rewrite Hz. split; [done|].
    rewrite Hn. unfold frame_len. lia.
  - rewrite Ho, O1, option_app_app. unfold frames_bytes, data_frame, data_hdr, frame_bytes. simpl.
    rewrite Hz. by rewrite !app_assoc.
  - intros c Hcb. by rewrite Hc, C1.
  - rewrite Hw. unfold payloads. simpl. rewrite zlen_app, Hz. lia.
  - assert (src ≠ []) as Hne by (intros ->; rewrite zlen_nil in Hle; lia).
    unfold loop_end in *. simpl s_state in Hst. rewrite closed_send_same, Hop, Ea, Ta in Hst.
    cbn [length]. replace (w_tick w + 2 * S (length fs))%nat with (w_tick w + 2 + 2 * length fs)%nat by lia.
    naive_solver.
  - by rewrite Hop.
Qed.

(** ** Input queues

    Writing to a stream leaves the input queues alone. *)

Definition input_of (w : world) (b : positive) : option bytes := b_in <$> w_bevs w !! b.
Definition inputs_kept {A} (m : M A) : Prop := ∀ w a w', m w = Some (a, w') → ∀ c, input_of w' c = input_of w c.

Lemma kept_bind {A B} (m : M A) (f : A → M B) : inputs_kept m → (∀ a, inputs_kept (f a)) → inputs_kept (bind m f).
Proof.
  intros Hm Hf w b w' E c. unfold bind in E. destruct (m w) as [[a w1]|] eqn:E1; [|done].
  by rewrite (Hf _ _ _ _ E), (Hm _ _ _ E1).
Qed.
Lemma kept_ret {A} (a : A) : inputs_kept (ret a).
Proof. by intros w a' w' [= <- <-]. Qed.
Lemma kept_gets {A} (f : world → A) : inputs_kept (gets f).
Proof. by intros w a' w' [= <- <-]. Qed.
Lemma kept_get_stream r : inputs_kept (get_stream r).
Proof. intros w a w'. unfold get_stream. destruct (lookup_stream w r); [|done]. by intros [= <- <-]. Qed.
Lemma kept_upd_stream r f : inputs_kept (upd_stream r f).
Proof.
  destruct r as [|p|]; intros w a w'; simpl; [by intros [= <- <-]| |by intros [= <- <-]].
  unfold upd_pc, put_pc, get_pc, bind. destruct (w_pcs w !! p); [|done]. by intros [= <- <-].
Qed.
Lemma kept_output_add b d : inputs_kept (output_add b d).
Proof.
  intros w a w'. unfold output_add, bind, get_bev, oracle, put_bev. destruct (w_bevs w !! b) as [x|] eqn:E; [|done].
  simpl. destruct (e_ok _ _); intros [= <- <-] c; unfold input_of; simpl; [|done].
  destruct (decide (b = c)) as [<-|]; [by rewrite lookup_insert_eq, E|by rewrite lookup_insert_ne].
Qed.
(** Follows the code of an operation. *)
Ltac kept_with L := repeat first [apply kept_ret | apply kept_gets | apply kept_get_stream | apply kept_upd_stream | apply kept_output_add | apply L
  | apply kept_bind; [|intros ?] | progress cbv zeta
  | match goal with
    | |- inputs_kept (if ?b then _ else _) => destruct b
    | |- inputs_kept (match ?x with _ => _ end) => destruct x
    end].

Lemma kept_get_send_flags r : inputs_kept (get_send_flags r).
Proof. unfold get_send_flags. kept_with @kept_ret. Qed.
Lemma kept_tmux_stream_write bev src r : inputs_kept (tmux_stream_write bev src r).
Proof. unfold tmux_stream_write. kept_with kept_get_send_flags. Qed.
Lemma kept_write_loop fuel ctl src r : inputs_kept (write_loop fuel ctl src r).
Proof.
  revert src. induction fuel as [|fuel IH]; intros src; cbn [write_loop]; [by intros w a w'|].
  kept_with kept_tmux_stream_write; apply IH.
Qed.

(** ** The loop *)

Lemma run_write_loop fuel b src r s w :
  mux_ok w → registered w r s → is_Some (w_bevs w !! b) → zlen src < 2 ^ 32 →
  zlen src < Z.of_nat fuel →
  ∃ st rest w' fs tail s', write_loop fuel (Some b) src r w = Some ((st, rest), w') ∧
    forwarded b r s src w st rest w' fs tail s'.
Proof.
  revert src s w. induction fuel as [|fuel IH]; intros src s w Ok Hreg Hb Hlen Hf.
  { pose proof (zlen_nonneg src). lia. }
  pose proof Hreg as [_ El]. cbn [write_loop]. case_if.
  { apply zlen_0_inv in Hc as ->. eexists 1, [], w, [], [], s. split; [done|].
    apply forwarded_quiet; [done|]. left. auto. }
  assert (bev_live w (Some b)) as L by (intros c [= <-]; done).
  destruct (run_tmux_stream_write (Some b) src r s w Ok Hreg L Hlen)
    as (rc & rest & w1 & Hrun & Ho & Ok1).
  unfold bind at 1. rewrite Hrun. 
  assert (src ≠ []) as Hsrc by (intros ->; done).
  destruct Ho as [Hcl|Hop Hno|w1 Hop _ Hwin S1 E1 R1|b' n w1 Hop Ht Hn Hpos S1 K1 K2 A1 E1 O1 C1].
  - exists (-1), src, w, [], [], s. split; [done|]. apply forwarded_quiet; [done|]. right; right; left. done.
  - exists 0, src, w, [], [], s. split; [done|].
    apply forwarded_quiet; [done|].
    right; left. split_and!; [done|done| |done]. destruct Hno as [->|?]; [done|done].
  - inversion R1 as [|b' K A O|b' K K' A O O']; subst b'.
    + eexists (-2), src, w1, [], [], _. split; [done|].
      eapply forwarded_none; [done|by rewrite option_app_nil|done|by left|exact E1|done|].
      right; right; right. rewrite Nat.mul_0_r, Nat.add_0_r. auto.
    + eexists (-2), src, w1, [], _, _. split; [done|].
      eapply forwarded_none; [done|exact O|done| |exact E1|done|].
      * right. split; [done|]. eexists _, _. reflexivity.
      * right; right; right. rewrite Nat.mul_0_r, Nat.add_0_r. auto.
  - injection Ht as <-. assert (n ≤ zlen src) by (rewrite Hn; unfold frame_len; lia).
    destruct (IH (zdrop n src) (stream_sent s n) w1) as (st & rest & w' & fs & tail & s' & Hr & Hfw);
      [done|by eapply registered_stays|by eapply stays_bev_live|lens|lens|].
    exists st, rest, w', ((flags_to_send (s_state s), ztake n src) :: fs), tail, s'.
    split; [|by eapply forwarded_cons].
    rewrite (proj2 (Z.ltb_ge _ _)), (proj2 (Z.eqb_neq _ _)) by lia. exact Hr.
Qed.

(** ** The callback *)

Definition reading (w : world) (b : positive) : option bool := b_read <$> w_bevs w !! b.

(** A client with a tunnel: its record, its two connections, the queue of the
    local one. *)
Record tunnel (w : world) (p lb b : positive) (x : proxy_client) (y : bufferevent) : Prop := {
  tn_ok : mux_ok w;
  tn_client : w_pcs w !! p = Some x;
  tn_ctl : pc_ctl_bev x = Some b;
  tn_local : pc_local_bev x = Some lb;
  tn_queue : w_bevs w !! lb = Some y;
}.

Lemma tunnel_distinct w p lb b x y :
  tunnel w p lb b x y → lb ≠ b ∧ is_Some (w_bevs w !! b) ∧ w_connect_bev w = Some b.
Proof.
  intros [Ok Ep Ec El Ey]. pose proof (ok_pc _ Ok _ _ Ep) as Hx.
  pose proof (pc_ok_ctl _ _ _ Hx b Ec) as Hc. split_and!; [|by apply (ok_connect _ Ok)|done].
  intros ->. by destruct (pc_ok_local _ _ _ Hx b El).
Qed.

(** Writing to the input queue of a live connection other than [b]. *)
Lemma wp_set_input lb b f w :
  mux_ok w → is_Some (w_bevs w !! lb) → lb ≠ b →
  wp (upd_bev lb f) (λ _ w', mux_ok w' ∧ stays w w' ∧ out_of w' b = out_of w b ∧
     w_pcs w' = w_pcs w ∧
     ∃ y, w_bevs w !! lb = Some y ∧ w_bevs w' !! lb = Some (f y)) w.
Proof.
  intros Ok [y Ey] Hne. wp_bev Ey.
  assert (stays w (set_w_bevs (<[lb:=f y]> (w_bevs w)) w)) as S by by apply (stays_bev _ lb y).
  split; [by eapply mux_ok_stays|]. split; [done|]. split; [|split; [done|]].
  - unfold out_of. simpl. by rewrite lookup_insert_ne.
  - exists y. split; [done|]. simpl. apply lookup_insert_eq.
Qed.

Lemma wp_del_client p b x id w :
  mux_ok w → w_pcs w !! p = Some x → w_connect_bev w = Some b → id = s_id (pc_stream x) →
  wp (del_proxy_client_by_stream_id id)
     (λ _ w', mux_ok w' ∧ out_of w' b = out_of w b ∧ w_pcs w' !! p = None) w.
Proof.
  intros Ok Ep Hc ->. pose proof (client_registered _ _ _ Ok Ep) as Hreg.
  destruct (registered_main_or_client _ _ _ Ok Hreg) as [_ Hid].
  eapply wp_mono; [by apply wp_del_proxy_client_by_stream_id|].
  intros u w' D. split; [apply D|]. split.
  - unfold out_of. by rewrite (d_out _ _ _ D b Hc).
  - apply (d_gone _ _ _ D). rewrite (pc_ok_id _ _ _ (ok_pc _ Ok _ _ Ep)).
    apply (ok_pc _ Ok _ _ Ep).
Qed.

(** Where the bytes are after the callback, with [k] frames sent from [src]: all
    sent; or the window is used up and [rest] waits with reading switched off; or
    the client is gone, because its stream [s] was closed for writing or because
    the connection's queue refused a frame. *)
Definition c2s_end (p lb : positive) (s : tmux_stream) (w : world) (src rest : bytes) (k : nat) (w' : world) (st : Z) : Prop :=
  st = 1 ∧ rest = [] ∧ (src = [] ∨ closed_for_writing (s_state s) = false) ∧ input_of w' lb = Some [] ∧ is_Some (w_pcs w' !! p) ∨
  st = 0 ∧ rest ≠ [] ∧ closed_for_writing (s_state s) = false ∧ input_of w' lb = Some rest ∧ reading w' lb = Some false ∧
    window_left (s_id s) w' = 0 ∧ is_Some (w_pcs w' !! p) ∨
  st = -1 ∧ src ≠ [] ∧ closed_for_writing (s_state s) = true ∧ w_pcs w' !! p = None ∨
  st = -2 ∧ src ≠ [] ∧ closed_for_writing (s_state s) = false ∧ w_pcs w' !! p = None ∧
    (e_ok (w_env w) (w_tick w + 2 * k) = false ∨ e_ok (w_env w) (S (w_tick w + 2 * k)) = false).

(** What the callback does with [src]: the bytes of [frames] went to the
    connection. *)
Definition c2s_result (p lb b : positive) (s : tmux_stream) (src : bytes) (w w' : world) : Prop :=
  ∃ st fs tail rest, payloads fs ++ rest = src ∧ Forall frame_sized fs ∧ torn_tail (s_id s) st tail ∧
    out_of w' b = (λ o, o ++ frames_bytes (s_id s) fs ++ tail) <$> out_of w b ∧
    c2s_end p lb s w src rest (length fs) w' st ∧ mux_ok w'.

(** Running the loop on a client's stream. *)
Lemma wp_write_client p b x src w Q :
  mux_ok w → w_pcs w !! p = Some x → is_Some (w_bevs w !! b) → zlen src < 2 ^ 32 →
  (∀ st rest w1 fs tail x1,
    forwarded b (SClient p) (pc_stream x) src w st rest w1 fs tail (pc_stream x1) →
    mux_ok w1 → w_pcs w1 !! p = Some x1 → s_id (pc_stream x1) = s_id (pc_stream x) →
    set_pc_stream zero_stream x1 = set_pc_stream zero_stream x → (∀ c, input_of w1 c = input_of w c) → Q (st, rest) w1) →
  wp (write_loop (write_fuel src) (Some b) src (SClient p)) Q w.
Proof.
  intros Ok Ep Hb Hlen HQ. pose proof (client_registered _ _ _ Ok Ep) as Hreg.
  destruct (run_write_loop (write_fuel src) b src (SClient p) (pc_stream x) w)
    as (st & rest & w1 & fs & tail & s' & Hrun & F); try done.
  { unfold write_fuel, zlen. lia. }
  apply (wp_of_run _ _ _ _ _ Hrun). pose proof (fw_stays _ _ _ _ _ _ _ _ _ _ _ F) as S1.
  destruct (stays_client _ _ p x S1 Ep) as (x1 & E1 & Hx1).
  assert (pc_stream x1 = s') as <-.
  { pose proof (fw_stream _ _ _ _ _ _ _ _ _ _ _ F) as Es. simpl in Es. rewrite E1 in Es.
    by injection Es. }
  eapply HQ; [exact F|by eapply mux_ok_stays|done| |done|by eapply kept_write_loop].
  destruct (stays_lookup _ _ (SClient p) (pc_stream x) S1) as (s2 & E2 & H2); [apply Hreg|].
  simpl in E2. rewrite E1 in E2. by injection E2 as <-.
Qed.

Lemma window_left_client w p x :
  mux_ok w → w_pcs w !! p = Some x → window_left (s_id (pc_stream x)) w = s_send_window (pc_stream x).
Proof. intros Ok Ep. apply (window_left_registered w (SClient p)). by apply client_registered. Qed.

Lemma wp_c2s_plain p lb b x y w :
  tunnel w p lb b x y → use_encryption (pc_codec x) = false → use_compression (pc_codec x) = false →
  e_tcp_mux (w_env w) ≠ 0 → zlen (b_in y) < 2 ^ 32 →
  wp (tcp_proxy_c2s_cb lb p) (λ _ w', c2s_result p lb b (pc_stream x) (b_in y) w w') w.
Proof.
  intros T Henc Hcomp Hmux Hlen. destruct (tunnel_distinct _ _ _ _ _ _ T) as (Hne & Hb & Hcon).
  destruct T as [Ok Ep Ec El Ey]. unfold tcp_proxy_c2s_cb. wp_pc Ep. rewrite Ec. wp_bev Ey.
  case_if; wps.
  { exists 1, [], [], []. apply zlen_0_inv in Hc. split_and!; try done; [by left|..].
    - by rewrite option_app_nil.
    - left. split_and!; try done; [by left|unfold input_of; rewrite Ey; simpl; by rewrite Hc]. }
  rewrite Henc, Hcomp, (proj2 (Z.eqb_neq _ _) Hmux). simpl orb. wps.
  apply (wp_write_client p b x); [done..|]. intros st rest w1 fs tail x1 F Ok1 E1 Hid _ _.
  pose proof (fw_stays _ _ _ _ _ _ _ _ _ _ _ F) as S1. wps. eapply wp_mono.
  { apply (wp_set_input lb b); [done| |done]. eapply stays_bev_live; [exact S1|by eexists]. }
  intros u w2 (Ok2 & S2 & O2 & P2 & z & Ez & Ez2). rewrite <- P2 in E1.
  assert (∀ w3, out_of w3 b = out_of w2 b → mux_ok w3 →
    c2s_end p lb (pc_stream x) w (b_in y) rest (length fs) w3 st →
    c2s_result p lb b (pc_stream x) (b_in y) w w3) as Hres.
  { intros w3 O3 Ok3 He. exists st, fs, tail, rest. destruct F. split_and!; try done. congruence. }
  destruct (fw_status _ _ _ _ _ _ _ _ _ _ _ F) as [(-> & -> & Hop)|[(-> & Hr & Hw & Hop)|Hdel]].
  - wps. apply Hres; [done|done|]. left. split_and!; try done; unfold input_of; by rewrite Ez2.
  - wps. unfold bufferevent_disable. eapply wp_mono; [by apply (wp_set_input lb b); [|eexists|]|].
    intros u3 w3 (Ok3 & S3 & O3 & P3 & z3 & Ez3 & Ez3'). apply Hres; [done|done|].
    right; left. unfold input_of, reading. rewrite Ez3'. assert (z3 = set_b_in rest z) as -> by congruence.
    rewrite <- P3 in E1. split_and!; try done; [simpl; by rewrite andb_false_r|].
    rewrite <- Hid. by rewrite (window_left_client w3 p x1).
  - assert (st < 0) as Hneg by naive_solver lia. rewrite (proj2 (Z.ltb_lt _ _) Hneg). wps.
    eapply wp_mono; [apply (wp_del_client p b x1); [done|done| |done]|].
    { destruct S1 as [K1 _], S2 as [K2 _]. by rewrite (k_connect _ _ K2), (k_connect _ _ K1). }
    intros u3 w3 (Ok3 & O3 & G3). apply Hres; [done|done|]. right; right. naive_solver.
Qed.

(** ** The encrypted path *)

Definition pending_of (w : world) (p : positive) : bytes :=
  match w_pcs w !! p with
  | Some x => match pc_enc_pending x with Some d => d | None => [] end
  | None => []
  end.

Definition codec_of (w : world) (p : positive) : option codec := pc_codec <$> w_pcs w !! p.

(** All encoded bytes sent; or the window is used up, the rest is set aside
    and reading is off; or the client is gone, and then its stream [s] was
    closed for writing. *)
Definition enc_end (p lb : positive) (s : tmux_stream) (src rest : bytes) (w' : world) (st : Z) : Prop :=
  st = 1 ∧ rest = [] ∧ (src = [] ∨ closed_for_writing (s_state s) = false) ∧ pending_of w' p = [] ∧ is_Some (w_pcs w' !! p) ∨
  st = 0 ∧ rest ≠ [] ∧ closed_for_writing (s_state s) = false ∧ pending_of w' p = rest ∧ reading w' lb = Some false ∧
    window_left (s_id s) w' = 0 ∧ is_Some (w_pcs w' !! p) ∨
  st = -1 ∧ rest = src ∧ src ≠ [] ∧ closed_for_writing (s_state s) = true ∧ w_pcs w' !! p = None.

(** [src]: the bytes to send; [c]: the codec after the encoding, which has taken
    everything off the input queue. *)
Definition enc_result (p lb b : positive) (s : tmux_stream) (src : bytes) (c : codec) (w w' : world) : Prop :=
  ∃ st fs rest, payloads fs ++ rest = src ∧ Forall frame_sized fs ∧
    out_of w' b = (λ o, o ++ frames_bytes (s_id s) fs) <$> out_of w b ∧
    enc_end p lb s src rest w' st ∧ (is_Some (w_pcs w' !! p) → codec_of w' p = Some c ∧ input_of w' lb = Some []) ∧ mux_ok w'.

(** A step before the loop: bytes on the wire and the environment are as
    before, the client is the same but for its codec and the queue set aside. *)
Record prepares (p : positive) (x : proxy_client) (w : world) (x' : proxy_client) (w' : world)
    : Prop := {
  pr_good : good w w';
  pr_env : w_env w' = w_env w;
  pr_out : ∀ c, out_of w' c = out_of w c;
  pr_client : w_pcs w' !! p = Some x';
  pr_stream : pc_stream x' = pc_stream x;
}.

Lemma prepares_tick p x w :
  mux_ok w → w_pcs w !! p = Some x → prepares p x w x (set_w_tick (S (w_tick w)) w).
Proof. intros Ok Ep. constructor; try done. apply stays_good; [done|apply stays_tick]. Qed.

Lemma prepares_trans p x w x1 w1 x2 w2 :
  prepares p x w x1 w1 → prepares p x1 w1 x2 w2 → prepares p x w x2 w2.
Proof.
  intros [G1 E1 O1 P1 S1] [G2 E2 O2 P2 S2]. constructor; try congruence.
  by eapply good_trans.
Qed.

Lemma prepares_upd p x f w :
  mux_ok w → w_pcs w !! p = Some x → may_become w x (f x) →
  prepares p x w (f x) (set_w_pcs (<[p := f x]> (w_pcs w)) w).
Proof.
  intros Ok Ep Hm. constructor; try done; [by eapply good_put_pc|apply lookup_insert_eq|apply Hm].
Qed.

Lemma prepares_ok p x w x' w' : prepares p x w x' w' → mux_ok w'.
Proof. intros P. apply P. Qed.

Lemma wp_take_pending p x w :
  mux_ok w → w_pcs w !! p = Some x → (∀ n, e_ok (w_env w) n = true) →
  wp (take_pending p) (λ d w', d = pending_of w p ∧ w_bevs w' = w_bevs w ∧
     ∃ x', prepares p x w x' w' ∧ pc_codec x' = pc_codec x ∧
           (pc_enc_pending x' = None ∨ pc_enc_pending x' = Some [])) w.
Proof.
  intros Ok Ep He. unfold take_pending, pending_of. wp_pc Ep. rewrite Ep.
  assert (prepares p x w x w) as Hno by (constructor; try done; by apply good_refl).
  destruct (pc_enc_pending x) as [[|c d]|] eqn:Epd; wps; [by eauto 10| |by eauto 10].
  rewrite He. pose proof (prepares_tick p x w Ok Ep) as P1. set (w1 := set_w_tick _ w) in *.
  assert (w_pcs w1 !! p = Some x) as Ep1 by done. wp_pc Ep1. split; [done|]. split; [done|].
  exists (set_pc_enc_pending (Some []) x). split; [|split; [|by right]].
  - eapply prepares_trans; [exact P1|]. apply prepares_upd; [by eapply prepares_ok|done|].
    by apply may_become_same.
  - done.
Qed.

Lemma encode_empties sn mem c src c' lft out : crypto_encode_evbuffer sn mem c src = (c', lft, out) → lft = [].
Proof.
  unfold crypto_encode_evbuffer. case_if; [apply zlen_0_inv in Hc as ->; by intros [= <- <- <-]|].
  cbv zeta. destruct (if use_encryption c then _ else _) as [e|]; [|by intros [= <- <- <-]].
  destruct (if crypto_writer_iv_sent e then _ else _) as [pre e1]. destruct (crypto_encrypt e1 _) as [[r w'] e2]. by intros [= <- <- <-].
Qed.

Lemma wp_encode_src p lb x y w :
  mux_ok w → w_pcs w !! p = Some x → w_bevs w !! lb = Some y →
  (∀ n, e_ok (w_env w) n = true) →
  let '(c, lft, out) := crypto_encode_evbuffer (e_snappy (w_env w)) true (pc_codec x) (b_in y) in
  wp (encode_src p lb) (λ d w', d = out ∧ prepares p x w (set_pc_codec c x) w' ∧
     input_of w' lb = Some []) w.
Proof.
  intros Ok Ep Ey He. destruct (crypto_encode_evbuffer _ _ _ _) as [[c lft] out] eqn:Ec. pose proof (encode_empties _ _ _ _ _ _ _ Ec) as ->.
  unfold encode_src. wp_bev Ey. wp_pc Ep. rewrite He.
  cbn [w_env set_w_tick]. rewrite Ec. cbv beta iota zeta.
  pose proof (prepares_tick p x w Ok Ep) as P1. set (w1 := set_w_tick _ w) in *.
  assert (w_pcs w1 !! p = Some x) as Ep1 by done. wp_pc Ep1. split; [done|].
  pose proof (prepares_upd p x (set_pc_codec c) w1 (prepares_ok _ _ _ _ _ P1) Ep1) as P2.
  set (w2 := set_w_pcs _ w1) in *.
  assert (prepares p x w1 (set_pc_codec c x) w2) as P2' by (apply P2; by apply may_become_same).
  split; [|unfold input_of; simpl; by rewrite lookup_insert_eq].
  eapply prepares_trans; [exact P1|]. eapply prepares_trans; [exact P2'|].
  destruct P2' as [G2 _ _ E2 _]. constructor; try done.
  - apply stays_good; [apply G2|]. by apply (stays_bev w2 lb y).
  - intros c'. unfold out_of. simpl. destruct (decide (lb = c')) as [<-|Hne].
    + rewrite lookup_insert_eq, Ey. done.
    + by rewrite lookup_insert_ne.
Qed.

Lemma wp_stash_pending p x rest w :
  mux_ok w → w_pcs w !! p = Some x → (∀ n, e_ok (w_env w) n = true) →
  (pc_enc_pending x = None ∨ pc_enc_pending x = Some []) →
  wp (stash_pending p rest) (λ _ w', ∃ x', prepares p x w x' w' ∧ pc_enc_pending x' = Some rest ∧
     w_bevs w' = w_bevs w ∧ pc_codec x' = pc_codec x) w.
Proof.
  intros Ok Ep He Hp. unfold stash_pending. wp_pc Ep.
  assert (∀ w1, prepares p x w x w1 → w_bevs w1 = w_bevs w →
    wp (ok <- oracle ;; upd_pc p (set_pc_enc_pending (Some (if ok then [] ++ rest else []))))
      (λ _ w', ∃ x', prepares p x w x' w' ∧ pc_enc_pending x' = Some rest ∧ w_bevs w' = w_bevs w ∧ pc_codec x' = pc_codec x) w1)
    as Hend.
  { intros w1 P1 B1. wps. rewrite (pr_env _ _ _ _ _ P1), He.
    pose proof (prepares_tick p x w1 (prepares_ok _ _ _ _ _ P1) (pr_client _ _ _ _ _ P1)) as P2.
    set (w2 := set_w_tick _ w1) in *. pose proof (pr_client _ _ _ _ _ P2) as E2. wp_pc E2.
    exists (set_pc_enc_pending (Some rest) x). split; [|split; [|by split]].
    - eapply prepares_trans; [exact P1|]. eapply prepares_trans; [exact P2|].
      apply prepares_upd; [by eapply prepares_ok|done|by apply may_become_same].
    - done. }
  destruct Hp as [Hp|Hp]; rewrite Hp; wps.
  - rewrite He. cbv beta iota. pose proof (Hend _ (prepares_tick p x w Ok Ep) eq_refl) as Hx.
    revert Hx. by wps.
  - assert (prepares p x w x w) as Hno by (constructor; try done; by apply good_refl).
    pose proof (Hend _ Hno eq_refl) as Hx. revert Hx. by wps.
Qed.

(** The loop and what follows it, on the encoded bytes. *)
Lemma wp_enc_tail p lb b x src w :
  mux_ok w → w_pcs w !! p = Some x → w_connect_bev w = Some b → input_of w lb = Some [] → lb ≠ b →
  (∀ n, e_ok (w_env w) n = true) → (pc_enc_pending x = None ∨ pc_enc_pending x = Some []) →
  zlen src < 2 ^ 32 →
  wp (res <- write_loop (write_fuel src) (Some b) src (SClient p) ;;
      let '(st, rest) := res in
      if st <? 0 then del_proxy_client_by_stream_id (s_id (pc_stream x))
      else if st =? 0 then stash_pending p rest ;; bufferevent_disable lb true false
      else ret ()) (λ _ w', enc_result p lb b (pc_stream x) src (pc_codec x) w w') w.
Proof.
  intros Ok Ep Hcon Hlb Hne He Hpd Hlen. wps.
  apply (wp_write_client p b x); [done|done|by apply (ok_connect _ Ok)|done|].
  intros st rest w1 fs tail x1 F Ok1 E1 Hid Hsame Hin. specialize (Hin lb). rewrite Hlb in Hin.
  pose proof (fw_stays _ _ _ _ _ _ _ _ _ _ _ F) as [K1 W1].
  assert (pc_enc_pending x1 = pc_enc_pending x ∧ pc_codec x1 = pc_codec x) as [Hpd1 Hco1] by (destruct x, x1; by injection Hsame).
  assert (∀ w3, out_of w3 b = out_of w1 b → mux_ok w3 → st ≠ -2 →
    enc_end p lb (pc_stream x) src rest w3 st →
    (is_Some (w_pcs w3 !! p) → codec_of w3 p = Some (pc_codec x) ∧ input_of w3 lb = Some []) →
    enc_result p lb b (pc_stream x) src (pc_codec x) w w3) as Hres.
  { intros w3 O3 Ok3 Hst Hend Hc. exists st, fs, rest. pose proof (fw_tail _ _ _ _ _ _ _ _ _ _ _ F) as Ht.
    pose proof (fw_out _ _ _ _ _ _ _ _ _ _ _ F) as Ho. destruct Ht as [->|[? _]]; [|done]. rewrite app_nil_r in Ho.
    split_and!; try done; [apply F|apply F|congruence]. }
  destruct (fw_status _ _ _ _ _ _ _ _ _ _ _ F) as [(-> & -> & Hop)|[(-> & Hr & Hw & Hop)|[(-> & Hr & Hcl)|(-> & _ & _ & Hf)]]].
  4: { rewrite !He in Hf. by destruct Hf. }
  - change (1 <? 0) with false. change (1 =? 0) with false. wps. apply Hres; [done|done|done| |].
    + left. split_and!; try done. unfold pending_of. rewrite E1, Hpd1. by destruct Hpd as [->| ->].
    + intros _. split; [|done]. unfold codec_of. rewrite E1. simpl. by rewrite Hco1.
  - change (0 <? 0) with false. change (0 =? 0) with true. cbv iota. wps.
    eapply wp_mono; [apply (wp_stash_pending p x1); [done|done| |by rewrite Hpd1]|].
    { by rewrite (k_env _ _ K1). }
    intros u2 w2 (x2 & P2 & Hp2 & B2 & Hco2). unfold bufferevent_disable. unfold input_of in Hin. destruct (w_bevs w1 !! lb) as [z1|] eqn:Ez1; [|done].
    eapply wp_mono.
    { apply (wp_set_input lb b); [by eapply prepares_ok| |done]. rewrite B2, Ez1. by eexists. }
    intros u3 w3 (Ok3 & S3 & O3 & P3 & z & Ez & Ez3). rewrite B2, Ez1 in Ez. injection Ez as <-.
    pose proof (pr_client _ _ _ _ _ P2) as E2. rewrite <- P3 in E2.
    apply Hres; [by rewrite O3, (pr_out _ _ _ _ _ P2)|done|done| |].
    + right; left. split_and!; try done; [unfold pending_of; by rewrite E2, Hp2| |].
      * unfold reading. rewrite Ez3. simpl. by rewrite andb_false_r.
      * rewrite <- Hid, <- (pr_stream _ _ _ _ _ P2). rewrite (window_left_client w3 p x2 Ok3 E2).
        by rewrite (pr_stream _ _ _ _ _ P2).
    + intros _. unfold codec_of, input_of. rewrite E2, Ez3. simpl. split; [by rewrite Hco2, Hco1|done].
  - change (-1 <? 0) with true. cbv iota. wps. eapply wp_mono; [apply (wp_del_client p b x1); [done|done| |done]|].
    { by rewrite (k_connect _ _ K1). }
    intros u3 w3 (Ok3 & O3 & G3). apply Hres; [done|done|done| |rewrite G3; by intros [? ?]].
    right; right. pose proof (fw_closed _ _ _ _ _ _ _ _ _ _ _ F Hcl) as ->.
    pose proof (fw_bytes _ _ _ _ _ _ _ _ _ _ _ F) as Hsrc. done.
Qed.

Lemma enc_result_prepares p lb b s src c x w x1 w1 w' :
  prepares p x w x1 w1 → enc_result p lb b s src c w1 w' → enc_result p lb b s src c w w'.
Proof.
  intros P (st & fs & rest & H1 & H2 & H3 & H4 & H5 & H6).
  exists st, fs, rest. split_and!; try done. by rewrite H3, (pr_out _ _ _ _ _ P).
Qed.

Lemma wp_c2s_encoded p lb b x y w :
  tunnel w p lb b x y → use_encryption (pc_codec x) || use_compression (pc_codec x) = true →
  e_tcp_mux (w_env w) ≠ 0 → (∀ n, e_ok (w_env w) n = true) → b_in y ≠ [] →
  let '(c, lft, out) := crypto_encode_evbuffer (e_snappy (w_env w)) true (pc_codec x) (b_in y) in
  zlen (pending_of w p ++ out) < 2 ^ 32 →
  wp (tcp_proxy_c2s_cb lb p)
     (λ _ w', enc_result p lb b (pc_stream x) (pending_of w p ++ out) c w w') w.
Proof.
  intros T Henc Hmux He Hin. destruct (crypto_encode_evbuffer _ _ _ _) as [[c lft] out] eqn:Ec.
  intros Hlen. destruct (tunnel_distinct _ _ _ _ _ _ T) as (Hne & Hb & Hcon).
  destruct T as [Ok Ep Ectl El Ey]. unfold tcp_proxy_c2s_cb. wp_pc Ep. rewrite Ectl. wp_bev Ey.
  destruct (Z.eqb_spec (zlen (b_in y)) 0) as [Hz|_]; [by apply zlen_0_inv in Hz|].
  rewrite Henc. wps. rewrite He. simpl negb. cbv iota.
  pose proof (prepares_tick p x w Ok Ep) as P1. set (w1 := set_w_tick _ w) in *. wps.
  eapply wp_mono; [apply (wp_take_pending p x w1 (prepares_ok _ _ _ _ _ P1) Ep He)|].
  intros d w2 (-> & B2 & x2 & P2 & C2 & Hpd). wps.
  assert (w_bevs w2 !! lb = Some y) as Ey2 by by rewrite B2.
  assert (w_env w2 = w_env w) as E2 by by rewrite (pr_env _ _ _ _ _ P2).
  pose proof (wp_encode_src p lb x2 y w2 (prepares_ok _ _ _ _ _ P2) (pr_client _ _ _ _ _ P2) Ey2) as Hw.
  rewrite E2, C2, Ec in Hw. eapply wp_mono; [exact (Hw He)|].
  intros d w3 (-> & P3 & Hlb). rewrite (proj2 (Z.eqb_neq _ _) Hmux).
  pose proof (prepares_trans _ _ _ _ _ _ _ P1 (prepares_trans _ _ _ _ _ _ _ P2 P3)) as P13.
  eapply wp_mono; [|intros u w4 Hr; exact (enc_result_prepares _ _ _ _ _ _ _ _ _ _ _ P13 Hr)].
  rewrite <- (pr_stream _ _ _ _ _ P13).
  apply (wp_enc_tail p lb b (set_pc_codec c x2) (pending_of w p ++ out) w3); try done.
  - by eapply prepares_ok.
  - by apply P3.
  - destruct (pr_good _ _ _ _ _ P13) as [_ Ev]. by rewrite (ev_connect _ _ Ev).
  - by rewrite (pr_env _ _ _ _ _ P13).
Qed.

End Forward.

(** C2: the tunnel loses, repeats and reorders nothing on its way to the
    server.  When bytes arrive from the local service, the callback cuts them
    into data frames of at most 256 KiB whose payloads, followed by what is
    left, are exactly those bytes; what is left stays in the input queue, and
    then the send window is used up and reading is switched off.  The client is
    deleted only when its stream was closed for writing, or when the queue of the
    connection refused the frame after those that went out. *)
Theorem c2s_forwards_in_order `{Mbedtls} (p lb b : positive) (x : proxy_client) (y : bufferevent)
    (w : world) (T : tunnel w p lb b x y)
    (Henc : use_encryption (pc_codec x) = false) (Hcomp : use_compression (pc_codec x) = false)
    (Hmux : e_tcp_mux (w_env w) ≠ 0) (Hlen : zlen (b_in y) < 2 ^ 32) :
  ∃ w', tcp_proxy_c2s_cb lb p w = Some ((), w') ∧
    c2s_result p lb b (pc_stream x) (b_in y) w w'.
Proof.
  pose proof (wp_c2s_plain p lb b x y w T Henc Hcomp Hmux Hlen) as Hw.
  apply wp_run in Hw as ([] & w' & Hr & Hq). eauto.
Qed.

(** C3: the same for an encrypted or compressed tunnel.  The bytes set aside
    by an earlier call come first, then the encoding of the new ones, each
    encoded once; the frames' payloads followed by what is set aside now are
    exactly those bytes, the input queue is empty, and the codec is the one after
    the encoding.  When memory does not run out, the client is deleted only if
    its stream was closed for writing. *)
Theorem c2s_encoded_in_order `{Mbedtls} (p lb b : positive) (x : proxy_client) (y : bufferevent)
    (c : codec) (lft out : bytes) (w : world) (T : tunnel w p lb b x y)
    (Henc : use_encryption (pc_codec x) || use_compression (pc_codec x) = true)
    (Hmux : e_tcp_mux (w_env w) ≠ 0) (Hmem : ∀ n, e_ok (w_env w) n = true) (Hin : b_in y ≠ [])
    (Hout : crypto_encode_evbuffer (e_snappy (w_env w)) true (pc_codec x) (b_in y) = (c, lft, out))
    (Hlen : zlen (pending_of w p ++ out) < 2 ^ 32) :
  ∃ w', tcp_proxy_c2s_cb lb p w = Some ((), w') ∧
    enc_result p lb b (pc_stream x) (pending_of w p ++ out) c w w'.
Proof.
  pose proof (wp_c2s_encoded p lb b x y w T Henc Hmux Hmem Hin) as Hw. rewrite Hout in Hw.
  specialize (Hw Hlen). apply wp_run in Hw as ([] & w' & Hr & Hq). eauto.
Qed.

(** ** Concrete runs *)

#[local] Existing Instance Toy.mbedtls.

(** The client of [Demo] with codec [c] and [inp] waiting from its local
    service. *)
Definition demo_client (c : codec) : proxy_client :=
  set_pc_codec c (Demo.client TMUX_ESTABLISHED (Some 3%positive)).
Definition demo_tunnel_world (c : codec) (inp : bytes) : world :=
  set_w_bevs (<[3%positive := Demo.bev inp]> (w_bevs (Demo.world TMUX_ESTABLISHED [])))
    (set_w_pcs (<[2%positive := demo_client c]> (w_pcs (Demo.world TMUX_ESTABLISHED [])))
       (Demo.world TMUX_ESTABLISHED [])).

Lemma may_become_codec w x c : may_become w x (set_pc_codec c x).
Proof. by apply may_become_same. Qed.

Lemma demo_tunnel c inp : tunnel (demo_tunnel_world c inp) 2 3 1 (demo_client c) (Demo.bev inp).
Proof.
  constructor; [|reflexivity..]. unfold demo_tunnel_world.
  destruct (good_put_pc (Demo.world TMUX_ESTABLISHED []) 2
              (Demo.client TMUX_ESTABLISHED (Some 3%positive)) (demo_client c)) as [Ok1 _].
  - apply Demo.world_ok.
  - reflexivity.
  - apply may_become_codec.
  - set (w1 := set_w_pcs _ _) in *. eapply mux_ok_stays; [exact Ok1|].
    apply (stays_bev w1 3 (Demo.bev [])). reflexivity.
Qed.

Lemma c2s_forwards_in_order_witness :
  ∃ w', tcp_proxy_c2s_cb 3 2 (demo_tunnel_world (mkCodec false false None None) [7; 8; 9])
        = Some ((), w') ∧
    c2s_result 2 3 1 (pc_stream (demo_client (mkCodec false false None None))) [7; 8; 9] (demo_tunnel_world (mkCodec false false None None) [7; 8; 9]) w'.
Proof.
  apply (c2s_forwards_in_order 2 3 1 _ (Demo.bev [7; 8; 9]) _
           (demo_tunnel (mkCodec false false None None) [7; 8; 9])).
  - reflexivity.
  - reflexivity.
  - discriminate.
  - vm_compute. reflexivity.
Defined.

Definition demo_codec : codec := mkCodec true false (Some toy_crypto_writer) None.

Lemma c2s_encoded_in_order_witness :
  ∃ c out w', crypto_encode_evbuffer no_snappy true demo_codec [7; 8; 9] = (c, [], out) ∧
    tcp_proxy_c2s_cb 3 2 (demo_tunnel_world demo_codec [7; 8; 9]) = Some ((), w') ∧
    enc_result 2 3 1 (pc_stream (demo_client demo_codec)) out c (demo_tunnel_world demo_codec [7; 8; 9]) w'.
Proof.
  destruct (c2s_encoded_in_order 2 3 1 _ (Demo.bev [7; 8; 9])
              (fst (fst (crypto_encode_evbuffer no_snappy true demo_codec [7; 8; 9])))
              (snd (fst (crypto_encode_evbuffer no_snappy true demo_codec [7; 8; 9])))
              (snd (crypto_encode_evbuffer no_snappy true demo_codec [7; 8; 9])) _
              (demo_tunnel demo_codec [7; 8; 9])) as (w' & Hr & Hq).
  - reflexivity.
  - discriminate.
  - reflexivity.
  - discriminate.
  - reflexivity.
  - vm_compute. reflexivity.
  - eexists _, _, w'. split; [reflexivity|]. split; [exact Hr|exact Hq].
Defined.
