(* ===== verification/StartWork.v ===== *)
(** * Starting a work connection

    [start_xfrp_tunnel] of [src/src/client.c] and the tail of
    [handle_type_start_work_conn] of [src/src/control.c]: when the local
    connection can be made the tunnel is set up and nothing else is disturbed;
    when it cannot, the client is freed and then used. *)

From S2P Require Import Prelude Growth Endian Evp CryptoStream World Mux MuxInv MuxSafe MuxThm ProxyTcp Frame Demux ProxySafe.

(** The environment is fixed. *)
Definition same_env `{Mbedtls} (w w' : world) : Prop := w_env w' = w_env w.

#[export] Instance same_env_frame `{Mbedtls} : DataFrame same_env.
Proof. repeat split; try done; unfold same_env in *; congruence. Qed.

Section Start.
Context `{Mbedtls}.

(** ** The local connection *)

Lemma bufferevent_new_some w o w' :
  alloc_ok w → bufferevent_new w = Some (o, w') → is_Some o ∧ alloc_ok w'.
Proof.
  intros He. unfold bufferevent_new, bind, oracle, fresh, put_bev, modify, ret. rewrite He. simpl.
  intros [= <- <-]. split; [by eexists|exact He].
Qed.

Lemma connect_server_some n port w o w' :
  alloc_ok w → 0 < port → connect_server true (Some n) port w = Some (o, w') → is_Some o.
Proof.
  intros He Hp. unfold connect_server. rewrite (proj2 (Z.leb_gt _ _)) by lia. simpl. unfold bind at 1.
  destruct (bufferevent_new w) as [[b w1]|] eqn:Eb; [|done].
  destruct (bufferevent_new_some _ _ _ He Eb) as [[c ->] He1].
  unfold bind at 1, oracle. rewrite He1. unfold bind, bufferevent_enable.
  destruct (upd_bev _ _ _) as [[[] w2]|]; [|done]. intros [= <- _]. by eexists.
Qed.

Lemma wp_connect_udp_server base w :
  mux_ok w → wp (connect_udp_server base) (λ o w', new_bev_post w o w' ∧
     (alloc_ok w → base = true → is_Some o)) w.
Proof.
  intros Ok. unfold connect_udp_server. destruct base; simpl; wps.
  - pose proof (stays_good _ _ Ok (stays_tick w (S (w_tick w)))) as G1.
    set (w1 := set_w_tick _ w) in *. destruct (e_ok (w_env w) (w_tick w)) eqn:Eo; simpl; wps.
    + eapply wp_mono with (P := λ o w', new_bev_post w1 o w' ∧ (alloc_ok w1 → is_Some o)).
      { pose proof (wp_bufferevent_new w1 (proj1 G1)) as Hn.
        apply wp_run in Hn as (o & w' & Hr & Hn). apply wp_run. exists o, w'. split; [done|].
        split; [done|]. intros He. by eapply bufferevent_new_some. }
      intros o w' [(G & P & U) Hs]. split; [|intros He _; by apply Hs].
      split; [by eapply good_trans|]. by split.
    + split; [by split|]. intros He. specialize (He (w_tick w)). congruence.
  - split; [|done]. split; [by apply good_refl|done].
Qed.

Lemma wp_connect_server_alloc base name port w :
  mux_ok w → wp (connect_server base name port) (λ o w', new_bev_post w o w' ∧
     (alloc_ok w → base = true → name ≠ None → 0 < port → is_Some o)) w.
Proof.
  intros Ok. pose proof (wp_connect_server base name port w Ok) as Hn.
  apply wp_run in Hn as (o & w' & Hr & Hn). apply wp_run. exists o, w'. split; [done|]. split; [done|].
  intros He -> Hname Hp. destruct name as [n|]; [|done]. by eapply connect_server_some.
Qed.

(** ** The codec *)

Lemma wp_init_codec ps w :
  wp (init_codec ps) (λ _ w', stays w w' ∧ w_pcs w' = w_pcs w ∧ w_env w' = w_env w) w.
Proof.
  unfold init_codec. wps.
  destruct (if ps_use_encryption ps then _ else _) as [key|]; wps; [|done].
  unfold random_block. split; [|done]. do 2 (etransitivity; [apply stays_tick|]). apply stays_tick.
Qed.

(** ** Outcomes *)

(** The client lives on, with nothing else disturbed, or it has been freed. *)
Definition started (p : positive) (w w' : world) : Prop :=
  step 0 w w' ∨ mux_ok w' ∧ w_pcs w' !! p = None.

(** A service whose local connection can be made when memory suffices. *)
Definition connectable (ps : proxy_service) : Prop :=
  is_uds_proxy (Some ps) = false ∧ ps_local_ip ps ≠ None ∧ 0 ≤ ps_local_port ps.

(** A connection was made; or it is deferred; or it failed and the client was
    freed. *)
Definition setup_post (p : positive) (x : proxy_client) (ps : proxy_service) (w : world)
    (rc : Z) (w' : world) : Prop :=
  (rc = 1 ∧ step 0 w w' ∧
     ∃ x' lb, w_pcs w' !! p = Some x' ∧ pc_local_bev x' = Some lb ∧ pc_ctl_bev x' = pc_ctl_bev x)
  ∨ (rc = 0 ∧ w' = w)
  ∨ (rc = -1 ∧ mux_ok w' ∧ w_pcs w' !! p = None ∧
     (alloc_ok w → pc_base x = true → ps_local_port ps ≠ 0 → ¬ connectable ps)).

Lemma wp_setup_local_connection p x ps w :
  mux_ok w → w_pcs w !! p = Some x → pc_ps x = Some ps →
  wp (setup_local_connection p) (setup_post p x ps w) w.
Proof.
  intros Ok Ep Hps. unfold setup_local_connection. wp_pc Ep. rewrite Hps. cbv zeta.
  set (finish := λ b : option positive, _).
  assert (∀ o w1, new_bev_post w o w1 →
    (o = None → alloc_ok w → pc_base x = true → ps_local_port ps ≠ 0 → ¬ connectable ps) →
    wp (finish o) (setup_post p x ps w) w1) as Hfin.
  { intros o w1 Hn Hno. unfold finish. pose proof Hn as (_ & P1 & _).
    assert (w_pcs w1 !! p = Some x) as E1 by by rewrite P1.
    pose proof (new_bev_step _ _ _ Hn) as S1. wps.
    eapply wp_mono; [by eapply wp_set_local|]. intros u w2 (S2 & E2 & _).
    destruct o as [lb|]; wps.
    - left. split; [done|]. split; [by eapply step_trans0|]. eexists _, lb. by split.
    - pose proof (step_ok _ _ _ S2) as Ok2. pose proof (ok_pc _ Ok2 _ _ E2) as Hx2.
      pose proof (client_registered _ _ _ Ok2 E2) as Hreg.
      destruct (registered_main_or_client _ _ _ Ok2 Hreg) as [_ Hid].
      rewrite (pc_ok_id _ _ _ Hx2) in Hid.
      eapply wp_mono; [by apply wp_del_proxy_client_by_stream_id|].
      intros u3 w3 D. wps. right; right. split; [done|]. split; [apply D|].
      split; [|by apply Hno]. apply (d_gone _ _ _ D). apply (pc_ok_table _ _ _ Hx2). }
  case_if; wps.
  { eapply wp_mono; [by apply wp_connect_udp_server|]. intros o w1 [Hn Hs]. apply Hfin; [done|].
    intros -> He Hb _. destruct (Hs He Hb) as [? [=]]. }
  case_if.
  { refine (Hfin None w _ _); [split; [by apply good_refl|done]|]. intros _ _ _ _ [Hu _]. congruence. }
  case_if; wps; [|by right; left].
  eapply wp_mono; [by apply wp_connect_server_alloc|]. intros o w1 [Hn Hs]. apply Hfin; [done|].
  intros -> He Hb Hp (_ & Hip & Hport). destruct (Hs He Hb Hip) as [? [=]]. lia.
Qed.

(** Callbacks and events of a live connection. *)
Lemma wp_set_and_enable b r e arg w Q :
  mux_ok w → is_Some (w_bevs w !! b) →
  (∀ w2, good w w2 → w_pcs w2 = w_pcs w → Q () w2) →
  wp (bufferevent_setcb b r e arg) (λ _ w1, wp (bufferevent_enable b true true) Q w1) w.
Proof.
  intros Ok [y Ey] HQ. unfold bufferevent_setcb, bufferevent_enable.
  eapply wp_mono; [apply (wp_upd_bev_good b _ w y Ok Ey)|].
  intros u w2 (G2 & P2 & [y2 E2]). eapply wp_mono; [apply (wp_upd_bev_good b _ w2 y2 (proj1 G2) E2)|].
  intros [] w3 (G3 & P3 & _). apply HQ; [by eapply good_trans|congruence].
Qed.

(** The callbacks of a tunnel whose local connection was made. *)
Lemma wp_install_callbacks p x lb ctl c2s s2c (mux : Z) w :
  mux_ok w → w_pcs w !! p = Some x → pc_local_bev x = Some lb → pc_ctl_bev x = Some ctl →
  wp ((if mux =? 0 then
         bufferevent_setcb ctl s2c xfrp_worker_event (Some p) ;; bufferevent_enable ctl true true
       else ret ()) ;;
      pc <- get_pc p ;;
      match pc_local_bev pc with
      | None => ub
      | Some lb =>
          bufferevent_setcb lb c2s xfrp_proxy_event (Some p) ;; bufferevent_enable lb true true
      end) (λ _ w', step 0 w w') w.
Proof.
  intros Ok Ep El Ec.
  assert (∀ w1, good w w1 → w_pcs w1 = w_pcs w →
    wp (get_pc p) (λ pc w2, wp (match pc_local_bev pc with
        | None => ub
        | Some lb => bufferevent_setcb lb c2s xfrp_proxy_event (Some p) ;;
                     bufferevent_enable lb true true
        end) (λ _ w', step 0 w w') w2) w1) as Hlocal.
  { intros w1 G1 P1. rewrite <- P1 in Ep. wp_pc Ep. rewrite El. wps.
    apply wp_set_and_enable; [apply G1|by apply (pc_ok_local _ _ _ (ok_pc _ (proj1 G1) _ _ Ep))|].
    intros w2 G2 P2. apply step_same_pcs; [by eapply good_trans|congruence]. }
  case_if; wps.
  - apply wp_set_and_enable; [done|by eapply ctl_live|]. intros w1 G1 P1.
    pose proof (Hlocal w1 G1 P1) as Hx. revert Hx. by wps.
  - pose proof (Hlocal w (good_refl _ Ok) eq_refl) as Hx. revert Hx. by wps.
Qed.

Lemma wp_start_xfrp_tunnel p x w :
  mux_ok w → w_pcs w !! p = Some x →
  wp (start_xfrp_tunnel p) (λ _ w', started p w w' ∧
     (w_pcs w' !! p = None → alloc_ok w → ∀ ps, pc_ps x = Some ps → ¬ connectable ps)) w.
Proof.
  intros Ok Ep. unfold start_xfrp_tunnel. wp_pc Ep.
  assert (started p w w ∧ (w_pcs w !! p = None → alloc_ok w → ∀ ps, pc_ps x = Some ps → ¬ connectable ps))
    as Hno by (split; [left; by apply step_refl|by rewrite Ep]).
  destruct (pc_ctl_bev x) as [ctl|] eqn:Ec; wps; [|done].
  destruct (pc_ps x) as [ps|] eqn:Eps; wps; [|done].
  destruct (negb (pc_base x) || _) eqn:Eg; wps; [done|]. clear Hno.
  eapply wp_mono; [by apply wp_init_codec|]. intros c w1 (S1 & P1 & E1).
  pose proof (step_stays _ _ Ok S1) as St1. rewrite <- P1 in Ep. wps.
  eapply wp_mono.
  { apply (wp_pres same_env); [by apply (pres_upd_pc _)|].
    apply (wp_upd_plain p _ w1 x (step_ok _ _ _ St1) Ep); [by apply may_become_same|].
    split; [done|]. split; [done|]. simpl. lia. }
  intros u w2 [(S2 & E2 & _) V2]. pose proof (step_trans0 _ _ _ _ St1 S2) as S02. wps.
  eapply wp_mono; [apply (wp_setup_local_connection p _ ps w2 (step_ok _ _ _ S2) E2 Eps)|].
  intros rc w3 [(-> & S3 & x3 & lb & E3 & El3 & Ec3)|[(-> & ->)|(-> & Ok3 & G3 & Hno)]].
  - destruct (setup_proxy_callbacks (Some ps)) as [c2s s2c]. cbn [Z.leb Z.compare].
    rewrite wp_bind, wp_gets. cbv beta.
    eapply wp_mono; [apply (wp_install_callbacks p x3 lb ctl c2s s2c _ w3); try done|].
    { by eapply step_ok. } { by rewrite Ec3. }
    intros u4 w4 S4. split; [left; eapply step_trans0; [exact S02|by eapply step_trans0]|].
    intros Hg. destruct (step_live _ _ _ p S4) as [? ?]; [by eexists|congruence].
  - cbn [Z.leb Z.compare]. wps. split; [by left|]. intros Hg. congruence.
  - cbn [Z.leb Z.compare]. wps. split; [by right|]. intros _ He ps' [= <-].
    destruct (is_uds_proxy (Some ps)) eqn:Hu; [intros [? _]; congruence|]. apply Hno.
    + unfold alloc_ok. rewrite V2, E1. exact He.
    + simpl. by destruct (pc_base x).
    + intros Hz. rewrite Hz in Eg. simpl in Eg. by rewrite orb_true_r in Eg.
Qed.

(** The client as [start_work_conn] hands it to [start_xfrp_tunnel]: the service
    and, when [tail] is not empty, the bytes that followed the message. *)
Definition primed (ps : proxy_service) (tail : bytes) (x : proxy_client) : proxy_client :=
  let x := set_pc_ps (Some ps) x in
  if 0 <? zlen tail then set_pc_data_tail tail x else x.

(** The second part of [start_work_conn]. *)
Definition tunnel_and_mark (p : positive) : M () :=
  start_xfrp_tunnel p ;;
  pc <- get_pc p ;;
  match pc_ps pc with None => ret () | Some _ => upd_pc p (set_pc_work_started true) end.

Lemma run_upd_plain p f x w :
  mux_ok w → w_pcs w !! p = Some x → may_become w x (f x) → buf_grows 0 x (f x) →
  ∃ w', upd_pc p f w = Some ((), w') ∧ step 0 w w' ∧ w_pcs w' !! p = Some (f x) ∧ w_env w' = w_env w.
Proof.
  intros Ok Ep Hm Hg. pose proof (wp_upd_plain p f w x Ok Ep Hm Hg) as Hw.
  apply (wp_pres same_env) in Hw; [|by apply (pres_upd_pc _)].
  apply wp_run in Hw as ([] & w' & Hr & (S & E & _) & V). eauto.
Qed.

(** The first part, up to the tunnel. *)
Lemma run_prime p x ps tail w :
  mux_ok w → w_pcs w !! p = Some x → alloc_ok w → is_proxy_type (Some ps) "xtcp" = false →
  ∃ w1, start_work_conn p ps tail w = tunnel_and_mark p w1 ∧
    step 0 w w1 ∧ alloc_ok w1 ∧ w_pcs w1 !! p = Some (primed ps tail x).
Proof.
  intros Ok Ep He Hx. unfold start_work_conn, primed. rewrite Hx.
  assert (∀ y, buf_grows 0 y (set_pc_ps (Some ps) y) ∧ buf_grows 0 y (set_pc_data_tail tail y)) as Hg
    by (split; (split; [done|]; split; [done|]; simpl; lia)).
  destruct (run_upd_plain p (set_pc_ps (Some ps)) x w) as (w1 & R1 & S1 & E1 & V1);
    [done|done|by apply may_become_same|apply Hg|].
  assert (alloc_ok w1) as He1 by (unfold alloc_ok; by rewrite V1).
  unfold bind at 1. rewrite R1. case_if; [|by exists w1].
  unfold bind at 1, oracle. rewrite He1. cbn [negb]. set (w2 := set_w_tick _ w1).
  pose proof (step_stays _ _ (step_ok _ _ _ S1) (stays_tick w1 (S (w_tick w1)))) as S2. fold w2 in S2.
  destruct (run_upd_plain p (set_pc_data_tail tail) (set_pc_ps (Some ps) x) w2)
    as (w3 & R3 & S3 & E3 & V3); [by eapply step_ok|done|by apply may_become_same|apply Hg|].
  exists w3. unfold bind at 1. rewrite R3. split; [done|]. split; [|split; [|done]].
  - eapply step_trans0; [exact S1|]. by eapply step_trans0.
  - unfold alloc_ok. by rewrite V3.
Qed.

Lemma primed_ps ps tail x : pc_ps (primed ps tail x) = Some ps.
Proof. unfold primed. by case_if. Qed.

Lemma wp_start_work_conn p x ps tail w :
  mux_ok w → w_pcs w !! p = Some x → alloc_ok w → connectable ps →
  is_proxy_type (Some ps) "xtcp" = false →
  wp (start_work_conn p ps tail) (λ _ w', step 0 w w') w.
Proof.
  intros Ok Ep He Hc Hx. destruct (run_prime p x ps tail w Ok Ep He Hx) as (w1 & R & S1 & He1 & E1).
  unfold wp at 1. rewrite R. fold (wp (tunnel_and_mark p) (λ _ w', step 0 w w') w1).
  unfold tunnel_and_mark. rewrite wp_bind. eapply wp_mono; [apply (wp_start_xfrp_tunnel p _ w1 (step_ok _ _ _ S1) E1)|].
  intros u w2 [Hs Hno]. assert (step 0 w w2) as S2.
  { destruct Hs as [S|[_ Hg]]; [by eapply step_trans0|]. exfalso.
    by eapply (Hno Hg He1 ps); [apply primed_ps|]. }
  destruct (step_live _ _ _ p S2) as [x2 E2]; [by eexists|]. wp_pc E2.
  destruct (pc_ps x2); wps; [|done].
  eapply wp_mono; [apply (wp_upd_plain p _ w2 x2 (step_ok _ _ _ S2) E2); [by apply may_become_same|]|].
  { split; [done|]. split; [done|]. simpl. lia. }
  intros u3 w3 (S3 & _). by eapply step_trans0.
Qed.

(** A service that is reached through a Unix socket: the client is freed. *)
Lemma wp_start_xfrp_tunnel_uds p x ps ctl w :
  mux_ok w → w_pcs w !! p = Some x → pc_ps x = Some ps → pc_ctl_bev x = Some ctl →
  pc_base x = true → is_uds_proxy (Some ps) = true → is_udp_proxy (Some ps) = false →
  wp (start_xfrp_tunnel p) (λ _ w', w_pcs w' !! p = None) w.
Proof.
  intros Ok Ep Eps Ec Hb Huds Hudp. unfold start_xfrp_tunnel, setup_local_connection. wp_pc Ep.
  rewrite Ec, Eps, Hb, Huds, andb_false_r. simpl orb. cbv iota. wps.
  eapply wp_mono; [by apply wp_init_codec|]. intros c w1 (S1 & P1 & _).
  pose proof (step_stays _ _ Ok S1) as St1. rewrite <- P1 in Ep. wps.
  eapply wp_mono; [apply (wp_upd_plain p _ w1 x (step_ok _ _ _ St1) Ep); [by apply may_become_same|]|].
  { split; [done|]. split; [done|]. simpl. lia. }
  intros u w2 (S2 & E2 & _). wps. wp_pc E2.
  cbn [pc_ps set_pc_codec]. rewrite Eps, Hudp, Huds. wps.
  eapply wp_mono; [apply (wp_upd_plain p _ w2 _ (step_ok _ _ _ S2) E2)|].
  { split; [done|]. split; [done|]. split; [by left|]. right; by left. }
  { split; [done|]. split; [done|]. simpl. lia. }
  intros u3 w3 (S3 & E3 & _). wps. pose proof (step_ok _ _ _ S3) as Ok3.
  pose proof (ok_pc _ Ok3 _ _ E3) as Hx3.
  destruct (registered_main_or_client _ _ _ Ok3 (client_registered _ _ _ Ok3 E3)) as [_ Hid].
  rewrite (pc_ok_id _ _ _ Hx3) in Hid.
  eapply wp_mono; [by apply wp_del_proxy_client_by_stream_id|].
  intros u4 w4 D. wps. apply (d_gone _ _ _ D). apply (pc_ok_table _ _ _ Hx3).
Qed.

End Start.

(** A work connection for a reachable service starts safely.  With memory
    available and a service that has a local address and no Unix-socket plugin,
    [handle_type_start_work_conn] sets up the tunnel without undefined
    behaviour, keeps every client, stream and connection, and leaves the state
    well-formed. *)
Lemma start_work_conn_safe `{Mbedtls} (p : positive) (x : proxy_client) (ps : proxy_service)
    (tail : bytes) (w : world) (Ok : mux_ok w) (Ep : w_pcs w !! p = Some x) (Hmem : alloc_ok w)
    (Hc : connectable ps) (Hx : is_proxy_type (Some ps) "xtcp" = false) :
  ∃ w', start_work_conn p ps tail w = Some ((), w') ∧ step 0 w w'.
Proof.
  pose proof (wp_start_work_conn p x ps tail w Ok Ep Hmem Hc Hx) as Hw.
  apply wp_run in Hw as ([] & w' & Hr & Hs). eauto.
Qed.

(** C36: when the local connection cannot be made, the client is used after it
    has been freed.  For a service with the Unix-socket plugin, which this port
    never connects, [setup_local_connection] frees the client and
    [handle_type_start_work_conn] then marks that client as started: every such
    call is undefined behaviour. *)
Theorem start_work_conn_use_after_free `{Mbedtls} (p : positive) (x : proxy_client)
    (ps : proxy_service) (ctl : positive) (tail : bytes) (w : world)
    (Ok : mux_ok w) (Ep : w_pcs w !! p = Some x) (Hmem : alloc_ok w)
    (Hctl : pc_ctl_bev x = Some ctl) (Hb : pc_base x = true)
    (Huds : is_uds_proxy (Some ps) = true) (Hudp : is_udp_proxy (Some ps) = false)
    (Hx : is_proxy_type (Some ps) "xtcp" = false) :
  start_work_conn p ps tail w = None.
Proof.
  destruct (run_prime p x ps tail w Ok Ep Hmem Hx) as (w1 & -> & S1 & _ & E1).
  assert (pc_ctl_bev (primed ps tail x) = Some ctl ∧ pc_base (primed ps tail x) = true) as [Hc1 Hb1]
    by (unfold primed; by case_if).
  pose proof (wp_start_xfrp_tunnel_uds p _ ps ctl w1 (step_ok _ _ _ S1) E1 (primed_ps _ _ _)
                Hc1 Hb1 Huds Hudp) as Hw.
  apply wp_run in Hw as (u & w2 & Hr & Hg). unfold tunnel_and_mark, bind at 1. rewrite Hr.
  unfold bind, get_pc. by rewrite Hg.
Qed.

#[local] Existing Instance Toy.mbedtls.

Lemma demo_alloc st inp : alloc_ok (Demo.world st inp).
Proof. done. Qed.

(** The client of [Demo] starts its SSH service; two bytes followed the
    message. *)
Lemma start_work_conn_safe_witness :
  ∃ w', start_work_conn 2 Demo.service [1; 2] (Demo.world TMUX_ESTABLISHED []) = Some ((), w') ∧
    step 0 (Demo.world TMUX_ESTABLISHED []) w'.
Proof.
  apply (start_work_conn_safe 2 _ Demo.service [1; 2] (Demo.world TMUX_ESTABLISHED [])
           (Demo.world_ok _ _) eq_refl (demo_alloc _ _)).
  - split; [reflexivity|]. split; [discriminate|]. vm_compute. discriminate.
  - reflexivity.
Defined.

Definition demo_uds_service : proxy_service :=
  mkPs "ssh" (Some "tcp"%string) false false (Some "127.0.0.1"%string) 22 0 0 NO_XDPI
    (Some "unix_domain_socket"%string) (Some "/tmp/s"%string)
    (plain_registration 6000).

Lemma start_work_conn_use_after_free_witness :
  start_work_conn 2 demo_uds_service [] (Demo.world TMUX_ESTABLISHED []) = None.
Proof.
  apply (start_work_conn_use_after_free 2 (Demo.client TMUX_ESTABLISHED (Some 3%positive))
           demo_uds_service 1 [] (Demo.world TMUX_ESTABLISHED [])
           (Demo.world_ok _ _) eq_refl (demo_alloc _ _)); reflexivity.
Defined.
