(* ===== verification/DemuxFacts.v ===== *)
(** * How the demultiplexer cuts the stream

    What [handle_tcp_mux] does with frames the network cuts into pieces: a
    header may be cut anywhere; an empty data frame at the end of a delivery
    stops it for good; the payload of an unknown stream that is cut is taken
    for headers; and a stream that is closed while its payload is arriving is
    used after it has been freed. *)

From S2P Require Import Prelude Endian Evp CryptoStream World Mux MuxInv MuxSafe MuxThm ProxyTcp Demux.

Section Facts.
Context `{Mbedtls} (handle_fn : handler).

(** ** Headers *)

(** The connection's queue is empty and no frame is under way. *)
Record at_boundary (b : positive) (x : bufferevent) (w : world) : Prop := {
  ab_bev : w_bevs w !! b = Some x;
  ab_in : b_in x = [];
  ab_cur : w_cur w = None;
  ab_partial : w_partial_header w = 0;
}.

(** The state once a whole header has been assembled. *)
Definition with_header (hd : bytes) (w : world) : world := set_w_partial_header 0 (set_w_hdr hd w).

Lemma world_bevs_same w : set_w_bevs (w_bevs w) w = w.
Proof. by destruct w. Qed.

(** Reading all of [d] gives back the queue as it was. *)
Lemma read_back b x d w :
  w_bevs w !! b = Some x → b_in x = [] →
  <[b := set_b_in [] (set_b_in d x)]> (<[b := set_b_in d x]> (w_bevs w)) = w_bevs w.
Proof.
  intros Eb Hi. rewrite insert_insert_eq. apply insert_id. rewrite Eb. f_equal.
  destruct x. simpl in *. by subst.
Qed.

Lemma run_read b n x w :
  w_bevs w !! b = Some x →
  bufferevent_read b n w =
    Some (ztake n (b_in x), set_w_bevs (<[b := set_b_in (zdrop n (b_in x)) x]> (w_bevs w)) w).
Proof. intros E. unfold bufferevent_read, bind, get_bev. by rewrite E. Qed.

(** The bytes [d] in the queue of [b]. *)
Definition arrived (b : positive) (x : bufferevent) (d : bytes) (w : world) : world :=
  set_w_bevs (<[b := set_b_in d x]> (w_bevs w)) w.

(** Reading all of them. *)
Lemma run_read_all b x d n w0 w :
  w_bevs w0 !! b = Some x → b_in x = [] → w_bevs w = w_bevs (arrived b x d w0) → zlen d ≤ n →
  bufferevent_read b n w = Some (d, set_w_bevs (w_bevs w0) w).
Proof.
  intros Eb Hi Ew Hn. rewrite (run_read b n (set_b_in d x) w).
  - cbn [b_in set_b_in]. rewrite ztake_ge, zdrop_ge by done. rewrite Ew.
    unfold arrived. cbn [w_bevs set_w_bevs]. by rewrite (read_back b x d w0 Eb Hi).
  - rewrite Ew. apply lookup_insert_eq.
Qed.

Lemma fill_whole b x hd w :
  at_boundary b x w → zlen hd = 12 →
  fill_header b 12 (arrived b x hd w) = Some (Some 0, with_header hd w).
Proof.
  intros [Eb Hi Hc Hp] Hl. unfold fill_header, bind at 1, gets.
  change (w_partial_header (arrived b x hd w)) with (w_partial_header w). rewrite Hp.
  change (0 <? 0) with false. cbv iota. unfold bind at 1, modify.
  change (12 <? sizeof_tcp_mux_header) with false. cbv iota zeta. unfold bind at 1.
  rewrite (run_read_all b x hd sizeof_tcp_mux_header w); [|done|done|done|unfold sizeof_tcp_mux_header; lia].
  unfold bind, ret. rewrite Hl. change (12 =? sizeof_tcp_mux_header) with true. cbn [negb].
  assert (12 - length hd = 0)%nat as -> by (unfold zlen in Hl; lia).
  cbn [replicate]. rewrite app_nil_r. unfold with_header. destruct w. simpl in *. by subst.
Qed.

(** The first piece of a header. *)
Definition half_header (d : bytes) (w : world) : world :=
  set_w_partial_header (zlen d) (set_w_hdr (d ++ replicate (12 - length d) 0) w).

Lemma u8_small z : 0 ≤ z < 256 → u8 z = z.
Proof. intros. unfold u8. apply Z.mod_small. by change (2 ^ 8) with 256. Qed.

Lemma fill_first b x d w :
  at_boundary b x w → 0 < zlen d < 12 →
  fill_header b (zlen d) (arrived b x d w) = Some (None, half_header d w).
Proof.
  intros [Eb Hi Hc Hp] Hl. unfold fill_header, bind at 1, gets.
  change (w_partial_header (arrived b x d w)) with (w_partial_header w). rewrite Hp.
  change (0 <? 0) with false. cbv iota. unfold bind at 1, modify, sizeof_tcp_mux_header.
  rewrite (proj2 (Z.ltb_lt (zlen d) 12)) by lia. cbv zeta. unfold bind at 1.
  rewrite (run_read_all b x d (zlen d) w) by done.
  unfold bind, ret, half_header. rewrite u8_small by lia. destruct w. simpl in *. by subst.
Qed.

(** The second piece. *)
Lemma fill_second b x d1 d2 w :
  at_boundary b x w → 0 < zlen d1 < 12 → zlen d1 + zlen d2 = 12 →
  fill_header b (zlen d2) (arrived b x d2 (half_header d1 w)) = Some (Some 0, with_header (d1 ++ d2) w).
Proof.
  intros [Eb Hi Hc Hp] Hl Hs. unfold fill_header, bind at 1, gets.
  change (w_partial_header (arrived b x d2 (half_header d1 w))) with (zlen d1).
  rewrite (proj2 (Z.ltb_lt 0 (zlen d1))) by lia. unfold bind at 1, sizeof_tcp_mux_header.
  rewrite (run_read_all b x d2 _ (half_header d1 w)) by (done || lia).
  unfold bind, modify. rewrite Hs, u8_small by lia. change (12 <? 12) with false. cbv iota zeta.
  unfold ret. rewrite Z.sub_diag. do 2 f_equal. unfold with_header, half_header. cbn [w_hdr set_w_bevs set_w_hdr set_w_partial_header arrived].
  rewrite ztake_app_exact by done. rewrite zdrop_ge, app_nil_r.
  - destruct w. simpl in *. by subst.
  - unfold zlen in *. rewrite length_app, length_replicate. lia.
Qed.

(** With nothing left after the header, the round is the last one. *)
Lemma dispatch_last b w e w' :
  dispatch handle_fn b 0 w = Some (e, w') → e = RBreak ∨ e = RNext 0.
Proof.
  unfold dispatch, read_hdr, bind at 1 2, gets.
  destruct (hdr_of_bytes (w_hdr w)) as [h|] eqn:Eh; [|done]. unfold ret at 1.
  case_if; [intros [= <- _]; by left|].
  destruct (Z.eqb_spec (hdr_type h) TMUX_DATA) as [Ht|Ht].
  - unfold bind at 1, modify. case_if; [intros [= <- _]; by left|].
    unfold bind at 1, get_stream_by_id, gets. destruct (w_all_stream _ !! _) as [r|].
    + intros [= <- _]. by left.
    + case_if; intros [= <- _]; [by left|by right].
  - unfold consume, read_hdr, bind at 1 2 3, gets. rewrite Eh. unfold ret at 1.
    rewrite (proj2 (Z.eqb_neq _ _) Ht). cbn [andb].
    repeat (case_if; [unfold bind; match goal with |- context [match ?m w with _ => _ end] =>
      destruct (m w) as [[u w1]|]; [|done] end; intros [= <- _]; by right|]).
    intros [= <- _]. by left.
Qed.

Lemma loop_of_header b len w w1 fuel :
  0 < len → w_cur w = None → fill_header b len w = Some (Some 0, w1) →
  demux_loop handle_fn (S fuel) b len w =
    match dispatch handle_fn b 0 w1 with Some (_, w') => Some (true, w') | None => None end.
Proof.
  intros Hlen Hc Hf. cbn [demux_loop]. rewrite (proj2 (Z.leb_gt _ _)) by lia. unfold bind at 1.
  unfold demux_round, get_cur_stream, bind at 1, gets. rewrite Hc. unfold bind at 1. rewrite Hf.
  destruct (dispatch handle_fn b 0 w1) as [[e w2]|] eqn:Er; [|done].
  destruct (dispatch_last _ _ _ _ Er) as [->| ->]; [done|]. by destruct fuel.
Qed.

(** One delivery on an empty queue. *)
Lemma run_receive b x d w :
  w_bevs w !! b = Some x → b_in x = [] →
  receive handle_fn b d w = demux_loop handle_fn (length d) b (zlen d) (arrived b x d w).
Proof.
  intros Eb Hi. unfold receive, upd_bev, put_bev, bind, get_bev, modify. rewrite Eb. cbv beta iota.
  rewrite Hi. cbn [app]. cbn [w_bevs set_w_bevs]. rewrite lookup_insert_eq.
  unfold handle_tcp_mux. cbn [b_in set_b_in]. unfold zlen at 1. by rewrite Nat2Z.id.
Qed.

Lemma run_whole_header b x hd w :
  at_boundary b x w → zlen hd = 12 →
  receive handle_fn b hd w =
    match dispatch handle_fn b 0 (with_header hd w) with
    | Some (_, w') => Some (true, w') | None => None end.
Proof.
  intros A Hl. destruct (A) as [Eb Hi Hc _]. rewrite (run_receive b x) by done.
  assert (length hd = 12%nat) as Hn by (unfold zlen in Hl; lia). rewrite Hl, Hn.
  apply loop_of_header; [lia|done|by apply fill_whole].
Qed.

Lemma run_half_header b x d w :
  at_boundary b x w → 0 < zlen d < 12 → receive handle_fn b d w = Some (true, half_header d w).
Proof.
  intros A Hl. destruct (A) as [Eb Hi Hc _]. rewrite (run_receive b x) by done.
  destruct (length d) as [|n] eqn:Hn; [unfold zlen in Hl; lia|].
  cbn [demux_loop]. rewrite (proj2 (Z.leb_gt _ _)) by lia. unfold bind at 1.
  unfold demux_round, get_cur_stream, bind at 1, gets.
  change (w_cur (arrived b x d w)) with (w_cur w). rewrite Hc. unfold bind at 1.
  by rewrite (fill_first b x d w A Hl).
Qed.

Lemma run_other_half b x d1 d2 w :
  at_boundary b x w → 0 < zlen d1 < 12 → zlen d1 + zlen d2 = 12 →
  receive handle_fn b d2 (half_header d1 w) = receive handle_fn b (d1 ++ d2) w.
Proof.
  intros A Hl Hs. destruct (A) as [Eb Hi Hc _]. rewrite (run_whole_header b x (d1 ++ d2) w A).
  2: { by rewrite zlen_app. }
  rewrite (run_receive b x) by done.
  destruct (length d2) as [|n] eqn:Hn; [unfold zlen in *; lia|].
  apply loop_of_header; [lia|done|by apply fill_second].
Qed.

(** ** The wedge *)

(** A current stream with no payload outstanding. *)
Record wedged (b : positive) (w : world) : Prop := {
  wg_cur : is_Some (w_cur w);
  wg_len : w_stream_len w = 0;
  wg_hdr : ∃ h, hdr_of_bytes (w_hdr w) = Some h ∧ hdr_type h = TMUX_DATA;
}.

Lemma wedged_round b len w : wedged b w → demux_round handle_fn b len w = Some (RBreak, w).
Proof.
  intros [[r Hc] Hl (h & Eh & Ht)]. unfold demux_round, get_cur_stream, bind at 1, gets. rewrite Hc.
  unfold consume, read_hdr, bind, gets. rewrite Eh. unfold ret. by rewrite Hl, Ht.
Qed.

Lemma wedged_receive b x d w :
  wedged b w → w_bevs w !! b = Some x →
  receive handle_fn b d w = Some (true, arrived b x (b_in x ++ d) w).
Proof.
  intros Hw Eb. unfold receive, upd_bev, put_bev, bind, get_bev, modify. rewrite Eb. cbv beta iota.
  cbn [w_bevs set_w_bevs]. rewrite lookup_insert_eq. unfold handle_tcp_mux. cbn [b_in set_b_in].
  fold (arrived b x (b_in x ++ d) w).
  destruct (Z.to_nat (zlen (b_in x ++ d))) as [|n] eqn:Hn; cbn [demux_loop].
  - rewrite (proj2 (Z.leb_le _ _)) by lia. done.
  - rewrite (proj2 (Z.leb_gt _ _)) by lia. unfold bind. rewrite wedged_round; [done|].
    destruct Hw. by constructor.
Qed.

Lemma wedged_forever b chunks x w :
  wedged b w → w_bevs w !! b = Some x →
  ∃ w', receive_all handle_fn b chunks w = Some (true, w') ∧
    b_in <$> w_bevs w' !! b = Some (b_in x ++ concat chunks) ∧ w_pcs w' = w_pcs w.
Proof.
  revert x w. induction chunks as [|d chunks IH]; intros x w Hw Eb.
  { exists w. rewrite Eb. simpl. by rewrite app_nil_r. }
  cbn [receive_all]. unfold bind. rewrite (wedged_receive b x d w Hw Eb).
  destruct (IH (set_b_in (b_in x ++ d) x) (arrived b x (b_in x ++ d) w)) as (w' & Hr & Hi & Hp).
  - destruct Hw. by constructor.
  - apply lookup_insert_eq.
  - exists w'. split; [done|]. rewrite Hi. simpl. by rewrite app_assoc.
Qed.

Lemma run_empty_data b x h r w :
  at_boundary b x w → hdr_of_bytes (hdr_bytes h) = Some h → hdr_version h = 0 → hdr_type h = TMUX_DATA →
  hdr_length h = 0 → w_all_stream w !! ntohl (hdr_stream_id h) = Some r →
  ∃ w', receive handle_fn b (hdr_bytes h) w = Some (true, w') ∧ wedged b w' ∧
    w_bevs w' !! b = Some x ∧ w_pcs w' = w_pcs w.
Proof.
  intros A Eh Hv Ht Hl Hreg. rewrite (run_whole_header b x _ w A) by done.
  unfold dispatch, read_hdr, bind at 1 2, gets. cbn [w_hdr with_header set_w_hdr set_w_partial_header].
  rewrite Eh. unfold ret at 1, validate_tcp_mux_protocol. rewrite Hv, Ht, Hl. cbn [Z.eqb negb].
  change (GO_AWAY <? TMUX_DATA) with false. change (TMUX_DATA =? TMUX_DATA) with true. cbv iota.
  unfold bind at 1, modify. assert (ntohl 0 = 0) as -> by done.
  change (MAX_STREAM_WINDOW_SIZE <? 0) with false. cbv iota zeta.
  unfold bind at 1, get_stream_by_id, gets.
  cbn [negb]. cbv iota beta. match goal with |- context [w_all_stream ?v !! ?i] =>
    replace (w_all_stream v !! i) with (Some r) by (symmetry; exact Hreg) end.
  unfold set_cur_stream, bind, modify, ret. destruct A as [Eb _ _ _].
  eexists. split; [reflexivity|]. split; [|by split].
  constructor; [by eexists|done|]. exists h. by split.
Qed.

End Facts.

(** A frame header may be cut anywhere.  Delivered in two pieces on an
    idle connection, a header of any type (12 bytes, whatever they are) has
    exactly the effect it has in one piece. *)
Lemma header_split_invariant `{Mbedtls} (handle_fn : handler) (b : positive) (x : bufferevent)
    (d1 d2 : bytes) (w : world) (A : at_boundary b x w)
    (H1 : 0 < zlen d1 < 12) (H2 : zlen d1 + zlen d2 = 12) :
  receive_all handle_fn b [d1; d2] w = receive_all handle_fn b [d1 ++ d2] w.
Proof.
  cbn [receive_all]. unfold bind at 1. rewrite (run_half_header handle_fn b x) by done.
  unfold bind. by rewrite (run_other_half handle_fn b x).
Qed.

(** C38: an empty data frame that ends a delivery stops the connection for
    good.  Once the 12 bytes of a data frame of length 0 for a known stream
    have arrived, with nothing behind them, no later byte is ever consumed:
    whatever the server sends stays in the input queue. *)
Theorem empty_data_frame_wedges `{Mbedtls} (handle_fn : handler) (b : positive) (x : bufferevent)
    (flags sid : Z) (r : sref) (chunks : list bytes) (w : world)
    (A : at_boundary b x w) (Hf : 0 ≤ flags < 2 ^ 16) (Hs : 0 ≤ sid < 2 ^ 32)
    (Hreg : w_all_stream w !! sid = Some r) :
  ∃ w', receive_all handle_fn b (hdr_bytes (tcp_mux_encode TMUX_DATA flags sid 0) :: chunks) w
        = Some (true, w') ∧
    b_in <$> w_bevs w' !! b = Some (concat chunks) ∧ w_pcs w' = w_pcs w.
Proof.
  set (h := tcp_mux_encode TMUX_DATA flags sid 0).
  destruct (run_empty_data handle_fn b x h r w A) as (w1 & R1 & W1 & B1 & P1); try done.
  - apply hdr_of_bytes_bytes. split; [done|]. split; [done|]. split; [apply htons_range|].
    split; [apply htonl_range|]. simpl. lia.
  - simpl. by rewrite ntohl_htonl, u32_small.
  - destruct (wedged_forever handle_fn b chunks x w1 W1 B1) as (w' & R & Hi & Hp).
    exists w'. cbn [receive_all]. unfold bind. rewrite R1. split; [done|].
    rewrite (ab_in _ _ _ A) in Hi. split; [done|congruence].
Qed.

#[local] Existing Instance Toy.mbedtls.

(** A handler that does nothing, and the registered streams after a sequence
    of deliveries on the connection of [Demo]. *)
Definition idle_handler : handler := λ _ _, ret ().
Definition streams_after (st : tcp_mux_state) (chunks : list bytes) : option (list Z) :=
  match receive_all idle_handler 1 chunks (Demo.world st []) with
  | Some (_, w) => Some (map fst (map_to_list (w_all_stream w)))
  | None => None
  end.

Lemma demo_boundary st : at_boundary 1 (Demo.bev []) (Demo.world st []).
Proof. by constructor. Qed.

Lemma header_split_invariant_witness :
  receive_all idle_handler 1 [[0; 1; 0; 8; 0]; [0; 0; 3; 0; 0; 0; 0]] (Demo.world TMUX_ESTABLISHED [])
  = receive_all idle_handler 1 [[0; 1; 0; 8; 0] ++ [0; 0; 3; 0; 0; 0; 0]] (Demo.world TMUX_ESTABLISHED []).
Proof.
  apply (header_split_invariant idle_handler 1 (Demo.bev []) _ _ _ (demo_boundary _)).
  - vm_compute. split; reflexivity.
  - reflexivity.
Defined.

Lemma empty_data_frame_wedges_witness :
  ∃ w', receive_all idle_handler 1
          [hdr_bytes (tcp_mux_encode TMUX_DATA 0 3 0); hdr_bytes (tcp_mux_encode PING SYN 0 1)]
          (Demo.world TMUX_ESTABLISHED []) = Some (true, w') ∧
    b_in <$> w_bevs w' !! 1%positive = Some (concat [hdr_bytes (tcp_mux_encode PING SYN 0 1)]) ∧
    w_pcs w' = w_pcs (Demo.world TMUX_ESTABLISHED []).
Proof.
  apply (empty_data_frame_wedges idle_handler 1 (Demo.bev []) 0 3 (SClient 2) _ _ (demo_boundary _)).
  - vm_compute. split; [discriminate|reflexivity].
  - vm_compute. split; [discriminate|reflexivity].
  - reflexivity.
Defined.

(** A data frame for stream 9, which nobody registered, whose payload carries
    after three bytes what would be a reset of stream 3. *)
Definition stray_frame : bytes :=
  hdr_bytes (tcp_mux_encode TMUX_DATA 0 9 15) ++ [1; 2; 3]
    ++ hdr_bytes (tcp_mux_encode WINDOW_UPDATE RST 3 0).

(** A cut payload of an unknown stream is taken for frames.  Delivered
    whole, the frame is discarded and streams 1 and 3 live on; cut inside its
    payload, the remaining payload is read as a header, and stream 3 is reset
    and gone. *)
Lemma stray_payload_read_as_frames :
  streams_after TMUX_ESTABLISHED [stray_frame] = Some [3; 1] ∧
  streams_after TMUX_ESTABLISHED [take 15 stray_frame; drop 15 stray_frame] = Some [1].
Proof. split; vm_compute; reflexivity. Qed.

(** A data frame for stream 3, which the server has half-closed, is cut; then
    the local service closes its connection; then the rest arrives. *)
Definition close_while_receiving (whole : bytes) (k : nat) : option bool :=
  match receive idle_handler 1 (take k whole) (Demo.world TMUX_REMOTE_CLOSE []) with
  | None => None
  | Some (_, w1) =>
      match xfrp_proxy_event_cb 3 2 true false w1 with
      | None => None
      | Some (_, w2) =>
          match receive idle_handler 1 (drop k whole) w2 with
          | None => Some false
          | Some _ => Some true
          end
      end
  end.

(** A stream closed in the middle of a frame is used after it was freed.
    The current stream outlives its client: when the client goes away between
    the two pieces of a data frame, the second piece makes the demultiplexer
    read the freed stream; cut between frames, the same events are harmless. *)
Lemma current_stream_dangles :
  close_while_receiving (hdr_bytes (tcp_mux_encode TMUX_DATA 0 3 2) ++ [65; 66]) 13 = Some false ∧
  close_while_receiving (hdr_bytes (tcp_mux_encode TMUX_DATA 0 3 2) ++ [65; 66]) 14 = Some true.
Proof. split; vm_compute; reflexivity. Qed.
