(* ===== verification/Parsers.v ===== *)
(** * Protocol parsers of the proxied connections

    Theorems about the SOCKS5 request parser and the protocol detection of
    [src/src/proxy_tcp.c] and [src/src/client.c]: what they accept, what they
    reject, and what the state machines around them do with data that arrives
    in pieces. *)

From S2P Require Import Prelude Growth Endian Evp CryptoStream World Mux MuxInv MuxSafe MuxThm ProxyTcp Frame Demux ProxySafe DemuxSafe.

(** ** SOCKS5 addresses *)

(** The destination of a CONNECT request (RFC 1928, section 5). *)
Inductive socks5_dest :=
| DIPv4 (ip : bytes)
| DIPv6 (ip : bytes)
| DDomain (name : bytes).

Definition dest_type (d : socks5_dest) : Z :=
  match d with DIPv4 _ => 1 | DIPv6 _ => 4 | DDomain _ => 3 end.
Definition dest_bytes (d : socks5_dest) : bytes :=
  match d with DIPv4 ip | DIPv6 ip => ip | DDomain name => name end.
Definition encode_dest (d : socks5_dest) (port : bytes) : bytes :=
  match d with
  | DIPv4 ip => 1 :: ip ++ port
  | DIPv6 ip => 4 :: ip ++ port
  | DDomain name => 3 :: zlen name :: name ++ port
  end.

(** The sizes this client takes: names up to 20 bytes. *)
Definition dest_ok (d : socks5_dest) : Prop :=
  match d with
  | DIPv4 ip => zlen ip = 4
  | DIPv6 ip => zlen ip = 16
  | DDomain name => 1 ≤ zlen name ≤ 20
  end.

Lemma parse_whole d port rest :
  dest_ok d → zlen port = 2 →
  parse_socks5_addr (encode_dest d port ++ rest) =
    (Some (zlen (encode_dest d port)), mkAddr (addr_of (dest_bytes d)) (port_of port) (dest_type d)).
Proof.
  intros Hd Hp. assert (∀ l : bytes, port_of (port ++ l) = port_of port) as Hport.
  { intros l. destruct port as [|p0 [|p1 port]]; [done|unfold zlen in Hp; simpl in Hp; lia|done]. }
  destruct d as [ip|ip|name]; cbn [encode_dest app parse_socks5_addr dest_bytes dest_type] in *; simpl in Hd.
  - cbn [Z.eqb Pos.eqb]. assert (zlen (1 :: (ip ++ port) ++ rest) <? 7 = false) as -> by (apply Z.ltb_ge; lens).
    assert (zlen (1 :: ip ++ port) = 7) as -> by lens.
    rewrite <- app_assoc, ztake_app_exact, zdrop_app_exact, Hport by lia. done.
  - cbn [Z.eqb Pos.eqb]. assert (zlen (4 :: (ip ++ port) ++ rest) <? 19 = false) as -> by (apply Z.ltb_ge; lens).
    assert (zlen (4 :: ip ++ port) = 19) as -> by lens.
    rewrite <- app_assoc, ztake_app_exact, zdrop_app_exact, Hport by lia. done.
  - cbn [Z.eqb Pos.eqb].
    assert (zlen (3 :: zlen name :: (name ++ port) ++ rest) = 4 + zlen name + zlen rest) as -> by lens.
    assert (zlen (3 :: zlen name :: name ++ port) = 2 + zlen name + 2) as -> by lens.
    pose proof (zlen_nonneg rest). unfold SOCKS5_MAX_DOMAIN_LEN, SOCKS5_ADDRES_LEN.
    rewrite (proj2 (Z.ltb_ge _ 2)), (proj2 (Z.eqb_neq _ 0)), !(proj2 (Z.ltb_ge _ (zlen name))) by lia.
    simpl orb. cbv iota. rewrite (proj2 (Z.ltb_ge _ (2 + zlen name + 2))) by lia.
    rewrite <- app_assoc, ztake_app_exact, zdrop_app_exact, Hport by lia. done.
Qed.

Lemma parse_prefix d port k :
  dest_ok d → zlen port = 2 → 0 ≤ k < zlen (encode_dest d port) →
  fst (parse_socks5_addr (ztake k (encode_dest d port))) = None.
Proof.
  intros Hd Hp Hk.
  assert (zlen (ztake k (encode_dest d port)) = k) as Hz by lens.
  destruct (decide (k = 0)) as [->|Hk0]; [done|].
  assert (∃ l, ztake k (encode_dest d port) = dest_type d :: l) as [l El].
  { destruct d; cbn [encode_dest dest_type]; unfold ztake;
      (destruct (Z.to_nat k) as [|n] eqn:En; [lia|]); eexists; reflexivity. }
  rewrite El in *. cbn [parse_socks5_addr]. rewrite Hz.
  destruct d as [ip|ip|name]; cbn [encode_dest dest_type Z.eqb Pos.eqb] in *; simpl in Hd.
  - rewrite (proj2 (Z.ltb_lt k 7)); [done|]. revert Hk. lens.
  - rewrite (proj2 (Z.ltb_lt k 19)); [done|]. revert Hk. lens.
  - destruct (Z.ltb_spec k 2); [done|]. destruct l as [|n l]; [done|].
    assert (n = zlen name) as ->.
    { revert El. unfold ztake. destruct (Z.to_nat k) as [|[|n']] eqn:En; [lia|lia|]. by intros [= ->]. }
    case_if; [done|]. rewrite (proj2 (Z.ltb_lt k _)); [done|]. revert Hk. lens.
Qed.

(** ** Protocol detection *)

Section Xdpi.
Context `{Mbedtls}.

(** The client at [p] has been blocked. *)
Definition blocked (p : positive) (w : world) : Prop :=
  ∃ x, w_pcs w !! p = Some x ∧ pc_xdpi_state x = XDPI_BLOCKED ∧ pc_ps x ≠ None.

(** Successive data frames of a client with a service type. *)
Fixpoint run_xdpi (p b : positive) (lens : list Z) : M () :=
  match lens with
  | [] => ret ()
  | n :: lens => handle_xdpi p b n ;; run_xdpi p b lens
  end.

(** Nothing is written to any connection and none is made. *)
Definition silent (w w' : world) : Prop :=
  (∀ c, out_of w' c = out_of w c) ∧ ∀ c, is_Some (w_bevs w' !! c) ↔ is_Some (w_bevs w !! c).

Lemma silent_refl w : silent w w.
Proof. by split. Qed.
Lemma silent_trans w1 w2 w3 : silent w1 w2 → silent w2 w3 → silent w1 w3.
Proof.
  intros [O1 L1] [O2 L2]. split; [intros c; by rewrite O2|]. intros c. by rewrite L2.
Qed.

Lemma silent_read b x n w :
  w_bevs w !! b = Some x →
  silent w (set_w_bevs (<[b := set_b_in (zdrop n (b_in x)) x]> (w_bevs w)) w).
Proof.
  intros Eb. split; intros c; unfold out_of; simpl; (destruct (decide (b = c)) as [<-|Hne];
    [rewrite lookup_insert_eq, Eb|by rewrite lookup_insert_ne]); [done|]. split; by eexists.
Qed.

Lemma xdpi_buf_ensure_bevs p n w rc w' :
  xdpi_buf_ensure p n w = Some (rc, w') → w_bevs w' = w_bevs w.
Proof.
  unfold xdpi_buf_ensure, ensure_cap, upd_pc, put_pc, bind, get_pc, modify, oracle, ret.
  destruct (w_pcs w !! p) as [x|] eqn:Ex; [|done].
  case_if; [rewrite Ex; by intros [= _ <-]|].
  destruct (grow _ _ _); [|done]. destruct (e_ok _ _); simpl; [rewrite Ex|]; by intros [= _ <-].
Qed.

Lemma wp_xdpi_blocked p b len w :
  mux_ok w → blocked p w → is_Some (w_bevs w !! b) → 0 ≤ len → buf_room w len →
  wp (handle_xdpi p b len) (λ _ w', blocked p w' ∧ silent w w') w.
Proof.
  intros Ok (x & Ex & Hst & Hps) [y Ey] Hlen Room. unfold handle_xdpi.
  case_if; wps; [split; [by exists x|apply silent_refl]|]. wp_pc Ex.
  rewrite bool_decide_false by congruence. wps.
  destruct (proj2 Room _ _ Ex) as (_ & _ & R1 & R2).
  pose proof (wp_xdpi_buf_ensure p x (u32 (zlen (pc_xdpi_buf x) + len)) w Ok Ex R1) as Hw.
  apply wp_run in Hw as (rc & w1 & Hr & S1 & c & E1 & _); [|apply room_u32; [lens|done|done]].
  apply (wp_of_run _ _ _ _ _ Hr). pose proof (xdpi_buf_ensure_bevs _ _ _ _ _ Hr) as B1.
  assert (silent w w1) as Q1 by (split; intros k; unfold out_of; by rewrite B1).
  assert (blocked p w1) as Bl1 by (eexists; by split).
  case_if; wps; [done|]. rewrite <- B1 in Ey. unfold bufferevent_read. wp_bev Ey.
  pose proof (silent_trans _ _ _ Q1 (silent_read b y len w1 Ey)) as Q2.
  set (w2 := set_w_bevs _ w1) in *. assert (w_pcs w2 !! p = Some (set_pc_xdpi_cap c x)) as E2 by done.
  case_if; wps; [split; [by eexists|done]|]. wp_pc E2.
  set (x3 := set_pc_xdpi_buf _ (set_pc_xdpi_cap c x)). set (w3 := set_w_pcs _ w2).
  assert (w_pcs w3 !! p = Some x3) as E3 by apply lookup_insert_eq.
  destruct (e_ok _ _); simpl negb; wps; [|split; [by exists x3|done]].
  destruct (pc_ps x) as [ps|] eqn:Eps; [|done].
  assert (xdpi_engine (pc_xdpi_state x) (Some ps) (pc_xdpi_buf x ++ ztake len (b_in y)) =
    (-1, XDPI_BLOCKED)) as ->.
  { unfold xdpi_engine. rewrite Hst. by case_if. }
  cbv iota. change (-1 <? 0) with true. cbv iota.
  assert (w_pcs (set_w_tick (S (w_tick w3)) w3) !! p = Some x3) as E4 by done. wp_pc E4.
  split; [|done]. eexists. split; [apply lookup_insert_eq|]. simpl. by rewrite Eps.
Qed.

Lemma run_xdpi_blocked p b lens w :
  mux_ok w → blocked p w → is_Some (w_bevs w !! b) → Forall (λ n, 0 ≤ n) lens →
  buf_room w (foldr Z.add 0 lens) →
  wp (run_xdpi p b lens) (λ _ w', blocked p w' ∧ silent w w') w.
Proof.
  revert w. induction lens as [|n lens IH]; intros w Ok Bl Hb Hn Room; cbn [run_xdpi].
  { wps. split; [done|apply silent_refl]. }
  inversion Hn as [|? ? Hn0 Hns]; subst. simpl in Room.
  assert (0 ≤ foldr Z.add 0 lens) as Hsum by (clear -Hns; induction Hns; simpl; lia).
  assert (buf_room w n) as Room0.
  { eapply buf_room_le; [exact Room|lia]. }
  pose proof Bl as (x & Ex & _ & Hps).
  pose proof (wp_handle_xdpi p b n w x Ok Ex Hps Hb Hn0 Room0) as H1.
  pose proof (wp_xdpi_blocked p b n w Ok Bl Hb Hn0 Room0) as H2.
  apply wp_run in H1 as (u & w1 & Hr & S1). unfold wp in H2. rewrite Hr in H2. destruct H2 as [Bl1 Q1].
  rewrite wp_bind. apply (wp_of_run _ _ _ _ _ Hr). eapply wp_mono.
  { apply IH; [by eapply step_ok|done|by eapply step_bev|done|]. by apply S1. }
  intros u2 w2 [Bl2 Q2]. split; [done|by eapply silent_trans].
Qed.

End Xdpi.

(** SOCKS5 addresses are parsed as they are written.  A destination (IPv4,
    IPv6, or a name of 1 to 20 bytes) with its port is recognised whatever
    follows it, with exactly the bytes it takes, and every proper prefix of it
    is answered with "need more data". *)
Lemma socks5_addr_roundtrip (d : socks5_dest) (port rest : bytes)
    (Hd : dest_ok d) (Hp : zlen port = 2) :
  parse_socks5_addr (encode_dest d port ++ rest) =
    (Some (zlen (encode_dest d port)), mkAddr (addr_of (dest_bytes d)) (port_of port) (dest_type d)) ∧
  ∀ k, 0 ≤ k < zlen (encode_dest d port) →
    fst (parse_socks5_addr (ztake k (encode_dest d port))) = None.
Proof. split; [by apply parse_whole|]. intros k. by apply parse_prefix. Qed.

Lemma socks5_addr_roundtrip_witness :
  parse_socks5_addr (encode_dest (DDomain [102; 114; 112]) [0; 80] ++ [1; 2]) =
    (Some 7, mkAddr (addr_of [102; 114; 112]) 20480 3) ∧
  fst (parse_socks5_addr (ztake 5 (encode_dest (DDomain [102; 114; 112]) [0; 80]))) = None.
Proof.
  destruct (socks5_addr_roundtrip (DDomain [102; 114; 112]) [0; 80] [1; 2]) as [H1 H2].
  - vm_compute. split; discriminate.
  - reflexivity.
  - split; [exact H1|]. apply H2. vm_compute. split; [discriminate|reflexivity].
Defined.

(** Names of more than 20 bytes are never accepted, although a request may
    carry 255: whatever follows, the parser asks for more data, so the request
    waits for ever. *)
Lemma socks5_long_name_waits (n : Z) (rest : bytes) (Hn : 20 < n) :
  fst (parse_socks5_addr (3 :: n :: rest)) = None.
Proof.
  cbn [parse_socks5_addr Z.eqb Pos.eqb]. case_if; [done|]. unfold SOCKS5_ADDRES_LEN.
  rewrite (proj2 (Z.ltb_lt 20 n)) by lia. by rewrite orb_true_r.
Qed.

Lemma socks5_long_name_waits_witness :
  fst (parse_socks5_addr (3 :: 21 :: replicate 21 97 ++ [0; 80])) = None.
Proof. apply (socks5_long_name_waits 21). reflexivity. Defined.


(** Protocol detection decides on the first bytes it sees.  Whatever the
    service type and however little data has arrived, a first non-empty call
    either accepts or blocks for good; no signature gets a second look, so an
    SSH banner whose first piece is shorter than its eight-byte signature is
    blocked. *)
Lemma xdpi_decides_at_once (ps : proxy_service) (d : bytes) (Hd : d ≠ []) :
  (xdpi_engine XDPI_INIT (Some ps) d = (0, XDPI_VERIFIED) ∧ xdpi_match (ps_service_type ps) d = true ∨
   xdpi_engine XDPI_INIT (Some ps) d = (-1, XDPI_BLOCKED) ∧ xdpi_match (ps_service_type ps) d = false) ∧
  (ps_service_type ps = SERVICE_SSH → zlen d < 8 →
   xdpi_engine XDPI_INIT (Some ps) d = (-1, XDPI_BLOCKED)).
Proof.
  assert (zlen d =? 0 = false) as Hz.
  { apply Z.eqb_neq. intros Hz. by apply Hd, zlen_0_inv. }
  unfold xdpi_engine. rewrite Hz. split.
  - destruct (xdpi_match _ _); auto.
  - intros -> Hl. simpl. by rewrite (proj2 (Z.leb_gt 8 (zlen d))) by lia.
Qed.

Lemma xdpi_decides_at_once_witness :
  let ps := mkPs "ssh" None false false None 22 0 0 SERVICE_SSH None None (plain_registration 6000) in
  xdpi_engine XDPI_INIT (Some ps) [83; 83; 72; 45] = (-1, XDPI_BLOCKED).
Proof.
  intros ps. destruct (xdpi_decides_at_once ps [83; 83; 72; 45]) as [_ Hs].
  - discriminate.
  - apply Hs; reflexivity.
Defined.

(** ** Concrete runs *)

#[local] Existing Instance Toy.mbedtls.

(** The client of [Demo] after protocol detection has blocked it. *)
Definition blocked_world (inp : bytes) : world :=
  set_w_pcs (<[2%positive := set_pc_xdpi_state XDPI_BLOCKED
                 (Demo.client TMUX_ESTABLISHED (Some 3%positive))]>
               (w_pcs (Demo.world TMUX_ESTABLISHED inp))) (Demo.world TMUX_ESTABLISHED inp).

Lemma may_become_xdpi_state w x st : may_become w x (set_pc_xdpi_state st x).
Proof. by apply may_become_same. Qed.

Lemma blocked_world_ok inp : mux_ok (blocked_world inp).
Proof.
  unfold blocked_world.
  destruct (good_put_pc (Demo.world TMUX_ESTABLISHED inp) 2
              (Demo.client TMUX_ESTABLISHED (Some 3%positive))
              (set_pc_xdpi_state XDPI_BLOCKED (Demo.client TMUX_ESTABLISHED (Some 3%positive)))) as [Ok1 _].
  - apply Demo.world_ok.
  - reflexivity.
  - apply may_become_xdpi_state.
  - exact Ok1.
Qed.

