(* ===== verification/Msg.v ===== *)
(** * Messages

    The marshalling of [src/src/msg.c] and [src/src/utils.c] the control
    session uses: names with the user prefix, registration of a service, work
    connections, and the responses of the server.  When reading, every
    allocation may fail, and [strdup] of a null pointer is undefined; when
    writing, the object and the final string may be refused, the nodes inside
    it are not.  Parsing and printing of JSON text is cJSON's, a parameter. *)

From Stdlib Require Import Ascii.
From stdpp Require Import pretty.
From S2P Require Import Prelude Endian Evp CryptoStream Json World.

(** ** Strings *)

(** What a C string function sees of a buffer. *)
Fixpoint c_string (l : bytes) : bytes :=
  match l with [] => [] | b :: l => if b =? 0 then [] else b :: c_string l end.

(** [strtok_r] with one separator: the non-empty fields. *)
Fixpoint strtok_acc (sep : Ascii.ascii) (cur : string) (s : string) : list string :=
  match s with
  | EmptyString => if bool_decide (cur = ""%string) then [] else [cur]
  | String c s =>
      if bool_decide (c = sep) then
        (if bool_decide (cur = ""%string) then [] else [cur]) ++ strtok_acc sep "" s
      else strtok_acc sep (cur +:+ String c "") s
  end.
Definition strtok (sep : Ascii.ascii) (s : string) : list string := strtok_acc sep "" s.

Definition comma : Ascii.ascii := ","%char.

(** [strchr(pair, '=')]: what is before and after the first. *)
Fixpoint split_eq (s : string) : option (string * string) :=
  match s with
  | EmptyString => None
  | String c s =>
      if bool_decide (c = "="%char) then Some (""%string, s)
      else '(k, v) ← split_eq s; Some (String c k, v)
  end.

(** The loop that skips leading blanks and tabs. *)
Fixpoint skip_blanks (s : string) : string :=
  match s with
  | String c s' => if bool_decide (c = " "%char) || bool_decide (c = "009"%char) then skip_blanks s' else s
  | EmptyString => s
  end.

(** [strrchr(s, ':')]: what follows the last colon. *)
Fixpoint after_colon (s : string) : option string :=
  match s with
  | EmptyString => None
  | String c s' =>
      match after_colon s' with
      | Some r => Some r
      | None => if bool_decide (c = ":"%char) then Some s' else None
      end
  end.

(** [atoi] on the digits it finds, clamped to [int] as [strtol] does where
    [long] has 32 bits. *)
Fixpoint digits (acc : Z) (s : string) : Z :=
  match s with
  | String c s =>
      let d := Z.of_N (Ascii.N_of_ascii c) - 48 in
      if (0 <=? d) && (d <=? 9) then digits (Z.min (acc * 10 + d) (2 ^ 31)) s else acc
  | EmptyString => acc
  end.
Definition is_space (c : Ascii.ascii) : bool :=
  let n := Z.of_N (Ascii.N_of_ascii c) in (n =? 32) || ((9 <=? n) && (n <=? 13)).
Fixpoint skip_spaces (s : string) : string :=
  match s with String c s' => if is_space c then skip_spaces s' else s | EmptyString => s end.
Definition atoi (s : string) : Z :=
  match skip_spaces s with
  | String "-" s => - digits 0 s
  | String "+" s => Z.min (digits 0 s) (2 ^ 31 - 1)
  | s => Z.min (digits 0 s) (2 ^ 31 - 1)
  end.

(** ** Names *)

(** [None]: the prefix is not there. *)
Fixpoint strip_prefix (user wire : string) : option string :=
  match user, wire with
  | EmptyString, String c rest => if bool_decide (c = "."%char) then Some rest else None
  | String c user, String d wire => if bool_decide (c = d) then strip_prefix user wire else None
  | _, _ => None
  end.

(** A null or empty user name is no prefix. *)
Definition user_prefix (user : option string) : option string :=
  match user with
  | Some u => if bool_decide (u = ""%string) then None else Some u
  | None => None
  end.

Definition xfrpc_strip_user_prefix (user : option string) (wire_name : string) : string :=
  match user_prefix user with
  | Some u => default wire_name (strip_prefix u wire_name)
  | None => wire_name
  end.

(** The name a service is registered under. *)
Definition wire_name (user : option string) (name : string) : string :=
  match user_prefix user with Some u => u +:+ "." +:+ name | None => name end.

(** ** Domains ([utils.c]) *)

Definition tolower (c : Ascii.ascii) : Ascii.ascii :=
  let n := Ascii.N_of_ascii c in
  if (65 <=? n)%N && (n <=? 90)%N then Ascii.ascii_of_N (n + 32) else c.

(** The output buffer; the status is ignored by the caller. *)
Fixpoint dns_unified (dname : string) : string :=
  match dname with
  | String c s => if bool_decide (c = "/"%char) then EmptyString else String (tolower c) (dns_unified s)
  | EmptyString => EmptyString
  end.

(** ** Registration *)

Definition json_object_new_string (s : string) : json := JString s.
Definition json_object_new_boolean (b : bool) : json := JBool b.
(** The [%g] text of a number made here is never read. *)
Definition json_object_new_int (i : Z) : json := JNumber i (pretty i).

Definition safe_json_string (s : option string) : json := JString (default ""%string s).

(** [JSON_MARSHAL_TYPE] of an optional string field. *)
Definition add_if (key : string) (v : option string) (l : list (string * json)) :=
  match v with Some s => json_object_object_add key (Some (JString s)) l | None => l end.

Definition wire_proxy_type (t : string) : string :=
  if bool_decide (t ∈ ["socks5"; "mstsc"; "iod"]%string) then "tcp"%string else t.

Definition grouped_type (t : string) : bool :=
  bool_decide (t ∈ ["tcp"; "http"; "https"; "tcpmux"; "stcp"; "xtcp"; "sudp"]%string).
Definition secret_type (t : string) : bool :=
  bool_decide (t ∈ ["stcp"; "xtcp"; "sudp"]%string).

(** [key=value] pairs; a pair without [=] is dropped. *)
Definition header_map (s : string) : json :=
  JObject (foldl (λ l pair,
    match split_eq pair with
    | Some (k, v) => json_object_object_add k (Some (JString v)) l
    | None => l
    end) [] (strtok comma s)).

Definition string_array (f : string → string) (s : string) : json :=
  JArray (map (λ x, JString (f x)) (strtok comma s)).

(** The object [new_proxy_service_marshal] builds, for a service with a type. *)
Definition new_proxy_object (user : option string) (ps : proxy_service) (ptype : string) : json :=
  let r := ps_registration ps in
  let t := wire_proxy_type ptype in
  let add := json_object_object_add in
  let l := add "proxy_name" (Some (JString (wire_name user (ps_proxy_name ps)))) [] in
  let l := add "proxy_type" (Some (JString t)) l in
  let l := add "use_encryption" (Some (JBool (ps_use_encryption ps))) l in
  let l := add "use_compression" (Some (JBool (ps_use_compression ps))) l in
  let l := if grouped_type t then add_if "group_key" (rg_group_key r) (add_if "group" (rg_group r) l)
           else l in
  let l := match rg_custom_domains r with
           | Some d => add "remote_port" None (add "custom_domains" (Some (string_array dns_unified d)) l)
           | None =>
               add "remote_port" (if rg_remote_port r =? -1 then None
                                  else Some (json_object_new_int (rg_remote_port r)))
                 (add "custom_domains" None l)
           end in
  let l := add "subdomain" (Some (safe_json_string (rg_subdomain r))) l in
  let l := add "locations" (string_array id <$> rg_locations r) l in
  let l := add "host_header_rewrite" (Some (safe_json_string (rg_host_header_rewrite r))) l in
  let l := add "http_user" (Some (safe_json_string (rg_http_user r))) l in
  let l := add "http_pwd" (Some (safe_json_string (rg_http_pwd r))) l in
  let l := add "headers" (header_map <$> rg_request_headers r) l in
  let l := add "response_headers" (header_map <$> rg_response_headers r) l in
  let l := if bool_decide (t = "tcpmux"%string) then
             add_if "route_by_http_user" (rg_route_by_http_user r)
               (add "multiplexer" (Some (JString (default "httpconnect"%string (rg_multiplexer r)))) l)
           else l in
  let l := if secret_type t then
             let l := add_if "sk" (rg_sk r) l in
             match rg_allow_users r with
             | Some u => add "allow_users" (Some (string_array skip_blanks u)) l
             | None => l
             end
           else l in
  JObject l.

Definition new_work_conn_object (run_id : option string) : json :=
  JObject (json_object_object_add "run_id" (Some (safe_json_string run_id)) []).

Section Msg.
Context `{Mbedtls}.

Definition user_of : M (option string) := gets (λ w, cf_user (e_config (w_env w))).

(** [json_object_to_json_string] and [strdup] of the result: [None] for a
    failed or empty print. *)
Definition print_json (j : json) : M (option bytes) :=
  print <- gets (λ w, x_json_print (e_ext (w_env w))) ;;
  ok <- oracle ;;
  match print j with
  | Some (c :: s) => ret (if ok then Some (c :: s) else None)
  | _ => ret None
  end.

(** [strcmp] with the null type of a service is undefined. *)
Definition new_proxy_service_marshal (ps : proxy_service) : M (option bytes) :=
  ok <- oracle ;;
  if negb ok then ret None
  else
    user <- user_of ;;
    match ps_proxy_type ps with
    | None => ub
    | Some t => print_json (new_proxy_object user ps t)
    end.

Definition new_work_conn_marshal (run_id : option string) : M (option bytes) :=
  ok <- oracle ;;
  if negb ok then ret None else print_json (new_work_conn_object run_id).

(** ** Login *)

Definition PROTOCOL_VERSION : string := "0.71.0".

Definition hex_digit (n : Z) : Ascii.ascii :=
  Ascii.ascii_of_N (Z.to_N (if n <? 10 then 48 + n else 87 + n)).
(** [snprintf("%02x")] of each byte. *)
Fixpoint hex_string (l : bytes) : string :=
  match l with
  | [] => EmptyString
  | b :: l => String (hex_digit (b `div` 16)) (String (hex_digit (b `mod` 16)) (hex_string l))
  end.

Definition now : M Z :=
  λ w, Some (x_time (e_ext (w_env w)) (w_tick w), set_w_tick (S (w_tick w)) w).

(** The seed has to fit a buffer of 128 bytes. *)
Definition auth_seed (token : option bytes) (timestamp : Z) : option bytes :=
  let seed := default [] token ++ str_bytes (pretty timestamp) in
  if zlen seed <? 128 then Some (c_string seed) else None.

(** The key and the time it was made at. *)
Definition get_auth_key : M (option string * Z) :=
  t <- now ;;
  token <- gets (λ w, e_auth_token (w_env w)) ;;
  md5 <- gets (λ w, x_md5 (e_ext (w_env w))) ;;
  match auth_seed token t with
  | None => ret (None, t)
  | Some seed =>
      match md5 seed with
      | None => ret (None, t)
      | Some digest => ok <- oracle ;; ret (if ok then Some (hex_string digest) else None, t)
      end
  end.

Definition login_object (user run_id : option string) (machine key : string) (timestamp : Z) : json :=
  let add := json_object_object_add in
  let l := add "version" (Some (JString PROTOCOL_VERSION)) [] in
  let l := add "hostname" (Some (JString "")) l in
  let l := add "os" (Some (JString "FreeRTOS")) l in
  let l := add "arch" (Some (JString machine)) l in
  let l := add "privilege_key" (Some (JString key)) l in
  let l := add "pool_count" (Some (json_object_new_int 1)) l in
  let l := add "timestamp" (Some (json_object_new_int timestamp)) l in
  JObject (add_if "run_id" run_id (add_if "user" user l)).

(** The token of OpenID Connect is not there in this build: the stub that would
    fetch it returns null. *)
Definition login_request_marshal (run_id : option string) : M (option bytes) :=
  ok <- oracle ;;
  if negb ok then ret None
  else
    oidc <- gets (λ w, cf_oidc (e_config (w_env w))) ;;
    if (oidc : bool) then ret None
    else
      kt <- get_auth_key ;;
      match fst kt with
      | None => ret None
      | Some key =>
          ok <- oracle ;;
          if negb ok then ret None
          else
            user <- user_of ;;
            machine <- gets (λ w, x_machine (e_ext (w_env w))) ;;
            print_json (login_object user run_id machine key (snd kt))
      end.

(** ** Reading *)

Definition json_tokener_parse (text : bytes) : M (option json) :=
  parse <- gets (λ w, x_json_parse (e_ext (w_env w))) ;;
  match parse (c_string text) with
  | None => ret None
  | Some j => ok <- oracle ;; ret (if ok then Some j else None)
  end.

(** Whether the key is there, and the borrowed wrapper (null when it cannot be
    allocated). *)
Definition get_ex (obj : json) (key : string) : M (bool * option json) :=
  match json_object_object_get_ex obj key with
  | None => ret (false, None)
  | Some j => ok <- oracle ;; ret (true, if ok then Some j else None)
  end.

(** Other types than strings are converted, which allocates. *)
Definition get_string (o : option json) : M (option string) :=
  match o with
  | None => ret None
  | Some j =>
      match j with
      | JNumber _ _ | JBool _ =>
          ok <- oracle ;; ret (if ok then json_object_get_string j else None)
      | _ => ret (json_object_get_string j)
      end
  end.

Definition strdup (s : option string) : M (option string) :=
  match s with
  | None => ub
  | Some s => ok <- oracle ;; ret (if ok then Some s else None)
  end.

(** A field that is copied when it is there: [None] is the [goto error]. *)
Definition optional_field (j : json) (key : string) : M (option (option string)) :=
  f <- get_ex j key ;;
  if negb (fst f) then ret (Some None)
  else
    s <- get_string (snd f) ;;
    match s with
    | None => ret (Some None)
    | Some s => d <- strdup (Some s) ;; ret (Some <$> d)
    end.

(** [!get_ex(...) || !strdup(f(get_string(...)))]. *)
Definition required_field (f : string → string) (j : json) (key : string) : M (option string) :=
  r <- get_ex j key ;;
  if negb (fst r) then ret None
  else s <- get_string (snd r) ;; strdup (f <$> s).

(** Parses the text and allocates the structure. *)
Definition open_message {A} (text : bytes) (k : json → M (option A)) : M (option A) :=
  j <- json_tokener_parse text ;;
  match j with
  | None => ret None
  | Some j => ok <- oracle ;; if negb ok then ret None else k j
  end.

Record new_proxy_response := mkNpr {
  npr_run_id : option string;
  npr_remote_port : Z;
  npr_proxy_name : string;
  npr_error : option string;
}.

Definition new_proxy_resp_unmarshal (text : bytes) : M (option new_proxy_response) :=
  open_message text (λ j,
    run_id <- optional_field j "run_id" ;;
    match run_id with
    | None => ret None
    | Some run_id =>
        ra <- get_ex j "remote_addr" ;;
        addr <- get_string (snd ra) ;;
        let port := match addr with
                    | Some a => match after_colon a with Some p => atoi p | None => 0 end
                    | None => 0
                    end in
        user <- user_of ;;
        name <- required_field (xfrpc_strip_user_prefix user) j "proxy_name" ;;
        match name with
        | None => ret None
        | Some name =>
            error <- optional_field j "error" ;;
            match error with
            | None => ret None
            | Some error => ret (Some (mkNpr run_id port name error))
            end
        end
    end).

Record login_resp := mkLoginResp {
  lr_version : string;
  lr_run_id : string;
  lr_error : option string;
}.

Definition login_resp_unmarshal (text : bytes) : M (option login_resp) :=
  open_message text (λ j,
    version <- required_field id j "version" ;;
    match version with
    | None => ret None
    | Some version =>
        run_id <- required_field id j "run_id" ;;
        match run_id with
        | None => ret None
        | Some run_id =>
            error <- optional_field j "error" ;;
            match error with
            | None => ret None
            | Some error => ret (Some (mkLoginResp version run_id error))
            end
        end
    end).

(** The name of the service, without the prefix. *)
Definition start_work_conn_resp_unmarshal (text : bytes) : M (option string) :=
  open_message text (λ j,
    f <- get_ex j "proxy_name" ;;
    if negb (fst f) then ret None
    else
      name <- get_string (snd f) ;;
      match name with
      | None => ret None
      | Some name =>
          user <- user_of ;;
          strdup (Some (xfrpc_strip_user_prefix user name))
      end).

Record udp_addr := mkUdpAddr { ua_addr : string; ua_zone : string; ua_port : Z }.
Record udp_packet := mkUdp {
  up_content : string;
  up_laddr : option udp_addr;
  up_raddr : option udp_addr;
}.

(** A missing number is converted from NaN, which is undefined; a null wrapper
    gives 0. *)
Definition get_int (o : option json) : M Z :=
  match o with
  | None => ret 0
  | Some j => match json_object_get_int j with Some i => ret i | None => ub end
  end.

Definition parse_udp_addr (o : option json) : M (option udp_addr) :=
  match o with
  | None => ret None
  | Some j =>
      ip <- get_ex j "IP" ;;
      if negb (fst ip) then ret None
      else
        port <- get_ex j "Port" ;;
        if negb (fst port) then ret None
        else
          zone <- get_ex j "Zone" ;;
          ok <- oracle ;;
          if negb ok then ret None
          else
            s <- get_string (snd ip) ;;
            addr <- strdup s ;;
            z <- match snd zone with
                 | Some _ => get_string (snd zone)
                 | None => ret (Some ""%string)
                 end ;;
            zone <- strdup z ;;
            port <- get_int (snd port) ;;
            match addr, zone with
            | Some addr, Some zone => ret (Some (mkUdpAddr addr zone port))
            | _, _ => ret None
            end
  end.

Definition udp_packet_unmarshal (text : bytes) : M (option udp_packet) :=
  open_message text (λ j,
    content <- required_field id j "c" ;;
    match content with
    | None => ret None
    | Some content =>
        l <- get_ex j "l" ;;
        laddr <- parse_udp_addr (snd l) ;;
        r <- get_ex j "r" ;;
        raddr <- parse_udp_addr (snd r) ;;
        ret (Some (mkUdp content laddr raddr))
    end).

End Msg.
