(* ===== verification/NatMsg.v ===== *)
(** * Datagrams and NAT traversal messages

    The rest of the marshalling in [src/src/msg.c]: datagrams of a UDP proxy,
    the messages of NAT traversal, and control responses, with the array
    operations of [src/port/json_compat.c] they use.  As in [Msg], reading may
    fail at every allocation and [strdup] of a null pointer is undefined. *)

From stdpp Require Import pretty.
From S2P Require Import Prelude Endian Evp CryptoStream Json World Mux MuxThm Msg.

(** ** Arrays of [json_compat.c] *)

Definition json_object_array_length (j : json) : Z := match j with JArray l => zlen l | _ => 0 end.
Definition array_item (j : json) (i : nat) : option json := match j with JArray l => l !! i | _ => None end.
(** [json_object_array_add] of the strings that are not null. *)
Definition strings_array (l : list (option string)) : json := JArray (JString <$> omap id l).

(** ** Objects *)

Definition create_udp_addr_json (a : option udp_addr) : json :=
  match a with
  | None => JObject []
  | Some a =>
      JObject (json_object_object_add "Zone" (Some (JString ""))
                (json_object_object_add "Port" (Some (json_object_new_int (ua_port a)))
                  (json_object_object_add "IP" (Some (JString (ua_addr a))) [])))
  end.

Definition udp_object (content : option string) (laddr raddr : option udp_addr) : json :=
  JObject (json_object_object_add "r" (Some (create_udp_addr_json raddr))
            (json_object_object_add "l" (Some (create_udp_addr_json laddr))
              (add_if "c" content []))).

Record nathole_visitor_msg := mkNatVisitor {
  nv_transaction_id : option string;
  nv_proxy_name : option string;
  nv_pre_check : bool;
  nv_protocol : option string;
  nv_sign_key : option string;
  nv_timestamp : Z;
  nv_mapped_addrs : list (option string);
  nv_assisted_addrs : list (option string);
}.

Definition nathole_visitor_object (m : nathole_visitor_msg) : json :=
  let add := json_object_object_add in
  let l := add_if "transaction_id" (nv_transaction_id m) [] in
  let l := add_if "proxy_name" (nv_proxy_name m) l in
  let l := add "pre_check" (Some (JBool (nv_pre_check m))) l in
  let l := add_if "protocol" (nv_protocol m) l in
  let l := add_if "sign_key" (nv_sign_key m) l in
  let l := add "timestamp" (Some (json_object_new_int (nv_timestamp m))) l in
  let l := add "mapped_addrs" (Some (strings_array (nv_mapped_addrs m))) l in
  JObject (add "assisted_addrs" (Some (strings_array (nv_assisted_addrs m))) l).

Record nathole_client_msg := mkNatClient {
  nc_transaction_id : option string;
  nc_proxy_name : option string;
  nc_sid : option string;
  nc_mapped_addrs : list (option string);
  nc_assisted_addrs : list (option string);
}.

(** Empty lists are left out. *)
Definition add_addrs (key : string) (a : list (option string)) (l : list (string * json)) :=
  match a with [] => l | _ => json_object_object_add key (Some (strings_array a)) l end.
Definition nathole_client_object (m : nathole_client_msg) : json :=
  let l := add_if "transaction_id" (nc_transaction_id m) [] in
  let l := add_if "proxy_name" (nc_proxy_name m) l in
  let l := add_if "sid" (nc_sid m) l in
  JObject (add_addrs "assisted_addrs" (nc_assisted_addrs m) (add_addrs "mapped_addrs" (nc_mapped_addrs m) l)).

Definition nathole_report_object (sid : option string) (success : bool) : json :=
  JObject (json_object_object_add "success" (Some (JBool success)) (add_if "sid" sid [])).

Definition MAX_PARSED_ADDRS : Z := 64.

Record nathole_resp_msg := mkNatResp {
  nr_transaction_id : option string;
  nr_sid : option string;
  nr_protocol : option string;
  nr_error : option string;
  nr_candidate_addrs : list (option string);
  nr_assisted_addrs : list (option string);
  nr_mode : Z;
  nr_role : option string;
  nr_ttl : Z;
  nr_send_delay_ms : Z;
  nr_read_timeout_ms : Z;
  nr_send_random_ports : Z;
  nr_listen_random_ports : Z;
  nr_candidate_ports : list (Z * Z);
}.

Section NatMsg.
Context `{Mbedtls}.

(** ** Writing *)

Definition marshal_object (j : json) : M (option bytes) :=
  ok <- oracle ;; if negb ok then ret None else print_json j.

Definition new_udp_packet_marshal (content : option string) (laddr raddr : option udp_addr) : M (option bytes) :=
  marshal_object (udp_object content laddr raddr).
Definition nathole_visitor_marshal (m : nathole_visitor_msg) : M (option bytes) := marshal_object (nathole_visitor_object m).
Definition nathole_client_marshal (m : nathole_client_msg) : M (option bytes) := marshal_object (nathole_client_object m).
Definition nathole_report_marshal (sid : option string) (success : bool) : M (option bytes) :=
  marshal_object (nathole_report_object sid success).

(** ** Reading *)

(** The type, the code and the text. *)
Definition control_response_unmarshal (text : bytes) : M (option (Z * Z * string)) :=
  open_message text (λ j,
    t <- get_ex j "type" ;;
    if negb (fst t) then ret None
    else
      type <- get_int (snd t) ;;
      c <- get_ex j "code" ;;
      if negb (fst c) then ret None
      else
        code <- get_int (snd c) ;;
        m <- get_ex j "msg" ;;
        if negb (fst m) then ret None
        else
          s <- get_string (snd m) ;;
          match s with
          | None => ret None
          | Some s => d <- strdup (Some s) ;; ret ((λ d, (type, code, d)) <$> d)
          end).

(** A wrapper for an element, null when there is none or it cannot be
    allocated. *)
Definition json_object_array_get_idx (j : json) (i : nat) : M (option json) :=
  match array_item j i with
  | None => ret None
  | Some x => ok <- oracle ;; ret (if ok then Some x else None)
  end.

(** The texts of [n] elements from [i] on. *)
Fixpoint parse_strings (j : json) (n i : nat) : M (list (option string)) :=
  match n with
  | O => ret []
  | S n =>
      item <- json_object_array_get_idx j i ;;
      s <- get_string item ;;
      d <- match s with Some _ => strdup s | None => ret None end ;;
      rest <- parse_strings j n (S i) ;;
      ret (d :: rest)
  end.

Definition parse_json_string_array (j : json) (key : string) : M (list (option string)) :=
  f <- get_ex j key ;;
  match snd f with
  | None => ret []
  | Some a =>
      let count := Z.min (json_object_array_length a) MAX_PARSED_ADDRS in
      if count <=? 0 then ret []
      else ok <- oracle ;; if negb ok then ret [] else parse_strings a (Z.to_nat count) 0
  end.

(** A field that is copied when it is there, whatever it is. *)
Definition copied_field (j : json) (key : string) : M (option string) :=
  f <- get_ex j key ;;
  if negb (fst f) then ret None else s <- get_string (snd f) ;; strdup s.
Definition int_field (j : json) (key : string) : M Z :=
  f <- get_ex j key ;; if negb (fst f) then ret 0 else get_int (snd f).

(** The ranges of [n] elements from [i] on. *)
Fixpoint parse_ports (j : json) (n i : nat) : M (list (Z * Z)) :=
  match n with
  | O => ret []
  | S n =>
      item <- json_object_array_get_idx j i ;;
      range <- match item with
               | None => ret (0, 0)
               | Some pr =>
                   from <- get_ex pr "from" ;;
                   if negb (fst from) then ret (0, 0)
                   else
                     to <- get_ex pr "to" ;;
                     if negb (fst to) then ret (0, 0)
                     else a <- get_int (snd from) ;; b <- get_int (snd to) ;; ret (a, b)
               end ;;
      rest <- parse_ports j n (S i) ;;
      ret (range :: rest)
  end.

Definition candidate_ports (beh : json) : M (list (Z * Z)) :=
  f <- get_ex beh "candidate_ports" ;;
  match snd f with
  | None => ret []
  | Some a =>
      if json_object_array_length a <=? 0 then ret []
      else
        ok1 <- oracle ;;
        ok2 <- oracle ;;
        if negb (ok1 && ok2) then ret [] else parse_ports a (Z.to_nat (json_object_array_length a)) 0
  end.

Definition nathole_resp_unmarshal (text : bytes) : M (option nathole_resp_msg) :=
  open_message text (λ j,
    transaction_id <- copied_field j "transaction_id" ;;
    sid <- copied_field j "sid" ;;
    protocol <- copied_field j "protocol" ;;
    error <- copied_field j "error" ;;
    candidates <- parse_json_string_array j "candidate_addrs" ;;
    assisted <- parse_json_string_array j "assisted_addrs" ;;
    f <- get_ex j "detect_behavior" ;;
    match snd f with
    | None => ret (Some (mkNatResp transaction_id sid protocol error candidates assisted 0 None 0 0 0 0 0 []))
    | Some beh =>
        mode <- int_field beh "mode" ;;
        role <- copied_field beh "role" ;;
        ttl <- int_field beh "ttl" ;;
        delay <- int_field beh "send_delay_ms" ;;
        timeout <- int_field beh "read_timeout" ;;
        send <- int_field beh "send_random_ports" ;;
        listen <- int_field beh "listen_random_ports" ;;
        ports <- candidate_ports beh ;;
        ret (Some (mkNatResp transaction_id sid protocol error candidates assisted mode role ttl delay timeout send listen ports))
    end).

(** ** What is read *)

(** [reads w m a]: whatever the state of the counter, [m] yields [a] and only
    advances the counter. *)
Definition reads {A} (w : world) (m : M A) (a : A) : Prop := ∀ n, ∃ n', m (set_w_tick n w) = Some (a, set_w_tick n' w).

Lemma reads_ret {A} w (a : A) : reads w (ret a) a.
Proof. intros n. by exists n. Qed.
Lemma reads_bind {A B} w (m : M A) (f : A → M B) a b : reads w m a → reads w (f a) b → reads w (bind m f) b.
Proof. intros Hm Hf n. destruct (Hm n) as [n1 E1]. destruct (Hf n1) as [n2 E2]. exists n2. unfold bind. by rewrite E1. Qed.
Lemma reads_gets {A} w (f : world → A) : (∀ n, f (set_w_tick n w) = f w) → reads w (gets f) (f w).
Proof. intros Hf n. exists n. unfold gets. by rewrite Hf. Qed.
Lemma reads_oracle w : alloc_ok w → reads w oracle true.
Proof. intros He n. exists (S n). unfold oracle. cbn. by rewrite (He n). Qed.
Lemma reads_run {A} w (m : M A) a : reads w m a → ∃ n, m w = Some (a, set_w_tick n w).
Proof. intros Hm. destruct (Hm (w_tick w)) as [n E]. exists n. by destruct w. Qed.

(** [stuck w m]: whatever the state of the counter, [m] is undefined. *)
Definition stuck {A} (w : world) (m : M A) : Prop := ∀ n, m (set_w_tick n w) = None.
Lemma stuck_bind {A B} w (m : M A) (f : A → M B) a : reads w m a → stuck w (f a) → stuck w (bind m f).
Proof. intros Hm Hf n. destruct (Hm n) as [n1 E1]. unfold bind. by rewrite E1. Qed.
Lemma stuck_first {A B} w (m : M A) (f : A → M B) : stuck w m → stuck w (bind m f).
Proof. intros Hm n. unfold bind. by rewrite Hm. Qed.

Section Reads.
Context (w : world) (Hmem : alloc_ok w).

Lemma reads_get_ex j key : reads w (get_ex j key) (if json_object_object_get_ex j key then true else false, json_object_object_get_ex j key).
Proof.
  unfold get_ex. destruct (json_object_object_get_ex j key); [|apply reads_ret]. eapply reads_bind; [by apply reads_oracle|]. apply reads_ret.
Qed.
Lemma reads_get_string o : reads w (get_string o) (o ≫= json_object_get_string).
Proof.
  destruct o as [[]|]; cbn; try apply reads_ret; (eapply reads_bind; [by apply reads_oracle|]; apply reads_ret).
Qed.
Lemma reads_strdup s : reads w (strdup (Some s)) (Some s).
Proof. eapply reads_bind; [by apply reads_oracle|]. apply reads_ret. Qed.
Lemma reads_get_int o i : match o with None => Some 0 | Some j => json_object_get_int j end = Some i → reads w (get_int o) i.
Proof. destruct o as [j|]; cbn; [|intros [= <-]; apply reads_ret]. destruct (json_object_get_int j); intros [= <-]; apply reads_ret. Qed.
Lemma reads_open {A} text (k : json → M (option A)) j r :
  x_json_parse (e_ext (w_env w)) (c_string text) = Some j → reads w (k j) r → reads w (open_message text k) r.
Proof.
  intros Hj Hk. eapply reads_bind.
  - eapply reads_bind; [by apply reads_gets|]. cbv beta. rewrite Hj. eapply reads_bind; [by apply reads_oracle|]. apply reads_ret.
  - cbv iota. eapply reads_bind; [by apply reads_oracle|]. done.
Qed.
Lemma reads_marshal j text :
  x_json_print (e_ext (w_env w)) j = Some text → text ≠ [] → reads w (marshal_object j) (Some text).
Proof.
  intros Hj Ht. eapply reads_bind; [by apply reads_oracle|]. cbn [negb]. eapply reads_bind; [by apply reads_gets|]. cbv beta.
  eapply reads_bind; [by apply reads_oracle|]. rewrite Hj. destruct text; [done|]. apply reads_ret.
Qed.
Lemma reads_required key j x s :
  json_object_object_get_ex j key = Some x → json_object_get_string x = Some s → reads w (required_field id j key) (Some s).
Proof.
  intros Hx Hs. eapply reads_bind; [apply reads_get_ex|]. rewrite Hx. cbn [fst snd negb]. eapply reads_bind; [apply reads_get_string|]. cbn. rewrite Hs.
  apply reads_strdup.
Qed.
End Reads.

(** ** Datagrams come back *)

(** The zone is not sent. *)
Definition without_zone (a : udp_addr) : udp_addr := mkUdpAddr (ua_addr a) "" (ua_port a).

Lemma reads_udp_addr w a : alloc_ok w → reads w (parse_udp_addr (Some (create_udp_addr_json a))) (without_zone <$> a).
Proof.
  intros Hmem. unfold parse_udp_addr. destruct a as [a|]; cbn [create_udp_addr_json].
  - eapply reads_bind; [by apply reads_get_ex|]. cbn. eapply reads_bind; [by apply reads_get_ex|]. cbn.
    eapply reads_bind; [by apply reads_get_ex|]. cbn. eapply reads_bind; [by apply reads_oracle|]. cbn.
    eapply reads_bind; [apply reads_ret|]. eapply reads_bind; [by apply reads_strdup|]. eapply reads_bind; [apply reads_ret|].
    eapply reads_bind; [by apply reads_strdup|]. eapply reads_bind; [by apply reads_ret|]. apply reads_ret.
  - eapply reads_bind; [by apply reads_get_ex|]. apply reads_ret.
Qed.

(** A datagram survives marshalling: whenever cJSON reads back what it has
    printed, the packet read from the text of a packet has the same content and
    the same addresses, present or absent, up to the zone, which is never
    sent. *)
Lemma udp_packet_roundtrip w content laddr raddr text :
  alloc_ok w → text ≠ [] →
  x_json_print (e_ext (w_env w)) (udp_object (Some content) laddr raddr) = Some text →
  x_json_parse (e_ext (w_env w)) (c_string text) = Some (udp_object (Some content) laddr raddr) →
  ∃ n1 n2, new_udp_packet_marshal (Some content) laddr raddr w = Some (Some text, set_w_tick n1 w) ∧
           udp_packet_unmarshal text w = Some (Some (mkUdp content (without_zone <$> laddr) (without_zone <$> raddr)), set_w_tick n2 w).
Proof.
  intros Hmem Ht Hprint Hparse. destruct (reads_run w _ _ (reads_marshal w Hmem _ text Hprint Ht)) as [n1 E1].
  assert (reads w (udp_packet_unmarshal text) (Some (mkUdp content (without_zone <$> laddr) (without_zone <$> raddr)))) as [n2 E2]%reads_run; [|by exists n1, n2].
  eapply reads_open; [done|done|]. eapply reads_bind; [by eapply (reads_required w Hmem "c" _ (JString content) content)|]. cbn beta iota.
  eapply reads_bind; [by apply reads_get_ex|]. cbn [snd]. eapply reads_bind; [by apply (reads_udp_addr w laddr)|].
  eapply reads_bind; [by apply reads_get_ex|]. cbn [snd]. eapply reads_bind; [by apply (reads_udp_addr w raddr)|]. apply reads_ret.
Qed.

(** ** Responses of NAT traversal *)

(** What a response says, as a function of its object. *)
Definition text_of (j : json) (key : string) : option string := json_object_object_get_ex j key ≫= json_object_get_string.
Definition int_of (j : json) (key : string) : Z := default 0 (json_object_object_get_ex j key ≫= json_object_get_int).
Definition strings_of (j : json) (key : string) : list (option string) :=
  match json_object_object_get_ex j key with Some (JArray l) => json_object_get_string <$> take 64 l | _ => [] end.
Definition range_of (x : json) : Z * Z :=
  match json_object_object_get_ex x "from", json_object_object_get_ex x "to" with
  | Some _, Some _ => (int_of x "from", int_of x "to")
  | _, _ => (0, 0)
  end.
Definition ports_of (j : json) : list (Z * Z) :=
  match json_object_object_get_ex j "candidate_ports" with Some (JArray l) => range_of <$> l | _ => [] end.
Definition resp_of (j : json) : nathole_resp_msg :=
  match json_object_object_get_ex j "detect_behavior" with
  | None => mkNatResp (text_of j "transaction_id") (text_of j "sid") (text_of j "protocol") (text_of j "error")
              (strings_of j "candidate_addrs") (strings_of j "assisted_addrs") 0 None 0 0 0 0 0 []
  | Some b =>
      mkNatResp (text_of j "transaction_id") (text_of j "sid") (text_of j "protocol") (text_of j "error")
        (strings_of j "candidate_addrs") (strings_of j "assisted_addrs") (int_of b "mode") (text_of b "role") (int_of b "ttl")
        (int_of b "send_delay_ms") (int_of b "read_timeout") (int_of b "send_random_ports") (int_of b "listen_random_ports") (ports_of b)
  end.

(** A field is absent or has a text, or a number. *)
Definition texty (j : json) (key : string) : Prop :=
  match json_object_object_get_ex j key with Some x => is_Some (json_object_get_string x) | None => True end.
Definition numeric (j : json) (key : string) : Prop :=
  match json_object_object_get_ex j key with Some x => is_Some (json_object_get_int x) | None => True end.
Record resp_typed (j : json) : Prop := {
  rt_texts : Forall (texty j) ["transaction_id"; "sid"; "protocol"; "error"]%string;
  rt_behavior : ∀ b, json_object_object_get_ex j "detect_behavior" = Some b →
    texty b "role" ∧ Forall (numeric b) ["mode"; "ttl"; "send_delay_ms"; "read_timeout"; "send_random_ports"; "listen_random_ports"]%string ∧
    match json_object_object_get_ex b "candidate_ports" with
    | Some (JArray l) => Forall (λ x, numeric x "from" ∧ numeric x "to") l
    | _ => True
    end;
}.

Section Response.
Context (w : world) (Hmem : alloc_ok w).

Lemma reads_copied j key : texty j key → reads w (copied_field j key) (text_of j key).
Proof.
  unfold texty, text_of. intros Ht. eapply reads_bind; [by apply reads_get_ex|].
  destruct (json_object_object_get_ex j key) as [x|]; cbn [fst snd negb mbind option_bind]; [|apply reads_ret].
  eapply reads_bind; [by apply reads_get_string|]. cbn [mbind option_bind]. destruct Ht as [s ->]. by apply reads_strdup.
Qed.
Lemma reads_int j key : numeric j key → reads w (int_field j key) (int_of j key).
Proof.
  unfold numeric, int_of. intros Ht. eapply reads_bind; [by apply reads_get_ex|].
  destruct (json_object_object_get_ex j key) as [x|]; cbn [fst snd negb mbind option_bind]; [|apply reads_ret].
  destruct Ht as [i E]. apply reads_get_int. by rewrite E.
Qed.
Lemma reads_item l i x : l !! i = Some x → reads w (json_object_array_get_idx (JArray l) i) (Some x).
Proof. intros Hx. unfold json_object_array_get_idx. cbn [array_item]. rewrite Hx. eapply reads_bind; [by apply reads_oracle|]. apply reads_ret. Qed.

Lemma reads_strings l n i : (i + n ≤ length l)%nat → reads w (parse_strings (JArray l) n i) (json_object_get_string <$> take n (drop i l)).
Proof.
  revert i. induction n as [|n IH]; intros i Hn; cbn [parse_strings]; [by rewrite take_0; apply reads_ret|].
  destruct (lookup_lt_is_Some_2 l i ltac:(lia)) as [x Hx]. rewrite (drop_S l x i Hx). cbn [take fmap list_fmap].
  eapply reads_bind; [by apply reads_item|]. eapply reads_bind; [by apply reads_get_string|]. cbn [mbind option_bind].
  eapply (reads_bind _ _ _ (json_object_get_string x)); [destruct (json_object_get_string x); [by apply reads_strdup|apply reads_ret]|].
  eapply reads_bind; [apply IH; lia|]. apply reads_ret.
Qed.
Lemma reads_string_array j key : reads w (parse_json_string_array j key) (strings_of j key).
Proof.
  unfold strings_of. eapply reads_bind; [by apply reads_get_ex|]. cbn [snd].
  destruct (json_object_object_get_ex j key) as [[]|]; cbv zeta; try apply reads_ret. cbn [json_object_array_length]. unfold MAX_PARSED_ADDRS.
  case_if; [destruct l; [apply reads_ret|rewrite zlen_cons in *; pose proof (zlen_nonneg l); lia]|].
  eapply reads_bind; [by apply reads_oracle|]. cbn [negb]. unfold zlen.
  assert (take 64 l = take (Z.to_nat (Z.of_nat (length l) `min` 64)) (drop 0 l)) as ->; [|apply reads_strings; lia].
  rewrite drop_0. destruct (decide (length l ≤ 64)%nat); [rewrite !take_ge by lia; done|]. f_equal. lia.
Qed.
Lemma reads_range x : numeric x "from" ∧ numeric x "to" →
  reads w (from <- get_ex x "from" ;; if negb (fst from) then ret (0, 0) else to <- get_ex x "to" ;;
           if negb (fst to) then ret (0, 0) else a <- get_int (snd from) ;; b <- get_int (snd to) ;; ret (a, b)) (range_of x).
Proof.
  unfold numeric, range_of, int_of. intros [Hf Ht]. eapply reads_bind; [by apply reads_get_ex|].
  destruct (json_object_object_get_ex x "from") as [f|]; cbn [fst snd negb]; [|apply reads_ret].
  eapply reads_bind; [by apply reads_get_ex|]. destruct (json_object_object_get_ex x "to") as [t|]; cbn [fst snd negb]; [|apply reads_ret].
  destruct Hf as [a Ea], Ht as [c Ec]. eapply reads_bind; [by apply reads_get_int|]. eapply reads_bind; [by apply reads_get_int|].
  cbn [mbind option_bind]. rewrite Ea, Ec. apply reads_ret.
Qed.
Lemma reads_ports l n i :
  Forall (λ x, numeric x "from" ∧ numeric x "to") l → (i + n ≤ length l)%nat → reads w (parse_ports (JArray l) n i) (range_of <$> take n (drop i l)).
Proof.
  intros Hl. revert i. induction n as [|n IH]; intros i Hn; cbn [parse_ports]; [by rewrite take_0; apply reads_ret|].
  destruct (lookup_lt_is_Some_2 l i ltac:(lia)) as [x Hx]. rewrite (drop_S l x i Hx). cbn [take fmap list_fmap].
  eapply reads_bind; [by apply reads_item|]. eapply reads_bind; [by apply reads_range, (Forall_lookup_1 _ _ _ _ Hl Hx)|].
  eapply reads_bind; [apply IH; lia|]. apply reads_ret.
Qed.
Lemma reads_candidate_ports b :
  match json_object_object_get_ex b "candidate_ports" with Some (JArray l) => Forall (λ x, numeric x "from" ∧ numeric x "to") l | _ => True end →
  reads w (candidate_ports b) (ports_of b).
Proof.
  unfold ports_of. intros Hl. eapply reads_bind; [by apply reads_get_ex|]. cbn [snd].
  destruct (json_object_object_get_ex b "candidate_ports") as [[]|]; try apply reads_ret. cbn [json_object_array_length].
  case_if; [destruct l; [apply reads_ret|rewrite zlen_cons in *; pose proof (zlen_nonneg l); lia]|].
  eapply reads_bind; [by apply reads_oracle|]. eapply reads_bind; [by apply reads_oracle|]. cbn [negb andb].
  pose proof (reads_ports l (Z.to_nat (zlen l)) 0 Hl) as Hr. unfold zlen in *. rewrite Nat2Z.id in *. rewrite drop_0, take_ge in Hr by lia. apply Hr. lia.
Qed.

Lemma reads_behavior b t s p e c a :
  texty b "role" ∧ Forall (numeric b) ["mode"; "ttl"; "send_delay_ms"; "read_timeout"; "send_random_ports"; "listen_random_ports"]%string ∧
    match json_object_object_get_ex b "candidate_ports" with Some (JArray l) => Forall (λ x, numeric x "from" ∧ numeric x "to") l | _ => True end →
  reads w (mode <- int_field b "mode" ;; role <- copied_field b "role" ;; ttl <- int_field b "ttl" ;; delay <- int_field b "send_delay_ms" ;;
           timeout <- int_field b "read_timeout" ;; send <- int_field b "send_random_ports" ;; listen <- int_field b "listen_random_ports" ;;
           ports <- candidate_ports b ;; ret (Some (mkNatResp t s p e c a mode role ttl delay timeout send listen ports)))
    (Some (mkNatResp t s p e c a (int_of b "mode") (text_of b "role") (int_of b "ttl") (int_of b "send_delay_ms") (int_of b "read_timeout")
            (int_of b "send_random_ports") (int_of b "listen_random_ports") (ports_of b))).
Proof.
  intros (Hr & Hn & Hp). rewrite !Forall_cons in Hn. destruct Hn as (N1 & N2 & N3 & N4 & N5 & N6 & _).
  eapply reads_bind; [by apply reads_int|]. eapply reads_bind; [by apply reads_copied|].
  do 5 (eapply reads_bind; [by apply reads_int|]). eapply reads_bind; [by apply reads_candidate_ports|]. apply reads_ret.
Qed.
End Response.

(** A response of NAT traversal is read as it stands: for every object
    whose fields have the expected types the result is the one a direct reading
    of the object gives, and however many addresses the server lists, at most
    64 of each kind are kept. *)
Lemma nathole_resp_reads w text j :
  alloc_ok w → x_json_parse (e_ext (w_env w)) (c_string text) = Some j → resp_typed j →
  ∃ n, nathole_resp_unmarshal text w = Some (Some (resp_of j), set_w_tick n w) ∧
       zlen (nr_candidate_addrs (resp_of j)) ≤ MAX_PARSED_ADDRS ∧ zlen (nr_assisted_addrs (resp_of j)) ≤ MAX_PARSED_ADDRS.
Proof.
  intros Hmem Hj [Ht Hb]. rewrite !Forall_cons in Ht. destruct Ht as (T1 & T2 & T3 & T4 & _).
  assert (∀ key, zlen (strings_of j key) ≤ MAX_PARSED_ADDRS) as Hlen.
  { intros key. unfold strings_of, MAX_PARSED_ADDRS. destruct (json_object_object_get_ex j key) as [[]|]; try done.
    unfold zlen. rewrite length_fmap, length_take. lia. }
  assert (reads w (nathole_resp_unmarshal text) (Some (resp_of j))) as [n E]%reads_run.
  { eapply reads_open; [done|done|]. do 4 (eapply reads_bind; [by apply reads_copied|]). do 2 (eapply reads_bind; [by apply reads_string_array|]).
    eapply reads_bind; [by apply reads_get_ex|]. unfold resp_of. cbn [snd]. destruct (json_object_object_get_ex j "detect_behavior") as [b|]; [|apply reads_ret].
    apply reads_behavior; [done|by apply Hb]. }
  exists n. split; [done|]. unfold resp_of. destruct (json_object_object_get_ex j "detect_behavior"); split; apply Hlen.
Qed.

(** A field that is there without being text is copied from a null pointer. *)
Lemma nathole_resp_null_text w text j x :
  alloc_ok w → x_json_parse (e_ext (w_env w)) (c_string text) = Some j →
  json_object_object_get_ex j "transaction_id" = Some x → json_object_get_string x = None →
  nathole_resp_unmarshal text w = None.
Proof.
  intros Hmem Hj Hx Hs. enough (stuck w (nathole_resp_unmarshal text)) as H' by (specialize (H' (w_tick w)); by destruct w).
  eapply stuck_bind.
  - eapply reads_bind; [by apply reads_gets|]. cbv beta. rewrite Hj. eapply reads_bind; [by apply reads_oracle|]. apply reads_ret.
  - cbv iota. eapply stuck_bind; [by apply reads_oracle|]. cbn [negb]. apply stuck_first.
    eapply stuck_bind; [by apply reads_get_ex|]. rewrite Hx. cbn [fst snd negb]. eapply stuck_bind; [by apply reads_get_string|].
    cbn [mbind option_bind]. rewrite Hs. by intros n.
Qed.
End NatMsg.

(** ** Witnesses *)

#[local] Existing Instance Toy.mbedtls.

(** Memory is there, and the one text stands for [j]. *)
Definition demo_text (j : json) : world :=
  set_w_env (mkEnv (λ _, true) (λ _, []) no_snappy (λ _ _, None) 1 None Demo.config
    (mkExt (λ _, Some j) (λ _, Some [123; 125]) (λ _, None) "esp32" (λ _, 0) (λ _, 0) (λ _, 0) false)) (Demo.world TMUX_ESTABLISHED []).

Lemma udp_packet_roundtrip_witness :
  ∃ n, udp_packet_unmarshal [123; 125] (demo_text (udp_object (Some "AQI="%string) None (Some (mkUdpAddr "10.0.0.1" "eth0" 53)))) =
       Some (Some (mkUdp "AQI=" None (Some (mkUdpAddr "10.0.0.1" "" 53))),
             set_w_tick n (demo_text (udp_object (Some "AQI="%string) None (Some (mkUdpAddr "10.0.0.1" "eth0" 53))))).
Proof.
  destruct (udp_packet_roundtrip (demo_text (udp_object (Some "AQI="%string) None (Some (mkUdpAddr "10.0.0.1" "eth0" 53)))) "AQI="
              None (Some (mkUdpAddr "10.0.0.1" "eth0" 53)) [123; 125]) as (n1 & n2 & _ & E); [done|done|done|done|]. by exists n2.
Defined.

Definition demo_resp : json :=
  JObject [("sid", JString "s"); ("candidate_addrs", JArray [JString "192.0.2.1:7"; JNull]);
           ("detect_behavior", JObject [("mode", JNumber 2 "2"); ("candidate_ports", JArray [JObject [("from", JNumber 5 "5"); ("to", JNumber 9 "9")]])])]%string.
Lemma demo_resp_typed : resp_typed demo_resp.
Proof.
  split.
  - rewrite !Forall_cons, Forall_nil. split_and!; first [exact I|by eexists].
  - intros b [= <-]. split_and!; [exact I|rewrite !Forall_cons, Forall_nil; split_and!; first [exact I|by eexists]|].
    constructor; [split; by eexists|constructor].
Qed.
Lemma nathole_resp_reads_witness :
  resp_of demo_resp = mkNatResp None (Some "s"%string) None None [Some "192.0.2.1:7"%string; None] [] 2 None 0 0 0 0 0 [(5, 9)] ∧
  ∃ n, nathole_resp_unmarshal [123; 125] (demo_text demo_resp) = Some (Some (resp_of demo_resp), set_w_tick n (demo_text demo_resp)).
Proof.
  split; [reflexivity|]. destruct (nathole_resp_reads (demo_text demo_resp) [123; 125] demo_resp) as (n & E & _); [done|done|exact demo_resp_typed|]. by exists n.
Defined.
