(* ===== verification/MsgOwn.v ===== *)
(** * The memory of messages

    The structures that [src/src/msg.c] reads messages into, as blocks: the
    structure, the texts copied for it, its arrays.  [Msg] and [NatMsg] say what
    the fields contain; here only allocation and release matter, in the order of
    the code, with their error paths, and the handlers of [src/src/control.c]
    that receive such a structure.  A run ends with the blocks in use, with a copy of a
    null pointer ([strdup] of the text of a value that has none), or with the
    release of something that is not in use. *)

From S2P Require Import Prelude Json NatMsg.

(** ** Blocks *)

(** The blocks in use, and how often memory was asked for. *)
Record mem := mkMem { live : gset positive; m_tick : nat }.

Inductive outcome (A : Type) :=
| Done (a : A) (s : mem)
| NullCopy
| BadFree.
Arguments Done {A} a s.
Arguments NullCopy {A}.
Arguments BadFree {A}.

Definition B (A : Type) := mem → outcome A.
Definition bret {A} (a : A) : B A := λ s, Done a s.
Definition bbind {A C} (m : B A) (f : A → B C) : B C := λ s,
  match m s with Done a s => f a s | NullCopy => NullCopy | BadFree => BadFree end.

Declare Scope own_scope.
Delimit Scope own_scope with own.
Notation "x '<~' m ;; k" := (bbind m (λ x, k)) (at level 100, m at next level, right associativity) : own_scope.
Notation "m ;~ k" := (bbind m (λ _, k)) (at level 100, right associativity) : own_scope.
Open Scope own_scope.

(** [free], and [SAFE_FREE], which leaves null pointers alone. *)
Definition free (p : positive) : B () := λ s,
  if decide (p ∈ live s) then Done () (mkMem (live s ∖ {[p]}) (m_tick s)) else BadFree.
Definition SAFE_FREE (o : option positive) : B () := match o with Some p => free p | None => bret () end.
Fixpoint free_each (l : list (option positive)) : B () :=
  match l with [] => bret () | o :: l => SAFE_FREE o ;~ free_each l end.

(** ** Structures: the block of the structure and the pointers in it *)

Record new_proxy_response := mkNpr { np_self : positive; np_run_id : option positive; np_proxy_name : option positive; np_error : option positive }.
Record login_resp := mkLr { lr_self : positive; lr_version : option positive; lr_run_id : option positive; lr_error : option positive }.
Record start_work_conn_resp := mkSr { sr_self : positive; sr_proxy_name : option positive }.
Record control_response := mkCr { cr_self : positive; cr_msg : option positive }.
Record udp_addr := mkAddr { ua_self : positive; ua_addr : option positive; ua_zone : option positive }.
Record udp_packet := mkUdp { up_self : positive; up_content : option positive; up_laddr : option udp_addr; up_raddr : option udp_addr }.
(** An array of texts: its block and the elements; the count is their number,
    and 0 without a block. *)
Record texts := mkTexts { tx_self : option positive; tx_items : list (option positive) }.
Record nathole_resp_msg := mkNatResp {
  nr_self : positive;
  nr_transaction_id : option positive;
  nr_sid : option positive;
  nr_protocol : option positive;
  nr_error : option positive;
  nr_role : option positive;
  nr_candidates : texts;
  nr_assisted : texts;
  nr_ports_from : option positive;
  nr_ports_to : option positive;
}.
Record nathole_visitor_msg := mkNatVisitor {
  nv_self : positive;
  nv_transaction_id : option positive;
  nv_proxy_name : option positive;
  nv_protocol : option positive;
  nv_sign_key : option positive;
  nv_mapped : texts;
  nv_assisted : texts;
}.
Record nathole_client_msg := mkNatClient {
  nc_self : positive;
  nc_transaction_id : option positive;
  nc_proxy_name : option positive;
  nc_sid : option positive;
  nc_mapped : texts;
  nc_assisted : texts;
}.

(** ** Releasing *)

Definition free_texts (t : texts) : B () := free_each (tx_items t) ;~ SAFE_FREE (tx_self t).

Definition new_proxy_resp_free (o : option new_proxy_response) : B () :=
  match o with
  | None => bret ()
  | Some x => SAFE_FREE (np_run_id x) ;~ SAFE_FREE (np_proxy_name x) ;~ SAFE_FREE (np_error x) ;~ free (np_self x)
  end.

Definition login_resp_free (o : option login_resp) : B () :=
  match o with
  | None => bret ()
  | Some x => SAFE_FREE (lr_version x) ;~ SAFE_FREE (lr_run_id x) ;~ SAFE_FREE (lr_error x) ;~ free (lr_self x)
  end.

Definition control_response_free (o : option control_response) : B () :=
  match o with
  | None => bret ()
  | Some x => SAFE_FREE (cr_msg x) ;~ free (cr_self x)
  end.

Definition free_addr (o : option udp_addr) : B () :=
  match o with
  | None => bret ()
  | Some x => SAFE_FREE (ua_addr x) ;~ SAFE_FREE (ua_zone x) ;~ free (ua_self x)
  end.

Definition udp_packet_free (o : option udp_packet) : B () :=
  match o with
  | None => bret ()
  | Some x => SAFE_FREE (up_content x) ;~ free_addr (up_laddr x) ;~ free_addr (up_raddr x) ;~ free (up_self x)
  end.

Definition nathole_resp_msg_free (o : option nathole_resp_msg) : B () :=
  match o with
  | None => bret ()
  | Some x =>
      SAFE_FREE (nr_transaction_id x) ;~ SAFE_FREE (nr_sid x) ;~ SAFE_FREE (nr_protocol x) ;~ SAFE_FREE (nr_error x) ;~
      SAFE_FREE (nr_role x) ;~ free_texts (nr_candidates x) ;~ free_texts (nr_assisted x) ;~
      SAFE_FREE (nr_ports_from x) ;~ SAFE_FREE (nr_ports_to x) ;~ free (nr_self x)
  end.

Definition nathole_visitor_msg_free (o : option nathole_visitor_msg) : B () :=
  match o with
  | None => bret ()
  | Some x =>
      SAFE_FREE (nv_transaction_id x) ;~ SAFE_FREE (nv_proxy_name x) ;~ SAFE_FREE (nv_protocol x) ;~ SAFE_FREE (nv_sign_key x) ;~
      free_texts (nv_mapped x) ;~ free_texts (nv_assisted x) ;~ free (nv_self x)
  end.

Definition nathole_client_msg_free (o : option nathole_client_msg) : B () :=
  match o with
  | None => bret ()
  | Some x =>
      SAFE_FREE (nc_transaction_id x) ;~ SAFE_FREE (nc_proxy_name x) ;~ SAFE_FREE (nc_sid x) ;~
      free_texts (nc_mapped x) ;~ free_texts (nc_assisted x) ;~ free (nc_self x)
  end.

(** ** Reading

    [a n] is the allocator's answer to the [n]-th request. *)

Section Reading.
Context (a : nat → bool).

Definition ask : B bool := λ s, Done (a (m_tick s)) (mkMem (live s) (S (m_tick s))).
Definition calloc : B (option positive) :=
  ok <~ ask ;;
  if (ok : bool) then λ s, let p := fresh (live s) in Done (Some p) (mkMem ({[p]} ∪ live s) (m_tick s))
  else bret None.

(** The wrappers of the JSON calls are released with the document; they matter
    here because the memory for them can run out. *)
Definition get_ex (obj : json) (key : string) : B (bool * option json) :=
  match json_object_object_get_ex obj key with
  | None => bret (false, None)
  | Some j => ok <~ ask ;; bret (true, if (ok : bool) then Some j else None)
  end.
Definition get_string (o : option json) : B (option string) :=
  match o with
  | None => bret None
  | Some j =>
      match j with
      | JNumber _ _ | JBool _ => ok <~ ask ;; bret (if (ok : bool) then json_object_get_string j else None)
      | _ => bret (json_object_get_string j)
      end
  end.
Definition array_get_idx (j : json) (i : nat) : B (option json) :=
  match array_item j i with
  | None => bret None
  | Some x => ok <~ ask ;; bret (if (ok : bool) then Some x else None)
  end.

Definition strdup (s : option string) : B (option positive) :=
  match s with None => λ _, NullCopy | Some _ => calloc end.

(** A text that is copied when it is there; [false] is the [goto error]. *)
Definition optional_copy (j : json) (key : string) : B (bool * option positive) :=
  f <~ get_ex j key ;;
  if negb (fst f) then bret (true, None)
  else
    s <~ get_string (snd f) ;;
    match s with
    | None => bret (true, None)
    | Some _ => d <~ strdup s ;; bret (match d with Some _ => true | None => false end, d)
    end.
(** A text that is copied without a look at it. *)
Definition required_copy (j : json) (key : string) : B (option positive) :=
  f <~ get_ex j key ;;
  if negb (fst f) then bret None else s <~ get_string (snd f) ;; strdup s.

(** [parsed] is what cJSON makes of the text. *)
Definition open_message {A} (parsed : option json) (k : json → positive → B (option A)) : B (option A) :=
  match parsed with
  | None => bret None
  | Some j =>
      ok <~ ask ;;
      if negb ok then bret None
      else p <~ calloc ;; match p with None => bret None | Some p => k j p end
  end.

Definition new_proxy_resp_unmarshal (parsed : option json) : B (option new_proxy_response) :=
  open_message parsed (λ j p,
    r <~ optional_copy j "run_id" ;;
    let x := mkNpr p (snd r) None None in
    if negb (fst r) then new_proxy_resp_free (Some x) ;~ bret None
    else
      addr <~ get_ex j "remote_addr" ;;
      get_string (snd addr) ;~
      name <~ required_copy j "proxy_name" ;;
      let x := mkNpr p (np_run_id x) name None in
      match name with
      | None => new_proxy_resp_free (Some x) ;~ bret None
      | Some _ =>
          e <~ optional_copy j "error" ;;
          let x := mkNpr p (np_run_id x) name (snd e) in
          if negb (fst e) then new_proxy_resp_free (Some x) ;~ bret None else bret (Some x)
      end).

Definition login_resp_unmarshal (parsed : option json) : B (option login_resp) :=
  open_message parsed (λ j p,
    version <~ required_copy j "version" ;;
    match version with
    | None => login_resp_free (Some (mkLr p None None None)) ;~ bret None
    | Some _ =>
        run_id <~ required_copy j "run_id" ;;
        match run_id with
        | None => login_resp_free (Some (mkLr p version None None)) ;~ bret None
        | Some _ =>
            e <~ optional_copy j "error" ;;
            let x := mkLr p version run_id (snd e) in
            if negb (fst e) then login_resp_free (Some x) ;~ bret None else bret (Some x)
        end
    end).

Definition start_work_conn_resp_unmarshal (parsed : option json) : B (option start_work_conn_resp) :=
  open_message parsed (λ j p,
    f <~ get_ex j "proxy_name" ;;
    if negb (fst f) then free p ;~ bret None
    else
      s <~ get_string (snd f) ;;
      match s with
      | None => free p ;~ bret None
      | Some _ =>
          name <~ strdup s ;;
          match name with
          | None => free p ;~ bret None
          | Some _ => bret (Some (mkSr p name))
          end
      end).

Definition control_response_unmarshal (parsed : option json) : B (option control_response) :=
  open_message parsed (λ j p,
    let error := control_response_free (Some (mkCr p None)) ;~ bret None in
    t <~ get_ex j "type" ;;
    if negb (fst t) then error
    else
      c <~ get_ex j "code" ;;
      if negb (fst c) then error
      else
        m <~ get_ex j "msg" ;;
        if negb (fst m) then error
        else
          s <~ get_string (snd m) ;;
          match s with
          | None => error
          | Some _ =>
              d <~ strdup s ;;
              match d with None => error | Some _ => bret (Some (mkCr p d)) end
          end).

Definition parse_udp_addr (o : option json) : B (option udp_addr) :=
  match o with
  | None => bret None
  | Some j =>
      ip <~ get_ex j "IP" ;;
      if negb (fst ip) then bret None
      else
        port <~ get_ex j "Port" ;;
        if negb (fst port) then bret None
        else
          z <~ get_ex j "Zone" ;;
          p <~ calloc ;;
          match p with
          | None => bret None
          | Some p =>
              s <~ get_string (snd ip) ;;
              addr <~ strdup s ;;
              t <~ match snd z with Some _ => get_string (snd z) | None => bret (Some ""%string) end ;;
              zone <~ strdup t ;;
              match addr, zone with
              | Some _, Some _ => bret (Some (mkAddr p addr zone))
              | _, _ => SAFE_FREE addr ;~ SAFE_FREE zone ;~ free p ;~ bret None
              end
          end
  end.

Definition udp_packet_unmarshal (parsed : option json) : B (option udp_packet) :=
  open_message parsed (λ j p,
    content <~ required_copy j "c" ;;
    match content with
    | None => udp_packet_free (Some (mkUdp p None None None)) ;~ bret None
    | Some _ =>
        l <~ get_ex j "l" ;;
        laddr <~ parse_udp_addr (snd l) ;;
        r <~ get_ex j "r" ;;
        raddr <~ parse_udp_addr (snd r) ;;
        bret (Some (mkUdp p content laddr raddr))
    end).

(** The texts of [n] elements from [i] on; an element without a text is null. *)
Fixpoint copy_items (j : json) (n i : nat) : B (list (option positive)) :=
  match n with
  | O => bret []
  | S n =>
      item <~ array_get_idx j i ;;
      s <~ get_string item ;;
      d <~ match s with Some _ => strdup s | None => bret None end ;;
      rest <~ copy_items j n (S i) ;;
      bret (d :: rest)
  end.

Definition no_texts : texts := mkTexts None [].
Definition parse_json_string_array (j : json) (key : string) : B texts :=
  f <~ get_ex j key ;;
  match snd f with
  | None => bret no_texts
  | Some arr =>
      let count := Z.min (json_object_array_length arr) MAX_PARSED_ADDRS in
      if count <=? 0 then bret no_texts
      else
        p <~ calloc ;;
        match p with
        | None => bret no_texts
        | Some _ => items <~ copy_items arr (Z.to_nat count) 0 ;; bret (mkTexts p items)
        end
  end.

(** A number: only the wrapper of its value is allocated. *)
Definition int_field (j : json) (key : string) : B () := get_ex j key ;~ bret ().
(** The ranges of [n] elements from [i] on. *)
Fixpoint read_ports (j : json) (n i : nat) : B () :=
  match n with
  | O => bret ()
  | S n =>
      item <~ array_get_idx j i ;;
      match item with
      | None => bret ()
      | Some pr => from <~ get_ex pr "from" ;; if negb (fst from) then bret () else int_field pr "to"
      end ;~
      read_ports j n (S i)
  end.

(** The two arrays of [candidate_ports]. *)
Definition port_arrays (beh : json) : B (option positive * option positive) :=
  f <~ get_ex beh "candidate_ports" ;;
  match snd f with
  | None => bret (None, None)
  | Some arr =>
      if json_object_array_length arr <=? 0 then bret (None, None)
      else
        from <~ calloc ;;
        to <~ calloc ;;
        match from, to with
        | Some _, Some _ => read_ports arr (Z.to_nat (json_object_array_length arr)) 0
        | _, _ => bret ()
        end ;~
        bret (from, to)
  end.

Definition nathole_resp_unmarshal (parsed : option json) : B (option nathole_resp_msg) :=
  open_message parsed (λ j p,
    transaction_id <~ required_copy j "transaction_id" ;;
    sid <~ required_copy j "sid" ;;
    protocol <~ required_copy j "protocol" ;;
    error <~ required_copy j "error" ;;
    candidates <~ parse_json_string_array j "candidate_addrs" ;;
    assisted <~ parse_json_string_array j "assisted_addrs" ;;
    f <~ get_ex j "detect_behavior" ;;
    match snd f with
    | None => bret (Some (mkNatResp p transaction_id sid protocol error None candidates assisted None None))
    | Some beh =>
        int_field beh "mode" ;~
        role <~ required_copy beh "role" ;;
        int_field beh "ttl" ;~ int_field beh "send_delay_ms" ;~ int_field beh "read_timeout" ;~
        int_field beh "send_random_ports" ;~ int_field beh "listen_random_ports" ;~
        ports <~ port_arrays beh ;;
        bret (Some (mkNatResp p transaction_id sid protocol error role candidates assisted (fst ports) (snd ports)))
    end).

(** ** Receiving

    What the handlers of [src/src/control.c] do with the blocks of their
    message: they copy its text, read it, release the copy, use the structure and
    release it.  The rest of these handlers is in [Session]; the bytes after a
    StartWorkConn message belong to the client. *)

Definition with_copy {A} (unmarshal : B (option A)) (use : A → B ()) : B () :=
  c <~ calloc ;;
  match c with
  | None => bret ()
  | Some c =>
      x <~ unmarshal ;;
      free c ;~
      match x with None => bret () | Some x => use x end
  end.

(** [handle_type_new_proxy_resp]. *)
Definition new_proxy_resp_blocks (parsed : option json) : B () :=
  with_copy (new_proxy_resp_unmarshal parsed) (λ x, new_proxy_resp_free (Some x)).
(** [process_login_response]. *)
Definition login_response_blocks (parsed : option json) : B () :=
  with_copy (login_resp_unmarshal parsed) (λ x, login_resp_free (Some x)).
(** [handle_type_start_work_conn]: every way out releases the structure with
    [SAFE_FREE (sr)]. *)
Definition start_work_conn_blocks (parsed : option json) : B () :=
  with_copy (start_work_conn_resp_unmarshal parsed) (λ x, free (sr_self x)).
(** [handle_type_udp_packet]; [client]: there is a context with a service. *)
Definition udp_packet_blocks (handle_udp_packet : udp_packet → B ()) (client : bool) (parsed : option json) : B () :=
  with_copy (udp_packet_unmarshal parsed) (λ x, (if client then handle_udp_packet x else bret ()) ;~ udp_packet_free (Some x)).
(** The port's stub. *)
Definition handle_udp_packet (x : udp_packet) : B () := udp_packet_free (Some x).

End Reading.

(** ** What is held

    [holds L l s]: besides [L] exactly the distinct blocks [l] are in use. *)

Definition holds (L : gset positive) (l : list positive) (s : mem) : Prop :=
  NoDup l ∧ (∀ p, p ∈ l → p ∉ L) ∧ live s = L ∪ list_to_set l.

#[global] Instance holds_perm L : Proper ((≡ₚ) ==> (=) ==> iff) (holds L).
Proof. intros l l' E s _ <-. unfold holds. by setoid_rewrite E. Qed.

Lemma holds_nil s : holds (live s) [] s.
Proof. split; [constructor|]. split; [intros p H; inversion H|set_solver]. Qed.
Lemma holds_done L s : holds L [] s → live s = L.
Proof. intros (_ & _ & E). set_solver. Qed.

(** Outcomes; [P] is what must fail when a null pointer is copied. *)
Definition wpb {A} (P : Prop) (m : B A) (Q : A → mem → Prop) (s : mem) : Prop :=
  match m s with Done a s => Q a s | NullCopy => ¬ P | BadFree => False end.

Lemma wpb_ret {A} P (x : A) Q s : Q x s → wpb P (bret x) Q s.
Proof. done. Qed.
Lemma wpb_bind {A C} P (m : B A) (f : A → B C) Q s : wpb P m (λ x, wpb P (f x) Q) s → wpb P (bbind m f) Q s.
Proof. unfold wpb, bbind. by destruct (m s). Qed.
Lemma wpb_mono {A} P (m : B A) (Q R : A → mem → Prop) s : wpb P m Q s → (∀ x s', Q x s' → R x s') → wpb P m R s.
Proof. unfold wpb. destruct (m s); auto. Qed.
Lemma wpb_seq {A C} P (m : B A) (f : A → B C) (Q : A → mem → Prop) R s :
  wpb P m Q s → (∀ x s', Q x s' → wpb P (f x) R s') → wpb P (bbind m f) R s.
Proof. intros H K. apply wpb_bind. by eapply wpb_mono. Qed.

Section Holds.
Context (P : Prop) (L : gset positive).

Lemma wpb_free p l s : holds L (p :: l) s → wpb P (free p) (λ _, holds L l) s.
Proof.
  intros (D & N & E). unfold wpb, free. apply NoDup_cons in D as [D1 D2]. rewrite decide_True by (rewrite E; set_solver).
  split; [done|]. split; [intros q Hq; apply N; set_solver|]. cbn. rewrite E. specialize (N p). set_solver.
Qed.
Lemma wpb_safe_free o l s : holds L (option_list o ++ l) s → wpb P (SAFE_FREE o) (λ _, holds L l) s.
Proof. destruct o; [apply wpb_free|done]. Qed.
Lemma wpb_free_each os l s : holds L (concat (option_list <$> os) ++ l) s → wpb P (free_each os) (λ _, holds L l) s.
Proof.
  revert s. induction os as [|o os IH]; intros s H; [by apply wpb_ret|]. cbn in H. rewrite <- app_assoc in H.
  eapply wpb_seq; [by apply wpb_safe_free|]. intros [] s'. apply IH.
Qed.

(** The blocks of a structure, in the order in which they are released. *)
Definition texts_blocks (t : texts) : list positive := concat (option_list <$> tx_items t) ++ option_list (tx_self t).
Definition addr_blocks (o : option udp_addr) : list positive :=
  match o with Some x => option_list (ua_addr x) ++ option_list (ua_zone x) ++ [ua_self x] | None => [] end.
Lemma wpb_free_texts t l s : holds L (texts_blocks t ++ l) s → wpb P (free_texts t) (λ _, holds L l) s.
Proof.
  intros H. unfold texts_blocks in H. rewrite <- app_assoc in H. eapply wpb_seq; [by apply wpb_free_each|]. intros [] s'. apply wpb_safe_free.
Qed.
Lemma wpb_free_addr o l s : holds L (addr_blocks o ++ l) s → wpb P (free_addr o) (λ _, holds L l) s.
Proof.
  destruct o as [x|]; cbn [addr_blocks]; [|done]. intros H. rewrite <- !app_assoc in H.
  eapply wpb_seq; [by apply wpb_safe_free|]. intros [] s1 H1. eapply wpb_seq; [by apply wpb_safe_free|]. intros [] s2. apply wpb_free.
Qed.

End Holds.

Class Owner (A : Type) := { blocks : A → list positive; release : option A → B () }.
Class OwnerOk A `{Owner A} := release_ok P L (x : A) l s : holds L (blocks x ++ l) s → wpb P (release (Some x)) (λ _, holds L l) s.

#[global] Instance own_npr : Owner new_proxy_response :=
  {| blocks x := option_list (np_run_id x) ++ option_list (np_proxy_name x) ++ option_list (np_error x) ++ [np_self x]; release := new_proxy_resp_free |}.
#[global] Instance own_lr : Owner login_resp :=
  {| blocks x := option_list (lr_version x) ++ option_list (lr_run_id x) ++ option_list (lr_error x) ++ [lr_self x]; release := login_resp_free |}.
#[global] Instance own_cr : Owner control_response :=
  {| blocks x := option_list (cr_msg x) ++ [cr_self x]; release := control_response_free |}.
#[global] Instance own_udp : Owner udp_packet :=
  {| blocks x := option_list (up_content x) ++ addr_blocks (up_laddr x) ++ addr_blocks (up_raddr x) ++ [up_self x]; release := udp_packet_free |}.
#[global] Instance own_nr : Owner nathole_resp_msg :=
  {| blocks x := option_list (nr_transaction_id x) ++ option_list (nr_sid x) ++ option_list (nr_protocol x) ++ option_list (nr_error x) ++
       option_list (nr_role x) ++ texts_blocks (nr_candidates x) ++ texts_blocks (nr_assisted x) ++
       option_list (nr_ports_from x) ++ option_list (nr_ports_to x) ++ [nr_self x];
     release := nathole_resp_msg_free |}.
#[global] Instance own_nv : Owner nathole_visitor_msg :=
  {| blocks x := option_list (nv_transaction_id x) ++ option_list (nv_proxy_name x) ++ option_list (nv_protocol x) ++ option_list (nv_sign_key x) ++
       texts_blocks (nv_mapped x) ++ texts_blocks (nv_assisted x) ++ [nv_self x];
     release := nathole_visitor_msg_free |}.
#[global] Instance own_nc : Owner nathole_client_msg :=
  {| blocks x := option_list (nc_transaction_id x) ++ option_list (nc_proxy_name x) ++ option_list (nc_sid x) ++
       texts_blocks (nc_mapped x) ++ texts_blocks (nc_assisted x) ++ [nc_self x];
     release := nathole_client_msg_free |}.

(** Releases in the order of the blocks. *)
Ltac releases :=
  let H := fresh "H" in
  intros P L x l s H; cbn [blocks release own_npr own_lr own_cr own_udp own_nr own_nv own_nc] in H; rewrite <- ?app_assoc in H;
  repeat (eapply wpb_seq; [first [by apply wpb_safe_free | by apply wpb_free_texts | by apply wpb_free_addr]|]; clear H s; intros [] s H);
  by apply wpb_free.

#[global] Instance own_npr_ok : OwnerOk new_proxy_response.
Proof. releases. Qed.
#[global] Instance own_lr_ok : OwnerOk login_resp.
Proof. releases. Qed.
#[global] Instance own_cr_ok : OwnerOk control_response.
Proof. releases. Qed.
#[global] Instance own_udp_ok : OwnerOk udp_packet.
Proof. releases. Qed.
#[global] Instance own_nr_ok : OwnerOk nathole_resp_msg.
Proof. releases. Qed.
#[global] Instance own_nv_ok : OwnerOk nathole_visitor_msg.
Proof. releases. Qed.
#[global] Instance own_nc_ok : OwnerOk nathole_client_msg.
Proof. releases. Qed.

(** ** Reading holds what it returns *)

(** A member that is there has a text. *)
Definition text_at (key : string) (j : json) : Prop :=
  ∀ x, json_object_object_get_ex j key = Some x → is_Some (json_object_get_string x).

(** Of a document: what [f] says of it. *)
Definition of_doc (f : json → Prop) (parsed : option json) : Prop := ∀ j, parsed = Some j → f j.

Section Reads.
Context (a : nat → bool) (P : Prop) (L : gset positive).
Let plenty := ∀ t, a t = true.

Lemma wpb_ask l s : holds L l s → wpb P (ask a) (λ b s', (plenty → b = true) ∧ holds L l s') s.
Proof. intros H. by split; [intros Ha|]. Qed.
Lemma wpb_calloc l s : holds L l s → wpb P (calloc a) (λ o s', (plenty → is_Some o) ∧ holds L (option_list o ++ l) s') s.
Proof.
  intros H. eapply wpb_seq; [by apply wpb_ask|]. intros [] s1 [Ha (D & N & E)]; cbn; [|by split; [intros F; discriminate (Ha F)|]].
  split; [by eexists|]. pose proof (is_fresh (live s1)) as F. set (p := fresh (live s1)) in *. rewrite E in F.
  split; [apply NoDup_cons; set_solver|]. split; [set_solver|]. cbn. rewrite E. set_solver.
Qed.
Lemma wpb_get_ex j key l s : holds L l s →
  wpb P (get_ex a j key) (λ r s', fst r = bool_decide (is_Some (json_object_object_get_ex j key)) ∧
    (plenty → snd r = json_object_object_get_ex j key) ∧ (∀ x, snd r = Some x → json_object_object_get_ex j key = Some x) ∧ holds L l s') s.
Proof.
  intros H. unfold get_ex. destruct (json_object_object_get_ex j key) as [x|]; [|by apply wpb_ret].
  eapply wpb_seq; [by apply wpb_ask|]. intros b s1 [Ha H1]. apply wpb_ret. cbn. split; [done|].
  split; [intros F; by rewrite (Ha F)|]. split; [by destruct b|done].
Qed.
Lemma wpb_get_string o l s : holds L l s →
  wpb P (get_string a o) (λ r s', (plenty → r = o ≫= json_object_get_string) ∧ holds L l s') s.
Proof.
  intros H. destruct o as [[]|]; cbn [get_string]; try (by apply wpb_ret);
    (eapply wpb_seq; [by apply wpb_ask|]; intros ok s1 [Ha H1]; apply wpb_ret; split; [intros F; by rewrite (Ha F)|done]).
Qed.
Lemma wpb_strdup o l s : (P → is_Some o) → holds L l s →
  wpb P (strdup a o) (λ d s', (plenty → is_Some d) ∧ holds L (option_list d ++ l) s') s.
Proof. intros Hp H. destruct o; [by apply wpb_calloc|]. intros F. by destruct (Hp F). Qed.

Lemma wpb_required_copy j key l s : (P → plenty ∧ text_at key j) → holds L l s →
  wpb P (required_copy a j key) (λ d s', (plenty → is_Some (json_object_object_get_ex j key) → is_Some d) ∧ holds L (option_list d ++ l) s') s.
Proof.
  intros Hp H. eapply wpb_seq; [by apply wpb_get_ex|]. intros [b o] s1 (Eb & Ho & Hx & H1). cbn in *. subst b.
  case_bool_decide as E; cbn [negb]; [|apply wpb_ret; by split].
  eapply wpb_seq; [by apply wpb_get_string|]. intros t s2 [Ht H2]. eapply wpb_mono; [apply wpb_strdup; [|exact H2]|].
  - intros F. destruct (Hp F) as [Ha T]. rewrite (Ht Ha), (Ho Ha). destruct E as [x E]. rewrite E. by apply T.
  - intros d s3 [Hd H3]. by split; [intros Ha _; apply Hd|].
Qed.
Lemma wpb_optional_copy j key l s : holds L l s →
  wpb P (optional_copy a j key) (λ r s', (plenty → fst r = true) ∧ holds L (option_list (snd r) ++ l) s') s.
Proof.
  intros H. eapply wpb_seq; [by apply wpb_get_ex|]. intros [b o] s1 (_ & _ & _ & H1). destruct b; cbn [fst negb snd]; [|by apply wpb_ret].
  eapply wpb_seq; [by apply wpb_get_string|]. intros [t|] s2 [_ H2]; [|by apply wpb_ret].
  eapply wpb_seq; [by apply wpb_strdup|]. intros d s3 [Hd H3]. apply wpb_ret. split; [|done]. intros Ha. by destruct (Hd Ha) as [? ->].
Qed.
Lemma wpb_array_get_idx j i l s : holds L l s → wpb P (array_get_idx a j i) (λ _ s', holds L l s') s.
Proof.
  intros H. unfold array_get_idx. destruct (array_item j i); [|by apply wpb_ret].
  eapply wpb_seq; [by apply wpb_ask|]. intros b s1 [_ H1]. by apply wpb_ret.
Qed.
Lemma wpb_int_field j key l s : holds L l s → wpb P (int_field a j key) (λ _ s', holds L l s') s.
Proof. intros H. eapply wpb_seq; [by apply wpb_get_ex|]. intros r s1 (_ & _ & _ & H1). by apply wpb_ret. Qed.

(** The result of reading a structure holds its blocks. *)
Definition held {A} `{Owner A} (l : list positive) (r : option A) (s : mem) : Prop :=
  holds L (match r with Some x => blocks x ++ l | None => l end) s.

(** [X]: what is known of the result when memory does not run out. *)
Lemma wpb_open_res {A} `{Owner A} parsed (k : json → positive → B (option A)) (X : json → option A → Prop) l s :
  holds L l s →
  (∀ j p s', parsed = Some j → holds L (p :: l) s' → wpb P (k j p) (λ r s'', held l r s'' ∧ (plenty → X j r)) s') →
  wpb P (open_message a parsed k) (λ r s', held l r s' ∧ (plenty → of_doc (λ j, X j r) parsed)) s.
Proof.
  intros Hl K. destruct parsed as [j|]; [|by apply wpb_ret].
  eapply wpb_seq; [by apply wpb_ask|]. intros [] s1 [F1 H1]; [|apply wpb_ret; split; [done|intros F; discriminate (F1 F)]].
  eapply wpb_seq; [by apply wpb_calloc|]. intros [p|] s2 [F2 H2]; [|apply wpb_ret; split; [done|intros F; by destruct (F2 F)]].
  eapply wpb_mono; [by apply K|]. intros r s3 [H3 X3]. split; [done|]. intros F j' [= <-]. auto.
Qed.
Lemma wpb_open {A} `{Owner A} parsed (k : json → positive → B (option A)) l s :
  holds L l s → (∀ j p s', parsed = Some j → holds L (p :: l) s' → wpb P (k j p) (held l) s') → wpb P (open_message a parsed k) (held l) s.
Proof.
  intros Hl K. eapply wpb_mono; [apply (wpb_open_res parsed k (λ _ _, True)); [done|]|by intros r s' [? _]].
  intros j p s' E Hs. eapply wpb_mono; [by apply K|]. done.
Qed.

(** An error path releases what there is. *)
Lemma wpb_error {A} `{OwnerOk A} (x : A) l l' s : l' ≡ₚ blocks x ++ l → holds L l' s → wpb P (release (Some x) ;~ bret None) (held (A := A) l) s.
Proof. intros -> H1. eapply wpb_seq; [by eapply release_ok|]. intros [] s1 H2. by apply wpb_ret. Qed.
Lemma wpb_value {A} `{Owner A} (x : A) l l' s : l' ≡ₚ blocks x ++ l → holds L l' s → wpb P (bret (Some x)) (held l) s.
Proof. intros E H1. apply wpb_ret. unfold held. by rewrite <- E. Qed.

(** What is held is a permutation of the blocks of the structure. *)
Ltac perm := cbn [blocks own_npr own_lr own_cr own_udp own_nr addr_blocks option_list option_rect np_self np_run_id np_proxy_name np_error
  lr_self lr_version lr_run_id lr_error cr_self cr_msg up_self up_content up_laddr up_raddr ua_self ua_addr ua_zone
  nr_self nr_transaction_id nr_sid nr_protocol nr_error nr_role nr_candidates nr_assisted nr_ports_from nr_ports_to]; solve_Permutation.
Ltac fails H := lazymatch goal with |- wpb _ (bbind (?f (Some ?x)) _) _ _ => change (f (Some x)) with (release (Some x)); eapply (wpb_error x); [|exact H]; perm end.
Ltac yields H := lazymatch goal with |- wpb _ (bret (Some ?x)) _ _ => eapply (wpb_value x); [|exact H]; perm end.

Definition npr_texts (j : json) : Prop := text_at "proxy_name" j.
Definition lr_texts (j : json) : Prop := text_at "version" j ∧ text_at "run_id" j.

Lemma wpb_npr parsed l s : (P → plenty ∧ of_doc npr_texts parsed) → holds L l s → wpb P (new_proxy_resp_unmarshal a parsed) (held l) s.
Proof.
  intros Hp H. apply wpb_open; [done|]. clear s H. intros j p s E H.
  eapply wpb_seq; [by apply wpb_optional_copy|]. intros [b r] s1 [_ H1]. destruct b; cbn [fst snd negb] in *; [|fails H1].
  eapply wpb_seq; [by apply wpb_get_ex|]. intros o s2 (_ & _ & _ & H2). eapply wpb_seq; [by apply wpb_get_string|]. intros t s3 [_ H3].
  eapply wpb_seq; [apply wpb_required_copy; [|exact H3]|].
  { intros F. destruct (Hp F) as [Ha Ht]. split; [done|by apply Ht]. }
  intros [n|] s4 [_ H4]; [|fails H4]. eapply wpb_seq; [by apply wpb_optional_copy|]. intros [b e] s5 [_ H5].
  destruct b; cbn [fst snd negb] in *; [yields H5|fails H5].
Qed.

Lemma wpb_lr parsed l s : (P → plenty ∧ of_doc lr_texts parsed) → holds L l s → wpb P (login_resp_unmarshal a parsed) (held l) s.
Proof.
  intros Hp H. apply wpb_open; [done|]. clear s H. intros j p s E H.
  assert (T : ∀ key, key = "version"%string ∨ key = "run_id"%string → P → plenty ∧ text_at key j).
  { intros key K F. destruct (Hp F) as [Ha Ht]. destruct (Ht j E). split; [done|]. by destruct K as [->| ->]. }
  eapply wpb_seq; [apply wpb_required_copy; eauto|]. intros [v|] s1 [_ H1]; [|fails H1].
  eapply wpb_seq; [apply wpb_required_copy; eauto|]. intros [r|] s2 [_ H2]; [|fails H2].
  eapply wpb_seq; [by apply wpb_optional_copy|]. intros [b e] s3 [_ H3]. destruct b; cbn [fst snd negb] in *; [yields H3|fails H3].
Qed.

Lemma wpb_cr parsed l s : holds L l s → wpb P (control_response_unmarshal a parsed) (held l) s.
Proof.
  intros H. apply wpb_open; [done|]. clear s H. intros j p s E H. cbv zeta.
  eapply wpb_seq; [by apply wpb_get_ex|]. intros t s1 (_ & _ & _ & H1). case_if; [fails H1|].
  eapply wpb_seq; [by apply wpb_get_ex|]. intros c s2 (_ & _ & _ & H2). case_if; [fails H2|].
  eapply wpb_seq; [by apply wpb_get_ex|]. intros m s3 (_ & _ & _ & H3). case_if; [fails H3|].
  eapply wpb_seq; [by apply wpb_get_string|]. intros [x|] s4 [_ H4]; [|fails H4].
  eapply wpb_seq; [by apply wpb_strdup|]. intros [d|] s5 [_ H5]; [yields H5|fails H5].
Qed.

(** The texts of an address, and of the two addresses of a packet. *)
Definition addr_texts (j : json) : Prop := text_at "IP" j ∧ text_at "Zone" j.
Definition udp_texts (j : json) : Prop :=
  text_at "c" j ∧ of_doc addr_texts (json_object_object_get_ex j "l") ∧ of_doc addr_texts (json_object_object_get_ex j "r").

Lemma wpb_addr o l s : (P → plenty ∧ of_doc addr_texts o) → holds L l s →
  wpb P (parse_udp_addr a o) (λ r s', holds L (addr_blocks r ++ l) s') s.
Proof.
  intros Hp H. destruct o as [j|]; [|by apply wpb_ret].
  eapply wpb_seq; [by apply wpb_get_ex|]. intros ip s1 (Eip & Fip & _ & H1). case_if; [by apply wpb_ret|].
  eapply wpb_seq; [by apply wpb_get_ex|]. intros port s2 (_ & _ & _ & H2). case_if; [by apply wpb_ret|].
  eapply wpb_seq; [by apply wpb_get_ex|]. intros z s3 (_ & _ & Fz & H3).
  eapply wpb_seq; [by apply wpb_calloc|]. intros [p|] s4 [_ H4]; [|by apply wpb_ret].
  eapply wpb_seq; [by apply wpb_get_string|]. intros t s5 [Ft H5].
  eapply wpb_seq; [apply wpb_strdup; [|exact H5]|].
  { intros F. destruct (Hp F) as [Ha Ht]. destruct (Ht j eq_refl) as [Ti _]. rewrite (Ft Ha), (Fip Ha).
    rewrite Eip in Hc. apply bool_decide_eq_true in Hc as [x Ex]. rewrite Ex. by apply Ti. }
  intros addr s6 [_ H6]. eapply wpb_seq with (Q := λ t s', (P → is_Some t) ∧ holds L (option_list addr ++ p :: l) s').
  { destruct (snd z) as [x|] eqn:Ez; [|by apply wpb_ret]. eapply wpb_mono; [by apply wpb_get_string|]. intros t' s7 [Ft' H7]. split; [|done].
    intros F. destruct (Hp F) as [Ha Ht]. destruct (Ht j eq_refl) as [_ Tz]. rewrite (Ft' Ha). cbn. by apply Tz, Fz. }
  intros t' s7 [Ft' H7]. eapply wpb_seq; [by apply wpb_strdup|]. intros zone s8 [_ H8].
  assert (E : wpb P (SAFE_FREE addr ;~ SAFE_FREE zone ;~ free p ;~ bret None) (λ r s', holds L (addr_blocks r ++ l) s') s8).
  { eapply wpb_seq; [apply wpb_safe_free with (l := option_list zone ++ p :: l); by rewrite Permutation_app_swap_app in H8|]. intros [] s9 H9.
    eapply wpb_seq; [by apply wpb_safe_free|]. intros [] s10 H10. eapply wpb_seq; [by apply wpb_free|]. intros [] s11 H11. by apply wpb_ret. }
  destruct addr, zone; try exact E. apply wpb_ret. cbn in *. by rewrite Permutation_swap in H8.
Qed.

Lemma wpb_udp parsed l s : (P → plenty ∧ of_doc udp_texts parsed) → holds L l s → 
  wpb P (udp_packet_unmarshal a parsed) (λ r s', held l r s' ∧ (plenty → of_doc (λ j, is_Some (json_object_object_get_ex j "c") → ∃ x c, r = Some x ∧ up_content x = Some c) parsed)) s.
Proof.
  intros Hp H. apply (wpb_open_res parsed _ (λ j r, is_Some (json_object_object_get_ex j "c") → ∃ x c, r = Some x ∧ up_content x = Some c)); [done|]. clear s H. intros j p s E H.
  eapply wpb_seq; [apply wpb_required_copy; [|exact H]|].
  { intros F. destruct (Hp F) as [Ha Ht]. split; [done|by apply (Ht j E)]. }
  intros [c|] s1 [Fc H1].
  2: { apply wpb_mono with (Q := held l); [fails H1|]. intros r s2 H2. split; [exact H2|]. intros F Hx. by destruct (Fc F Hx). }
  assert (T : ∀ key, key = "l"%string ∨ key = "r"%string → ∀ o : bool * option json, (∀ x, snd o = Some x → json_object_object_get_ex j key = Some x) →
    P → plenty ∧ of_doc addr_texts (snd o)).
  { intros key K o Ho F. destruct (Hp F) as [Ha Ht]. destruct (Ht j E) as (_ & Tl & Tr). split; [done|]. intros x Ex. apply Ho in Ex.
    destruct K as [->| ->]; auto. }
  eapply wpb_seq; [by apply wpb_get_ex|]. intros x s2 (_ & _ & F2 & H2). eapply wpb_seq; [apply wpb_addr; [|exact H2]; by apply (T "l"%string (or_introl eq_refl) x)|]. intros la s3 H3.
  eapply wpb_seq; [apply wpb_get_ex; exact H3|]. intros y s4 (_ & _ & F4 & H4). eapply wpb_seq; [apply wpb_addr; [|exact H4]; by apply (T "r"%string (or_intror eq_refl) y)|]. intros ra s5 H5.
  apply wpb_ret. split; [|intros _ _; by do 2 eexists]. eapply holds_perm; [|done|exact H5]. perm.
Qed.

Lemma wpb_copy_items j n i l s : holds L l s → wpb P (copy_items a j n i) (λ r s', holds L (concat (option_list <$> r) ++ l) s') s.
Proof.
  revert i l s. induction n as [|n IH]; intros i l s H; [by apply wpb_ret|].
  eapply wpb_seq; [by apply wpb_array_get_idx|]. intros o s1 H1. eapply wpb_seq; [apply wpb_get_string; exact H1|]. intros t s2 [_ H2].
  eapply wpb_seq with (Q := λ d s', holds L (option_list d ++ l) s').
  { destruct t; [|by apply wpb_ret]. eapply wpb_mono; [by apply wpb_strdup|]. by intros d s3 [_ H3]. }
  intros d s3 H3. eapply wpb_seq; [apply IH; exact H3|]. intros r s4 H4. apply wpb_ret. cbn.
  by rewrite <- app_assoc, Permutation_app_swap_app.
Qed.
Lemma wpb_array j key l s : holds L l s → wpb P (parse_json_string_array a j key) (λ t s', holds L (texts_blocks t ++ l) s') s.
Proof.
  intros H. eapply wpb_seq; [by apply wpb_get_ex|]. intros [b [arr|]] s1 (_ & _ & _ & H1); cbn [snd]; [|by apply wpb_ret].
  cbv zeta. case_if; [by apply wpb_ret|]. eapply wpb_seq; [by apply wpb_calloc|]. intros [p|] s2 [_ H2]; [|by apply wpb_ret].
  eapply wpb_seq; [apply wpb_copy_items; exact H2|]. intros r s3 H3. apply wpb_ret. unfold texts_blocks. cbn. by rewrite <- app_assoc.
Qed.
Lemma wpb_read_ports j n i l s : holds L l s → wpb P (read_ports a j n i) (λ _ s', holds L l s') s.
Proof.
  revert i s. induction n as [|n IH]; intros i s H; [by apply wpb_ret|].
  eapply wpb_seq; [by apply wpb_array_get_idx|]. intros o s1 H1. eapply wpb_seq with (Q := λ _ s', holds L l s').
  - destruct o as [pr|]; [|by apply wpb_ret]. eapply wpb_seq; [apply wpb_get_ex; exact H1|]. intros f s2 (_ & _ & _ & H2).
    case_if; [by apply wpb_ret|by apply wpb_int_field].
  - intros u s2 H2. by apply IH.
Qed.
Lemma wpb_ports j l s : holds L l s → wpb P (port_arrays a j) (λ r s', holds L (option_list (fst r) ++ option_list (snd r) ++ l) s') s.
Proof.
  intros H. eapply wpb_seq; [by apply wpb_get_ex|]. intros [b [arr|]] s1 (_ & _ & _ & H1); cbn [snd]; [|by apply wpb_ret].
  case_if; [by apply wpb_ret|]. eapply wpb_seq; [by apply wpb_calloc|]. intros f s2 [_ H2]. eapply wpb_seq; [by apply wpb_calloc|]. intros t s3 [_ H3].
  eapply wpb_seq with (Q := λ _ s', holds L (option_list t ++ option_list f ++ l) s').
  - destruct f, t; try (by apply wpb_ret). by apply wpb_read_ports.
  - intros u s4 H4. apply wpb_ret. cbn. by rewrite Permutation_app_swap_app in H4.
Qed.

Definition nr_texts (j : json) : Prop :=
  (∀ key, key ∈ ["transaction_id"; "sid"; "protocol"; "error"]%string → text_at key j) ∧
  of_doc (text_at "role") (json_object_object_get_ex j "detect_behavior").

Lemma wpb_nr parsed l s : (P → plenty ∧ of_doc nr_texts parsed) → holds L l s → wpb P (nathole_resp_unmarshal a parsed) (held l) s.
Proof.
  intros Hp H. apply wpb_open; [done|]. clear s H. intros j p s E H.
  assert (T : ∀ key, key ∈ ["transaction_id"; "sid"; "protocol"; "error"]%string → P → plenty ∧ text_at key j).
  { intros key K F. destruct (Hp F) as [Ha Ht]. split; [done|by apply (Ht j E)]. }
  eapply wpb_seq; [apply wpb_required_copy; [apply T; set_solver|exact H]|]. intros x1 s1 [_ H1].
  eapply wpb_seq; [apply wpb_required_copy; [apply T; set_solver|exact H1]|]. intros x2 s2 [_ H2].
  eapply wpb_seq; [apply wpb_required_copy; [apply T; set_solver|exact H2]|]. intros x3 s3 [_ H3].
  eapply wpb_seq; [apply wpb_required_copy; [apply T; set_solver|exact H3]|]. intros x4 s4 [_ H4].
  eapply wpb_seq; [apply wpb_array; exact H4|]. intros t1 s5 H5. eapply wpb_seq; [apply wpb_array; exact H5|]. intros t2 s6 H6.
  eapply wpb_seq; [apply wpb_get_ex; exact H6|]. intros [b [beh|]] s7 (_ & _ & F7 & H7); cbn [snd]; [|yields H7].
  eapply wpb_seq; [apply wpb_int_field; exact H7|]. intros u1 s8 H8.
  eapply wpb_seq; [apply wpb_required_copy; [|exact H8]|].
  { intros F. destruct (Hp F) as [Ha Ht]. split; [done|]. apply (Ht j E). by apply F7. }
  intros x5 s9 [_ H9]. do 5 (eapply wpb_seq; [apply wpb_int_field; exact H9|]; clear H9; intros ? ? H9).
  eapply wpb_seq; [apply wpb_ports; exact H9|]. intros r s10 H10. yields H10.
Qed.

(** Receiving a name: the structure and the copy of the name are held. *)
Definition sr_blocks (l : list positive) (r : option start_work_conn_resp) (s : mem) : Prop :=
  match r with Some x => ∃ n, holds L (sr_self x :: n :: l) s | None => holds L l s end.
Lemma wpb_sr j l s : holds L l s →
  wpb P (start_work_conn_resp_unmarshal a (Some j)) (λ r s', sr_blocks l r s' ∧
    (plenty → is_Some (json_object_object_get_ex j "proxy_name" ≫= json_object_get_string) → is_Some r)) s.
Proof.
  intros H. eapply wpb_seq; [by apply wpb_ask|]. intros [] s1 [F1 H1]; cbn [negb]; [|apply wpb_ret; split; [done|intros F; discriminate (F1 F)]].
  eapply wpb_seq; [by apply wpb_calloc|]. intros [p|] s2 [F2 H2]; [|apply wpb_ret; split; [done|intros F; by destruct (F2 F)]].
  assert (R : ∀ s', (plenty → is_Some (json_object_object_get_ex j "proxy_name" ≫= json_object_get_string) → False) → holds L (p :: l) s' →
    wpb P (free p ;~ bret None) (λ r s', sr_blocks l r s' ∧ (plenty → is_Some (json_object_object_get_ex j "proxy_name" ≫= json_object_get_string) → is_Some r)) s').
  { intros s' F Hs. eapply wpb_seq; [by apply wpb_free|]. intros [] s'' Hs'. apply wpb_ret. split; [done|]. intros F' E. by destruct (F F' E). }
  eapply wpb_seq; [apply wpb_get_ex; exact H2|]. intros f s3 (E3 & F3 & _ & H3). case_if.
  { apply R; [|done]. intros _ Hx. rewrite E3 in Hc. apply bool_decide_eq_false in Hc. destruct (json_object_object_get_ex j "proxy_name"); [by apply Hc|by destruct Hx]. }
  eapply wpb_seq; [by apply wpb_get_string|]. intros [t|] s4 [F4 H4].
  2: { apply R; [|done]. intros F Hx. rewrite <- (F3 F), <- (F4 F) in Hx. by destruct Hx. }
  eapply wpb_seq; [by apply wpb_strdup|]. intros [d|] s5 [F5 H5]; [|apply R; [|done]; intros F; by destruct (F5 F)].
  apply wpb_ret. split; [|done]. exists d. cbn in *. by rewrite Permutation_swap in H5.
Qed.

(** Handlers that copy the text first. *)
Lemma wpb_with_copy {A} (un : B (option A)) use (R : option A → list positive → mem → Prop) Q l s :
  holds L l s →
  (∀ l' s', holds L l' s' → wpb P un (λ r s'', R r l' s'') s') →
  (∀ c r s', R r (c :: l) s' → wpb P (free c ;~ match r with None => bret () | Some x => use x end) Q s') → (∀ s', holds L l s' → Q () s') →
  wpb P (with_copy a un use) Q s.
Proof.
  intros H Hu Hr Hn. eapply wpb_seq; [by apply wpb_calloc|]. intros [c|] s1 [_ H1]; [|by apply wpb_ret, Hn].
  eapply wpb_seq; [by apply (Hu (c :: l))|]. intros r s2 H2. by apply Hr.
Qed.
Lemma wpb_received {A} `{OwnerOk A} (un : B (option A)) l s :
  holds L l s → (∀ l' s', holds L l' s' → wpb P un (held l') s') → wpb P (with_copy a un (λ x, release (Some x))) (λ _ s', holds L l s') s.
Proof.
  intros Hl Hu. eapply wpb_with_copy; [done|exact Hu| |done]. intros c r s1 H1.
  eapply wpb_seq with (Q := λ _, held l r).
  - unfold held in *. destruct r; [rewrite <- Permutation_middle in H1|]; by apply wpb_free.
  - intros [] s2 H2. destruct r as [x|]; [by apply release_ok|by apply wpb_ret].
Qed.

End Reads.

(** ** What the handlers leave behind *)

(** However it ends, the run releases only blocks in use; it ends with the
    blocks it started with, or copies a null pointer although [P] fails. *)
Definition released (P : Prop) (m : B ()) : Prop := ∀ s, wpb P m (λ _ s', live s' = live s) s.

Lemma released_received {A} `{OwnerOk A} a P (un : B (option A)) :
  (∀ L l s, holds L l s → wpb P un (held L l) s) → released P (with_copy a un (λ x, release (Some x))).
Proof.
  intros Hu s. eapply wpb_mono; [apply (wpb_received a P (live s) un []); [apply holds_nil|auto]|]. intros [] s'. apply holds_done.
Qed.
Lemma released_read {A} `{OwnerOk A} P (un : B (option A)) :
  (∀ L l s, holds L l s → wpb P un (held L l) s) → (∀ s, release (A := A) None s = Done () s) → released P (r <~ un ;; release r).
Proof.
  intros Hu Hn s. eapply wpb_seq; [apply (Hu (live s) []), holds_nil|]. intros [x|] s1 H1.
  - apply wpb_mono with (Q := λ _, holds (live s) []); [by apply release_ok|]. intros [] s'. apply holds_done.
  - unfold wpb. rewrite Hn. by apply holds_done.
Qed.

(** Handlers one after the other. *)
Fixpoint run_each {A} (h : A → B ()) (l : list A) : B () :=
  match l with [] => bret () | x :: l => h x ;~ run_each h l end.

Lemma start_work_keeps_name a j s :
  (∀ t, a t = true) → is_Some (json_object_object_get_ex j "proxy_name" ≫= json_object_get_string) →
  ∃ s' p, start_work_conn_blocks a (Some j) s = Done () s' ∧ p ∉ live s ∧ live s' = live s ∪ {[p]}.
Proof.
  intros Ha Hj.
  assert (W : wpb True (start_work_conn_blocks a (Some j)) (λ _ s', ∃ p, holds (live s) [p] s') s).
  { eapply wpb_seq; [apply wpb_calloc, holds_nil|]. intros [c|] s1 [F1 H1]; [|by destruct (F1 Ha)].
    eapply wpb_seq; [apply wpb_sr; exact H1|]. intros r s2 [H2 F2]. destruct (F2 Ha Hj) as [x ->]. destruct H2 as [n H2]. cbn in H2.
    eapply wpb_seq with (Q := λ _ s', holds (live s) [sr_self x; n] s').
    - apply wpb_free. eapply holds_perm; [|done|exact H2]. solve_Permutation.
    - intros [] s3 H3. apply wpb_mono with (Q := λ _, holds (live s) [n]); [by apply wpb_free|]. intros [] s4 H4. by exists n. }
  unfold wpb in W. destruct (start_work_conn_blocks a (Some j) s) as [[] s'| |]; [|by destruct (W I)|done].
  destruct W as (p & _ & N & E). exists s', p. split; [done|]. split; [apply N; set_solver|]. rewrite E. set_solver.
Qed.

Lemma udp_freed_again L x c l s : up_content x = Some c → holds L (blocks x ++ l) s → c ∉ L → c ∉ l →
  (udp_packet_free (Some x) ;~ udp_packet_free (Some x)) s = BadFree.
Proof.
  intros Ec H Hc Hl. pose proof (release_ok True L x l s H) as W. unfold wpb in W. cbn [release own_udp] in W. unfold bbind at 1.
  destruct (udp_packet_free (Some x) s) as [[] s'| |]; [|by destruct (W I)|done].
  destruct W as (_ & _ & E). cbn [udp_packet_free]. rewrite Ec. unfold bbind at 1. cbn [SAFE_FREE]. unfold free.
  rewrite decide_False; [done|]. rewrite E. set_solver.
Qed.


(** C39: the handler of StartWorkConn releases the structure and not the name in
    it: when memory does not run out, every such message leaves one more block
    behind, for good. *)
Theorem start_work_leaks_name (a : nat → bool) (docs : list json) (s : mem)
    (Ha : ∀ t, a t = true)
    (Hd : Forall (λ j, is_Some (json_object_object_get_ex j "proxy_name" ≫= json_object_get_string)) docs) :
  ∃ s', run_each (λ j, start_work_conn_blocks a (Some j)) docs s = Done () s' ∧
    live s ⊆ live s' ∧ size (live s') = (size (live s) + length docs)%nat.
Proof.
  revert s. induction Hd as [|j docs Hj _ IH]; intros s; [exists s; split_and!; [done|done|cbn; lia]|].
  destruct (start_work_keeps_name a j s Ha Hj) as (s1 & p & E1 & N1 & L1). destruct (IH s1) as (s2 & E2 & S2 & Z2).
  exists s2. cbn [run_each]. unfold bbind. rewrite E1. split_and!; [done|set_solver|].
  rewrite Z2, L1, size_union by set_solver. rewrite size_singleton. cbn. lia.
Qed.

(** With the port's stub of the UDP module a datagram for a started client is
    released twice. *)
Lemma udp_packet_freed_twice (a : nat → bool) (j : json) (s : mem) :
  (∀ t, a t = true) → udp_texts j → is_Some (json_object_object_get_ex j "c") →
  udp_packet_blocks a handle_udp_packet true (Some j) s = BadFree.
Proof.
  intros Ha Ht Hc. assert (Hd : of_doc udp_texts (Some j)) by by intros j' [= <-].
  destruct (calloc a s) as [[c|] s1| |] eqn:E1; pose proof (wpb_calloc a True (live s) [] s (holds_nil s)) as W; unfold wpb in W; rewrite E1 in W;
    [|by destruct W as [W _]; destruct (W Ha)|by destruct W|done].
  destruct W as [_ H1]. pose proof (wpb_udp a True (live s) (Some j) (c :: []) s1 (λ _, conj Ha Hd) H1) as W.
  unfold wpb in W. unfold udp_packet_blocks, with_copy. unfold bbind at 1. rewrite E1. unfold bbind at 1.
  destruct (udp_packet_unmarshal a (Some j) s1) as [r s2| |]; [|by destruct (W I)|done]. destruct W as [H2 X]. destruct (X Ha j eq_refl Hc) as (x & d & -> & Ed).
  unfold held in H2. rewrite <- Permutation_middle, app_nil_r in H2. pose proof (wpb_free True (live s) c _ s2 H2) as W. unfold wpb in W.
  unfold bbind at 1. destruct (free c s2) as [[] s3| |]; [|by destruct (W I)|done]. eapply (udp_freed_again (live s) x d []); [done|by rewrite app_nil_r| |set_solver].
  destruct W as (_ & N & _). apply N. cbn [blocks own_udp]. rewrite Ed. set_solver.
Qed.

Definition demo_start (name : string) : json := JObject [("proxy_name"%string, JString name)].
Lemma start_work_leaks_name_witness :
  ∃ s', run_each (λ j, start_work_conn_blocks (λ _, true) (Some j)) (replicate 3 (demo_start "ssh")) (mkMem ∅ 0) = Done () s' ∧ size (live s') = 3%nat.
Proof.
  destruct (start_work_leaks_name (λ _, true) (replicate 3 (demo_start "ssh")) (mkMem ∅ 0)) as (s' & E & _ & Z); [done|by repeat constructor; eexists|].
  exists s'. split; [exact E|exact Z].
Defined.
