(* ===== verification/Session.v ===== *)
(** * The control session

    Models [src/src/control.c] in the default build (wire protocol v1, the
    optional modules replaced by the stubs of [src/port/module_stubs.c]):
    sending of messages, in the clear and encrypted; the handlers of the
    server's messages; login; heartbeat; the callbacks of the main connection
    and of work connections; clearing the session for a reconnection. *)

From S2P Require Import Prelude Endian Evp CryptoStream Coder WireV2 Json World Mux ProxyTcp Demux Msg.

Section Session.
Context `{Mbedtls}.

Definition get_ctl : M session := gets w_ctl.
Definition upd_ctl (f : session → session) : M () := modify (λ w, set_w_ctl (f (w_ctl w)) w).

Definition tcp_mux : M Z := gets (λ w, e_tcp_mux (w_env w)).

(** ** Sending *)

(** [evbuffer_write]: the descriptor takes a prefix per [send].  The status, 0
    or more bytes, or the negative answer of the first [send]; and what is
    left. *)
Fixpoint evbuffer_write (fuel : nat) (b : positive) (total : Z) (d : bytes) : M (Z * bytes) :=
  match fuel, d with
  | O, _ | _, [] => ret (total, d)
  | S fuel, _ =>
      n <- (λ w, Some (x_send (e_ext (w_env w)) (w_tick w), set_w_tick (S (w_tick w)) w)) ;;
      if n <? 0 then ret (if 0 <? total then total else n, d)
      else
        let n := Z.min n (zlen d) in
        upd_bev b (λ x, set_b_sock (b_sock x ++ ztake n d) x) ;;
        if n =? 0 then ret (total, d)
        else evbuffer_write fuel b (total + n) (zdrop n d)
  end.

(** [while (... && tries-- > 0)]: -1 is EAGAIN, which is tried again. *)
Fixpoint write_direct (tries : nat) (b : positive) (d : bytes) : M () :=
  match tries, d with
  | O, _ | _, [] => ret ()
  | S tries, _ =>
      r <- evbuffer_write (S (length d)) b 0 d ;;
      if fst r =? -1 then write_direct tries b d
      else if fst r <=? 0 then ret ()
      else write_direct tries b (snd r)
  end.

(** A queue made for one message and written to a stream; what the stream does
    not take is dropped with the queue.  [false]: the write failed. *)
Definition write_message (bout : positive) (d : bytes) (stream : option sref) : M bool :=
  ok <- oracle ;;
  if negb ok then ret true
  else
    add <- oracle ;;
    match stream with
    | None => ret false
    | Some r =>
        res <- tmux_stream_write (Some bout) (if add then d else []) r ;;
        ret (0 <=? fst res)
    end.

(** [msg_hdr] and the text. *)
Definition message_bytes (type : msg_type) (msg : bytes) : bytes :=
  msg_hdr_bytes (msg_type_char type) (msg_hton (zlen msg)) ++ msg.

Definition out_bev (bev : option positive) : M (option positive) :=
  main <- gets w_connect_bev ;; ret (match bev with Some b => Some b | None => main end).

Definition send_msg_frp_server (bev : option positive) (type : msg_type) (msg : bytes)
    (stream : option sref) : M () :=
  bout <- out_bev bev ;;
  match bout with
  | None => ret ()
  | Some b =>
      ok <- oracle ;;
      if negb ok then ret ()
      else
        mux <- tcp_mux ;;
        if mux =? 0 then bufferevent_write (Some b) (message_bytes type msg) ;; ret ()
        else write_message b (message_bytes type msg) stream ;; ret ()
  end.

(** The token and PBKDF2 of the environment. *)
Definition make_encoder : M (option frp_coder) :=
  mem <- oracle ;; rand_ok <- oracle ;; rand <- random_block ;;
  token <- gets (λ w, e_auth_token (w_env w)) ;;
  kdf <- gets (λ w, e_pbkdf2 (w_env w)) ;;
  c <- get_ctl ;;
  let '(e, cs) := init_main_encoder kdf mem (if rand_ok then Some rand else None) token (ss_coders c) in
  upd_ctl (set_ss_coders cs) ;;
  ret e.

(** [true] is the status 0. *)
Definition initialize_encoder (bout : positive) (stream : option sref) : M bool :=
  e <- make_encoder ;;
  match e with
  | None => ret false
  | Some e =>
      mux <- tcp_mux ;;
      if mux =? 0 then ret true else write_message bout (fc_iv e) stream
  end.

Definition prepare_encrypted_message (type : msg_type) (msg : bytes) : M (option bytes) :=
  ok <- oracle ;;
  if negb ok then ret None
  else
    mem1 <- oracle ;; mem2 <- oracle ;;
    c <- get_ctl ;;
    let '(n, out, cs) := encrypt_data mem1 mem2 (message_bytes type msg)
                           (main_encoder (ss_coders c)) (ss_coders c) in
    upd_ctl (set_ss_coders cs) ;;
    ret (if n <=? 0 then None else Some out).

(** [enc->iv_sent = 1]. *)
Definition mark_iv_sent (cs : coders) : coders :=
  mkCoders ((λ e, mkCoder (fc_key e) (fc_salt e) (fc_iv e) (fc_token e) true) <$> main_encoder cs)
    (main_decoder cs) (enc_ctx cs) (dec_ctx cs).

Definition send_enc_msg_frp_server (bev : option positive) (type : msg_type) (msg : bytes)
    (stream : option sref) : M () :=
  bout <- out_bev bev ;;
  match bout with
  | None => ret ()
  | Some b =>
      c <- get_ctl ;;
      ready <- (if is_encoder_inited (ss_coders c) then ret true else initialize_encoder b stream) ;;
      if negb ready then ret ()
      else
        enc <- prepare_encrypted_message type msg ;;
        match enc with
        | None => ret ()
        | Some enc =>
            mux <- tcp_mux ;;
            if negb (mux =? 0) then write_message b enc stream ;; ret ()
            else
              c <- get_ctl ;;
              match main_encoder (ss_coders c) with
              | None => ub
              | Some e =>
                  ok <- oracle ;;
                  let d := (if fc_iv_sent e then [] else fc_iv e) ++ enc in
                  upd_ctl (λ c, set_ss_coders (mark_iv_sent (ss_coders c)) c) ;;
                  x <- get_bev b ;;
                  (* [bufferevent_getfd] is -1 when TLS is attached *)
                  if b_ssl x then ret () else write_direct 100 b (if ok then d else [])
              end
        end
  end.

(** ** Registering services *)

Definition send_new_proxy (ps : proxy_service) : M () :=
  msg <- new_proxy_service_marshal ps ;;
  match msg with
  | None => ret ()
  | Some msg => send_enc_msg_frp_server None TypeNewProxy msg (Some SMain)
  end.

Fixpoint send_new_proxies (l : list proxy_service) : M () :=
  match l with
  | [] => ret ()
  | ps :: l =>
      (if bool_decide (ps_proxy_type ps = Some "mstsc"%string) then ret () else send_new_proxy ps) ;;
      send_new_proxies l
  end.

(** Visitors and health checks are stubs in this build. *)
Definition start_proxy_services : M () :=
  l <- gets (λ w, cf_services (e_config (w_env w))) ;; send_new_proxies l.

Definition PING_MSG : bytes := [123; 125].
Definition ping : M () :=
  main <- gets w_connect_bev ;;
  match main with
  | None => ret ()
  | Some b => send_enc_msg_frp_server (Some b) TypePing PING_MSG (Some SMain)
  end.

(** ** Work connections *)

Definition new_work_connection (bev : option positive) (stream : option sref) : M () :=
  match bev with
  | None => ret ()
  | Some b =>
      ok <- oracle ;;
      if negb ok then ret ()
      else
        c <- get_ctl ;;
        match ss_run_id c with
        | None => ret ()
        | Some run_id =>
            msg <- new_work_conn_marshal (Some run_id) ;;
            match msg with
            | None => ret ()
            | Some msg => send_msg_frp_server (Some b) TypeNewWorkConn msg stream
            end
        end
  end.

(** [true] is the status 0. *)
Definition init_tcp_mux_client (p : positive) : M bool :=
  pc <- get_pc p ;;
  match pc_ctl_bev pc with
  | None => ret false
  | Some b =>
      send_window_update (Some b) (SClient p) 0 ;;
      new_work_connection (Some b) (Some (SClient p)) ;;
      ret true
  end.

Definition init_direct_client (p : positive) : M bool :=
  pc <- get_pc p ;;
  cf <- gets (λ w, e_config (w_env w)) ;;
  b <- connect_server (pc_base pc) (cf_server_addr cf) (cf_server_port cf) ;;
  match b with
  | None => ret false
  | Some b =>
      upd_pc p (set_pc_ctl_bev (Some b)) ;;
      bufferevent_enable b false true ;;
      bufferevent_setcb b CbNone EvClientStart (Some p) ;;
      ret true
  end.

Definition new_client_connect : M () :=
  o <- new_proxy_client ;;
  match o with
  | None => ret ()
  | Some p =>
      upd_pc p (set_pc_base true) ;;
      mux <- tcp_mux ;;
      ok <- (if mux =? 0 then init_direct_client p
             else
               main <- gets w_connect_bev ;;
               upd_pc p (set_pc_ctl_bev main) ;;
               init_tcp_mux_client p) ;;
      if (ok : bool) then ret ()
      else pc <- get_pc p ;; del_proxy_client_by_stream_id (pc_stream_id pc)
  end.

Definition handle_client_error (p b : positive) : M () :=
  pc <- get_pc p ;;
  (if bool_decide (pc_ctl_bev pc = Some b) then ret ()
   else
     match pc_ctl_bev pc with Some c => bufferevent_free c | None => ret () end ;;
     upd_pc p (set_pc_ctl_bev None)) ;;
  bufferevent_free b ;;
  del_proxy_client_by_stream_id (pc_stream_id pc).

Definition handle_client_connected (p b : positive) : M () :=
  bufferevent_setcb b CbRecv EvClientStart (Some p) ;;
  bufferevent_enable b true true ;;
  mux <- tcp_mux ;;
  new_work_connection (Some b) (if mux =? 0 then None else Some SMain) ;;
  upd_ctl (set_ss_status true).

Definition client_start_event_cb (p b : positive) (eof connected : bool) : M () :=
  if eof then handle_client_error p b
  else if connected then handle_client_connected p b
  else ret ().

(** ** The server's messages *)

Definition malloc (n : Z) : M bool :=
  if n =? 0 then gets (λ w, x_malloc0 (e_ext (w_env w)))
  else if (n <? 0) then ret false   (* a [size_t] beyond the address space *)
  else oracle.

(** [(int)msg_hton(msg->length)]; reading a header that is not there is
    undefined. *)
Definition data_len (msg : bytes) : M Z :=
  match msg_hdr_length msg with
  | Some raw => if zlen msg <? sizeof_msg_hdr then ub else ret (i32 (msg_hton raw))
  | None => ub
  end.

(** The null-terminated copy of the text: a copy past the end of the buffer is
    undefined. *)
Definition msg_data_to_json (msg : bytes) : M (option bytes) :=
  n <- data_len msg ;;
  if n =? 2 ^ 31 - 1 then ub   (* [data_len + 1] overflows *)
  else
    ok <- malloc (n + 1) ;;
    if negb ok then ret None
    else if (n <? 0) || (zlen msg <? sizeof_msg_hdr + n) then ub
    else ret (Some (ztake n (zdrop sizeof_msg_hdr msg))).

Definition get_proxy_service (name : string) : M (option proxy_service) :=
  gets (λ w, list_find (λ ps, ps_proxy_name ps = name) (cf_services (e_config (w_env w))) ≫= λ x, Some x.2).

Definition hour : M Z :=
  λ w, Some (x_hour (e_ext (w_env w)) (w_tick w), set_w_tick (S (w_tick w)) w).

Definition in_window (start stop h : Z) : bool :=
  if stop <? start then (start <=? h) || (h <? stop) else (start <=? h) && (h <? stop).

Definition is_service_available (ps : proxy_service) : M bool :=
  if (ps_start_time ps =? 0) && (ps_end_time ps =? 0) then ret true
  else h <- hour ;; ret (in_window (ps_start_time ps) (ps_end_time ps) h).

Definition handle_type_req_work_conn : M () :=
  c <- get_ctl ;;
  (if ss_status c then ret () else start_proxy_services ;; upd_ctl (set_ss_status true)) ;;
  new_client_connect.

(** What [proxy_service_resp_raw] finds is only logged. *)
Definition handle_type_new_proxy_resp (msg : bytes) : M () :=
  text <- msg_data_to_json msg ;;
  match text with
  | None => ret ()
  | Some text => new_proxy_resp_unmarshal text ;; ret ()
  end.

Definition handle_type_start_work_conn (msg : bytes) (ctx : option positive) : M () :=
  text <- msg_data_to_json msg ;;
  match text with
  | None => ret ()
  | Some text =>
      name <- start_work_conn_resp_unmarshal text ;;
      match name with
      | None => ret ()
      | Some name =>
          ps <- get_proxy_service name ;;
          match ps with
          | None => ret ()
          | Some ps =>
              avail <- is_service_available ps ;;
              if negb avail then ret ()
              else
                match ctx with
                | None => ret ()
                | Some p =>
                    n <- data_len msg ;;
                    start_work_conn p ps (zdrop (sizeof_msg_hdr + n) msg)
                end
          end
      end
  end.

(** The stub of [handle_udp_packet] frees the packet and the caller frees it
    again. *)
Definition handle_type_udp_packet (msg : bytes) (ctx : option positive) : M () :=
  text <- msg_data_to_json msg ;;
  match text with
  | None => ret ()
  | Some text =>
      udp <- udp_packet_unmarshal text ;;
      match udp, ctx with
      | Some _, Some p =>
          pc <- get_pc p ;;
          match pc_ps pc with None => ret () | Some _ => ub end
      | _, _ => ret ()
      end
  end.

(** [None]: nothing to dispatch. *)
Definition handle_enc_msg (d : bytes) : M (option bytes) :=
  if zlen d =? 0 then ret None
  else
    c <- get_ctl ;;
    rest <- (if is_decoder_inited (ss_coders c) then ret (Some d)
             else if zlen d <? block_size then ret None
             else
               mem <- oracle ;; rand_ok <- oracle ;; rand <- random_block ;;
               token <- gets (λ w, e_auth_token (w_env w)) ;;
               kdf <- gets (λ w, e_pbkdf2 (w_env w)) ;;
               let '(dec, cs) := init_main_decoder kdf true mem (if rand_ok then Some rand else None)
                                   token (Some (ztake block_size d)) (ss_coders c) in
               upd_ctl (set_ss_coders cs) ;;
               ret (match dec with Some _ => Some (zdrop block_size d) | None => None end)) ;;
    match rest with
    | None | Some [] => ret None
    | Some rest =>
        mem1 <- oracle ;; mem2 <- oracle ;;
        c <- get_ctl ;;
        let '(n, out, cs) := decrypt_data mem1 mem2 rest (main_decoder (ss_coders c)) (ss_coders c) in
        upd_ctl (set_ss_coders cs) ;;
        ret (if n <=? 0 then None else Some out)
    end.

(** The dispatch on a plaintext message.  Visitor and NAT messages go to stubs,
    after the copy of their text. *)
Definition dispatch_message (cmd : bytes) (ctx : option positive) : M () :=
  if zlen cmd <? sizeof_msg_hdr then ret ()
  else
    n <- data_len cmd ;;
    if zlen cmd - sizeof_msg_hdr <? n then ret ()
    else
      match msg_hdr_type cmd with
      | None => ub
      | Some t =>
          match msg_type_of_char t with
          | Some TypeReqWorkConn => handle_type_req_work_conn
          | Some TypeNewProxyResp => handle_type_new_proxy_resp cmd
          | Some TypeStartWorkConn => handle_type_start_work_conn cmd ctx
          | Some TypeUDPPacket => handle_type_udp_packet cmd ctx
          | Some TypeNewVisitorConnResp | Some TypeNatHoleResp => msg_data_to_json cmd ;; ret ()
          | Some TypePong => t <- now ;; upd_ctl (set_ss_pong_time t)
          | _ => ret ()
          end
      end.

Definition handle_control_work (d : bytes) (ctx : option positive) : M () :=
  match ctx with
  | Some _ => dispatch_message d ctx
  | None =>
      cmd <- handle_enc_msg d ;;
      match cmd with None => ret () | Some cmd => dispatch_message cmd None end
  end.

(** ** Login *)

(** [true]: logged in.  A failed copy of the run id aborts. *)
Definition login_resp_check (lr : login_resp) : M bool :=
  if (Z.of_nat (String.length (lr_run_id lr)) <=? 1) then upd_ctl (set_ss_logged false) ;; ret false
  else
    ok <- oracle ;;
    if negb ok then ub
    else
      upd_ctl (λ c, set_ss_logged true (set_ss_run_id (Some (lr_run_id lr)) c)) ;; ret true.

Definition process_login_response (msg : bytes) : M bool :=
  text <- msg_data_to_json msg ;;
  match text with
  | None => ret false
  | Some text =>
      lr <- login_resp_unmarshal text ;;
      match lr with None => ret false | Some lr => login_resp_check lr end
  end.

(** The bytes consumed, 0 for a failure. *)
Definition handle_login_response (d : bytes) : M Z :=
  match msg_hdr_type d with
  | None => ret 0
  | Some t =>
      if negb (t =? msg_type_char TypeLoginResp) then ret 0
      else
        ok <- process_login_response d ;;
        if negb ok then ret 0
        else
          upd_ctl (set_ss_is_login true) ;;
          c <- get_ctl ;;
          (if ss_status c then ret () else start_proxy_services ;; upd_ctl (set_ss_status true)) ;;
          n <- data_len d ;; ret (i32 (n + sizeof_msg_hdr))
  end.

Definition handle_frps_msg (d : bytes) (ctx : option positive) : M () :=
  if zlen d =? 0 then ret ()
  else
    c <- get_ctl ;;
    if negb (ss_is_login c) then handle_login_response d ;; ret ()
    else handle_control_work d ctx.

(** ** The main connection *)

(** How much of the input the message takes: a login response leaves what
    follows it. *)
Definition login_drain (c : session) (d : bytes) : M Z :=
  let len := zlen d in
  if negb (ss_is_login c) && (sizeof_msg_hdr <? len)
     && bool_decide (msg_hdr_type d = Some (msg_type_char TypeLoginResp)) then
    n <- data_len d ;;
    let total := i32 (n + sizeof_msg_hdr) in
    ret (if (0 <? total) && (total <=? len) then total else len)
  else ret len.

Definition handle_non_mux (b : positive) (ctx : option positive) : M () :=
  x <- get_bev b ;;
  c <- get_ctl ;;
  n <- login_drain c (b_in x) ;;
  handle_frps_msg (b_in x) ctx ;;
  input_drain b n.

(** At most one more round, after the login response. *)
Definition recv_cb (b : positive) (ctx : option positive) : M () :=
  mux <- tcp_mux ;;
  x <- get_bev b ;;
  if negb (mux =? 0) then
    if 0 <? zlen (b_in x) then handle_tcp_mux handle_frps_msg b (zlen (b_in x)) ;; ret () else ret ()
  else if zlen (b_in x) =? 0 then ret ()
  else
    c <- get_ctl ;;
    handle_non_mux b ctx ;;
    c' <- get_ctl ;;
    if negb (ss_is_login c) && ss_is_login c' then
      x <- get_bev b ;;
      if 0 <? zlen (b_in x) then handle_non_mux b ctx else ret ()
    else ret ().

Definition xfrpc_fatal : M () := upd_ctl (set_ss_fatal true).

Definition login : M () :=
  c <- get_ctl ;;
  msg <- login_request_marshal (ss_run_id c) ;;
  match msg with
  | None => xfrpc_fatal
  | Some msg => send_msg_frp_server None TypeLogin msg (Some SMain)
  end.

(** ** Heartbeat and reconnection *)

(** The calls of [clear_main_control] that change the state, in its order. *)
Definition clear_main_control : M () :=
  upd_ctl (λ c, set_ss_ticker None (set_ss_reconnect_timer None c)) ;;
  upd_ctl (λ c, set_ss_status false (set_ss_is_login false (set_ss_pong_time 0 c))) ;;
  handle_tcp_mux_reset ;;
  clear_all_proxy_client ;;
  upd_ctl (λ c, set_ss_coders (free_crypto_resources (ss_coders c)) c) ;;
  main <- gets w_connect_bev ;;
  match main with
  | None => ret ()
  | Some b => bufferevent_free b ;; modify (set_w_connect_bev None)
  end ;;
  mux <- tcp_mux ;;
  if mux =? 0 then ret ()
  else id <- get_next_session_id ;; init_tmux_stream SMain id TMUX_INIT.

(** The three lines before a reconnection. *)
Definition request_reconnect : M () :=
  reset_session_id ;; clear_main_control ;; upd_ctl (set_ss_reconnect true).

Definition check_server_timeout (current_time : Z) : M () :=
  c <- get_ctl ;;
  cf <- gets (λ w, e_config (w_env w)) ;;
  if ss_pong_time c =? 0 then ret ()
  else if cf_heartbeat_timeout cf <? i32 (current_time - ss_pong_time c) then request_reconnect
  else ret ().

Definition schedule_heartbeat_timer : M () :=
  cf <- gets (λ w, e_config (w_env w)) ;;
  upd_ctl (λ c, match ss_ticker c with
                | Some _ => set_ss_ticker (Some (cf_heartbeat_interval cf)) c
                | None => c
                end).

Definition heartbeat_handler : M () :=
  c <- get_ctl ;;
  (if ss_status c then ping else ret ()) ;;
  schedule_heartbeat_timer ;;
  t <- now ;;
  if t =? -1 then ret () else check_server_timeout t.

Definition RETRY_DELAY_SECONDS : Z := 2.
Definition MAX_RETRY_DELAY_SECONDS : Z := 60.

Definition reconnect_backoff_seconds (retry_count : Z) : Z :=
  let shift := retry_count - 1 in
  let shift := if shift <? 0 then 0 else shift in
  let shift := if 5 <? shift then 5 else shift in
  let delay := RETRY_DELAY_SECONDS ≪u shift in
  if MAX_RETRY_DELAY_SECONDS <? delay then MAX_RETRY_DELAY_SECONDS else delay.

Definition reconnect_timer_cb : M () := request_reconnect.

Definition handle_connection_failure : M () :=
  upd_ctl (λ c, set_ss_retry (ss_retry c + 1) c) ;;
  c <- get_ctl ;;
  let delay := reconnect_backoff_seconds (ss_retry c) in
  upd_ctl (set_ss_reconnect_timer None) ;;
  ok <- oracle ;;
  if (ok : bool) then upd_ctl (set_ss_reconnect_timer (Some delay)) else request_reconnect.

Definition keep_control_alive : M () :=
  ok <- oracle ;;
  if negb ok then ret ()
  else
    t <- now ;;
    if t =? -1 then upd_ctl (λ c, set_ss_ticker None (set_ss_pong_time t c))
    else upd_ctl (λ c, set_ss_ticker (Some 1) (set_ss_pong_time t c)).

Definition handle_connection_success (b : positive) : M () :=
  mux <- tcp_mux ;;
  (if mux =? 0 then ret () else send_window_update (Some b) SMain 0) ;;
  login ;;
  keep_control_alive.

Definition connect_event_cb (b : positive) (eof connected : bool) : M () :=
  if eof then bufferevent_disable b true true ;; handle_connection_failure
  else if connected then upd_ctl (set_ss_retry 0) ;; handle_connection_success b
  else ret ().

(** [start_base_connect] with [init_server_connection] and
    [setup_server_callbacks]. *)
Definition start_base_connect : M () :=
  main <- gets w_connect_bev ;;
  match main with
  | None => ret ()
  | Some b => bufferevent_free b ;; modify (set_w_connect_bev None)
  end ;;
  cf <- gets (λ w, e_config (w_env w)) ;;
  b <- connect_server true (cf_server_addr cf) (cf_server_port cf) ;;
  modify (set_w_connect_bev b) ;;
  match b with
  | None => xfrpc_fatal
  | Some b => bufferevent_enable b true true ;; bufferevent_setcb b CbRecv EvConnect None
  end.

End Session.
