(* ===== verification/Reconnect.v ===== *)
(** * Reconnection

    Clearing the session and the delays between attempts
    ([src/src/control.c]): whatever state the session is in, after
    [reset_session_id] and [clear_main_control] the client is as at its start,
    and after [k] failures in a row the next attempt is [2 ^ k] seconds away,
    60 at most. *)

From S2P Require Import Prelude Endian Evp CryptoStream Coder Json World Mux MuxInv MuxSafe MuxThm ProxyTcp Frame Demux ProxySafe StartWork Msg Session.

(** Configuration, session and parser variables are left alone. *)
Definition settled `{Mbedtls} (w w' : world) : Prop :=
  w_env w' = w_env w ∧ w_ctl w' = w_ctl w ∧ w_cur w' = w_cur w ∧ w_hdr w' = w_hdr w ∧
  w_stream_len w' = w_stream_len w ∧ w_partial_header w' = w_partial_header w.

#[export] Instance settled_frame `{Mbedtls} : MuxFrame settled.
Proof. repeat split; try done; unfold settled in *; intuition congruence. Qed.

Section Reconnect.
Context `{Mbedtls}.

Lemma pres_clear_all (R : relation world) `{!MuxFrame R} : pres R clear_all_proxy_client.
Proof.
  unfold clear_all_proxy_client, clear_stream.
  assert (∀ l, pres R (free_each l)) as Hf by (intros l; induction l; simpl; pres_auto).
  pres_auto.
Qed.

(** The session a client starts a connection with, reached from [c]. *)
Definition fresh_session (c : session) : session :=
  mkSession false false 0 no_coders (ss_run_id c) (ss_logged c) true (ss_fatal c) (ss_retry c) None None.

(** The state a connection starts in. *)
Record clean (w w' : world) : Prop := {
  cn_ok : mux_ok w';
  cn_pcs : w_pcs w' = ∅;
  cn_all_pc : w_all_pc w' = ∅;
  cn_all_stream : w_all_stream w' = {[1 := SMain]};
  cn_main : w_main_stream w' = mkStream 1 MAX_STREAM_WINDOW_SIZE (256 * 1024) TMUX_INIT false false [];
  cn_session : w_session_id w' = 3;
  cn_connect : w_connect_bev w' = None;
  cn_freed : ∀ b, w_connect_bev w = Some b → w_bevs w' !! b = None;
  cn_locals : ∀ p x b, w_pcs w !! p = Some x → pc_local_bev x = Some b → w_bevs w' !! b = None;
  cn_parser : w_cur w' = None ∧ w_hdr w' = replicate 12 0 ∧ w_stream_len w' = 0 ∧
    w_partial_header w' = 0;
  cn_ctl : w_ctl w' = fresh_session (w_ctl w);
  cn_env : w_env w' = w_env w;
}.

(** The invariant does not speak of the session. *)
Lemma mux_ok_ctl w c : mux_ok w → mux_ok (set_w_ctl c w).
Proof.
  intros [Hpc ? ? ? ? ? ? ? ?]. constructor; try done.
  intros p pc E. destruct (Hpc p pc E). by constructor.
Qed.

(** The main stream after a reset of the counter, in a state without clients. *)
Lemma main_stream_ok w w1 (s := mkStream 1 MAX_STREAM_WINDOW_SIZE (256 * 1024) TMUX_INIT false false []) bevs :
  cleared w w1 → (∀ b x, bevs !! b = Some x → (b < w_next w)%positive) →
  mux_ok (set_w_all_stream {[1 := SMain]} (set_w_main_stream s (set_w_session_id 3
            (set_w_connect_bev None (set_w_bevs bevs w1))))).
Proof.
  intros [Hp Ha Hs Hb Hc Hcn Hn Hse Hm _] Hf. constructor; simpl; rewrite ?Hp, ?Ha, ?Hn; try done.
  intros id r [<- <-]%lookup_singleton_Some. split; [lia|]. by left.
Qed.

Lemma wp_request_reconnect w :
  mux_ok w → e_tcp_mux (w_env w) ≠ 0 → wp request_reconnect (λ _ w', clean w w') w.
Proof.
  intros Ok Hmux. unfold request_reconnect, reset_session_id, clear_main_control, upd_ctl,
    handle_tcp_mux_reset, set_cur_stream. wps.
  set (w1 := set_w_cur None _). set (f := fresh_session (w_ctl w)).
  assert (freeable (map snd (map_to_list (w_all_pc w1))) w1) as Hf by exact (all_pc_freeable w Ok).
  assert (∀ p x, w_pcs w1 !! p = Some x → w_all_pc w1 !! pc_stream_id x = Some p) as Hin.
  { intros p x. exact (all_pc_covered w p x Ok). }
  eapply wp_mono; [apply wp_pres; [apply (pres_clear_all settled)|by apply wp_clear_tables]|].
  intros u w2 [C (E2 & L2 & Cu2 & H2 & S2 & P2)]. wps. cbn [w_connect_bev set_w_ctl].
  rewrite (cl_connect _ _ C). change (w_connect_bev w1) with (w_connect_bev w).
  set (bevs' := match w_connect_bev w with Some b => delete b (w_bevs w2) | None => w_bevs w2 end).
  assert (∀ b x, bevs' !! b = Some x → (b < w_next w)%positive) as Hfr.
  { intros b x E. apply (ok_fresh_bev _ Ok b x). apply (cl_bevs _ _ C). revert E. unfold bevs'.
    destruct (w_connect_bev w); [|done]. by intros [_ ?]%lookup_delete_Some. }
  set (w3 := set_w_connect_bev None (set_w_bevs bevs' (set_w_ctl (set_ss_coders
     (free_crypto_resources (ss_coders (w_ctl w2))) (w_ctl w2)) w2))).
  apply (wp_mono _ (λ _ w', w' = w3)).
  { destruct (w_connect_bev w) as [b|] eqn:Eb; wps.
    - destruct (ok_connect _ Ok b Eb) as [x Ex].
      assert (w_bevs w2 !! b = Some x) as Ex2 by by rewrite (cl_conn _ _ C b Eb).
      unfold bufferevent_free. wp_bev Ex2. done.
    - assert (w_connect_bev w2 = None) as Hc2 by (rewrite (cl_connect _ _ C); exact Eb).
      clear -Hc2. unfold w3, bevs'. destruct w2. simpl in *. by subst. }
  intros u3 w' ->. unfold tcp_mux, get_next_session_id, init_tmux_stream, add_stream. wps.
  assert (w_env w3 = w_env w) as E3 by exact E2.
  assert (w_session_id w3 = 1) as Hs3 by exact (cl_session _ _ C).
  assert (w_all_stream w3 = ∅) as Ha3 by exact (cl_all_stream _ _ C).
  rewrite E3, (proj2 (Z.eqb_neq _ 0) Hmux). wps. rewrite Hs3.
  set (s := mkStream _ _ _ _ _ _ _). cbn [upd_stream]. wps.
  assert (lookup_stream (set_w_main_stream s (set_w_session_id (u32 (1 + 2)) w3)) SMain = Some s) as El
    by done.
  wp_st El. cbn [s_id s w_all_stream set_w_main_stream set_w_session_id]. rewrite Ha3.
  change (∅ !! 1) with (@None sref). wps. simpl s_id. rewrite insert_empty.
  pose proof (main_stream_ok w1 w2 bevs' C Hfr) as Ok'.
  constructor; try done; simpl.
  - exact (mux_ok_ctl _ (set_ss_reconnect true _) Ok').
  - apply (cl_pcs _ _ C).
  - apply (cl_all_pc _ _ C).
  - intros b Hb. unfold bevs'. rewrite Hb. apply lookup_delete_eq.
  - intros p x b Ep Hb. pose proof (cl_locals _ _ C p x b Ep Hb) as Hn. unfold bevs'.
    destruct (w_connect_bev w) as [c|]; [|done]. destruct (decide (b = c)) as [->|Hne];
      [apply lookup_delete_eq|by rewrite lookup_delete_ne].
  - by rewrite L2.
Qed.
(** ** Repeated attempts *)

(** [k] rounds of: connect, be told that it failed, wait, clear; with the
    delays that were armed. *)
Fixpoint failed_attempts (k : nat) : M (list Z) :=
  match k with
  | O => ret []
  | S k =>
      start_base_connect ;;
      main <- gets w_connect_bev ;;
      match main with
      | None => ret []
      | Some b =>
          connect_event_cb b true false ;;
          c <- get_ctl ;;
          reconnect_timer_cb ;;
          rest <- failed_attempts k ;;
          ret (option_list (ss_reconnect_timer c) ++ rest)
      end
  end.

Definition same_session (w w' : world) : Prop := w_env w' = w_env w ∧ w_ctl w' = w_ctl w.
#[local] Instance same_session_frame : DataFrame same_session.
Proof. repeat split; try done; unfold same_session in *; intuition congruence. Qed.

Lemma backoff_power n : 1 ≤ n → reconnect_backoff_seconds n = Z.min 60 (2 ^ n).
Proof.
  intros Hn. unfold reconnect_backoff_seconds, RETRY_DELAY_SECONDS, MAX_RETRY_DELAY_SECONDS.
  rewrite (proj2 (Z.ltb_ge (n - 1) 0)) by lia.
  destruct (Z.ltb_spec 5 (n - 1)) as [Hb|Hb].
  - assert (2 ^ 6 ≤ 2 ^ n) by (apply Z.pow_le_mono_r; lia). simpl. lia.
  - assert (n = 1 ∨ n = 2 ∨ n = 3 ∨ n = 4 ∨ n = 5 ∨ n = 6) as Hc by lia.
    by repeat (destruct Hc as [->|Hc]; [reflexivity|]); subst.
Qed.

(** Between attempts: no client, no connection. *)
Definition idle (w : world) : Prop := mux_ok w ∧ w_pcs w = ∅ ∧ w_connect_bev w = None.

(** The server can be addressed and memory suffices. *)
Definition reachable_server (w : world) : Prop :=
  alloc_ok w ∧ e_tcp_mux (w_env w) ≠ 0 ∧ cf_server_addr (e_config (w_env w)) ≠ None ∧
  0 < cf_server_port (e_config (w_env w)).

Lemma mux_ok_connect w b :
  mux_ok w → w_pcs w = ∅ → is_Some (w_bevs w !! b) → mux_ok (set_w_connect_bev (Some b) w).
Proof.
  intros [] Hp Hb. constructor; try done; simpl.
  - intros p pc. by rewrite Hp.
  - by intros c [= <-].
Qed.

(** A connection attempt that gets as far as a socket. *)
Lemma wp_start_base_connect w :
  idle w → reachable_server w →
  wp start_base_connect (λ _ w', mux_ok w' ∧ same_session w w' ∧
    ∃ b, w_connect_bev w' = Some b ∧ is_Some (w_bevs w' !! b)) w.
Proof.
  intros (Ok & Hp & Hc) (He & _ & Ha & Hport). unfold start_base_connect. wps. rewrite Hc. wps.
  eapply wp_mono; [apply wp_pres; [apply (pres_connect_server same_session)|by apply wp_connect_server_alloc]|].
  intros o w1 [[Hn Hs] Hss]. destruct (Hs He eq_refl Ha Hport) as [b ->].
  destruct Hn as ([Ok1 _] & P1 & U1). destruct (U1 b eq_refl) as [[[x Ex] _] _]. wps.
  pose proof (mux_ok_connect w1 b Ok1) as Ok2. rewrite P1 in Ok2. specialize (Ok2 Hp (ex_intro _ x Ex)).
  set (w2 := set_w_connect_bev (Some b) w1) in *. assert (w_bevs w2 !! b = Some x) as E2 by done.
  unfold bufferevent_enable, bufferevent_setcb. wp_bev E2.
  match goal with |- wp _ _ (set_w_bevs (<[b:=?y]> _) _) => set (y2 := y) end.
  pose proof (stays_bev w2 b x y2 E2) as S2. set (w3 := set_w_bevs _ w2) in *.
  assert (w_bevs w3 !! b = Some y2) as E3 by apply lookup_insert_eq. wp_bev E3.
  match goal with |- mux_ok (set_w_bevs (<[b:=?y]> _) _) ∧ _ => set (y3 := y) end.
  split; [eapply mux_ok_stays; [exact Ok2|etransitivity; [exact S2|by eapply stays_bev]]|].
  split; [exact Hss|]. exists b. split; [done|]. simpl. rewrite lookup_insert_eq. by eexists.
Qed.

(** The failure arms the timer with the delay of the incremented counter. *)
Lemma wp_connect_failed b w :
  mux_ok w → alloc_ok w → is_Some (w_bevs w !! b) →
  wp (connect_event_cb b true false) (λ _ w', mux_ok w' ∧ w_env w' = w_env w ∧
    w_connect_bev w' = w_connect_bev w ∧
    w_ctl w' = set_ss_reconnect_timer (Some (reconnect_backoff_seconds (ss_retry (w_ctl w) + 1)))
                 (set_ss_retry (ss_retry (w_ctl w) + 1) (w_ctl w))) w.
Proof.
  intros Ok He [x Ex]. unfold connect_event_cb, bufferevent_disable, handle_connection_failure,
    upd_ctl, get_ctl. wp_bev Ex. rewrite He. wps.
  split; [|done]. match goal with |- mux_ok (set_w_ctl ?c _) =>
    apply (mux_ok_ctl (set_w_tick (S (w_tick w)) (set_w_bevs (<[b:=_]> (w_bevs w)) w)) c) end.
  eapply mux_ok_stays; [exact Ok|]. etransitivity; [by eapply stays_bev|apply stays_tick].
Qed.

Lemma run_failed_attempts k w :
  idle w → reachable_server w → 0 ≤ ss_retry (w_ctl w) →
  wp (failed_attempts k) (λ delays w', idle w' ∧ ss_retry (w_ctl w') = ss_retry (w_ctl w) + Z.of_nat k ∧
    delays = map (λ i, Z.min 60 (2 ^ (ss_retry (w_ctl w) + 1 + Z.of_nat i))) (seq 0 k)) w.
Proof.
  revert w. induction k as [|k IH]; intros w Hi Hr Hn; cbn [failed_attempts]; wps.
  { split; [done|]. split; [lia|done]. }
  unfold get_ctl, reconnect_timer_cb.
  eapply wp_mono; [by apply wp_start_base_connect|]. intros u w1 (Ok1 & [E1 C1] & b & Hb & Lb). wps.
  rewrite Hb. wps. assert (alloc_ok w1) as He1 by (unfold alloc_ok; rewrite E1; apply Hr).
  eapply wp_mono; [by apply wp_connect_failed|]. intros u2 w2 (Ok2 & E2 & Hc2 & C2). wps.
  assert (w_env w2 = w_env w) as E2w by congruence.
  eapply wp_mono; [apply wp_request_reconnect; [done|rewrite E2w; apply Hr]|]. intros u3 w3 Cl. wps.
  assert (ss_retry (w_ctl w3) = ss_retry (w_ctl w) + 1) as Hr3.
  { rewrite (cn_ctl _ _ Cl), C2, C1. done. }
  eapply wp_mono.
  { apply IH; [split; [apply Cl|split; apply Cl]| |lia].
    unfold reachable_server, alloc_ok. by rewrite (cn_env _ _ Cl), E2w. }
  intros ds w4 (Hi4 & Hr4 & ->). wps. split; [done|]. split; [lia|].
  rewrite C2, C1. simpl. rewrite backoff_power by lia. f_equal; [by rewrite Z.add_0_r|].
  rewrite <- seq_shift, map_map, Hr3. apply map_ext. intros i. do 2 f_equal. lia.
Qed.

End Reconnect.

(** C34: a reconnection starts from scratch.  Whatever the session was doing,
    the steps before a reconnection run without undefined behaviour, free the
    main connection and every client with its local connection, and leave the
    tables holding only the main stream under id 1 in its initial state, the
    frame parser empty, the coders and the login forgotten; the run id, the
    configuration and the retry counter stay. *)
Theorem reconnect_starts_clean `{Mbedtls} (w : world) (Ok : mux_ok w) (Hmux : e_tcp_mux (w_env w) ≠ 0) :
  ∃ w', request_reconnect w = Some ((), w') ∧ clean w w'.
Proof.
  pose proof (wp_request_reconnect w Ok Hmux) as Hw. apply wp_run in Hw as ([] & w' & Hr & Hq). eauto.
Qed.

(** The client keeps trying, at growing distances.  Starting without a
    connection, any number of attempts that end in an error can follow each
    other; the delays armed are 2, 4, 8, 16, 32 and then always 60 seconds,
    continued from the failures before, and the client is ready for the next
    attempt after each. *)
Lemma reconnect_backoff_schedule `{Mbedtls} (k : nat) (w : world)
    (Hi : idle w) (Hr : reachable_server w) (Hn : 0 ≤ ss_retry (w_ctl w)) :
  ∃ w', failed_attempts k w =
      Some (map (λ i, Z.min 60 (2 ^ (ss_retry (w_ctl w) + 1 + Z.of_nat i))) (seq 0 k), w') ∧
    idle w' ∧ ss_retry (w_ctl w') = ss_retry (w_ctl w) + Z.of_nat k.
Proof.
  pose proof (run_failed_attempts k w Hi Hr Hn) as Hw.
  apply wp_run in Hw as (ds & w' & Hrun & Hi' & Hr' & ->). eauto.
Qed.

(** ** Concrete runs *)

#[local] Existing Instance Toy.mbedtls.

Lemma reconnect_starts_clean_witness :
  ∃ w', request_reconnect (Demo.world TMUX_ESTABLISHED [1; 2]) = Some ((), w') ∧
    clean (Demo.world TMUX_ESTABLISHED [1; 2]) w'.
Proof.
  apply (reconnect_starts_clean (Demo.world TMUX_ESTABLISHED [1; 2]) (Demo.world_ok _ _)).
  discriminate.
Defined.

(** The demonstration client after a reconnection was requested. *)
Definition cleared_world : world :=
  match request_reconnect (Demo.world TMUX_ESTABLISHED []) with Some (_, w) => w | None => Demo.world TMUX_INIT [] end.

Lemma cleared_world_clean : clean (Demo.world TMUX_ESTABLISHED []) cleared_world.
Proof.
  destruct (wp_run request_reconnect (λ _ w', clean (Demo.world TMUX_ESTABLISHED []) w')
    (Demo.world TMUX_ESTABLISHED [])) as [Hw _].
  destruct Hw as ([] & w' & Hr & Hq).
  - apply wp_request_reconnect; [apply Demo.world_ok|discriminate].
  - unfold cleared_world. rewrite Hr. exact Hq.
Qed.

Lemma reconnect_backoff_schedule_witness :
  ∃ w', failed_attempts 7 cleared_world = Some ([2; 4; 8; 16; 32; 60; 60], w').
Proof.
  pose proof cleared_world_clean as C.
  destruct (reconnect_backoff_schedule 7 cleared_world) as (w' & Hr & _).
  - split; [apply C|split; apply C].
  - unfold reachable_server, alloc_ok. rewrite (cn_env _ _ C).
    split; [reflexivity|]. split; [discriminate|]. split; [discriminate|reflexivity].
  - rewrite (cn_ctl _ _ C). discriminate.
  - exists w'. rewrite Hr. rewrite (cn_ctl _ _ C). reflexivity.
Defined.
