(* ===== verification/SendEnc.v ===== *)
(** * The encrypted control channel, as the server sees it

    [send_enc_msg_frp_server] of [src/src/control.c] over the multiplexer: the
    payloads of the frames it queues are the iv, once, and then one cipher
    stream, which a decoder with the same token turns back into the messages
    in order. *)

From S2P Require Import Prelude Endian Evp CryptoStream Coder WireV2 Json World Mux MuxInv MuxSafe MuxThm ProxyTcp Frame ProxySafe Forward StartWork Demux Msg Session Reconnect.

Section SendEnc.
Context `{Mbedtls}.

(** ** Writes that cannot fail *)

Lemma run_oracle w : alloc_ok w → oracle w = Some (true, set_w_tick (S (w_tick w)) w).
Proof. intros He. unfold oracle. by rewrite He. Qed.

(** A connection the client can write on: the main stream is open. *)
Record writable (b : positive) (w : world) : Prop := {
  wr_ok : mux_ok w;
  wr_alloc : alloc_ok w;
  wr_mux : e_tcp_mux (w_env w) ≠ 0;
  wr_connect : w_connect_bev w = Some b;
  wr_reg : registered w SMain (w_main_stream w);
  wr_open : closed_for_writing (s_state (w_main_stream w)) = false;
}.

(** [fs] was queued on the main stream, and otherwise only the coders of the
    session may have changed. *)
Record queued (b : positive) (fs : list wire_frame) (w w' : world) : Prop := {
  qd_writable : writable b w';
  qd_env : w_env w' = w_env w;
  qd_id : s_id (w_main_stream w') = s_id (w_main_stream w);
  qd_window : s_send_window (w_main_stream w') = s_send_window (w_main_stream w) - zlen (payloads fs);
  qd_out : out_of w' b = (λ o, o ++ frames_bytes (s_id (w_main_stream w)) fs) <$> out_of w b;
  qd_others : ∀ c, c ≠ b → out_of w' c = out_of w c;
  qd_ctl : w_ctl w' = set_ss_coders (ss_coders (w_ctl w')) (w_ctl w);
}.

Lemma payloads_app fs gs : payloads (fs ++ gs) = payloads fs ++ payloads gs.
Proof. unfold payloads. by rewrite map_app, concat_app. Qed.
Lemma frames_bytes_app id fs gs : frames_bytes id (fs ++ gs) = frames_bytes id fs ++ frames_bytes id gs.
Proof. unfold frames_bytes. by rewrite map_app, concat_app. Qed.

Lemma queued_trans b fs gs w1 w2 w3 : queued b fs w1 w2 → queued b gs w2 w3 → queued b (fs ++ gs) w1 w3.
Proof.
  intros [? E1 I1 W1 O1 C1 T1] [? E2 I2 W2 O2 C2 T2]. constructor; try congruence.
  - rewrite W2, W1, payloads_app, zlen_app. lia.
  - by rewrite O2, O1, I1, option_app_app, frames_bytes_app.
  - intros c Hc. by rewrite C2, C1.
  - rewrite T2 at 1. by rewrite T1 at 1.
Qed.

(** Writes to the session's coders. *)
Lemma queued_ctl b w cs : writable b w → queued b [] w (set_w_ctl (set_ss_coders cs (w_ctl w)) w).
Proof.
  intros Hw. pose proof Hw as []. constructor; try done; simpl.
  - constructor; try done. by apply mux_ok_ctl.
  - unfold payloads. simpl. rewrite zlen_nil. lia.
  - by rewrite option_app_nil.
Qed.

Lemma queued_tick b w n : writable b w → queued b [] w (set_w_tick n w).
Proof.
  intros Hw. pose proof Hw as []. constructor; try done; simpl.
  - constructor; try done. eapply mux_ok_stays; [done|apply stays_tick].
  - unfold payloads. simpl. rewrite zlen_nil. lia.
  - by rewrite option_app_nil.
  - by destruct (w_ctl w).
Qed.

Lemma closed_after_send st : closed_for_writing st = false → closed_for_writing (state_after_send st) = false.
Proof. by destruct st. Qed.

(** A write to an open window sends one frame with what flow control allows. *)
Lemma run_write_some b d w :
  writable b w → 0 < zlen d < 2 ^ 32 → 0 < s_send_window (w_main_stream w) →
  let n := frame_len d (w_main_stream w) in
  ∃ f w', tmux_stream_write (Some b) d SMain w = Some ((n, zdrop n d), w') ∧
    queued b [(f, ztake n d)] w w' ∧ w_ctl w' = w_ctl w.
Proof.
  intros [Ok He Hm Hc Hreg Ho] [Hd1 Hl] Hwin n.
  assert (bev_live w (Some b)) as L by (intros c [= <-]; by apply (ok_connect _ Ok)).
  destruct (run_tmux_stream_write (Some b) d SMain (w_main_stream w) w Ok Hreg L Hl)
    as (rc & rest & w1 & Hrun & Hout & Ok1).
  destruct Hout as [Hcl|_ Hno|w1 _ _ _ S1 E1 R1|b' n' w1 _ Ht Hn Hpos S1 _ _ _ E1 O1 C1].
  - congruence.
  - destruct Hno as [->|Hz]; [by unfold zlen in Hd1|lia].
  - exfalso. inversion R1; by rewrite He in *.
  - injection Ht as <-. fold n in Hn. subst n'.
    exists (flags_to_send (s_state (w_main_stream w))), w1.
    assert (w_main_stream w1 = stream_sent (w_main_stream w) n) as Em by by injection E1.
    assert (zlen (ztake n d) = n) as Hz by (rewrite zlen_ztake; unfold n, frame_len in *; lia).
    split; [exact Hrun|]. pose proof S1 as [K W]. split; [|apply K].
    constructor; try (by apply K); rewrite ?Em; try done.
    + constructor; [done|intros k; rewrite (k_env _ _ K); apply He|by rewrite (k_env _ _ K)
        |by rewrite (k_connect _ _ K)|rewrite Em; eapply registered_stays; [exact S1|exact Hreg|exact E1]|].
      rewrite Em. simpl. by apply closed_after_send.
    + simpl. unfold payloads. simpl. rewrite app_nil_r. lia.
    + rewrite O1. unfold data_frame, data_hdr, frames_bytes, frame_bytes. simpl.
      by rewrite app_nil_r, Hz.
    + rewrite (k_ctl _ _ K). by destruct (w_ctl w).
Qed.

(** Messages that fit the window and a frame. *)
Definition fits (d : bytes) (w : world) : Prop :=
  0 < zlen d ≤ DEFAULT_MAX_FRAME_SIZE ∧ zlen d ≤ s_send_window (w_main_stream w).

Lemma run_write_fits b d w :
  writable b w → fits d w →
  ∃ f w', tmux_stream_write (Some b) d SMain w = Some ((zlen d, []), w') ∧ queued b [(f, d)] w w' ∧
    w_ctl w' = w_ctl w.
Proof.
  intros Hw [[Hd1 Hd2] Hd3].
  destruct (run_write_some b d w Hw) as (f & w' & Hrun & Q & C); [unfold DEFAULT_MAX_FRAME_SIZE in *; lia|lia|].
  assert (frame_len d (w_main_stream w) = zlen d) as Hf by (unfold frame_len; lia).
  rewrite Hf, zdrop_ge in Hrun by lia. rewrite Hf, ztake_ge in Q by lia. eauto.
Qed.

Lemma run_write_message b d w :
  writable b w → fits d w →
  ∃ f w', write_message b d (Some SMain) w = Some (true, w') ∧ queued b [(f, d)] w w' ∧
    w_ctl w' = w_ctl w.
Proof.
  intros Hw Hf. unfold write_message.
  runs (run_oracle w (wr_alloc _ _ Hw)).
  pose proof (queued_tick b w (S (w_tick w)) Hw) as Q1. set (w1 := set_w_tick _ w) in *.
  runs (run_oracle w1 (wr_alloc _ _ (qd_writable _ _ _ _ Q1))).
  pose proof (queued_tick b w1 (S (w_tick w1)) (qd_writable _ _ _ _ Q1)) as Q2.
  set (w2 := set_w_tick _ w1) in *.
  destruct (run_write_fits b d w2 (qd_writable _ _ _ _ Q2)) as (f & w3 & Hr & Q3 & C3); [done|].
  exists f, w3. runs Hr. simpl fst. rewrite (proj2 (Z.leb_le _ _)) by (destruct Hf; lia).
  split; [done|]. split; [|done].
  exact (queued_trans _ _ _ _ _ _ Q1 (queued_trans _ _ _ _ _ _ Q2 Q3)).
Qed.
(** ** The encoder *)

(** The next message continues the cipher stream at [st]. *)
Definition encoding (w : world) (st : cfb_st) : Prop :=
  ∃ e, main_encoder (ss_coders (w_ctl w)) = Some e ∧ enc_state (ss_coders (w_ctl w)) st.

(** The key an encoder made now would have. *)
Definition encoder_key (w : world) : bytes :=
  match main_decoder (ss_coders (w_ctl w)) with
  | Some d => fc_key d
  | None => encrypt_key (e_pbkdf2 (w_env w)) (default [] (e_auth_token (w_env w))) default_salt
  end.

Definition good_random (w : world) : Prop := ∀ n, zlen (e_rand (w_env w) n) = 16.

Lemma run_make_encoder b w :
  writable b w → good_random w →
  ∃ e w', make_encoder w = Some (Some e, w') ∧ queued b [] w w' ∧ w_main_stream w' = w_main_stream w ∧
    fc_key e = encoder_key w ∧ zlen (fc_iv e) = 16 ∧ encoding w' (cfb_start (fc_key e) (fc_iv e)).
Proof.
  intros Hw Hg. unfold make_encoder.
  runs (run_oracle w (wr_alloc _ _ Hw)).
  pose proof (queued_tick b w (S (w_tick w)) Hw) as Q1. set (w1 := set_w_tick _ w) in *.
  runs (run_oracle w1 (wr_alloc _ _ (qd_writable _ _ _ _ Q1))).
  pose proof (queued_tick b w1 (S (w_tick w1)) (qd_writable _ _ _ _ Q1)) as Q2.
  set (w2 := set_w_tick _ w1) in *.
  rewrite (bind_run random_block _ w2 _ _ eq_refl). cbv beta.
  pose proof (queued_tick b w2 (S (w_tick w2)) (qd_writable _ _ _ _ Q2)) as Q3.
  set (w3 := set_w_tick _ w2) in *. unfold get_ctl, upd_ctl.
  rewrite !bind_gets. set (rnd := e_rand _ _). assert (zlen rnd = 16) as Hr by apply Hg.
  unfold init_main_encoder, new_coder, encrypt_iv. change (block_size <? block_size) with false.
  cbn [clone_coder negb mbind option_bind].
  pose proof (queued_trans _ _ _ _ _ _ Q1 (queued_trans _ _ _ _ _ _ Q2 Q3)) as Q.
  change (w_ctl w3) with (w_ctl w). unfold encoder_key. change (w_env w3) with (w_env w).
  destruct (main_decoder (ss_coders (w_ctl w))) as [d|]; simpl; (eexists _, _; split; [reflexivity|]);
    (split; [exact (queued_trans _ _ _ _ _ _ Q (queued_ctl b w3 _ (qd_writable _ _ _ _ Q)))|]);
    (split; [done|]); (split; [done|]); (split; [exact Hr|]); eexists; (split; [done|]); by eexists.
Qed.

Lemma run_prepare_encrypted b t msg st w :
  writable b w → encoding w st →
  ∃ w', prepare_encrypted_message t msg w =
      Some (Some (snd (aes_crypt_cfb128 MBEDTLS_ENCRYPT st (message_bytes t msg))), w') ∧
    queued b [] w w' ∧ w_main_stream w' = w_main_stream w ∧
    encoding w' (fst (aes_crypt_cfb128 MBEDTLS_ENCRYPT st (message_bytes t msg))).
Proof.
  intros Hw (e & Ee & Hst). unfold prepare_encrypted_message.
  runs (run_oracle w (wr_alloc _ _ Hw)).
  pose proof (queued_tick b w (S (w_tick w)) Hw) as Q1. set (w1 := set_w_tick _ w) in *.
  runs (run_oracle w1 (wr_alloc _ _ (qd_writable _ _ _ _ Q1))).
  pose proof (queued_tick b w1 (S (w_tick w1)) (qd_writable _ _ _ _ Q1)) as Q2.
  set (w2 := set_w_tick _ w1) in *.
  runs (run_oracle w2 (wr_alloc _ _ (qd_writable _ _ _ _ Q2))).
  pose proof (queued_tick b w2 (S (w_tick w2)) (qd_writable _ _ _ _ Q2)) as Q3.
  set (w3 := set_w_tick _ w2) in *. unfold get_ctl, upd_ctl. rewrite bind_gets.
  change (w_ctl w3) with (w_ctl w).
  destruct (encrypt_data_stream (ss_coders (w_ctl w)) st e (message_bytes t msg) Ee Hst)
    as (cs & -> & Ee' & Hst'). rewrite bind_modify.
  pose proof (queued_trans _ _ _ _ _ _ Q1 (queued_trans _ _ _ _ _ _ Q2 Q3)) as Q.
  rewrite (proj2 (Z.leb_gt _ _)) by (unfold message_bytes, msg_hdr_bytes; lens).
  eexists. split; [reflexivity|].
  split; [exact (queued_trans _ _ _ _ _ _ Q (queued_ctl b w3 cs (qd_writable _ _ _ _ Q)))|].
  split; [done|]. by exists e.
Qed.

(** ** Messages *)

Lemma out_bev_main b w : w_connect_bev w = Some b → out_bev None w = Some (Some b, w).
Proof. intros E. unfold out_bev, bind, gets, ret. by rewrite E. Qed.

Lemma message_size t msg : zlen (message_bytes t msg) = 9 + zlen msg.
Proof. unfold message_bytes, msg_hdr_bytes, le64_put. lens. Qed.

(** The tail of the function, once the encoder is there. *)
Lemma run_send_tail b t msg st w :
  writable b w → encoding w st → fits (message_bytes t msg) w →
  ∃ f w', (enc <- prepare_encrypted_message t msg ;;
           match enc with
           | None => ret ()
           | Some enc =>
               mux <- tcp_mux ;;
               if negb (mux =? 0) then write_message b enc (Some SMain) ;; ret ()
               else
                 c <- get_ctl ;;
                 match main_encoder (ss_coders c) with
                 | None => ub
                 | Some e =>
                     ok <- oracle ;;
                     let d := (if fc_iv_sent e then [] else fc_iv e) ++ enc in
                     upd_ctl (λ c, set_ss_coders (mark_iv_sent (ss_coders c)) c) ;;
                     x <- get_bev b ;;
                     if b_ssl x then ret () else write_direct 100 b (if ok then d else [])
                 end
           end) w = Some ((), w') ∧
    queued b [(f, snd (aes_crypt_cfb128 MBEDTLS_ENCRYPT st (message_bytes t msg)))] w w' ∧
    encoding w' (fst (aes_crypt_cfb128 MBEDTLS_ENCRYPT st (message_bytes t msg))).
Proof.
  intros Hw Henc [Hs1 Hs2].
  destruct (run_prepare_encrypted b t msg st w Hw Henc) as (w1 & Hr1 & Q1 & Hm1 & Henc1).
  runs Hr1. unfold tcp_mux at 1. rewrite bind_gets.
  pose proof (qd_writable _ _ _ _ Q1) as Hw1. rewrite (proj2 (Z.eqb_neq _ 0) (wr_mux _ _ Hw1)). simpl.
  destruct (run_write_message b (snd (aes_crypt_cfb128 MBEDTLS_ENCRYPT st (message_bytes t msg))) w1 Hw1)
    as (f & w2 & Hr2 & Q2 & C2); [by unfold fits; rewrite cfb_len, Hm1|].
  exists f, w2. runs Hr2. split; [done|].
  split; [exact (queued_trans _ _ _ _ _ _ Q1 Q2)|]. unfold encoding. by rewrite C2.
Qed.

Lemma run_send_ready b t msg st w :
  writable b w → encoding w st → fits (message_bytes t msg) w →
  ∃ f w', send_enc_msg_frp_server None t msg (Some SMain) w = Some ((), w') ∧
    queued b [(f, snd (aes_crypt_cfb128 MBEDTLS_ENCRYPT st (message_bytes t msg)))] w w' ∧
    encoding w' (fst (aes_crypt_cfb128 MBEDTLS_ENCRYPT st (message_bytes t msg))).
Proof.
  intros Hw Henc Hf. unfold send_enc_msg_frp_server. runs (out_bev_main b w (wr_connect _ _ Hw)).
  unfold get_ctl at 1. rewrite bind_gets. pose proof Henc as (e & Ee & _).
  unfold is_encoder_inited. rewrite Ee, bool_decide_true by by eexists.
  exact (run_send_tail b t msg st w Hw Henc Hf).
Qed.

(** The first message makes the encoder and sends its iv. *)
Lemma run_send_first b t msg w :
  writable b w → good_random w → main_encoder (ss_coders (w_ctl w)) = None →
  zlen (message_bytes t msg) ≤ DEFAULT_MAX_FRAME_SIZE →
  16 + zlen (message_bytes t msg) ≤ s_send_window (w_main_stream w) →
  ∃ f g iv w', send_enc_msg_frp_server None t msg (Some SMain) w = Some ((), w') ∧ zlen iv = 16 ∧
    queued b [(f, iv); (g, snd (aes_crypt_cfb128 MBEDTLS_ENCRYPT (cfb_start (encoder_key w) iv)
                              (message_bytes t msg)))] w w' ∧
    encoding w' (fst (aes_crypt_cfb128 MBEDTLS_ENCRYPT (cfb_start (encoder_key w) iv)
                   (message_bytes t msg))).
Proof.
  intros Hw Hg Hno Hs1 Hs2. unfold send_enc_msg_frp_server.
  runs (out_bev_main b w (wr_connect _ _ Hw)). unfold get_ctl at 1. rewrite bind_gets.
  unfold is_encoder_inited. rewrite Hno, bool_decide_false by by intros [? [=]].
  destruct (run_make_encoder b w Hw Hg) as (e & w1 & Hr1 & Q1 & Hm1 & Hk & Hiv & Henc).
  pose proof (qd_writable _ _ _ _ Q1) as Hw1. pose proof (message_size t msg).
  pose proof (zlen_nonneg msg).
  destruct (run_write_message b (fc_iv e) w1 Hw1) as (f & w2 & Hr2 & Q2 & C2).
  { unfold fits, DEFAULT_MAX_FRAME_SIZE. rewrite Hiv, Hm1. lia. }
  assert (initialize_encoder b (Some SMain) w = Some (true, w2)) as Hinit.
  { unfold initialize_encoder. runs Hr1. unfold tcp_mux at 1. rewrite bind_gets.
    by rewrite (proj2 (Z.eqb_neq _ 0) (wr_mux _ _ Hw1)). }
  runs Hinit.
  assert (encoding w2 (cfb_start (fc_key e) (fc_iv e))) as Henc2 by (unfold encoding; by rewrite C2).
  destruct (run_send_tail b t msg _ w2 (qd_writable _ _ _ _ Q2) Henc2) as (g & w3 & Hr3 & Q3 & Henc3).
  { unfold fits. rewrite (qd_window _ _ _ _ Q2), Hm1. unfold payloads. simpl. rewrite app_nil_r, Hiv. lia. }
  rewrite Hk in *. exists f, g, (fc_iv e), w3. split; [exact Hr3|]. split; [done|]. split; [|done].
  exact (queued_trans _ _ _ _ _ _ Q1 (queued_trans _ _ _ _ _ _ Q2 Q3)).
Qed.

(** A sequence of messages. *)
Fixpoint send_enc_all (ms : list (msg_type * bytes)) : M () :=
  match ms with
  | [] => ret ()
  | (t, m) :: ms => send_enc_msg_frp_server None t m (Some SMain) ;; send_enc_all ms
  end.

Definition plaintext (ms : list (msg_type * bytes)) : bytes :=
  concat (map (λ tm, message_bytes tm.1 tm.2) ms).

Lemma plaintext_cons t m ms : plaintext ((t, m) :: ms) = message_bytes t m ++ plaintext ms.
Proof. done. Qed.

(** Every message fits a frame. *)
Definition frame_messages (ms : list (msg_type * bytes)) : Prop :=
  Forall (λ tm, zlen (message_bytes tm.1 tm.2) ≤ DEFAULT_MAX_FRAME_SIZE) ms.

Lemma run_send_all b ms st w :
  writable b w → encoding w st → frame_messages ms →
  zlen (plaintext ms) ≤ s_send_window (w_main_stream w) →
  ∃ fs w', send_enc_all ms w = Some ((), w') ∧ queued b fs w w' ∧
    payloads fs = snd (aes_crypt_cfb128 MBEDTLS_ENCRYPT st (plaintext ms)).
Proof.
  revert st w. induction ms as [|[t m] ms IH]; intros st w Hw Henc Hfr Hwin.
  { exists [], w. split; [done|]. split; [|by rewrite cfb_nil].
    pose proof (queued_tick b w (w_tick w) Hw) as Q. by destruct w. }
  apply Forall_cons in Hfr as [Hf0 Hfr]. cbn [fst snd] in Hf0. rewrite plaintext_cons in *.
  rewrite zlen_app in Hwin. pose proof (message_size t m). pose proof (zlen_nonneg m).
  set (rest := plaintext ms) in *. pose proof (zlen_nonneg rest). cbn [send_enc_all].
  destruct (run_send_ready b t m st w Hw Henc) as (f & w1 & Hr & Q1 & Henc1); [unfold fits; lia|].
  destruct (IH _ w1 (qd_writable _ _ _ _ Q1) Henc1 Hfr) as (fs & w2 & Hr2 & Q2 & Hp).
  { rewrite (qd_window _ _ _ _ Q1). unfold payloads. simpl. rewrite app_nil_r, cfb_len. lia. }
  exists ((f, snd (aes_crypt_cfb128 MBEDTLS_ENCRYPT st (message_bytes t m))) :: fs), w2.
  rewrite (bind_run _ _ _ _ _ Hr). split; [exact Hr2|].
  split; [exact (queued_trans _ _ _ _ _ _ Q1 Q2)|].
  rewrite cfb_app. destruct (aes_crypt_cfb128 MBEDTLS_ENCRYPT st (message_bytes t m)) as [st1 o1].
  cbn [fst snd] in *. unfold payloads in *. simpl. rewrite Hp.
  by destruct (aes_crypt_cfb128 MBEDTLS_ENCRYPT st1 rest).
Qed.

(** From a session that has not sent anything yet. *)
Lemma run_send_session b t m ms w :
  writable b w → good_random w → main_encoder (ss_coders (w_ctl w)) = None →
  frame_messages ((t, m) :: ms) →
  16 + zlen (plaintext ((t, m) :: ms)) ≤ s_send_window (w_main_stream w) →
  ∃ fs iv w', send_enc_all ((t, m) :: ms) w = Some ((), w') ∧ queued b fs w w' ∧ zlen iv = 16 ∧
    payloads fs = iv ++ snd (aes_crypt_cfb128 MBEDTLS_ENCRYPT (cfb_start (encoder_key w) iv)
                               (plaintext ((t, m) :: ms))).
Proof.
  intros Hw Hg Hno Hfr Hwin. apply Forall_cons in Hfr as [Hf0 Hfr]. cbn [fst snd] in Hf0.
  rewrite plaintext_cons in *. rewrite zlen_app in Hwin. set (rest := plaintext ms) in *.
  pose proof (zlen_nonneg rest).
  destruct (run_send_first b t m w Hw Hg Hno Hf0) as (f & g & iv & w1 & Hr1 & Hiv & Q1 & Henc); [lia|].
  destruct (run_send_all b ms _ w1 (qd_writable _ _ _ _ Q1) Henc Hfr) as (fs & w2 & Hr2 & Q2 & Hp).
  { rewrite (qd_window _ _ _ _ Q1). unfold payloads. simpl. rewrite app_nil_r, zlen_app, Hiv, cfb_len.
    fold rest. lia. }
  eexists _, iv, w2. cbn [send_enc_all]. rewrite (bind_run _ _ _ _ _ Hr1). split; [exact Hr2|].
  split; [exact (queued_trans _ _ _ _ _ _ Q1 Q2)|]. split; [done|].
  rewrite payloads_app, Hp, cfb_app. fold rest.
  destruct (aes_crypt_cfb128 MBEDTLS_ENCRYPT (cfb_start (encoder_key w) iv) (message_bytes t m)) as [st1 o1].
  cbn [fst snd]. destruct (aes_crypt_cfb128 MBEDTLS_ENCRYPT st1 rest). unfold payloads. simpl.
  by rewrite app_nil_r, <- app_assoc.
Qed.

(** A decoder that has just been made with a key and an iv. *)
Definition fresh_decoder (key iv : bytes) (t : coders) : Prop :=
  dec_ctx t = None ∧ ∃ d, main_decoder t = Some d ∧ fc_key d = key ∧ fc_iv d = iv.

Lemma decode_stream key iv t x chunks :
  fresh_decoder key iv t →
  concat chunks = snd (aes_crypt_cfb128 MBEDTLS_ENCRYPT (cfb_start key iv) x) → decrypt_all t chunks = x.
Proof.
  intros (Hc & d & Hd & Hk & Hi) E.
  rewrite (decrypt_all_stream t (cfb_start key iv) d chunks Hd).
  - rewrite E. destruct (aes_crypt_cfb128 MBEDTLS_ENCRYPT _ x) as [st y] eqn:Ex.
    apply cfb_inv in Ex. simpl. by rewrite Ex.
  - unfold dec_state. rewrite Hc. exists d. split; [done|]. by rewrite Hk, Hi.
Qed.
End SendEnc.


(** ** Concrete runs *)

#[local] Existing Instance Toy.mbedtls.

Lemma demo_writable : writable 1 (Demo.world TMUX_ESTABLISHED []).
Proof.
  constructor; [apply Demo.world_ok|done|done|done|by split|done].
Qed.

