(* ===== verification/ControlSafe.v ===== *)
(** * The session handles the server's messages safely

    The interface the demultiplexer needs of its message handler, for the
    handler of [src/src/control.c]: a message within the protocol is handled
    without undefined behaviour, frees nothing that is registered and buffers
    nothing.  What "within the protocol" has to exclude is spelled out in
    [acceptable]. *)

From S2P Require Import Prelude Endian Evp CryptoStream Coder WireV2 Json World Mux MuxInv MuxSafe MuxThm ProxyTcp Frame Demux ProxySafe StartWork Msg Session Reconnect.

Section Calm.
Context `{Mbedtls} (main : positive) (r : sref).

(** ** Steps that create and free nothing *)

Definition calm (w w' : world) : Prop :=
  step 0 w w' ∧ w_env w' = w_env w ∧ w_session_id w' = w_session_id w.

Lemma calm_refl w : mux_ok w → calm w w.
Proof. intros Ok. split; [by apply step_refl|done]. Qed.

Lemma calm_trans w1 w2 w3 : calm w1 w2 → calm w2 w3 → calm w1 w3.
Proof. intros (S1 & E1 & N1) (S2 & E2 & N2). split; [by eapply step_trans0|]. split; congruence. Qed.

Lemma calm_stays w w' : mux_ok w → stays w w' → calm w w'.
Proof. intros Ok S. split; [by apply step_stays|]. destruct S as [K _]. by destruct K. Qed.

Lemma calm_tick w n : mux_ok w → calm w (set_w_tick n w).
Proof. intros Ok. apply calm_stays; [done|apply stays_tick]. Qed.

Lemma calm_ctl w c : mux_ok w → calm w (set_w_ctl c w).
Proof.
  intros Ok. split; [|done]. split; [|by intros m Hr]. split; [by apply mux_ok_ctl|].
  by constructor; eauto.
Qed.

(** What the code of this file runs under: the main connection, the stream it is
    about, and configured services that have a type. *)
Record ready (w : world) : Prop := {
  rd_ok : mux_ok w;
  rd_connect : w_connect_bev w = Some main;
  rd_mux : e_tcp_mux (w_env w) ≠ 0;
  rd_ref : ∃ s, registered w r s;
  rd_typed : Forall (λ ps, ps_proxy_type ps ≠ None) (cf_services (e_config (w_env w)));
}.

Lemma ready_calm w w' : ready w → calm w w' → ready w'.
Proof.
  intros [Ok Hc Hm [s Hs] Ht] (S & E & _). destruct S as [G _].
  destruct (good_registered _ _ _ _ G Hs) as (s' & Hs' & _).
  constructor; [apply G| |by rewrite E|by exists s'|by rewrite E].
  by rewrite (ev_connect _ _ (proj2 G)).
Qed.

(** [calms m]: from any ready state, [m] runs and is calm. *)
Definition calms {A} (m : M A) : Prop :=
  ∀ w, ready w → wp m (λ _ w', calm w w') w.

Lemma calms_bind {A B} (m : M A) (f : A → M B) :
  calms m → (∀ a, calms (f a)) → calms (bind m f).
Proof.
  intros Hm Hf w R. rewrite wp_bind. eapply wp_mono; [by apply Hm|]. intros a w1 C1. simpl.
  eapply wp_mono; [apply Hf; by eapply ready_calm|]. intros b w2 C2. exact (calm_trans _ _ _ C1 C2).
Qed.

Lemma calms_ret {A} (a : A) : calms (ret a).
Proof. intros w R. wps. apply calm_refl, R. Qed.
Lemma calms_gets {A} (f : world → A) : calms (gets f).
Proof. intros w R. wps. apply calm_refl, R. Qed.
Lemma calms_oracle : calms oracle.
Proof. intros w R. wps. apply calm_tick, R. Qed.
Lemma calms_random : calms random_block.
Proof. intros w R. unfold wp, random_block. apply calm_tick, R. Qed.
Lemma calms_now : calms now.
Proof. intros w R. unfold wp, now. apply calm_tick, R. Qed.
Lemma calms_hour : calms hour.
Proof. intros w R. unfold wp, hour. apply calm_tick, R. Qed.
Lemma calms_upd_ctl f : calms (upd_ctl f).
Proof. intros w R. unfold upd_ctl. wps. apply calm_ctl, R. Qed.

Lemma calms_get_ctl : calms get_ctl.
Proof. apply calms_gets. Qed.
Lemma calms_user_of : calms user_of.
Proof. apply calms_gets. Qed.

(** Every configuration read under a ready state has multiplexing on. *)
Lemma calms_tcp_mux {A} (f : Z → M A) :
  (∀ mux, (mux =? 0) = false → calms (f mux)) → calms (bind tcp_mux f).
Proof.
  intros Hf w R. unfold tcp_mux. wps. apply Hf; [|done]. apply Z.eqb_neq, R.
Qed.

#[local] Hint Resolve calms_ret calms_gets calms_oracle calms_random calms_now calms_hour calms_upd_ctl
  calms_get_ctl calms_user_of : calms.

(** Follows the structure of a handler; every branch has to be calm. *)
Ltac calm_step :=
  first [ solve [eauto with calms]
        | progress cbv zeta
        | match goal with
          | |- calms (bind tcp_mux _) => apply calms_tcp_mux; intros ? ->; cbn [negb]; cbv iota
          | |- calms (bind _ _) => apply calms_bind; [|intros]
          | |- calms (if ?b then _ else _) => destruct b
          | |- calms (match ?x with _ => _ end) => destruct x
          | |- calms (let '(_, _) := ?x in _) => destruct x
          end ].
Ltac calm_auto := repeat calm_step.

(** ** Sending *)

Lemma to_send_range n win : 0 ≤ win → 0 ≤ to_send n win ≤ win.
Proof.
  intros Hw. unfold to_send, DEFAULT_MAX_FRAME_SIZE.
  assert (0 ≤ u32 n) by (unfold u32; apply Z.mod_pos_bound; lia). repeat case_match; b2p; lia.
Qed.

(** A write of any length; what it does to the stream is in [tmux_stream_write_spec]. *)
Lemma wp_tmux_write_stays bev src q s w :
  mux_ok w → registered w q s → bev_live w bev → wp (tmux_stream_write bev src q) (λ _ w', stays w w') w.
Proof.
  intros Ok Hreg L. pose proof Hreg as [_ E].
  destruct (registered_main_or_client _ _ _ Ok Hreg) as [Hr _].
  destruct (registered_stream_ok _ _ _ Ok Hreg) as [Hr0 [Hw0 Hw1]].
  unfold tmux_stream_write. wp_st E. repeat (case_if; wps; [done|]).
  eapply wp_mono; [by apply wp_get_send_flags|]. intros f w1 (-> & S1 & E1 & _). wps.
  destruct (match bev with Some b => _ | None => _ end) as [b|] eqn:Eb; wps; [|done].
  assert (is_Some (w_bevs w1 !! b)) as Hb.
  { eapply stays_bev_live; [exact S1|]. destruct bev as [b'|]; [apply L; congruence|].
    apply (ok_connect _ Ok). rewrite <- Eb. symmetry. apply S1. }
  destruct (to_send_range (zlen src) (s_send_window s) Hw0). case_if; wps; [done|].
  eapply wp_mono; [by apply wp_output_add|]. intros rc w2 Hrc.
  assert (stays w1 w2 ∧ lookup_stream w2 q = lookup_stream w1 q) as [S2 E2]
    by (destruct Hrc as [(_ & S & Hl & _)|(_ & S & Hl & _)]; split; eauto).
  case_if; wps; [by etransitivity|].
  eapply wp_mono; [apply wp_output_add; by eapply stays_bev_live|]. intros rc' w3 Hrc'.
  assert (stays w2 w3 ∧ lookup_stream w3 q = lookup_stream w2 q) as [S3 E3]
    by (destruct Hrc' as [(_ & S & Hl & _)|(_ & S & Hl & _)]; split; eauto).
  assert (stays w w3) as S13 by (etransitivity; [exact S1|]; by etransitivity).
  case_if; wps; [done|]. rewrite E2, E1 in E3. wp_ust E3. etransitivity; [exact S13|].
  eapply stays_with_stream; [done|exact E3|done|]. unfold stream_ok. cbn.
  rewrite u32_small; [lia|]. unfold MAX_YAMUX_WINDOW_SIZE in Hw1. lia.
Qed.

Lemma calms_write_message d : calms (write_message main d (Some r)).
Proof.
  unfold write_message. calm_auto. intros w R. destruct (rd_ref _ R) as [s Hs].
  eapply wp_mono; [apply (wp_tmux_write_stays _ _ _ s); [apply R|done|]|].
  - intros b [= <-]. by apply (ok_connect _ (rd_ok _ R)), R.
  - intros u w' S. apply calm_stays; [apply R|done].
Qed.
#[local] Hint Resolve calms_write_message : calms.

Lemma calms_out_bev {A} (o : option positive) (f : option positive → M A) :
  o = None ∨ o = Some main → calms (f (Some main)) → calms (bind (out_bev o) f).
Proof.
  intros Ho Hf w R. unfold out_bev. wps. rewrite (rd_connect _ R).
  destruct Ho as [->| ->]; by apply Hf.
Qed.

Lemma calms_send_msg o t msg :
  o = None ∨ o = Some main → calms (send_msg_frp_server o t msg (Some r)).
Proof. intros Ho. apply calms_out_bev; [done|]. calm_auto. Qed.

Lemma calms_send_enc_msg o t msg :
  o = None ∨ o = Some main → calms (send_enc_msg_frp_server o t msg (Some r)).
Proof.
  intros Ho. apply calms_out_bev; [done|].
  assert (calms (initialize_encoder main (Some r))) by (unfold initialize_encoder, make_encoder; calm_auto).
  unfold prepare_encrypted_message. calm_auto.
Qed.

Lemma calms_print_json j : calms (print_json j).
Proof. unfold print_json. calm_auto. Qed.
#[local] Hint Resolve calms_print_json : calms.

Lemma calms_new_work_connection : calms (new_work_connection (Some main) (Some r)).
Proof.
  assert (∀ t msg, calms (send_msg_frp_server (Some main) t msg (Some r))) by eauto using calms_send_msg.
  unfold new_work_connection, new_work_conn_marshal. calm_auto.
Qed.

(** ** Reading the server's messages *)

Lemma calms_get_ex j key : calms (get_ex j key).
Proof. unfold get_ex. calm_auto. Qed.
Lemma calms_get_string o : calms (get_string o).
Proof. unfold get_string. calm_auto. Qed.
Lemma calms_strdup s : calms (strdup (Some s)).
Proof. unfold strdup. calm_auto. Qed.
Lemma calms_json_parse t : calms (json_tokener_parse t).
Proof. unfold json_tokener_parse. calm_auto. Qed.
#[local] Hint Resolve calms_get_ex calms_get_string calms_strdup calms_json_parse : calms.

Lemma calms_optional_field j key : calms (optional_field j key).
Proof. unfold optional_field. calm_auto. Qed.
#[local] Hint Resolve calms_optional_field : calms.

Lemma calms_handle_enc_msg d : calms (handle_enc_msg d).
Proof. unfold handle_enc_msg, get_ctl. calm_auto. Qed.

Lemma calms_start_work_resp text : calms (start_work_conn_resp_unmarshal text).
Proof. unfold start_work_conn_resp_unmarshal, open_message, user_of. calm_auto. Qed.

End Calm.

#[export] Hint Resolve calms_ret calms_gets calms_oracle calms_random calms_now calms_hour calms_upd_ctl
  calms_get_ctl calms_user_of calms_print_json calms_get_ex calms_get_string calms_strdup
  calms_json_parse calms_optional_field calms_handle_enc_msg calms_start_work_resp : calms.

Ltac calm_step :=
  first [ solve [eauto with calms]
        | progress cbv zeta
        | match goal with
          | |- calms _ _ (bind _ _) => apply calms_bind; [|intros]
          | |- calms _ _ (if ?b then _ else _) => destruct b
          | |- calms _ _ (match ?x with _ => _ end) => destruct x
          end ].
Ltac calm_auto := repeat calm_step.

Section Handlers.
Context `{Mbedtls} (main : positive).

Abbreviation Ready := (ready main SMain).
Abbreviation Calms := (calms main SMain).

(** ** Registration and work connections *)

Lemma calms_send_new_proxies l :
  Forall (λ ps, ps_proxy_type ps ≠ None) l → Calms (send_new_proxies l).
Proof.
  induction 1 as [|ps l Hps _ IH]; simpl; [apply calms_ret|].
  assert (∀ t msg, Calms (send_enc_msg_frp_server None t msg (Some SMain))) by eauto using calms_send_enc_msg.
  unfold send_new_proxy, new_proxy_service_marshal. destruct (ps_proxy_type ps); [|done]. calm_auto.
Qed.

Lemma calms_start_proxy_services : Calms start_proxy_services.
Proof.
  intros w R. unfold start_proxy_services. wps. apply calms_send_new_proxies; [apply R|done].
Qed.

(** A new client is added next to what is there. *)
Lemma step_with_client w :
  mux_ok (with_client w) → w_pcs w !! w_next w = None → w_all_stream w !! w_session_id w = None →
  step 0 w (with_client w).
Proof.
  intros Ok Hp Hs. split; [split; [done|]|].
  - constructor; try done.
    + intros id q E. simpl. rewrite lookup_insert_ne; [done|congruence].
    + intros [|p|] s; simpl; try by eauto. intros E.
      rewrite lookup_insert_ne; [by eauto|]. intros <-. by rewrite Hp in E.
  - intros m [Hm Hr]. split; [done|]. intros p x. simpl.
    intros [[<- <-]|[_ E]]%lookup_insert_Some; [|exact (Hr _ _ E)]. repeat split; simpl; try done; lia.
Qed.

Lemma ready_step w w' : Ready w → step 0 w w' → w_env w' = w_env w → Ready w'.
Proof.
  intros [Ok Hc Hm [s Hs] Ht] [G _] E. destruct (good_registered _ _ _ _ G Hs) as (s' & Hs' & _).
  constructor; [apply G| |by rewrite E|by exists s'|by rewrite E]. by rewrite (ev_connect _ _ (proj2 G)).
Qed.

(** A step that keeps the environment. *)
Definition moves (w w' : world) : Prop := step 0 w w' ∧ w_env w' = w_env w.

Lemma moves_trans w1 w2 w3 : moves w1 w2 → moves w2 w3 → moves w1 w3.
Proof. intros [S1 E1] [S2 E2]. split; [by eapply step_trans0|congruence]. Qed.
Lemma calm_moves w w' : calm w w' → moves w w'.
Proof. intros (S & E & _). by split. Qed.
Lemma moves_refl w : mux_ok w → moves w w.
Proof. intros Ok. by apply calm_moves, calm_refl. Qed.
Lemma ready_moves w w' : Ready w → moves w w' → Ready w'.
Proof. intros R [S E]. by eapply ready_step. Qed.

Lemma wp_upd_pc_moves p f x w :
  mux_ok w → w_pcs w !! p = Some x → may_become w x (f x) → buf_grows 0 x (f x) →
  wp (upd_pc p f) (λ _ w', moves w w' ∧ w_pcs w' !! p = Some (f x)) w.
Proof.
  intros Ok Ep Hm Hg. destruct (run_upd_plain p f x w Ok Ep Hm Hg) as (w' & Hr & S & E & V).
  apply (wp_of_run _ _ _ _ _ Hr). split; [by split|done].
Qed.

Lemma wp_init_tcp_mux_client p x w :
  Ready w → w_pcs w !! p = Some x → pc_ctl_bev x = Some main →
  wp (init_tcp_mux_client p) (λ ok w', ok = true ∧ moves w w') w.
Proof.
  intros R Ex Hc. unfold init_tcp_mux_client. wp_pc Ex. rewrite Hc. wps.
  eapply wp_mono; [apply (wp_send_window_update _ (SClient p) (pc_stream x))|].
  { done. } { simpl. by rewrite Ex. } { intros b [= <-]. apply (ok_connect _ (rd_ok _ _ _ R)), R. }
  intros u w1 [S1 _]. wps. pose proof (calm_moves _ _ (calm_stays _ _ (rd_ok _ _ _ R) S1)) as M1.
  pose proof (ready_moves _ _ R M1) as R1. destruct (step_live _ _ _ p (proj1 M1)) as [y Ey]; [by eexists|].
  eapply wp_mono; [apply (calms_new_work_connection main (SClient p))|].
  { constructor; [apply R1|apply R1|apply R1| |apply R1]. eexists. apply client_registered; [apply R1|exact Ey]. }
  intros u2 w2 C2. wps. split; [done|]. eapply moves_trans; [exact M1|by apply calm_moves].
Qed.

Lemma wp_new_client_connect w :
  Ready w → w_session_id w + 2 < 2 ^ 32 → wp new_client_connect (λ _ w', moves w w') w.
Proof.
  intros R Hs. unfold new_client_connect. wps.
  eapply wp_mono; [apply wp_new_proxy_client; [apply R|done]|]. intros [p|] w1 [Ok1 Hw1]; wps; cycle 1.
  { apply calm_moves, calm_stays; [apply R|done]. }
  destruct Hw1 as (-> & -> & Hp & Hns & _).
  assert (moves w (with_client w)) as M1 by (split; [by apply step_with_client|done]).
  assert (w_pcs (with_client w) !! w_next w = Some (fresh_client (w_session_id w))) as E1
    by apply lookup_insert_eq.
  eapply wp_mono; [apply (wp_upd_pc_moves _ _ _ _ Ok1 E1); [by apply may_become_same|repeat split; simpl; lia]|].
  intros u w2 [M2 E2]. unfold tcp_mux. wps. pose proof (moves_trans _ _ _ M1 M2) as M02.
  pose proof (ready_moves _ _ R M02) as R2.
  rewrite (proj2 (Z.eqb_neq _ _) (rd_mux _ _ _ R2)). wps. rewrite (rd_connect _ _ _ R2).
  eapply wp_mono; [apply (wp_upd_pc_moves _ _ _ _ (rd_ok _ _ _ R2) E2); [|repeat split; simpl; lia]|].
  { split; [done|]. split; [done|]. split; [right; symmetry; apply R2|by left]. }
  intros u3 w3 [M3 E3]. pose proof (moves_trans _ _ _ M02 M3) as M03. wps.
  eapply wp_mono; [apply (wp_init_tcp_mux_client _ _ _ (ready_moves _ _ R M03) E3 eq_refl)|].
  intros ok w4 [-> M4]. wps. by eapply moves_trans.
Qed.

(** ** One message *)

(** The length field as the handlers read it, and the text it delimits. *)
Definition body_len (msg : bytes) : Z :=
  match msg_hdr_length msg with Some raw => i32 (msg_hton raw) | None => 0 end.
Definition body (msg : bytes) : bytes := ztake (body_len msg) (zdrop sizeof_msg_hdr msg).

(** A field that [json_object_get_string] does not answer with null. *)
Definition textual (o : option json) : Prop :=
  match o with Some JNull | Some (JArray _) | Some (JObject _) => False | _ => True end.

(** What a message must not be: larger than an [int]; of length -1 where
    [malloc(0)] answers a block; a UDP packet, which this build frees twice; a
    registration response whose name is no text, which is copied from null. *)
Record acceptable (w : world) (cmd : bytes) : Prop := {
  ac_size : zlen cmd < 2 ^ 31;
  ac_copy : body_len cmd = -1 → x_malloc0 (e_ext (w_env w)) = false;
  ac_udp : msg_hdr_type cmd ≠ Some (msg_type_char TypeUDPPacket);
  ac_name : ∀ j, msg_hdr_type cmd = Some (msg_type_char TypeNewProxyResp) →
    x_json_parse (e_ext (w_env w)) (c_string (body cmd)) = Some j →
    textual (json_object_object_get_ex j "proxy_name");
}.

(** A session that serves: room for another stream, memory, and services with a
    local address. *)
Record serving (w : world) : Prop := {
  sv_ready : Ready w;
  sv_room : w_session_id w + 2 < 2 ^ 32;
  sv_mem : alloc_ok w;
  sv_services : Forall (λ ps, connectable ps ∧ is_proxy_type (Some ps) "xtcp" = false)
    (cf_services (e_config (w_env w)));
}.

Lemma serving_calm w w' : serving w → calm w w' → serving w'.
Proof.
  intros [R Hs He Hv] C. pose proof C as (_ & E & N).
  constructor; [by eapply ready_calm|by rewrite N|unfold alloc_ok; by rewrite E|by rewrite E].
Qed.

Lemma msg_hdr_length_some msg : sizeof_msg_hdr ≤ zlen msg → is_Some (msg_hdr_length msg).
Proof.
  unfold sizeof_msg_hdr. intros Hl. do 9 (destruct msg as [|? msg]; [by exfalso; revert Hl; cbv|]). by eexists.
Qed.

Lemma wp_data_len msg w Q : sizeof_msg_hdr ≤ zlen msg → Q (body_len msg) w → wp (data_len msg) Q w.
Proof.
  intros Hl HQ. destruct (msg_hdr_length_some msg Hl) as [raw E]. unfold data_len, body_len in *.
  rewrite E in HQ |- *. rewrite (proj2 (Z.ltb_ge _ _) Hl). by wps.
Qed.

Lemma wp_msg_data_to_json msg w :
  Ready w → sizeof_msg_hdr ≤ zlen msg → body_len msg ≤ zlen msg - sizeof_msg_hdr → zlen msg < 2 ^ 31 →
  (body_len msg = -1 → x_malloc0 (e_ext (w_env w)) = false) →
  wp (msg_data_to_json msg) (λ t w', calm w w' ∧ (t = None ∨ t = Some (body msg) ∧ 0 ≤ body_len msg)) w.
Proof.
  intros R Hl Hb Hs Hm. unfold msg_data_to_json. wps. apply wp_data_len; [done|].
  pose proof (calm_refl w (rd_ok _ _ _ R)). unfold sizeof_msg_hdr in *.
  rewrite (proj2 (Z.eqb_neq _ _)) by lia. wps. unfold malloc.
  destruct (Z.eqb_spec (body_len msg + 1) 0); wps; [rewrite Hm by lia; simpl; wps; auto|].
  case_if; wps; simpl; wps; [by auto|]. pose proof (calm_tick w (S (w_tick w)) (rd_ok _ _ _ R)).
  destruct (e_ok _ _); simpl; wps; [|by auto].
  rewrite (proj2 (Z.ltb_ge (body_len msg) 0)) by lia. rewrite (proj2 (Z.ltb_ge _ _)) by lia. simpl. wps.
  split; [done|]. right. split; [done|lia].
Qed.

Lemma calms_is_available ps : Calms (is_service_available ps).
Proof. unfold is_service_available. calm_auto. Qed.

(** Only the service table answers. *)
Lemma wp_get_proxy_service name w Q :
  Q None w → (∀ ps, ps ∈ cf_services (e_config (w_env w)) → ps_proxy_name ps = name → Q (Some ps) w) →
  wp (get_proxy_service name) Q w.
Proof.
  intros HN HS. unfold get_proxy_service. wps. destruct (list_find _ _) as [[i ps]|] eqn:E; [|done].
  apply list_find_Some in E as (E & Hn & _). apply HS; [by eapply list_elem_of_lookup_2|done].
Qed.

Lemma wp_handle_start_work cmd o w :
  serving w → sizeof_msg_hdr ≤ zlen cmd → body_len cmd ≤ zlen cmd - sizeof_msg_hdr → acceptable w cmd →
  (∀ p, o = Some p → is_Some (w_pcs w !! p)) →
  wp (handle_type_start_work_conn cmd o) (λ _ w', step 0 w w') w.
Proof.
  intros Sv Hl Hb Ac Hp. unfold handle_type_start_work_conn. wps.
  eapply wp_mono; [apply (wp_msg_data_to_json cmd w (sv_ready _ Sv) Hl Hb); apply Ac|].
  intros t w1 [C1 _]. pose proof (serving_calm _ _ Sv C1) as Sv1. apply calm_moves in C1 as M1.
  destruct t as [t|]; wps; [|apply M1].
  eapply wp_mono; [apply (calms_start_work_resp main SMain), Sv1|]. intros name w2 C2.
  pose proof (serving_calm _ _ Sv1 C2) as Sv2. pose proof (moves_trans _ _ _ M1 (calm_moves _ _ C2)) as M2.
  destruct name as [name|]; wps; [|apply M2]. apply wp_get_proxy_service; wps; [apply M2|]. intros ps Hin _. wps.
  eapply wp_mono; [apply calms_is_available, Sv2|]. intros av w3 C3.
  pose proof (serving_calm _ _ Sv2 C3) as Sv3. pose proof (moves_trans _ _ _ M2 (calm_moves _ _ C3)) as M3.
  destruct av; simpl; wps; [|apply M3]. destruct o as [p|]; wps; [|apply M3]. apply wp_data_len; [done|].
  destruct (step_live _ _ _ p (proj1 M3)) as [x Ex]; [by apply Hp|].
  pose proof (sv_services _ Sv2) as Hv. rewrite Forall_forall in Hv. destruct (Hv ps Hin) as [Hc Hx].
  eapply wp_mono; [apply (wp_start_work_conn p x); [apply Sv3|done|apply Sv3|done|done]|].
  intros u w4 S4. eapply step_trans0; [apply M3|done].
Qed.

(** ** With memory available

    [serves m]: like [calms], from any serving state. *)
Definition serves {A} (m : M A) : Prop := ∀ w, serving w → wp m (λ _ w', calm w w') w.

Lemma serves_calms {A} (m : M A) : Calms m → serves m.
Proof. intros Hm w Sv. apply Hm, Sv. Qed.

Lemma serves_bind {A B} (m : M A) (f : A → M B) : serves m → (∀ a, serves (f a)) → serves (bind m f).
Proof.
  intros Hm Hf w Sv. rewrite wp_bind. eapply wp_mono; [by apply Hm|]. intros a w1 C1. simpl.
  eapply wp_mono; [apply Hf; by eapply serving_calm|]. intros b w2 C2. exact (calm_trans _ _ _ C1 C2).
Qed.

Lemma serves_oracle {A} (f : bool → M A) : serves (f true) → serves (bind oracle f).
Proof.
  intros Hf w Sv. wps. rewrite (sv_mem _ Sv).
  pose proof (calm_tick w (S (w_tick w)) (rd_ok _ _ _ (sv_ready _ Sv))) as C1.
  eapply wp_mono; [apply Hf; by eapply serving_calm|]. intros b w2 C2. exact (calm_trans _ _ _ C1 C2).
Qed.

Lemma serves_ret {A} (a : A) : serves (ret a).
Proof. apply serves_calms, calms_ret. Qed.

Lemma serves_assoc {A B C} (m : M A) (f : A → M B) (g : B → M C) :
  serves (bind m (λ a, bind (f a) g)) → serves (bind (bind m f) g).
Proof. intros Hm w Sv. specialize (Hm w Sv). unfold wp in *. by rewrite bind_assoc. Qed.

Lemma serves_bind_ret {A B} (a : A) (f : A → M B) : serves (f a) → serves (bind (ret a) f).
Proof. intros Hf w Sv. rewrite wp_bind, wp_ret. by apply Hf. Qed.

(** A required field that is there as text is copied. *)
Lemma serves_required_field f j key :
  textual (json_object_object_get_ex j key) → serves (required_field f j key).
Proof.
  intros Ht. unfold required_field, get_ex.
  destruct (json_object_object_get_ex j key) as [x|]; [|apply serves_bind_ret, serves_ret].
  apply serves_assoc, serves_oracle, serves_bind_ret. cbn [fst snd negb].
  assert (∀ s, serves (strdup (f <$> Some s))) as Hd by (intros; apply serves_calms, calms_strdup).
  unfold get_string. destruct x; try done; [| |apply serves_bind_ret, Hd].
  all: apply serves_assoc, serves_oracle, serves_bind_ret, Hd.
Qed.

Lemma wp_open_message {A} text (k : json → M (option A)) w :
  serving w → (∀ j, x_json_parse (e_ext (w_env w)) (c_string text) = Some j → serves (k j)) →
  wp (open_message text k) (λ _ w', calm w w') w.
Proof.
  intros Sv Hk. unfold open_message, json_tokener_parse. rewrite wp_bind, wp_bind, wp_gets.
  destruct (x_json_parse _ _) as [j|] eqn:Ej; [|wps; apply calm_refl, Sv].
  rewrite <- wp_bind.
  apply (serves_assoc oracle (λ ok, ret (if ok then Some j else None))); [|done].
  apply serves_oracle, serves_bind_ret, serves_oracle. by apply Hk.
Qed.

(** The handler of registration responses only reads. *)
Lemma wp_handle_new_proxy_resp cmd w :
  serving w → sizeof_msg_hdr ≤ zlen cmd → body_len cmd ≤ zlen cmd - sizeof_msg_hdr → acceptable w cmd →
  msg_hdr_type cmd = Some (msg_type_char TypeNewProxyResp) →
  wp (handle_type_new_proxy_resp cmd) (λ _ w', calm w w') w.
Proof.
  intros Sv Hl Hb Ac Ht. unfold handle_type_new_proxy_resp. wps.
  eapply wp_mono; [apply (wp_msg_data_to_json cmd w (sv_ready _ Sv) Hl Hb); apply Ac|].
  intros t w1 [C1 Hbody]. pose proof (serving_calm _ _ Sv C1) as Sv1. destruct t as [t|]; wps; [|done].
  destruct Hbody as [Hbody|[[= ->] _]]; [done|].
  eapply wp_mono; [apply (wp_open_message _ _ w1 Sv1)|intros a w2 C2; wps; exact (calm_trans _ _ _ C1 C2)].
  intros j Ej. rewrite (proj1 (proj2 C1)) in Ej. pose proof (ac_name _ _ Ac j Ht Ej) as Hn.
  assert (∀ j k, serves (optional_field j k)) as Ho by (intros; apply serves_calms, calms_optional_field).
  apply serves_bind; [apply Ho|]. intros [r|]; [|apply serves_ret].
  apply serves_bind; [apply serves_calms, calms_get_ex|]. intros ra.
  apply serves_bind; [apply serves_calms, calms_get_string|]. intros addr. cbv zeta.
  apply serves_bind; [apply serves_calms, calms_user_of|]. intros user.
  apply serves_bind; [by apply serves_required_field|]. intros [name|]; [|apply serves_ret].
  apply serves_bind; [apply Ho|]. intros [e|]; apply serves_ret.
Qed.

(** ** The dispatch *)

Lemma wp_handle_req_work_conn w :
  serving w → wp handle_type_req_work_conn (λ _ w', step 0 w w') w.
Proof.
  intros Sv. unfold handle_type_req_work_conn. rewrite wp_bind. unfold get_ctl. rewrite wp_gets, wp_bind.
  assert (Calms (if ss_status (w_ctl w) then ret () else start_proxy_services ;; upd_ctl (set_ss_status true))) as Hs.
  { pose proof calms_start_proxy_services. calm_auto. }
  eapply wp_mono; [apply Hs, Sv|]. intros u w1 C1. pose proof (serving_calm _ _ Sv C1) as Sv1.
  eapply wp_mono; [apply (wp_new_client_connect w1); apply Sv1|]. intros u2 w2 [S2 _].
  eapply step_trans0; [apply C1|done].
Qed.

Lemma wp_dispatch_message cmd o w :
  serving w → acceptable w cmd → (∀ p, o = Some p → is_Some (w_pcs w !! p)) →
  wp (dispatch_message cmd o) (λ _ w', step 0 w w') w.
Proof.
  intros Sv Ac Hp. pose proof (step_refl w (rd_ok _ _ _ (sv_ready _ Sv))) as S0. unfold dispatch_message.
  case_if; wps; [done|]. apply wp_data_len; [done|]. case_if; wps; [done|].
  destruct (msg_hdr_type cmd) as [c|] eqn:Et; wps; cycle 1.
  { exfalso. destruct cmd; [|done]. by unfold zlen in *. }
  destruct (msg_type_of_char c) as [t|] eqn:Ec; wps; [|done].
  assert (msg_type_char t = c) as Hch by (apply find_some in Ec as [_ E]; by b2p).
  assert (∀ m : M (), Calms m → wp m (λ _ w', step 0 w w') w) as Hcalm.
  { intros m Hm. eapply wp_mono; [apply Hm, Sv|]. by intros u w' (? & _). }
  assert (wp (msg_data_to_json cmd) (λ _ w', step 0 w w') w) as Hjson.
  { eapply wp_mono; [apply (wp_msg_data_to_json cmd w (sv_ready _ Sv)); try done; apply Ac|].
    by intros u w' [(? & _) _]. }
  destruct t; wps; try done.
  - eapply wp_mono; [apply (wp_handle_new_proxy_resp cmd w Sv); try done; by rewrite Et, Hch|].
    by intros u w' (? & _).
  - by apply wp_handle_req_work_conn.
  - by apply wp_handle_start_work.
  - rewrite <- wp_bind. apply Hcalm. calm_auto.
  - destruct (ac_udp _ _ Ac). by rewrite Et, Hch.
Qed.

(** ** The login response *)

(** A login response has to be whole, and its two fields text. *)
Record login_acceptable (w : world) (d : bytes) : Prop := {
  la_whole : sizeof_msg_hdr ≤ zlen d ∧ body_len d ≤ zlen d - sizeof_msg_hdr;
  la_size : zlen d < 2 ^ 31;
  la_copy : body_len d = -1 → x_malloc0 (e_ext (w_env w)) = false;
  la_fields : ∀ j, x_json_parse (e_ext (w_env w)) (c_string (body d)) = Some j →
    textual (json_object_object_get_ex j "version") ∧ textual (json_object_object_get_ex j "run_id");
}.

Lemma serves_login_resp_check lr : serves (login_resp_check lr).
Proof.
  unfold login_resp_check. destruct (_ <=? 1).
  - apply serves_calms. calm_auto.
  - apply serves_oracle. apply serves_calms. cbn [negb]. calm_auto.
Qed.

Lemma wp_process_login_response d w :
  serving w → login_acceptable w d → wp (process_login_response d) (λ _ w', calm w w') w.
Proof.
  intros Sv La. unfold process_login_response. wps.
  eapply wp_mono; [apply (wp_msg_data_to_json d w (sv_ready _ Sv)); apply La|].
  intros t w1 [C1 Hbody]. pose proof (serving_calm _ _ Sv C1) as Sv1. destruct t as [t|]; wps; [|done].
  destruct Hbody as [Hbody|[[= ->] _]]; [done|].
  eapply wp_mono; [apply (wp_open_message _ _ w1 Sv1)|].
  - intros j Ej. rewrite (proj1 (proj2 C1)) in Ej. destruct (la_fields _ _ La j Ej) as [Hv Hr].
    apply serves_bind; [by apply serves_required_field|]. intros [v|]; [|apply serves_ret].
    apply serves_bind; [by apply serves_required_field|]. intros [r|]; [|apply serves_ret].
    apply serves_bind; [apply serves_calms, calms_optional_field|]. intros [e|]; apply serves_ret.
  - intros lr w2 C2. pose proof (calm_trans _ _ _ C1 C2) as C02. destruct lr as [lr|]; wps; [|done].
    eapply wp_mono; [apply serves_login_resp_check; by eapply serving_calm|].
    intros a w3 C3. exact (calm_trans _ _ _ C02 C3).
Qed.

Lemma calms_rest d : sizeof_msg_hdr ≤ zlen d →
  Calms (upd_ctl (set_ss_is_login true) ;;
         c <- get_ctl ;;
         (if ss_status c then ret () else start_proxy_services ;; upd_ctl (set_ss_status true)) ;;
         n <- data_len d ;; ret (i32 (n + sizeof_msg_hdr))).
Proof.
  intros Hl. pose proof calms_start_proxy_services. assert (Calms (data_len d)).
  { intros w R. apply wp_data_len; [done|]. apply calm_refl, R. }
  calm_auto.
Qed.

Lemma wp_handle_login_response d w :
  serving w → (msg_hdr_type d = Some (msg_type_char TypeLoginResp) → login_acceptable w d) →
  wp (handle_login_response d) (λ _ w', calm w w') w.
Proof.
  intros Sv La. pose proof (calm_refl w (rd_ok _ _ _ (sv_ready _ Sv))) as C0. unfold handle_login_response.
  destruct (msg_hdr_type d) as [t|]; wps; [|done].
  destruct (Z.eqb_spec t (msg_type_char TypeLoginResp)) as [->|]; cbn [negb]; [|by wps]. specialize (La eq_refl).
  rewrite wp_bind. eapply wp_mono; [by apply wp_process_login_response|]. intros ok w1 C1.
  destruct ok; cbn [negb]; [|by wps]. eapply wp_mono.
  - apply (calms_rest d); [apply La|by eapply serving_calm].
  - intros a w2 C2. exact (calm_trans _ _ _ C1 C2).
Qed.

(** ** Any input of the session *)

(** What the input has to be: before login a login response within the
    protocol or some other message; on a work connection an acceptable message;
    on the control connection anything that decrypts to nothing or to one. *)
Definition input_ok (w : world) (d : bytes) (ctx : option positive) : Prop :=
  if ss_is_login (w_ctl w) then
    match ctx with
    | Some _ => acceptable w d
    | None => ∀ cmd w1, handle_enc_msg d w = Some (Some cmd, w1) → acceptable w cmd
    end
  else msg_hdr_type d = Some (msg_type_char TypeLoginResp) → login_acceptable w d.

Lemma acceptable_env w w' cmd : w_env w' = w_env w → acceptable w cmd → acceptable w' cmd.
Proof. intros E []. constructor; rewrite ?E; done. Qed.

Lemma wp_handle_frps_msg d ctx w :
  serving w → input_ok w d ctx → (∀ p, ctx = Some p → is_Some (w_pcs w !! p)) →
  wp (handle_frps_msg d ctx) (λ _ w', step 0 w w') w.
Proof.
  intros Sv Hin Hp. pose proof (step_refl w (rd_ok _ _ _ (sv_ready _ Sv))) as S0. unfold handle_frps_msg, get_ctl.
  case_if; wps; [done|]. unfold input_ok in Hin. destruct (ss_is_login (w_ctl w)); cbn [negb]; cycle 1.
  { wps. eapply wp_mono; [by apply wp_handle_login_response|]. intros u w1 (S1 & _). by wps. }
  unfold handle_control_work. destruct ctx as [p|]; [by apply wp_dispatch_message|]. wps.
  pose proof (calms_handle_enc_msg main SMain d w (sv_ready _ Sv)) as He.
  apply wp_run in He as (o & w1 & Hr & C1). apply (wp_of_run _ _ _ _ _ Hr).
  destruct o as [cmd|]; wps; [|apply C1].
  eapply wp_mono; [apply wp_dispatch_message; [by eapply serving_calm| |done]|].
  - eapply acceptable_env; [apply C1|by eapply Hin].
  - intros u w2 S2. eapply step_trans0; [apply C1|done].
Qed.

End Handlers.

