(* ===== verification/Control.v ===== *)
(** * What the server's messages make the session do

    Naming of services, the way of a StartWorkConn message to its service, and
    the messages that go wrong ([src/src/control.c], [src/src/msg.c]). *)

From S2P Require Import Prelude Endian Evp CryptoStream Coder WireV2 Json World Mux MuxInv MuxSafe MuxThm ProxyTcp Frame Demux ProxySafe StartWork Msg Session Reconnect SendEnc ControlSafe.

(** ** Names *)

Lemma strip_prefix_app u name : strip_prefix u (u +:+ "." +:+ name) = Some name.
Proof. induction u as [|c u IH]; simpl; [done|]. by rewrite bool_decide_true. Qed.

Lemma strip_wire_name user name : xfrpc_strip_user_prefix user (wire_name user name) = name.
Proof.
  unfold xfrpc_strip_user_prefix, wire_name. destruct (user_prefix user); [|done]. by rewrite strip_prefix_app.
Qed.

(** ** Members of a built object *)

Lemma member_add_if key k v l : key ≠ k → member k (add_if key v l) = member k l.
Proof. intros Hne. destruct v; [by apply member_add_ne|done]. Qed.

(** Looks a key up through the additions. *)
Ltac members :=
  repeat first [ rewrite member_add_eq
               | rewrite member_add_ne by discriminate
               | rewrite member_add_if by discriminate
               | match goal with
                 | |- context [member _ (if ?b then _ else _)] => destruct b
                 | |- context [member _ (match ?x with Some _ => _ | None => _ end)] => destruct x
                 end ].

Section Run.
Context `{Mbedtls}.

(** ** The frame of a message *)

Lemma zlen_message t text tail : zlen (message_bytes t text ++ tail) = sizeof_msg_hdr + zlen text + zlen tail.
Proof. unfold message_bytes. by rewrite !zlen_app. Qed.

Lemma body_len_message t text tail :
  zlen text < 2 ^ 31 → body_len (message_bytes t text ++ tail) = zlen text.
Proof.
  intros Hl. pose proof (zlen_nonneg text). unfold body_len, message_bytes. rewrite <- app_assoc.
  assert (0 ≤ zlen text < 2 ^ 64) by (change (2 ^ 31) with 2147483648 in Hl; lia).
  rewrite msg_hdr_length_bytes by apply hton64_bounds.
  rewrite <- ntoh64_hton64_words, ntoh64_hton64 by done.
  change (2 ^ 31) with 2147483648 in *. wordlia.
Qed.

Lemma text_of_message t text tail :
  ztake (zlen text) (zdrop sizeof_msg_hdr (message_bytes t text ++ tail)) = text.
Proof.
  unfold message_bytes. rewrite <- app_assoc, zdrop_app_exact by done. by apply ztake_app_exact.
Qed.

Lemma bind_ret {A B} (a : A) (k : A → M B) w : bind (ret a) k w = k a w.
Proof. done. Qed.

Lemma after_message t text tail :
  zdrop (sizeof_msg_hdr + zlen text) (message_bytes t text ++ tail) = tail.
Proof. apply zdrop_app_exact. unfold message_bytes. by rewrite zlen_app. Qed.

(** ** Runs with memory available *)

Lemma run_data_len t text tail w :
  zlen text < 2 ^ 31 → data_len (message_bytes t text ++ tail) w = Some (zlen text, w).
Proof.
  intros Hl. pose proof (zlen_nonneg text). pose proof (zlen_nonneg tail).
  assert (wp (data_len (message_bytes t text ++ tail)) (λ n w', n = zlen text ∧ w' = w) w) as Hw.
  { apply wp_data_len; [rewrite zlen_message; lia|]. by rewrite body_len_message. }
  by apply wp_run in Hw as (n & w' & Hr & -> & ->).
Qed.

Lemma run_msg_data t text tail w :
  alloc_ok w → zlen text < 2 ^ 31 - 1 →
  msg_data_to_json (message_bytes t text ++ tail) w = Some (Some text, set_w_tick (S (w_tick w)) w).
Proof.
  intros He Hl. pose proof (zlen_nonneg text). pose proof (zlen_nonneg tail).
  unfold msg_data_to_json. runs (run_data_len t text tail w ltac:(lia)).
  rewrite (proj2 (Z.eqb_neq (zlen text) (2 ^ 31 - 1))) by lia. unfold malloc.
  rewrite (proj2 (Z.eqb_neq (zlen text + 1) 0)), (proj2 (Z.ltb_ge (zlen text + 1) 0)) by lia.
  runs (run_oracle w He). rewrite (proj2 (Z.ltb_ge (zlen text) 0)) by lia.
  rewrite (proj2 (Z.ltb_ge (zlen (message_bytes t text ++ tail)) (sizeof_msg_hdr + zlen text)))
    by (rewrite zlen_message; lia). simpl orb. cbv iota.
  by rewrite text_of_message.
Qed.

Lemma run_strdup s w : alloc_ok w → strdup (Some s) w = Some (Some s, set_w_tick (S (w_tick w)) w).
Proof. intros He. unfold strdup. by runs (run_oracle w He). Qed.

(** The name in a StartWorkConn message, without the prefix of the user. *)
Lemma run_start_work_resp text j wire w :
  alloc_ok w → x_json_parse (e_ext (w_env w)) (c_string text) = Some j →
  json_object_object_get_ex j "proxy_name" = Some (JString wire) →
  ∃ n, start_work_conn_resp_unmarshal text w =
    Some (Some (xfrpc_strip_user_prefix (cf_user (e_config (w_env w))) wire), set_w_tick n w).
Proof.
  intros He Ej Em. eexists. unfold start_work_conn_resp_unmarshal, open_message, json_tokener_parse.
  rewrite bind_assoc, bind_gets, Ej, bind_assoc. runs (run_oracle w He). rewrite bind_ret.
  set (w1 := set_w_tick _ w). assert (alloc_ok w1) as He1 by exact He. runs (run_oracle w1 He1).
  set (w2 := set_w_tick _ w1). assert (alloc_ok w2) as He2 by exact He.
  unfold get_ex. rewrite Em, bind_assoc. runs (run_oracle w2 He2). rewrite bind_ret. cbn [fst snd negb].
  set (w3 := set_w_tick _ w2). assert (alloc_ok w3) as He3 by exact He.
  unfold get_string, user_of. cbn [json_object_get_string]. rewrite bind_ret, bind_gets.
  rewrite (run_strdup _ w3 He3). reflexivity.
Qed.

(** The service is offered at every hour, or at whatever hour the clock shows. *)
Definition offered (ps : proxy_service) (w : world) : Prop :=
  (ps_start_time ps = 0 ∧ ps_end_time ps = 0) ∨
  ∀ n, in_window (ps_start_time ps) (ps_end_time ps) (x_hour (e_ext (w_env w)) n) = true.

Lemma run_available ps w : offered ps w → ∃ n, is_service_available ps w = Some (true, set_w_tick n w).
Proof.
  intros Ho. unfold is_service_available. case_if.
  - exists (w_tick w). by destruct w.
  - destruct Ho as [[? ?]|Ho]; [destruct Hc; b2p; lia|]. eexists. unfold bind, hour. simpl. by rewrite Ho.
Qed.

(** Services have different names. *)
Lemma run_get_proxy_service ps w :
  ps ∈ cf_services (e_config (w_env w)) → NoDup (ps_proxy_name <$> cf_services (e_config (w_env w))) →
  get_proxy_service (ps_proxy_name ps) w = Some (Some ps, w).
Proof.
  intros Hin Hnd. unfold get_proxy_service, gets. do 2 f_equal.
  destruct (list_find_elem_of (λ x, ps_proxy_name x = ps_proxy_name ps) _ ps Hin eq_refl) as [[i q] E].
  rewrite E. simpl. apply list_find_Some in E as (Ei & Hq & _). f_equal.
  apply list_elem_of_lookup_1 in Hin as [k Ek].
  assert (i = k) as ->; [|congruence]. eapply (NoDup_lookup _ i k _ Hnd); rewrite list_lookup_fmap.
  - by rewrite Ei.
  - rewrite Ek. simpl. by rewrite Hq.
Qed.

End Run.

(** C14: a StartWorkConn message starts the right service.  The message a server
    sends to open a work connection names the service as it was registered,
    with the user's prefix; whatever follows it in the same delivery belongs to
    the tunnel.  For every configured service, with memory available, handling
    such a delivery is starting that service's work connection on that client
    with exactly the bytes that followed the message. *)
Theorem start_work_reaches_service `{Mbedtls} (p : positive) (ps : proxy_service) (text tail : bytes)
    (j : json) (w : world) (Hmem : alloc_ok w) (Hlogin : ss_is_login (w_ctl w) = true)
    (Hlen : zlen text < 2 ^ 31 - 1)
    (Hparse : x_json_parse (e_ext (w_env w)) (c_string text) = Some j)
    (Hname : json_object_object_get_ex j "proxy_name" =
               Some (JString (wire_name (cf_user (e_config (w_env w))) (ps_proxy_name ps))))
    (Hin : ps ∈ cf_services (e_config (w_env w)))
    (Hnd : NoDup (ps_proxy_name <$> cf_services (e_config (w_env w)))) (Hoff : offered ps w) :
  ∃ n, handle_frps_msg (message_bytes TypeStartWorkConn text ++ tail) (Some p) w =
       start_work_conn p ps tail (set_w_tick n w).
Proof.
  pose proof (zlen_nonneg text). pose proof (zlen_nonneg tail).
  set (msg := message_bytes TypeStartWorkConn text ++ tail).
  assert (zlen msg = sizeof_msg_hdr + zlen text + zlen tail) as Hm by apply zlen_message.
  unfold handle_frps_msg. rewrite (proj2 (Z.eqb_neq (zlen msg) 0)) by (unfold sizeof_msg_hdr in *; lia).
  unfold get_ctl. rewrite bind_gets, Hlogin. cbn [negb]. unfold handle_control_work, dispatch_message.
  rewrite (proj2 (Z.ltb_ge (zlen msg) sizeof_msg_hdr)) by lia.
  runs (run_data_len TypeStartWorkConn text tail w ltac:(lia)). fold msg.
  rewrite (proj2 (Z.ltb_ge (zlen msg - sizeof_msg_hdr) (zlen text))) by lia.
  change (msg_hdr_type msg) with (Some (msg_type_char TypeStartWorkConn)). cbv iota.
  rewrite msg_type_of_char_char. unfold handle_type_start_work_conn.
  runs (run_msg_data TypeStartWorkConn text tail w Hmem Hlen). set (w1 := set_w_tick _ w).
  destruct (run_start_work_resp text j _ w1 Hmem Hparse Hname) as [n2 R2]. runs R2.
  rewrite strip_wire_name. set (w2 := set_w_tick n2 w1).
  runs (run_get_proxy_service ps w2 Hin Hnd).
  destruct (run_available ps w2 Hoff) as [n3 R3]. runs R3. set (w3 := set_w_tick n3 w2).
  runs (run_data_len TypeStartWorkConn text tail w3 ltac:(lia)). fold msg. exists n3.
  unfold msg. by rewrite after_message.
Qed.

(** What a service registers.  Whatever its other settings, the object a
    service is registered with has exactly one entry for each of these keys: the
    name with the user's prefix, which is read back as the configured name when
    the server echoes it; the type; the two transport flags, which both ends
    need to agree on; and the remote port unless the service goes by domain
    names or leaves the port to the server. *)
Lemma registration_faithful (user : option string) (ps : proxy_service) (ptype : string)
    (get := json_object_object_get_ex (new_proxy_object user ps ptype)) :
  (∃ wire, get "proxy_name"%string = Some (JString wire) ∧ xfrpc_strip_user_prefix user wire = ps_proxy_name ps) ∧
  get "proxy_type"%string = Some (JString (wire_proxy_type ptype)) ∧
  get "use_encryption"%string = Some (JBool (ps_use_encryption ps)) ∧
  get "use_compression"%string = Some (JBool (ps_use_compression ps)) ∧
  get "remote_port"%string =
    (if bool_decide (rg_custom_domains (ps_registration ps) = None) && negb (rg_remote_port (ps_registration ps) =? -1)
     then Some (json_object_new_int (rg_remote_port (ps_registration ps))) else None).
Proof.
  subst get. unfold new_proxy_object. cbv zeta. cbn [json_object_object_get_ex].
  split; [exists (wire_name user (ps_proxy_name ps)); split; [|apply strip_wire_name]|split_and!].
  all: members; try done.
  all: by destruct (rg_remote_port _ =? -1).
Qed.

(** ** Messages that go wrong *)

Section Wrong.
Context `{Mbedtls}.

(** What follows a message is not looked at. *)
Lemma msg_data_tail t text tail tail' w :
  zlen text < 2 ^ 31 →
  msg_data_to_json (message_bytes t text ++ tail) w = msg_data_to_json (message_bytes t text ++ tail') w.
Proof.
  intros Hl. pose proof (zlen_nonneg text).
  assert (∀ k : bytes, data_len (message_bytes t text ++ k) w = Some (zlen text, w)) as Hd
    by (intros; by apply run_data_len).
  assert (∀ k, zlen (message_bytes t text ++ k) <? sizeof_msg_hdr + zlen text = false) as Hz.
  { intros k. apply Z.ltb_ge. rewrite zlen_message. pose proof (zlen_nonneg k). lia. }
  unfold msg_data_to_json. by rewrite !(bind_run _ _ _ _ _ (Hd _)), !Hz, !text_of_message.
Qed.

End Wrong.

(** The second message of a delivery is lost.  The control connection is a
    byte stream, but one delivery is taken for one message: whatever follows
    the first message, a further message included, has no effect (only a
    StartWorkConn message makes use of what follows it). *)
Lemma coalesced_message_lost `{Mbedtls} (t : msg_type) (text more : bytes) (ctx : option positive) (w : world)
    (Hlen : zlen text < 2 ^ 31) (Ht : t ≠ TypeStartWorkConn) :
  dispatch_message (message_bytes t text ++ more) ctx w = dispatch_message (message_bytes t text) ctx w.
Proof.
  pose proof (zlen_nonneg text). pose proof (zlen_nonneg more).
  assert (∀ k, zlen (message_bytes t text ++ k) <? sizeof_msg_hdr = false) as G1.
  { intros k. apply Z.ltb_ge. rewrite zlen_message. pose proof (zlen_nonneg k). lia. }
  assert (∀ k, zlen (message_bytes t text ++ k) - sizeof_msg_hdr <? zlen text = false) as G2.
  { intros k. apply Z.ltb_ge. rewrite zlen_message. pose proof (zlen_nonneg k). lia. }
  assert (∀ k, msg_hdr_type (message_bytes t text ++ k) = Some (msg_type_char t)) as G3.
  { intros k. unfold message_bytes, msg_hdr_bytes. simpl. f_equal. by destruct t. }
  assert (dispatch_message (message_bytes t text) ctx w = dispatch_message (message_bytes t text ++ []) ctx w) as ->
    by by rewrite app_nil_r.
  pose proof (msg_data_tail t text more [] w Hlen) as Hj.
  unfold dispatch_message. rewrite !G1, !(bind_run _ _ _ _ _ (run_data_len _ _ _ w Hlen)), !G2, !G3.
  rewrite !msg_type_of_char_char. destruct t; try done.
  all: unfold handle_type_new_proxy_resp, handle_type_udp_packet.
  all: unfold bind at 1; symmetry; unfold bind at 1; by rewrite Hj.
Qed.

(** C37: the length of a login response is not checked.  Before login a message
    of type LoginResp whose length field claims more than has arrived (a short
    delivery is enough) is copied past the end of the buffer. *)
Theorem login_length_unchecked `{Mbedtls} (d : bytes) (ctx : option positive) (w : world)
    (Hlogin : ss_is_login (w_ctl w) = false) (Hmem : alloc_ok w)
    (Ht : msg_hdr_type d = Some (msg_type_char TypeLoginResp)) (Hhdr : sizeof_msg_hdr ≤ zlen d)
    (Hshort : zlen d - sizeof_msg_hdr < body_len d < 2 ^ 31 - 1) :
  handle_frps_msg d ctx w = None.
Proof.
  unfold handle_frps_msg. unfold sizeof_msg_hdr in *.
  rewrite (proj2 (Z.eqb_neq (zlen d) 0)) by lia. unfold get_ctl. rewrite bind_gets, Hlogin. cbn [negb].
  unfold handle_login_response. rewrite Ht, Z.eqb_refl. cbn [negb].
  assert (process_login_response d w = None) as Hn.
  { unfold process_login_response, msg_data_to_json. rewrite bind_assoc.
    assert (data_len d w = Some (body_len d, w)) as Hd.
    { assert (wp (data_len d) (λ n w', n = body_len d ∧ w' = w) w) as Hw by by apply wp_data_len.
      by apply wp_run in Hw as (n & w' & Hr & -> & ->). }
    runs Hd. rewrite (proj2 (Z.eqb_neq (body_len d) (2 ^ 31 - 1))) by lia. rewrite bind_assoc. unfold malloc.
    rewrite (proj2 (Z.eqb_neq (body_len d + 1) 0)), (proj2 (Z.ltb_ge (body_len d + 1) 0)) by lia.
    runs (run_oracle w Hmem). rewrite (proj2 (Z.ltb_lt (zlen d) _)) by (unfold sizeof_msg_hdr; lia).
    by rewrite orb_true_r. }
  unfold bind at 1. unfold bind at 1. by rewrite Hn.
Qed.

(** ** A concrete session

    The demonstration client, logged in as user "u" with one service, and a
    server whose messages parse to the name of that service. *)

#[local] Existing Instance Toy.mbedtls.

Lemma mux_ok_env (w : world) e : mux_ok w → mux_ok (set_w_env e w).
Proof.
  intros [Hpc ? ? ? ? ? ? ? ?]. constructor; try done.
  intros p pc E. destruct (Hpc p pc E). by constructor.
Qed.

Definition demo_env : environment :=
  mkEnv (λ _, true) (λ _, replicate 16 9) no_snappy (λ _ _, None) 1 None
    (mkConfig (Some "u"%string) (Some "198.51.100.7"%string) 7000 false 10 30 [Demo.service])
    (mkExt (λ _, Some (JObject [("proxy_name"%string, JString "u.ssh")])) (λ _, Some [123; 125])
       (λ _, Some (replicate 16 0)) "esp32" (λ _, 1000) (λ _, 12) (λ _, 1500) false).

Definition demo_session (logged : bool) : world :=
  set_w_ctl (set_ss_is_login logged (zero_session None)) (set_w_env demo_env (Demo.world TMUX_ESTABLISHED [])).

Lemma demo_serving logged : serving 1 (demo_session logged).
Proof.
  assert (mux_ok (demo_session logged)) as Ok by apply mux_ok_ctl, mux_ok_env, Demo.world_ok.
  constructor; [constructor; [done|done|done| |]|done|done|].
  - exists (Demo.stream 1 TMUX_ESTABLISHED). done.
  - repeat constructor. discriminate.
  - repeat constructor; try done.
Qed.

Lemma start_work_reaches_service_witness :
  ∃ n, handle_frps_msg (message_bytes TypeStartWorkConn [123; 125] ++ [1; 2]) (Some 2%positive) (demo_session true) =
       start_work_conn 2 Demo.service [1; 2] (set_w_tick n (demo_session true)).
Proof.
  apply (start_work_reaches_service 2 Demo.service [123; 125] [1; 2]
           (JObject [("proxy_name"%string, JString "u.ssh")]) (demo_session true)).
  - done.
  - reflexivity.
  - vm_compute. reflexivity.
  - reflexivity.
  - reflexivity.
  - by left.
  - repeat constructor; set_solver.
  - left. split; reflexivity.
Defined.

Lemma coalesced_message_lost_witness :
  dispatch_message (message_bytes TypePong [123; 125] ++ message_bytes TypeReqWorkConn [123; 125]) None (demo_session true)
  = dispatch_message (message_bytes TypePong [123; 125]) None (demo_session true).
Proof.
  apply (coalesced_message_lost TypePong [123; 125] (message_bytes TypeReqWorkConn [123; 125]) None (demo_session true)).
  - vm_compute. reflexivity.
  - discriminate.
Defined.

(** A login response cut after its header and two of five bytes. *)
Definition cut_login_response : bytes := [msg_type_char TypeLoginResp; 0; 0; 0; 0; 0; 0; 0; 5; 123; 34].

Lemma login_length_unchecked_witness : handle_frps_msg cut_login_response None (demo_session false) = None.
Proof.
  apply (login_length_unchecked cut_login_response None (demo_session false)).
  - reflexivity.
  - done.
  - reflexivity.
  - vm_compute. discriminate.
  - split; vm_compute; reflexivity.
Defined.

