(* ===== verification/Heartbeat.v ===== *)
(** * The heartbeat watches the server

    What one beat of the timer in [src/src/control.c] does: the ping, the next
    beat, and the reconnection when the server has been silent for too long. *)

From S2P Require Import Prelude Endian Evp CryptoStream Coder WireV2 Json World Mux MuxInv MuxSafe MuxThm ProxyTcp Frame Demux ProxySafe StartWork Msg Session Reconnect ControlSafe Control.

Section Heartbeat.
Context `{Mbedtls}.

(** What a beat looks at. *)
Definition same_watch (w w' : world) : Prop :=
  w_env w' = w_env w ∧ ss_pong_time (w_ctl w') = ss_pong_time (w_ctl w) ∧ ss_ticker (w_ctl w') = ss_ticker (w_ctl w) ∧
  ss_reconnect (w_ctl w') = ss_reconnect (w_ctl w) ∧ ss_status (w_ctl w') = ss_status (w_ctl w).
#[local] Instance same_watch_frame : MuxFrame same_watch.
Proof. repeat split; try done; unfold same_watch in *; intuition congruence. Qed.

Lemma pres_coders f : pres same_watch (upd_ctl (λ c, set_ss_coders (f c) c)).
Proof. unfold upd_ctl. by apply pres_modify. Qed.
Lemma pres_set_coders cs : pres same_watch (upd_ctl (set_ss_coders cs)).
Proof. unfold upd_ctl. by apply pres_modify. Qed.
#[local] Hint Resolve pres_coders pres_set_coders : pres.
Lemma pres_write_message b d s : pres same_watch (write_message b d s).
Proof. unfold write_message. pres_auto. Qed.
#[local] Hint Resolve pres_write_message : pres.
Lemma pres_answer {A} (f : world → A) : pres same_watch (λ w, Some (f w, set_w_tick (S (w_tick w)) w)).
Proof. intros w a w' [= <- <-]. apply mf_tick. Qed.
#[local] Hint Resolve pres_answer : pres.
Lemma pres_evbuffer_write fuel : ∀ b total d, pres same_watch (evbuffer_write fuel b total d).
Proof. induction fuel as [|fuel IH]; intros; cbn; pres_auto. Qed.
#[local] Hint Resolve pres_evbuffer_write : pres.
Lemma pres_write_direct tries : ∀ b d, pres same_watch (write_direct tries b d).
Proof. induction tries as [|n IH]; intros; cbn; pres_auto. Qed.
#[local] Hint Resolve pres_write_direct : pres.
Lemma pres_ping : pres same_watch ping.
Proof.
  assert (∀ b t m s, pres same_watch (send_enc_msg_frp_server b t m s)) as Hs.
  { intros. unfold send_enc_msg_frp_server, out_bev, get_ctl, initialize_encoder, make_encoder, prepare_encrypted_message, Session.tcp_mux, get_ctl. pres_auto. }
  unfold ping. pres_auto.
Qed.

Lemma wp_ping main w : ready main SMain w → wp ping (λ _ w', ready main SMain w' ∧ same_watch w w') w.
Proof.
  intros R. apply wp_pres; [apply pres_ping|]. unfold ping. wps. rewrite (rd_connect _ _ _ R).
  eapply wp_mono; [apply (calms_send_enc_msg main SMain (Some main) TypePing PING_MSG); [by right|done]|]. intros ? w' C. by eapply ready_calm.
Qed.

(** The server has been silent for longer than the configured time. *)
Definition silent (w : world) (t : Z) : bool :=
  negb (t =? -1) && negb (ss_pong_time (w_ctl w) =? 0) &&
  (cf_heartbeat_timeout (e_config (w_env w)) <? i32 (t - ss_pong_time (w_ctl w))).

(** What a beat at time [t] leaves. *)
Definition beaten (main : positive) (w : world) (t : Z) (w' : world) : Prop :=
  if silent w t then
    ss_reconnect (w_ctl w') = true ∧ (∃ w1, clean w1 w' ∧ w_connect_bev w1 = Some main) ∧ w_env w' = w_env w
  else
    ready main SMain w' ∧ ss_reconnect (w_ctl w') = ss_reconnect (w_ctl w) ∧ ss_pong_time (w_ctl w') = ss_pong_time (w_ctl w) ∧
    ss_ticker (w_ctl w') = ((λ _, cf_heartbeat_interval (e_config (w_env w))) <$> ss_ticker (w_ctl w)).

Lemma wp_check main w w1 t :
  ready main SMain w1 → same_watch w w1 →
  wp (if t =? -1 then ret () else check_server_timeout t) (λ _ w', if silent w t then
    ss_reconnect (w_ctl w') = true ∧ (∃ w1, clean w1 w' ∧ w_connect_bev w1 = Some main) ∧ w_env w' = w_env w else w' = w1) w1.
Proof.
  intros R (E & Hp & _). unfold silent, check_server_timeout, get_ctl. destruct (t =? -1); wps; cbn [negb andb]; [done|]. rewrite Hp, E.
  destruct (ss_pong_time (w_ctl w) =? 0); wps; cbn [negb andb]; [done|]. destruct (_ <? _); [|by wps].
  eapply wp_mono; [apply wp_request_reconnect; apply R|]. intros ? w' C. split_and!.
  - by rewrite (cn_ctl _ _ C).
  - exists w1. split; [done|apply R].
  - by rewrite (cn_env _ _ C).
Qed.

(** C19: The heartbeat watches the server: in every state of the session a beat
    runs safely.  It reads the clock once, at time [t]: when the last sign of
    life is older than the timeout the session is cleared as for every
    reconnection and a reconnection is asked for; otherwise the session stays
    usable, the timer is armed for the configured interval, and nothing else it
    watches has changed. *)
Theorem heartbeat_watches main w :
  ready main SMain w →
  ∃ n w', heartbeat_handler w = Some ((), w') ∧ beaten main w (x_time (e_ext (w_env w)) n) w'.
Proof.
  intros R. assert (wp heartbeat_handler (λ _ w', ∃ n, beaten main w (x_time (e_ext (w_env w)) n) w') w) as Hw.
  2: { apply wp_run in Hw as ([] & w' & Hr & n & Hq). by exists n, w'. }
  unfold heartbeat_handler, schedule_heartbeat_timer, get_ctl, upd_ctl. wps. apply (wp_mono _ (λ _ w', ready main SMain w' ∧ same_watch w w')).
  { destruct (ss_status (w_ctl w)); [by apply wp_ping|]. wps. split; [done|]. by repeat split. }
  intros ? w1 [R1 (E & Hp & Ht & Hr & Hs)]. wps. rewrite E.
  set (f := λ c, match ss_ticker c with Some _ => set_ss_ticker (Some (cf_heartbeat_interval (e_config (w_env w)))) c | None => c end).
  set (w2 := set_w_tick (S (w_tick w1)) (set_w_ctl (f (w_ctl w1)) w1)).
  assert (ready main SMain w2) as R2.
  { assert (ready main SMain (set_w_ctl (f (w_ctl w1)) w1)) as R' by (eapply ready_calm; [exact R1|apply calm_ctl, R1]). eapply ready_calm; [exact R'|apply calm_tick, R']. }
  eapply (wp_mono _ (λ t w3, t = x_time (e_ext (w_env w)) (w_tick w1) ∧ w3 = w2)); [unfold wp, now; cbn; by rewrite E|].
  intros t w3 [-> ->]. set (t := x_time _ _).
  assert (ss_pong_time (f (w_ctl w1)) = ss_pong_time (w_ctl w) ∧ ss_reconnect (f (w_ctl w1)) = ss_reconnect (w_ctl w) ∧
    ss_ticker (f (w_ctl w1)) = ((λ _, cf_heartbeat_interval (e_config (w_env w))) <$> ss_ticker (w_ctl w))) as (F1 & F2 & F3).
  { unfold f. rewrite Ht. by destruct (ss_ticker (w_ctl w)) eqn:Et; cbn; rewrite ?Hp, ?Hr, ?Ht, ?Et. }
  eapply wp_mono.
  - apply (wp_check main w2 w2 t R2). by repeat split.
  - intros ? w' Hq. exists (w_tick w1). unfold beaten. fold t. assert (silent w2 t = silent w t) as Es by (unfold silent; cbn; by rewrite F1, E). rewrite Es in Hq.
    destruct (silent w t); [destruct Hq as (Q1 & Q2 & Q3); split_and!; [done|done|by rewrite Q3]|]. subst w'. by split_and!.
Qed.

End Heartbeat.

(** ** Witness *)

#[local] Existing Instance Toy.mbedtls.

(** The demonstration client last heard from the server at 900; the clock says
    1000 and the timeout is 30. *)
Lemma heartbeat_watches_witness :
  let w := set_w_ctl (set_ss_ticker (Some 1) (set_ss_pong_time 900 (set_ss_status true (w_ctl (demo_session true))))) (demo_session true) in
  silent w 1000 = true ∧ ∃ n w', heartbeat_handler w = Some ((), w') ∧ beaten 1 w (x_time (e_ext (w_env w)) n) w'.
Proof.
  intros w. split; [vm_compute; reflexivity|]. apply (heartbeat_watches 1 w). eapply ready_calm; [apply (demo_serving true)|]. apply calm_ctl, (demo_serving true).
Defined.
