(* ===== verification/HealthCheck.v ===== *)
(** * Health checks

    Models [src/src/health_check.c]: one entry per checked service, a timer that
    starts a check, a connection that ends it, and the verdict.  The results of
    the C library and of the network ([bufferevent_socket_new], [inet_pton],
    [connect], [malloc], the hour) are arguments of the callbacks.  [None] is
    undefined behaviour.  Every operation answers the new entry and the calls of
    the result callback it makes. *)

From S2P Require Import Prelude Ctext Evbuffer Msg Session.

(** ** Data *)

Inductive hc_state := HC_IDLE | HC_CONNECTING | HC_SENDING | HC_READING.

(** What a check uses of [struct proxy_service]. *)
Record hc_service := mkHcService {
  hs_name : string;
  hs_type : option string;
  hs_url : option string;
  hs_interval : Z;
  hs_timeout : Z;
  hs_max_failed : Z;
  hs_local_ip : option string;
  hs_local_port : Z;
  hs_start_time : Z;
  hs_end_time : Z;
}.

(** The connection of a check: its queues, which event callback it has, whether
    [hc_http_read_cb] is its read callback, and its timeout. *)
Record hc_conn := mkHcConn {
  hc_in : bytes;
  hc_out : bytes;
  hc_tcp : bool;
  hc_reads : bool;
  hc_timeout : Z;
}.

(** [he_timer] is the delay the timer is armed with. *)
Record health_check_entry := mkEntry {
  he_name : string;
  he_ps : hc_service;
  he_type : option string;
  he_url : option string;
  he_interval : Z;
  he_timeout : Z;
  he_max_failed : Z;
  he_failed_count : Z;
  he_is_healthy : bool;
  he_state : hc_state;
  he_timer : option Z;
  he_bev : option hc_conn;
}.

Abbreviation entry := health_check_entry.

Definition set_he_timer v (e : entry) :=
  mkEntry (he_name e) (he_ps e) (he_type e) (he_url e) (he_interval e) (he_timeout e) (he_max_failed e)
    (he_failed_count e) (he_is_healthy e) (he_state e) v (he_bev e).
Definition set_he_bev v (e : entry) :=
  mkEntry (he_name e) (he_ps e) (he_type e) (he_url e) (he_interval e) (he_timeout e) (he_max_failed e)
    (he_failed_count e) (he_is_healthy e) (he_state e) (he_timer e) v.
Definition set_he_state v (e : entry) :=
  mkEntry (he_name e) (he_ps e) (he_type e) (he_url e) (he_interval e) (he_timeout e) (he_max_failed e)
    (he_failed_count e) (he_is_healthy e) v (he_timer e) (he_bev e).
Definition set_he_verdict n h (e : entry) :=
  mkEntry (he_name e) (he_ps e) (he_type e) (he_url e) (he_interval e) (he_timeout e) (he_max_failed e)
    n h (he_state e) (he_timer e) (he_bev e).

(** ** The end of a check *)

Definition hc_schedule_next (e : entry) : entry := set_he_timer (Some (he_interval e)) e.

(** The failure count is an [int]: one failure a second fills it in 68 years. *)
Definition hc_finish_check (e : entry) (healthy : bool) : entry * list bool :=
  let e := set_he_state HC_IDLE (set_he_bev None e) in
  let was_healthy := he_is_healthy e in
  let e :=
    if healthy then set_he_verdict 0 true e
    else
      let n := he_failed_count e + 1 in
      set_he_verdict n (if he_max_failed e <=? n then false else he_is_healthy e) e in
  (hc_schedule_next e, if Bool.eqb was_healthy (he_is_healthy e) then [] else [he_is_healthy e]).

(** ** The start of a check *)

(** What happens outside: the new connection is allocated, the address is one,
    the connection attempt starts. *)
Record hc_net := mkNet { hn_alloc : bool; hn_pton : string → bool; hn_connect : bool }.

(** [strcmp] with the type that could not be copied is undefined. *)
Definition hc_start_check (net : hc_net) (e : entry) : option (entry * list bool) :=
  let e := set_he_bev None e in
  if negb (hn_alloc net) then Some (hc_finish_check e false)
  else
    match he_type e with
    | None => None
    | Some t =>
        let e := set_he_state HC_CONNECTING
                   (set_he_bev (Some (mkHcConn [] [] (bool_decide (t = "tcp"%string)) false (he_timeout e))) e) in
        match hs_local_ip (he_ps e) with
        | None => None
        | Some ip =>
            if negb (hn_pton net ip) then Some (hc_finish_check e false)
            else if negb (hn_connect net) then Some (hc_finish_check e false)
            else Some (e, [])
        end
    end.

(** Whether the timer callback skips the check at this hour. *)
Definition hc_outside (start stop hour : Z) : bool :=
  if start <=? stop then (hour <? start) || (stop <=? hour) else (hour <? start) && (stop <=? hour).

Definition hc_timer_cb (net : hc_net) (hour : Z) (e : entry) : option (entry * list bool) :=
  let ps := he_ps e in
  if (negb (hs_start_time ps =? 0) || negb (hs_end_time ps =? 0))
     && hc_outside (hs_start_time ps) (hs_end_time ps) hour
  then Some (hc_schedule_next e, [])
  else hc_start_check net e.

(** ** Events of the connection *)

Definition hc_tcp_event_cb (connected : bool) (e : entry) : entry * list bool := hc_finish_check e connected.

(** [snprintf] into 512 bytes. *)
Definition http_request (url host : string) : bytes :=
  str_bytes "GET " ++ str_bytes url ++ str_bytes " HTTP/1.0" ++ [13; 10] ++ str_bytes "Host: " ++ str_bytes host ++
  [13; 10] ++ str_bytes "Connection: close" ++ [13; 10; 13; 10].
Definition REQUEST_SIZE : Z := 512.

(** The whole length is written even when the text was cut: what lies behind
    the buffer is not defined. *)
Definition hc_http_event_cb (connected : bool) (e : entry) : option (entry * list bool) :=
  if connected then
    match he_bev e, hs_local_ip (he_ps e) with
    | Some c, Some host =>
        let request := http_request (default "/"%string (he_url e)) host in
        if REQUEST_SIZE <? zlen request then None
        else
          let sent := if zlen request =? REQUEST_SIZE then ztake (REQUEST_SIZE - 1) request ++ [0] else request in
          Some (set_he_bev (Some (mkHcConn (hc_in c) (hc_out c ++ sent) (hc_tcp c) true (hc_timeout c)))
                  (set_he_state HC_READING e), [])
    | _, _ => None
    end
  else Some (hc_finish_check e false).

(** *** [sscanf(data, "HTTP/%*d.%*d %d", &status_code)] *)

Fixpoint scan_literal (lit l : bytes) : option bytes :=
  match lit, l with
  | [], _ => Some l
  | c :: lit, b :: l => if c =? b then scan_literal lit l else None
  | _, [] => None
  end.

Definition scan_status (data : bytes) : option Z :=
  l ← scan_literal (str_bytes "HTTP/") (c_string data);
  '(_, l) ← scan_int l;
  l ← scan_literal [46] l;
  '(_, l) ← scan_int l;
  '(n, _) ← scan_int (skip_white l);
  Some n.

(** [evbuffer_search] on the contents of the input. *)
Definition search (l what : bytes) : Z := evbuffer_search (Some (mkEv l (zlen l) (zlen l))) what None.

(** [mem]: the copy of the status line can be allocated. *)
Definition hc_http_read_cb (mem : bool) (e : entry) : option (entry * list bool) :=
  match he_bev e with
  | None => None
  | Some c =>
      let pos := search (hc_in c) [13; 10] in
      if pos <? 0 then Some (e, [])
      else if negb mem then Some (hc_finish_check e false)
      else
        let line_len := pos + 2 in
        let data := ztake line_len (hc_in c) in
        let e := set_he_bev (Some (mkHcConn (zdrop line_len (hc_in c)) (hc_out c) (hc_tcp c) (hc_reads c)
                                     (hc_timeout c))) e in
        match scan_status data with
        | Some status => Some (hc_finish_check e ((200 <=? status) && (status <? 400)))
        | None => Some (hc_finish_check e false)
        end
  end.

(** ** The table of entries *)

(** Which allocations of an entry succeed: the entry, its three copies, the
    timer. *)
Record hc_memory := mkMem { hm_entry : bool; hm_name : bool; hm_type : bool; hm_url : bool; hm_timer : bool }.

Definition positive_or (v dflt : Z) : Z := if 0 <? v then v else dflt.

(** Whether a service is checked at all. *)
Definition hc_checked (ps : hc_service) : bool :=
  bool_decide (hs_type ps = Some "tcp"%string ∨ hs_type ps = Some "http"%string) &&
  bool_decide (hs_local_ip ps ≠ None) && (0 <? hs_local_port ps).

Definition hc_new_entry (m : hc_memory) (ps : hc_service) : entry :=
  mkEntry (hs_name ps) ps (if hm_type m then hs_type ps else None)
    (if hm_url m then Some (default "/"%string (hs_url ps)) else None)
    (positive_or (hs_interval ps) 10) (positive_or (hs_timeout ps) 3) (positive_or (hs_max_failed ps) 1)
    0 true HC_IDLE (Some 0) None.

(** Entries in the order they are added; the length of a name that could not be
    copied is undefined. *)
Fixpoint health_check_start_all (mem : string → hc_memory) (l : list hc_service) (all : list entry)
    : option (list entry) :=
  match l with
  | [] => Some all
  | ps :: l =>
      let m := mem (hs_name ps) in
      if negb (hc_checked ps) || negb (hm_entry m) || negb (hm_timer m) then health_check_start_all mem l all
      else if negb (hm_name m) then None
      else health_check_start_all mem l (all ++ [hc_new_entry m ps])
  end.

Definition health_check_stop_all (all : list entry) : list entry := [].

(** The entry added last is found first. *)
Definition hc_find (name : string) (all : list entry) : option entry :=
  find (λ e, bool_decide (he_name e = name)) (rev all).
Definition health_check_is_healthy (name : string) (all : list entry) : bool :=
  match hc_find name all with Some e => he_is_healthy e | None => true end.
Definition health_check_count (all : list entry) : Z := zlen all.

(** ** The life of an entry

    What the event loop can do with an entry: fire its timer, which disarms it;
    report an event of its connection; deliver bytes on it. *)
Definition deliver (d : bytes) (e : entry) : entry :=
  match he_bev e with
  | Some c => set_he_bev (Some (mkHcConn (hc_in c ++ d) (hc_out c) (hc_tcp c) (hc_reads c) (hc_timeout c))) e
  | None => e
  end.

Inductive hc_step (e : entry) : list bool → entry → Prop :=
| step_timer delay net hour ns e' :
    he_timer e = Some delay → hc_timer_cb net hour (set_he_timer None e) = Some (e', ns) → hc_step e ns e'
| step_tcp c connected ns e' :
    he_bev e = Some c → hc_tcp c = true → hc_tcp_event_cb connected e = (e', ns) → hc_step e ns e'
| step_http c connected ns e' :
    he_bev e = Some c → hc_tcp c = false → hc_http_event_cb connected e = Some (e', ns) → hc_step e ns e'
| step_quiet c d :
    he_bev e = Some c → hc_reads c = false → hc_step e [] (deliver d e)
| step_read c d mem ns e' :
    he_bev e = Some c → hc_reads c = true → hc_http_read_cb mem (deliver d e) = Some (e', ns) → hc_step e ns e'.

(** [ns] are the calls of the result callback on the way. *)
Inductive hc_run (e : entry) : list bool → entry → Prop :=
| run_start : hc_run e [] e
| run_more ns ns' e1 e2 : hc_run e ns e1 → hc_step e1 ns' e2 → hc_run e (ns ++ ns') e2.

(** ** What an entry promises *)

(** The failures since the last success, and whether the service counts as up:
    fewer than [m] of them. *)
Fixpoint failures_first (l : list bool) : Z :=
  match l with false :: l => 1 + failures_first l | _ => 0 end.
Definition trailing_failures (rs : list bool) : Z := failures_first (rev rs).
Definition up (m : Z) (rs : list bool) : bool := trailing_failures rs <? m.

(** The changes of a status that starts at [cur]. *)
Fixpoint changes (cur : bool) (l : list bool) : list bool :=
  match l with
  | [] => []
  | b :: l => if Bool.eqb cur b then changes cur l else b :: changes b l
  end.

(** The status after each result. *)
Definition statuses (m : Z) (rs : list bool) : list bool :=
  map (λ k, up m (take k rs)) (seq 1 (length rs)).

(** ** Verdicts *)

Lemma changes_snoc cur l x :
  changes cur (l ++ [x]) = changes cur l ++ (if Bool.eqb (List.last l cur) x then [] else [x]).
Proof.
  revert cur. induction l as [|b l IH]; intros cur.
  - simpl. by destruct (Bool.eqb cur x).
  - assert (List.last (b :: l) cur = List.last l b) as -> by (clear; revert b; induction l; intros; simpl in *; auto; by destruct l).
    simpl. destruct (Bool.eqb cur b) eqn:E; [|by rewrite IH].
    apply Bool.eqb_prop in E as ->. apply IH.
Qed.

Lemma statuses_snoc m rs r : statuses m (rs ++ [r]) = statuses m rs ++ [up m (rs ++ [r])].
Proof.
  unfold statuses. rewrite length_app. simpl. rewrite Nat.add_1_r, seq_S, map_app. simpl.
  f_equal; [|by rewrite firstn_all2 by (rewrite length_app; simpl; lia)].
  apply map_ext_in. intros k Hk%in_seq. rewrite take_app_le by lia. done.
Qed.

Lemma last_status m rs : 1 ≤ m → List.last (statuses m rs) true = up m rs.
Proof.
  intros Hm. destruct rs as [|r rs] using rev_ind.
  - unfold up. simpl. symmetry. apply Z.ltb_lt. change (trailing_failures []) with 0. lia.
  - by rewrite statuses_snoc, List.last_last.
Qed.

Lemma trailing_snoc rs r : trailing_failures (rs ++ [r]) = if r then 0 else trailing_failures rs + 1.
Proof. unfold trailing_failures. rewrite rev_app_distr. simpl. destruct r; lia. Qed.

Lemma trailing_nonneg rs : 0 ≤ trailing_failures rs.
Proof. unfold trailing_failures. induction (rev rs) as [|[] l IH]; simpl; lia. Qed.

(** The entry stands where the results [rs] put it, having reported [ns]. *)
Record judged (rs : list bool) (ns : list bool) (e : entry) : Prop := {
  jd_max : 1 ≤ he_max_failed e;
  jd_count : he_failed_count e = trailing_failures rs;
  jd_up : he_is_healthy e = up (he_max_failed e) rs;
  jd_calls : ns = changes true (statuses (he_max_failed e) rs);
}.

Lemma finish_judged rs ns e r :
  judged rs ns e → let '(e', ns') := hc_finish_check e r in judged (rs ++ [r]) (ns ++ ns') e'.
Proof.
  intros [Hm Hc Hu ->]. unfold hc_finish_check.
  set (e1 := set_he_state HC_IDLE (set_he_bev None e)).
  assert (∀ n h, he_max_failed (hc_schedule_next (set_he_verdict n h e1)) = he_max_failed e) as Hmx by done.
  assert (up (he_max_failed e) (rs ++ [r]) =
    if r then true else if he_max_failed e <=? he_failed_count e + 1 then false else he_is_healthy e) as Hn.
  { unfold up. rewrite trailing_snoc, Hc. destruct r; [by apply Z.ltb_lt; lia|].
    rewrite Hu. unfold up. destruct (Z.leb_spec (he_max_failed e) (trailing_failures rs + 1)); [apply Z.ltb_ge; lia|].
    rewrite !(proj2 (Z.ltb_lt _ _)) by lia. done. }
  assert (∀ h, h = up (he_max_failed e) (rs ++ [r]) →
    changes true (statuses (he_max_failed e) (rs ++ [r])) =
    changes true (statuses (he_max_failed e) rs) ++ (if Bool.eqb (he_is_healthy e) h then [] else [h])) as Hch.
  { intros h ->. by rewrite statuses_snoc, changes_snoc, last_status, Hu by done. }
  destruct r; constructor; cbn; rewrite ?trailing_snoc, ?Hc; try done; rewrite <- ?Hc; try (by rewrite Hn); symmetry; by apply Hch.
Qed.

(** Steps that reach no verdict. *)
Lemma judged_same rs ns e e' :
  he_max_failed e' = he_max_failed e → he_failed_count e' = he_failed_count e →
  he_is_healthy e' = he_is_healthy e → judged rs ns e → judged rs ns e'.
Proof. intros Em Ec Eh []. constructor; rewrite ?Em, ?Ec, ?Eh; done. Qed.

Definition same_verdict (e e' : entry) : Prop :=
  he_max_failed e' = he_max_failed e ∧ he_failed_count e' = he_failed_count e ∧ he_is_healthy e' = he_is_healthy e.

(** Every callback either leaves the verdict alone or ends the check. *)
Definition decides (e : entry) (res : entry * list bool) : Prop :=
  (same_verdict e (fst res) ∧ snd res = []) ∨
  ∃ e1 r, same_verdict e e1 ∧ res = hc_finish_check e1 r.

Lemma decides_judged rs ns e e' ns' :
  judged rs ns e → decides e (e', ns') → ∃ rs', judged rs' (ns ++ ns') e'.
Proof.
  intros J [[(Em & Ec & Eh) E]|(e1 & r & (Em & Ec & Eh) & E)].
  - simpl in E. subst ns'. rewrite app_nil_r. exists rs. by eapply judged_same.
  - exists (rs ++ [r]). assert (judged rs ns e1) as J1 by by eapply judged_same.
    pose proof (finish_judged rs ns e1 r J1) as Hf. by rewrite <- E in Hf.
Qed.

Lemma finish_decides e e1 r : same_verdict e e1 → decides e (hc_finish_check e1 r).
Proof. right. eauto. Qed.

Lemma start_decides net e e0 res : same_verdict e0 e → hc_start_check net e = Some res → decides e0 res.
Proof.
  intros S. unfold hc_start_check. destruct (hn_alloc net); cbn [negb].
  - cbn [he_type set_he_bev]. destruct (he_type e) as [t|]; [|done]. cbn.
    destruct (hs_local_ip (he_ps e)) as [ip|]; [|done].
    destruct (hn_pton net ip); cbn [negb]; [|intros [= <-]; by apply finish_decides].
    destruct (hn_connect net); cbn [negb]; intros [= <-]; [by left|by apply finish_decides].
  - intros [= <-]. by apply finish_decides.
Qed.

Lemma finish_some e e1 r res : same_verdict e e1 → Some (hc_finish_check e1 r) = Some res → decides e res.
Proof. intros S E. assert (hc_finish_check e1 r = res) as <- by congruence. by apply finish_decides. Qed.

Lemma step_decides e ns e' : hc_step e ns e' → decides e (e', ns).
Proof.
  intros [delay net hour ns' e1 _ R|c k ns' e1 _ _ R|c k ns' e1 Eb Ht R|c d Eb _|c d mem ns' e1 Eb Hr R];
    try revert R.
  - unfold hc_timer_cb. cbv zeta. case_if; [intros [= <- <-]; by left|]. by apply start_decides.
  - unfold hc_tcp_event_cb. intros <-. by apply finish_decides.
  - unfold hc_http_event_cb. destruct k; [|by apply finish_some].
    rewrite Eb. destruct (hs_local_ip _); [|done]. cbv zeta. case_if; [done|]. intros [= <- <-]. by left.
  - left. unfold deliver. by rewrite Eb.
  - unfold hc_http_read_cb, deliver. rewrite Eb. cbn [he_bev set_he_bev hc_in]. cbv zeta.
    case_if; [intros [= <- <-]; by left|]. destruct mem; cbn [negb]; [|by apply finish_some].
    destruct (scan_status _); by apply finish_some.
Qed.

Lemma fresh_judged m ps : judged [] [] (hc_new_entry m ps).
Proof.
  assert (1 ≤ he_max_failed (hc_new_entry m ps)) by (cbn; unfold positive_or; case_if; lia).
  constructor; try done. symmetry. apply Z.ltb_lt. change (trailing_failures []) with 0. lia.
Qed.

(** ** Pending work *)

(** Either the timer is armed and nothing is going on, or a check is going on
    with a time limit and the timer is off. *)
Definition pending (e : entry) : Prop :=
  match he_bev e with
  | None => he_state e = HC_IDLE ∧ he_timer e ≠ None
  | Some c => he_state e ≠ HC_IDLE ∧ he_timer e = None ∧ hc_timeout c = he_timeout e
  end.

(** What never changes. *)
Definition settings (e : entry) :=
  (he_name e, he_ps e, he_type e, he_url e, he_interval e, he_timeout e, he_max_failed e).

Lemma finish_pending e r : pending (fst (hc_finish_check e r)) ∧ settings (fst (hc_finish_check e r)) = settings e.
Proof. unfold hc_finish_check. by destruct r. Qed.

Lemma finish_some_pending e e1 r res :
  settings e1 = settings e → Some (hc_finish_check e1 r) = Some res →
  pending (fst res) ∧ settings (fst res) = settings e.
Proof. intros <- E. assert (hc_finish_check e1 r = res) as <- by congruence. apply finish_pending. Qed.

Lemma start_pending net e res :
  he_timer e = None → hc_start_check net e = Some res → pending (fst res) ∧ settings (fst res) = settings e.
Proof.
  intros Ht. unfold hc_start_check. destruct (hn_alloc net); cbn [negb].
  - cbn [he_type set_he_bev]. destruct (he_type e) as [t|]; [|done]. cbn.
    destruct (hs_local_ip (he_ps e)) as [ip|]; [|done].
    destruct (hn_pton net ip); cbn [negb]; [|by apply finish_some_pending].
    destruct (hn_connect net); cbn [negb]; [intros [= <-]; by repeat split|by apply finish_some_pending].
  - by apply finish_some_pending.
Qed.

Lemma step_pending e ns e' : pending e → hc_step e ns e' → pending e' ∧ settings e' = settings e.
Proof.
  intros P [delay net hour ns' e1 Et R|c k ns' e1 _ _ R|c k ns' e1 Eb Ht R|c d Eb _|c d mem ns' e1 Eb Hr R];
    try revert R.
  - unfold hc_timer_cb. cbv zeta. case_if; [|by apply (start_pending net (set_he_timer None e) (e1, ns'))].
    intros [= <- <-]. split; [|done]. unfold pending in *. cbn in *. destruct (he_bev e); [|by split; [apply P|]].
    destruct P as (_ & P & _). congruence.
  - unfold hc_tcp_event_cb. intros E. apply (finish_some_pending e e k (e1, ns')); [done|by rewrite E].
  - unfold hc_http_event_cb. destruct k; [|by apply (finish_some_pending e e false (e1, ns'))].
    rewrite Eb. destruct (hs_local_ip _); [|done]. cbv zeta. case_if; [done|]. intros [= <- <-].
    split; [|done]. unfold pending in *. rewrite Eb in P. cbn. split; [done|apply P].
  - split; [|unfold deliver; by rewrite Eb]. unfold pending, deliver in *. rewrite Eb in *. by cbn.
  - unfold hc_http_read_cb, deliver. rewrite Eb. cbn [he_bev set_he_bev hc_in]. cbv zeta.
    case_if; [intros [= <- <-]; split; [|done]; unfold pending in *; rewrite Eb in P; by cbn|].
    destruct mem; cbn [negb]; [|by apply (finish_some_pending e _ _ (e1, ns'))].
    destruct (scan_status _); by apply (finish_some_pending e _ _ (e1, ns')).
Qed.

Lemma run_pending e ns e' : pending e → hc_run e ns e' → pending e' ∧ settings e' = settings e.
Proof.
  intros P. induction 1 as [|ns ns' e1 e2 _ [P1 E1] S]; [done|].
  destruct (step_pending _ _ _ P1 S) as [P2 E2]. split; [done|congruence].
Qed.

(** ** Reading a response in pieces *)

(** The read callback after each piece, until there is a verdict. *)
Fixpoint read_pieces (pieces : list bytes) (e : entry) : option (entry * list bool) :=
  match pieces with
  | [] => Some (e, [])
  | d :: pieces =>
      match hc_http_read_cb true (deliver d e) with
      | None => None
      | Some (e', ns) => if bool_decide (he_bev e' = None) then Some (e', ns) else read_pieces pieces e'
      end
  end.

Lemma occurs_crlf q i :
  0 ≤ i → occurs q [13; 10] i → q !! Z.to_nat i = Some 13 ∧ q !! S (Z.to_nat i) = Some 10.
Proof.
  intros Hi [_ Ht]. unfold ztake, zdrop in Ht. change (Z.to_nat (zlen [13; 10])) with 2%nat in Ht.
  assert (∀ k, (k < 2)%nat → q !! (Z.to_nat i + k)%nat = [13; 10] !! k) as Hk.
  { intros k Hk. rewrite <- Ht, lookup_take_lt, lookup_drop by done. done. }
  split; [by rewrite <- (Nat.add_0_r (Z.to_nat i)), Hk by lia|].
  replace (S (Z.to_nat i)) with (Z.to_nat i + 1)%nat by lia. by rewrite Hk by lia.
Qed.

(** The end of the line is found when it is all there, and not before. *)
Lemma search_prefix line body l rest :
  Forall (λ b, b ≠ 13) line → line ++ [13; 10] ++ body = l ++ rest → zlen l < 2 ^ 32 →
  search l [13; 10] = if zlen l <? zlen line + 2 then -1 else zlen line.
Proof.
  intros Hline Heq Hl. pose proof (zlen_nonneg line). pose proof (zlen_nonneg l).
  assert (first_occurrence l [13; 10] 0 (search l [13; 10])) as Hf.
  { unfold search. assert (contents (mkEv l (zlen l) (zlen l)) = l) as Hc
      by (unfold contents; cbn [ev_len ev_data]; by apply ztake_ge).
    pose proof (search_spec (mkEv l (zlen l) (zlen l)) [13; 10] None) as Hs. rewrite Hc in Hs.
    apply Hs; [|done|done]. split; [done|]. cbn [ev_len ev_cap]. lia. }
  assert (∀ i, 0 ≤ i → occurs l [13; 10] i → zlen line ≤ i) as Hge.
  { intros i Hi Ho. destruct (occurs_crlf l i Hi Ho) as [H13 _].
    destruct (Z.le_gt_cases (zlen line) i) as [?|Hlt]; [done|]. exfalso.
    apply (lookup_app_l_Some _ rest) in H13. rewrite <- Heq, lookup_app_l in H13 by (unfold zlen in Hlt; lia).
    rewrite Forall_lookup in Hline. by apply (Hline _ _ H13). }
  destruct (Z.ltb_spec (zlen l) (zlen line + 2)).
  - destruct Hf as [(Hs0 & Ho & _)|[-> _]]; [|done]. exfalso. specialize (Hge _ Hs0 Ho).
    destruct Ho as [Ho _]. change (zlen [13; 10]) with 2 in Ho. lia.
  - assert (occurs l [13; 10] (zlen line)) as Hocc.
    { split; [change (zlen [13; 10]) with 2; lia|].
      assert (ztake (zlen line + 2) l = line ++ [13; 10]) as E.
      { rewrite <- (ztake_app_le _ l rest), <- Heq, app_assoc by lia. apply ztake_app_exact. by rewrite zlen_app. }
      rewrite <- (ztake_zdrop (zlen line + 2) l), E, <- app_assoc, zdrop_app_exact by done.
      by apply ztake_app_exact. }
    destruct Hf as [(Hs0 & Ho & Hfirst)|[_ Hn]]; [|by destruct (Hn (zlen line))].
    specialize (Hge _ Hs0 Ho). destruct (Z.eq_dec (search l [13; 10]) (zlen line)); [done|].
    exfalso. apply (Hfirst (zlen line)); [lia|done].
Qed.

(** The verdict on a whole status line. *)
Definition line_ok (line : bytes) : bool :=
  match scan_status (line ++ [13; 10]) with Some n => (200 <=? n) && (n <? 400) | None => false end.

Lemma read_pieces_line line body pieces e c :
  Forall (λ b, b ≠ 13) line → he_bev e = Some c →
  line ++ [13; 10] ++ body = hc_in c ++ concat pieces → zlen (hc_in c ++ concat pieces) < 2 ^ 32 →
  zlen (hc_in c) < zlen line + 2 →
  read_pieces pieces e = Some (hc_finish_check e (line_ok line)).
Proof.
  intros Hline. revert e c. induction pieces as [|d pieces IH]; intros e c Eb Heq Hl Hshort.
  - exfalso. rewrite app_nil_r in Heq. rewrite <- Heq, !zlen_app in Hshort.
    change (zlen [13; 10]) with 2 in Hshort. pose proof (zlen_nonneg body). lia.
  - cbn [concat] in Heq, Hl. rewrite (app_assoc (hc_in c)) in Heq, Hl. pose proof Hl as Hl'. rewrite zlen_app in Hl'.
    pose proof (zlen_nonneg (concat pieces)).
    pose proof (search_prefix line body (hc_in c ++ d) (concat pieces) Hline Heq ltac:(lia)) as Hs.
    cbn [read_pieces]. unfold hc_http_read_cb, deliver. rewrite Eb. cbn [he_bev set_he_bev hc_in].
    rewrite Hs. destruct (Z.ltb_spec (zlen (hc_in c ++ d)) (zlen line + 2)) as [Hlt|Hge].
    + cbn [Z.ltb Z.compare]. rewrite bool_decide_false by done.
      rewrite (IH _ (mkHcConn (hc_in c ++ d) (hc_out c) (hc_tcp c) (hc_reads c) (hc_timeout c))); done.
    + pose proof (zlen_nonneg line). rewrite (proj2 (Z.ltb_ge (zlen line) 0)) by lia. cbn [negb]. cbv zeta.
      assert (ztake (zlen line + 2) (hc_in c ++ d) = line ++ [13; 10]) as ->.
      { rewrite <- (ztake_app_le _ _ (concat pieces)), <- Heq, app_assoc by lia.
        apply ztake_app_exact. by rewrite zlen_app. }
      unfold line_ok. destruct (scan_status _) as [n|]; [destruct ((200 <=? n) && (n <? 400))|]; done.
Qed.

Definition digit (b : Z) : Prop := 48 ≤ b ≤ 57.

Lemma is_digit_true b : digit b → is_digit b = true.
Proof. unfold digit, is_digit. lia. Qed.

Lemma digit_not_special b : digit b → (b =? 0) = false ∧ is_blank b = false ∧ b ≠ 45 ∧ b ≠ 43.
Proof.
  unfold digit, is_blank. intros. split_and!; lia.
Qed.

(** What the scan makes of a status line with a one-digit minor version and a
    three-digit code. *)
Definition status_line (minor a b c : Z) (reason : bytes) : bytes :=
  str_bytes "HTTP/1." ++ [minor; 32; a; b; c] ++ reason.

Definition ends_number (l : bytes) : Prop := match l with [] => True | b :: _ => is_digit b = false end.

Lemma scan_digits_stop acc l : ends_number l → scan_digits acc l = (acc, l).
Proof. destruct l as [|b l]; simpl; [done|]. by intros ->. Qed.

Lemma scan_int_digit b l : digit b → scan_int (b :: l) = let '(n, rest) := scan_digits 0 (b :: l) in Some (Z.min n (2 ^ 31 - 1), rest).
Proof.
  intros Hb. destruct (digit_not_special b Hb) as (_ & Hw & H1 & H2). unfold scan_int.
  cbn [skip_white]. rewrite Hw. cbv zeta.
  assert (match b :: l with 45 :: l' => (true, l') | 43 :: l' => (false, l') | _ => (false, b :: l) end
          = (false, b :: l)) as ->.
  { repeat case_match; try done; congruence. }
  rewrite (is_digit_true b Hb). by destruct (scan_digits 0 (b :: l)).
Qed.

Lemma scan_status_line minor a b c reason :
  digit minor → digit a → digit b → digit c → ends_number reason →
  scan_status (status_line minor a b c reason ++ [13; 10]) = Some (100 * (a - 48) + 10 * (b - 48) + (c - 48)).
Proof.
  intros Hm Ha Hb Hc Hr.
  destruct (digit_not_special minor Hm) as (Zm & _), (digit_not_special a Ha) as (Za & Wa & _),
    (digit_not_special b Hb) as (Zb & _), (digit_not_special c Hc) as (Zc & _).
  assert (ends_number (c_string (reason ++ [13; 10]))) as Hr'.
  { destruct reason as [|r reason]; [done|]. simpl. case_if; [done|]. exact Hr. }
  set (rest := c_string (reason ++ [13; 10])) in *.
  assert (c_string (status_line minor a b c reason ++ [13; 10]) =
          [72; 84; 84; 80; 47; 49; 46; minor; 32; a; b; c] ++ rest) as E.
  { unfold status_line. change (str_bytes "HTTP/1.") with [72; 84; 84; 80; 47; 49; 46].
    cbn [app c_string]. rewrite Zm, Za, Zb, Zc. done. }
  unfold scan_status. rewrite E. change (str_bytes "HTTP/") with [72; 84; 84; 80; 47].
  cbn [app scan_literal Z.eqb Pos.eqb mbind option_bind].
  change (scan_int (49 :: 46 :: ?x)) with (Some (1, 46 :: x)).
  cbn [mbind option_bind scan_literal Z.eqb Pos.eqb]. rewrite scan_int_digit by done. cbn [scan_digits].
  rewrite (is_digit_true minor Hm). change (is_digit 32) with false. cbv iota. cbn [mbind option_bind].
  change (skip_white (32 :: ?x)) with (skip_white x).
  cbn [skip_white]. change (is_blank 32) with true. cbv iota. rewrite Wa.
  rewrite scan_int_digit by done. cbn [scan_digits]. rewrite !is_digit_true by done.
  rewrite scan_digits_stop by done. cbn [mbind option_bind]. f_equal. unfold digit in *. lia.
Qed.

Lemma http_request_length url host : zlen (http_request url host) = 44 + zlen (str_bytes url) + zlen (str_bytes host).
Proof. unfold http_request. rewrite !zlen_app. change (zlen (str_bytes "GET ")) with 4.
  change (zlen (str_bytes " HTTP/1.0")) with 9. change (zlen (str_bytes "Host: ")) with 6.
  change (zlen (str_bytes "Connection: close")) with 17. change (zlen [13; 10]) with 2.
  change (zlen [13; 10; 13; 10]) with 4. lia.
Qed.

(** ** Theorems *)



(** C23: a response is judged the same however it is cut.  For a response with
    the status line "HTTP/1.m abc reason", in whatever pieces the network
    delivers it (and whatever follows the line), the read callback waits until
    the line is complete and then ends the check: passed for the codes 200 to
    399, failed for every other. *)
Theorem http_check_any_split (pieces : list bytes) (minor a b c : Z) (reason body : bytes)
    (e : entry) (conn : hc_conn) (Hbev : he_bev e = Some conn) (Hempty : hc_in conn = [])
    (Hm : digit minor) (Ha : digit a) (Hb : digit b) (Hc : digit c) (Hend : ends_number reason)
    (Hcr : Forall (λ x, x ≠ 13) reason)
    (Hall : concat pieces = status_line minor a b c reason ++ [13; 10] ++ body)
    (Hlen : zlen (concat pieces) < 2 ^ 32) :
  read_pieces pieces e = Some (hc_finish_check e ((a =? 50) || (a =? 51))).
Proof.
  assert (line_ok (status_line minor a b c reason) = (a =? 50) || (a =? 51)) as <-.
  { unfold line_ok. rewrite scan_status_line by done. unfold digit in *. lia. }
  apply (read_pieces_line _ body pieces e conn); rewrite ?Hempty; try done.
  unfold status_line, digit in *. change (str_bytes "HTTP/1.") with [72; 84; 84; 80; 47; 49; 46].
  repeat (constructor; [lia|]). exact Hcr.
Qed.

(** How long the path of an HTTP check may be.  The request is made in a
    buffer of 512 bytes; when path and address together have more than 468
    bytes the callback reads past it, and otherwise (up to 467) exactly the
    request is sent. *)
Lemma http_request_bound (e : entry) (conn : hc_conn) (url host : string)
    (Hbev : he_bev e = Some conn) (Hurl : he_url e = Some url) (Hhost : hs_local_ip (he_ps e) = Some host)
    (n := zlen (str_bytes url) + zlen (str_bytes host)) :
  (468 < n → hc_http_event_cb true e = None) ∧
  (n < 468 → ∃ e', hc_http_event_cb true e = Some (e', []) ∧
     ∃ conn', he_bev e' = Some conn' ∧ hc_out conn' = hc_out conn ++ http_request url host ∧ hc_reads conn' = true).
Proof.
  pose proof (http_request_length url host) as Hl. unfold hc_http_event_cb. rewrite Hbev, Hurl, Hhost. change (default "/"%string (Some url)) with url.
  cbv zeta. unfold REQUEST_SIZE. subst n. split; intros Hn.
  - by rewrite (proj2 (Z.ltb_lt 512 (zlen (http_request url host)))) by lia.
  - rewrite (proj2 (Z.ltb_ge 512 (zlen (http_request url host)))), (proj2 (Z.eqb_neq (zlen (http_request url host)) 512)) by lia. by repeat eexists.
Qed.

(** The timer callback and [is_service_available] agree on the hours of a
    service. *)
Lemma hc_window_agrees start stop hour : hc_outside start stop hour = negb (in_window start stop hour).
Proof. unfold hc_outside, in_window. destruct (Z.leb_spec start stop), (Z.ltb_spec stop start); lia. Qed.

(** ** A concrete service *)

Definition demo_memory : hc_memory := mkMem true true true true true.
Definition web : hc_service :=
  mkHcService "web" (Some "http"%string) (Some "/health"%string) 10 3 2 (Some "127.0.0.1"%string) 80 0 0.
Definition demo_net (reachable : bool) : hc_net := mkNet true (λ _, true) reachable.

(** Two checks that cannot connect. *)
Definition web_down : entry :=
  mkEntry "web" web (Some "http"%string) (Some "/health"%string) 10 3 2 2 false HC_IDLE (Some 10) None.
Lemma web_goes_down : hc_run (hc_new_entry demo_memory web) [false] web_down.
Proof.
  apply (run_more _ [] [false]
    (mkEntry "web" web (Some "http"%string) (Some "/health"%string) 10 3 2 1 true HC_IDLE (Some 10) None)).
  - apply (run_more _ [] [] (hc_new_entry demo_memory web)); [constructor|].
    eapply (step_timer _ 0 (demo_net false) 12); reflexivity.
  - eapply (step_timer _ 10 (demo_net false) 12); reflexivity.
Qed.



Definition demo_conn : hc_conn := mkHcConn [] [] false true 3.
Definition web_reading : entry :=
  mkEntry "web" web (Some "http"%string) (Some "/health"%string) 10 3 2 1 true HC_READING None (Some demo_conn).

(** "HTTP/1.1 204 No Content" in three pieces. *)
Lemma http_check_any_split_witness :
  read_pieces [str_bytes "HTTP/1"; str_bytes ".1 20"; str_bytes "4 No Content" ++ [13; 10; 13; 10]] web_reading
  = Some (hc_finish_check web_reading true).
Proof.
  apply (http_check_any_split _ 49 50 48 52 (str_bytes " No Content") [13; 10] web_reading demo_conn);
    try reflexivity; try (split; discriminate).
  repeat constructor; discriminate.
Defined.

Lemma http_request_bound_witness :
  ∃ e', hc_http_event_cb true web_reading = Some (e', []) ∧
    ∃ conn', he_bev e' = Some conn' ∧ hc_out conn' = [] ++ http_request "/health" "127.0.0.1" ∧ hc_reads conn' = true.
Proof.
  apply (http_request_bound web_reading demo_conn "/health" "127.0.0.1"); reflexivity.
Defined.
