(* ===== verification/Ini.v ===== *)
(** * INI files

    Models [src/src/ini.c] as it is configured in [ini.h]: a stream is read in
    lines of at most 199 bytes, and every section, pair and continuation line
    is handed to a handler.  Text is read from a string; [fgets] cuts a file
    in the same way.  The line number of the first error is the result. *)

From S2P Require Import Prelude Ctext Msg.

Definition INI_MAX_LINE : Z := 200.
Definition MAX_SECTION : Z := 50.
Definition MAX_NAME : Z := 50.

Fixpoint rstrip (s : bytes) : bytes :=
  match s with
  | [] => []
  | c :: s => match rstrip s with
              | [] => if is_blank c then [] else [c]
              | s' => c :: s'
              end
  end.

Definition lskip (s : bytes) : bytes := skip_white s.

(** What comes before the stopping place, and what starts there.  [chars] is
    empty for a null pointer. *)
Fixpoint find_from (chars : bytes) (was_space : bool) (s : bytes) : bytes * bytes :=
  match s with
  | [] => ([], [])
  | c :: s' =>
      if bool_decide (c ∈ chars) || (was_space && (c =? 59)) then ([], s)
      else let '(a, b) := find_from chars (is_blank c) s' in (c :: a, b)
  end.
Definition find_chars_or_comment (s chars : bytes) : bytes * bytes := find_from chars false s.

(** [snprintf] into [size] bytes. *)
Definition strncpy0 (src : bytes) (size : Z) : bytes := ztake (size - 1) src.

(** At most [n] bytes, up to and including a line feed, and what follows. *)
Fixpoint read_upto (n : nat) (pos : bytes) : bytes * bytes :=
  match n, pos with
  | O, _ => ([], pos)
  | _, [] => ([], [])
  | S n, c :: pos => if c =? 10 then ([c], pos) else let '(a, b) := read_upto n pos in (c :: a, b)
  end.

Definition ini_string_reader (num : Z) (pos : bytes) : option (bytes * bytes) :=
  match pos with
  | [] => None
  | _ => if num <=? 1 then None else Some (read_upto (Z.to_nat (num - 1)) pos)
  end.

Section Ini.
Context {U : Type} (handler : bytes → bytes → bytes → U → bool * U).

(** The variables of the loop. *)
Record ini_state := mkIni {
  i_section : bytes;
  i_prev_name : bytes;
  i_lineno : Z;
  i_error : Z;
  i_user : U;
}.

Definition ini_fail (st : ini_state) : ini_state :=
  mkIni (i_section st) (i_prev_name st) (i_lineno st)
    (if i_error st =? 0 then i_lineno st else i_error st) (i_user st).

Definition ini_call (name value : bytes) (st : ini_state) : ini_state :=
  let '(ok, u) := handler (i_section st) name value (i_user st) in
  let st := mkIni (i_section st) (i_prev_name st) (i_lineno st) (i_error st) u in
  if ok then st else ini_fail st.

Definition has_bom (line : bytes) : bool :=
  match line with 239 :: 187 :: 191 :: _ => true | _ => false end.

(** What a line holds; [moved] is [start > line]. *)
Definition ini_content (moved : bool) (start : bytes) (st : ini_state) : ini_state :=
  match start with
  | [] => st
  | c :: rest =>
      if (c =? 59) || (c =? 35) then st
      else if negb (zlen (i_prev_name st) =? 0) && moved then ini_call (i_prev_name st) start st
      else if c =? 91 then
        match find_chars_or_comment rest [93] with
        | (name, 93 :: _) => mkIni (strncpy0 name MAX_SECTION) [] (i_lineno st) (i_error st) (i_user st)
        | _ => ini_fail st
        end
      else
        match find_chars_or_comment start [61; 58] with
        | (name, e :: value) =>
            if (e =? 61) || (e =? 58) then
              let name := rstrip name in
              let '(value, _) := find_chars_or_comment value [] in
              let value := rstrip (lskip value) in
              ini_call name value
                (mkIni (i_section st) (strncpy0 name MAX_NAME) (i_lineno st) (i_error st) (i_user st))
            else ini_fail st
        | (_, []) => ini_fail st
        end
  end.

(** The next line number. *)
Definition ini_next (st : ini_state) : ini_state :=
  mkIni (i_section st) (i_prev_name st) (i_lineno st + 1) (i_error st) (i_user st).

Definition ini_line (line : bytes) (st : ini_state) : ini_state :=
  let st := ini_next st in
  let bom := (i_lineno st =? 1) && has_bom line in
  let stripped := rstrip (if bom then zdrop 3 line else line) in
  let start := lskip stripped in
  ini_content (bom || (zlen start <? zlen stripped)) start st.

(** The loop; every round reads at least one byte. *)
Fixpoint ini_loop (fuel : nat) (pos : bytes) (st : ini_state) : option ini_state :=
  match fuel with
  | O => None
  | S fuel =>
      match ini_string_reader INI_MAX_LINE pos with
      | None => Some st
      | Some (line, pos) => ini_loop fuel pos (ini_line line st)
      end
  end.

Definition ini_parse_stream (pos : bytes) (u : U) : option (Z * U) :=
  st ← ini_loop (S (length pos)) pos (mkIni [] [] 0 0 u);
  Some (i_error st, i_user st).

Definition ini_parse_string (string : bytes) (u : U) : option (Z * U) := ini_parse_stream (c_string string) u.

End Ini.
Arguments mkIni {U}. Arguments i_section {U}. Arguments i_prev_name {U}. Arguments i_lineno {U}.
Arguments i_error {U}. Arguments i_user {U}.

(** ** Lines *)

(** Reading loses nothing. *)
Lemma read_upto_app n pos line rest :
  read_upto n pos = (line, rest) → pos = line ++ rest ∧ (length line ≤ n)%nat ∧ (n ≠ O → pos ≠ [] → line ≠ []).
Proof.
  revert pos line rest. induction n as [|n IH]; intros pos line rest; simpl.
  { intros [= <- <-]. split_and!; [done|simpl; lia|done]. }
  destruct pos as [|c pos]; [by intros [= <- <-]; split_and!; [done|simpl; lia|]|].
  case_if; [by intros [= <- <-]; split_and!; [done|simpl; lia|]|].
  destruct (read_upto n pos) as [a b] eqn:E. intros [= <- <-]. apply IH in E as (-> & Hl & _).
  split_and!; [done|simpl; lia|done].
Qed.

(** A line that fits is read whole. *)
Lemma read_upto_line n l rest :
  10 ∉ l → (length l < n)%nat → read_upto n (l ++ 10 :: rest) = (l ++ [10], rest).
Proof.
  revert n. induction l as [|c l IH]; intros n Hl Hn; (destruct n as [|n]; [simpl in Hn; lia|]).
  - done.
  - apply not_elem_of_cons in Hl as [Hc Hl]. cbn [app read_upto].
    rewrite (proj2 (Z.eqb_neq c 10)) by congruence. rewrite IH; [done|done|simpl in Hn; lia].
Qed.

Section Loop.
Context {U : Type} (handler : bytes → bytes → bytes → U → bool * U).

(** More fuel than bytes is enough. *)
Lemma ini_loop_enough fuel pos st :
  (length pos < fuel)%nat → ∃ st', ini_loop handler fuel pos st = Some st'.
Proof.
  revert pos st. induction fuel as [|fuel IH]; intros pos st Hf; [lia|]. cbn [ini_loop].
  destruct pos as [|c pos]; [by eexists|]. unfold ini_string_reader. change (INI_MAX_LINE <=? 1) with false. cbv iota.
  destruct (read_upto _ (c :: pos)) as [line rest] eqn:E. apply read_upto_app in E as (Hp & _ & Hne).
  apply IH. rewrite Hp, length_app in Hf. destruct line; [|simpl in Hf; lia]. exfalso. by apply Hne.
Qed.

Lemma ini_loop_fuel fuel1 fuel2 pos (st st1 : @ini_state U) :
  ini_loop handler fuel1 pos st = Some st1 → (length pos < fuel2)%nat → ini_loop handler fuel2 pos st = Some st1.
Proof.
  revert fuel2 pos st. induction fuel1 as [|fuel1 IH]; intros fuel2 pos st; [done|].
  destruct fuel2 as [|fuel2]; [lia|]. cbn [ini_loop].
  destruct (ini_string_reader INI_MAX_LINE pos) as [[line rest]|] eqn:E; [|done].
  intros Hr Hf. apply IH; [done|]. unfold ini_string_reader in E. destruct pos as [|c pos]; [done|].
  change (INI_MAX_LINE <=? 1) with false in E. cbv iota in E.
  assert (read_upto (Z.to_nat (INI_MAX_LINE - 1)) (c :: pos) = (line, rest)) as E' by congruence.
  apply read_upto_app in E' as (Hp & _ & Hne). rewrite Hp, length_app in Hf.
  destruct line; [|simpl in Hf; lia]. exfalso. by apply Hne.
Qed.

(** A line that fits, followed by more text. *)
Lemma ini_loop_line fuel l rest st :
  10 ∉ l → zlen l + 1 ≤ INI_MAX_LINE - 1 →
  ini_loop handler (S fuel) (l ++ 10 :: rest) st = ini_loop handler fuel rest (ini_line handler (l ++ [10]) st).
Proof.
  intros Hl Hz. cbn [ini_loop]. unfold ini_string_reader. destruct (l ++ 10 :: rest) eqn:E; [by destruct l|]. rewrite <- E.
  change (INI_MAX_LINE <=? 1) with false. cbv iota. rewrite read_upto_line; [done|done|].
  unfold INI_MAX_LINE, zlen in *. lia.
Qed.
End Loop.

(** ** Reading back a printed file *)

Lemma rstrip_app l s : rstrip s ≠ [] → rstrip (l ++ s) = l ++ rstrip s.
Proof.
  intros Hs. induction l as [|c l IH]; [done|]. cbn [app rstrip]. rewrite IH.
  destruct (l ++ rstrip s) eqn:E; [|done]. by apply app_nil in E as [_ ?].
Qed.
Lemma rstrip_blank l s : rstrip s = [] → rstrip (l ++ s) = rstrip l.
Proof. intros Hs. induction l as [|c l IH]; [done|]. cbn [app rstrip]. by rewrite IH. Qed.

Lemma find_stop chars w l c rest :
  Forall (λ b, b ∉ chars ∧ b ≠ 59) l → c ∈ chars → find_from chars w (l ++ c :: rest) = (l, c :: rest).
Proof.
  intros Hl Hc. revert w. induction Hl as [|b l [Hb H59] Hl IH]; intros w; cbn [app find_from].
  - by rewrite (bool_decide_true _ Hc).
  - rewrite (bool_decide_false _ Hb), (proj2 (Z.eqb_neq b 59) H59), andb_false_r. cbn [orb]. by rewrite IH.
Qed.
Lemma find_end w l : Forall (λ b, b ≠ 59) l → find_from [] w l = (l, []).
Proof.
  intros Hl. revert w. induction Hl as [|b l H59 Hl IH]; intros w; cbn [find_from]; [done|].
  rewrite (proj2 (Z.eqb_neq b 59) H59), andb_false_r. cbn [orb]. change (bool_decide (b ∈ [])) with false. cbv iota. by rewrite IH.
Qed.

(** The lines of a file. *)
Inductive ini_item :=
| ISection (name : bytes)
| IPair (name value : bytes)
| IComment (text : bytes)
| IBlank.

Definition print_item (i : ini_item) : bytes :=
  match i with
  | ISection s => 91 :: s ++ [93]
  | IPair n v => n ++ [32; 61; 32] ++ v
  | IComment t => 35 :: t
  | IBlank => []
  end.
Definition print_ini (l : list ini_item) : bytes := concat (map (λ i, print_item i ++ [10]) l).

(** Text without white space at either end. *)
Definition trimmed (l : bytes) : Prop := skip_white l = l ∧ rstrip l = l.

(** What can be written down: no line feed, no byte that ends the field, no
    inline comment, and no more than a line holds. *)
Definition item_ok (i : ini_item) : Prop :=
  (10 ∉ print_item i ∧ 0 ∉ print_item i ∧ zlen (print_item i) + 1 ≤ INI_MAX_LINE - 1) ∧
  match i with
  | ISection s => Forall (λ b, b ∉ [93] ∧ b ≠ 59) s ∧ zlen s < MAX_SECTION
  | IPair n v =>
      Forall (λ b, b ∉ [61; 58] ∧ b ≠ 59) n ∧ Forall (λ b, b ≠ 59) v ∧ trimmed n ∧ trimmed v ∧
      match n with [] => False | c :: _ => c ≠ 91 ∧ c ≠ 35 ∧ c ≠ 239 end
  | IComment _ | IBlank => True
  end.

Lemma print_ini_cons i l : print_ini (i :: l) = print_item i ++ 10 :: print_ini l.
Proof. unfold print_ini. cbn [map concat]. by rewrite <- app_assoc. Qed.

Lemma c_string_id l : 0 ∉ l → c_string l = l.
Proof.
  induction l as [|b l IH]; [done|]. intros [Hb Hl]%not_elem_of_cons. cbn [c_string].
  rewrite (proj2 (Z.eqb_neq b 0)) by congruence. by rewrite IH.
Qed.

Lemma print_ini_nonzero l : Forall item_ok l → 0 ∉ print_ini l.
Proof.
  induction 1 as [|i l ((_ & H0 & _) & _) Hl IH]; [set_solver|]. rewrite print_ini_cons. set_solver.
Qed.
Lemma print_ini_length l : (length l ≤ length (print_ini l))%nat.
Proof. induction l as [|i l IH]; [done|]. rewrite print_ini_cons, length_app. simpl. lia. Qed.

Section RoundTrip.
Context {U : Type} (handler : bytes → bytes → bytes → U → bool * U).

(** What the lines mean: pairs belong to the section before them, and the
    result is the line of the first pair that is refused. *)
Fixpoint run_items (l : list ini_item) (line : Z) (section : bytes) (error : Z) (u : U) : Z * U :=
  match l with
  | [] => (error, u)
  | ISection s :: l => run_items l (line + 1) s error u
  | IPair n v :: l =>
      let '(ok, u) := handler section n v u in
      run_items l (line + 1) section (if (ok : bool) then error else if error =? 0 then line + 1 else error) u
  | _ :: l => run_items l (line + 1) section error u
  end.

(** A line that starts with neither white space nor a byte order mark. *)
Lemma ini_line_plain c l (st : @ini_state U) :
  is_blank c = false → c ≠ 239 →
  ini_line handler ((c :: l) ++ [10]) st = ini_content handler false (rstrip (c :: l)) (ini_next st).
Proof.
  intros Hb Hc. unfold ini_line, lskip. cbv zeta.
  assert (has_bom ((c :: l) ++ [10]) = false) as ->.
  { cbn [app has_bom]. repeat case_match; congruence. }
  rewrite andb_false_r. cbn [orb]. cbv iota. rewrite rstrip_blank by done.
  destruct (rstrip (c :: l)) as [|c' l'] eqn:E; [done|].
  assert (c' = c) as -> by (cbn [rstrip] in E; rewrite Hb in E; destruct (rstrip l); congruence).
  cbn [skip_white]. rewrite Hb. by rewrite Z.ltb_irrefl.
Qed.

Lemma take_short (s : bytes) n : zlen s < n → strncpy0 s n = s.
Proof. intros Hs. unfold strncpy0. apply ztake_ge. lia. Qed.

(** The effect of a line. *)
Definition item_step (i : ini_item) (st : @ini_state U) : ini_state :=
  match i with
  | ISection s => mkIni s [] (i_lineno st) (i_error st) (i_user st)
  | IPair n v =>
      ini_call handler n v (mkIni (i_section st) (strncpy0 n MAX_NAME) (i_lineno st) (i_error st) (i_user st))
  | _ => st
  end.

Lemma ini_line_section s st :
  item_ok (ISection s) → ini_line handler (print_item (ISection s) ++ [10]) st = item_step (ISection s) (ini_next st).
Proof.
  intros (_ & Hs & Hl). cbn [print_item]. rewrite ini_line_plain by done.
  change (91 :: s ++ [93]) with ((91 :: s) ++ [93]). rewrite (rstrip_app (91 :: s) [93]) by done. change (rstrip [93]) with [93].
  cbn [app]. unfold ini_content. cbn [Z.eqb Pos.eqb orb andb]. rewrite andb_false_r. unfold find_chars_or_comment.
  rewrite (find_stop [93] false s 93 []); [|done|by left].
  by rewrite take_short.
Qed.

Lemma ini_line_pair n v st :
  item_ok (IPair n v) → ini_line handler (print_item (IPair n v) ++ [10]) st = item_step (IPair n v) (ini_next st).
Proof.
  intros (_ & Hn & Hv & [Hn1 Hn2] & [Hv1 Hv2] & Hc). destruct n as [|c n]; [done|]. destruct Hc as (H91 & H35 & H239).
  assert (is_blank c = false) as Hb.
  { cbn [skip_white] in Hn1. destruct (is_blank c) eqn:E; [|done]. exfalso.
    assert (∀ l, (length (skip_white l) ≤ length l)%nat) as Hsk
      by (intros l; induction l as [|x l IH]; simpl; [lia|case_match; simpl; lia]).
    specialize (Hsk n). rewrite Hn1 in Hsk. simpl in Hsk. lia. }
  cbn [print_item app]. rewrite (ini_line_plain c (n ++ 32 :: 61 :: 32 :: v)) by done.
  change (c :: n ++ 32 :: 61 :: 32 :: v) with ((c :: n) ++ [32; 61] ++ 32 :: v).
  assert (∃ v', rstrip ((c :: n) ++ [32; 61] ++ 32 :: v) = (c :: n) ++ 32 :: 61 :: v' ∧
                Forall (λ b, b ≠ 59) v' ∧ rstrip (lskip v') = v) as (v' & -> & Hf & Hval).
  { destruct v as [|b v].
    - exists []. split_and!; [|constructor|done]. rewrite rstrip_app; [done|by vm_compute].
    - exists (32 :: b :: v). split_and!; [|by constructor|].
      + assert (rstrip (32 :: b :: v) = 32 :: b :: v) as E by (cbn [rstrip]; cbn [rstrip] in Hv2; by rewrite Hv2).
        rewrite rstrip_app; rewrite rstrip_app; rewrite ?E; done.
      + unfold lskip. change (skip_white (32 :: b :: v)) with (skip_white (b :: v)). by rewrite Hv1. }
  unfold ini_content. cbn [app]. pose proof (Forall_inv Hn) as [_ H59].
  rewrite (proj2 (Z.eqb_neq c 59) H59), (proj2 (Z.eqb_neq c 35) H35), andb_false_r, (proj2 (Z.eqb_neq c 91) H91). cbn [orb].
  unfold find_chars_or_comment. change (c :: n ++ 32 :: 61 :: v') with ((c :: n) ++ [32] ++ 61 :: v').
  rewrite app_assoc, find_stop; [|apply Forall_app; split; [done|by repeat constructor; set_solver]|by left].
  cbn [Z.eqb Pos.eqb orb]. rewrite find_end by done. rewrite rstrip_blank, Hn2, Hval by done. done.
Qed.

Lemma ini_line_item i st :
  item_ok i → ini_line handler (print_item i ++ [10]) st = item_step i (ini_next st).
Proof.
  destruct i as [s|n v|t|]; intros Hi; [by apply ini_line_section|by apply ini_line_pair| |].
  - cbn [print_item]. rewrite ini_line_plain by done. cbn [rstrip]. by destruct (rstrip t).
  - unfold ini_line. cbn. by rewrite andb_false_r.
Qed.

(** What is left of the result after a line. *)
Lemma run_items_step i l st :
  let st' := item_step i (ini_next st) in
  run_items (i :: l) (i_lineno st) (i_section st) (i_error st) (i_user st) =
  run_items l (i_lineno st') (i_section st') (i_error st') (i_user st').
Proof.
  destruct i as [s|n v|t|]; cbn [run_items item_step]; try done. unfold ini_call. cbn.
  destruct (handler (i_section st) n v (i_user st)) as [[] u]; done.
Qed.

Lemma ini_loop_items l fuel st :
  Forall item_ok l → (length l < fuel)%nat →
  ∃ st', ini_loop handler fuel (print_ini l) st = Some st' ∧
    (i_error st', i_user st') = run_items l (i_lineno st) (i_section st) (i_error st) (i_user st).
Proof.
  intros Hl. revert fuel st. induction Hl as [|i l Hi Hl IH]; intros fuel st Hf; (destruct fuel as [|fuel]; [simpl in Hf; lia|]).
  - exists st. done.
  - pose proof Hi as ((H10 & _ & Hz) & _). rewrite print_ini_cons, ini_loop_line, ini_line_item by done.
    rewrite run_items_step. apply IH. simpl in Hf. lia.
Qed.

End RoundTrip.

Lemma ini_parse_printed {U : Type} (handler : bytes → bytes → bytes → U → bool * U) (items : list ini_item) (u : U) :
  Forall item_ok items → ini_parse_string handler (print_ini items) u = Some (run_items handler items 0 [] 0 u).
Proof.
  intros Hok. unfold ini_parse_string. rewrite c_string_id by by apply print_ini_nonzero. unfold ini_parse_stream.
  pose proof (print_ini_length items).
  destruct (ini_loop_items handler items (S (length (print_ini items))) (mkIni [] [] 0 0 u) Hok) as (st & -> & E); [lia|].
  cbn [mbind option_bind]. by rewrite E.
Qed.

(** A configuration file is read as it was written.  For any sections,
    pairs, comments and blank lines that respect the limits of a line, the
    parser ends and has called the handler once for each pair, in order, with
    the section before it and exactly the name and the value; its result is 0
    or the number of the first line whose pair the handler refused. *)
Lemma ini_roundtrip {U : Type} (handler : bytes → bytes → bytes → U → bool * U)
    (items : list ini_item) (u : U) (Hok : Forall item_ok items) :
  ini_parse_string handler (print_ini items) u = Some (run_items handler items 0 [] 0 u).
Proof. by apply ini_parse_printed. Qed.

(** Any text is parsed to the end. *)
Lemma ini_parse_total {U : Type} (handler : bytes → bytes → bytes → U → bool * U) (text : bytes) (u : U) :
  ∃ r, ini_parse_string handler text u = Some r.
Proof.
  unfold ini_parse_string, ini_parse_stream.
  destruct (ini_loop_enough handler (S (length (c_string text))) (c_string text) (mkIni [] [] 0 0 u)) as (st & ->); [lia|].
  by eexists.
Qed.

(** What every call of the handler keeps, the parser keeps. *)
Lemma ini_parse_keeps {U : Type} (handler : bytes → bytes → bytes → U → bool * U) (P : U → Prop) (text : bytes) (u : U) :
  (∀ s n v u, P u → P (snd (handler s n v u))) → P u →
  ∃ rc u', ini_parse_string handler text u = Some (rc, u') ∧ P u'.
Proof.
  intros Hh Hu. destruct (ini_parse_total handler text u) as [[rc u'] E]. exists rc, u'. split; [done|]. revert E.
  assert (∀ n v st, P (i_user st) → P (i_user (ini_call handler n v st))) as Hcall.
  { intros n v st Hst. unfold ini_call. pose proof (Hh (i_section st) n v (i_user st) Hst) as Hq.
    by destruct (handler (i_section st) n v (i_user st)) as [[] u1]. }
  assert (∀ l st, P (i_user st) → P (i_user (ini_line handler l st))) as Hline.
  { intros l st Hst. unfold ini_line, ini_content. cbv zeta. repeat case_match; try done; by apply Hcall. }
  unfold ini_parse_string, ini_parse_stream. generalize (c_string text) as pos. intros pos.
  assert (∀ fuel pos st st', P (i_user st) → ini_loop handler fuel pos st = Some st' → P (i_user st')) as Hloop.
  { clear pos. intros fuel. induction fuel as [|fuel IH]; intros pos st st' Hst; [done|]. cbn [ini_loop].
    destruct (ini_string_reader INI_MAX_LINE pos) as [[line rest]|]; [|by intros [= <-]]. apply IH. by apply Hline. }
  destruct (ini_loop handler (S (length pos)) pos (mkIni [] [] 0 0 u)) as [st|] eqn:E; [|done].
  cbn [mbind option_bind]. intros [= <- <-]. by eapply Hloop; [|exact E].
Qed.

(** A section, a comment and two pairs, the second of which is refused. *)
Definition demo_items : list ini_item :=
  [ISection (str_bytes "common"); IComment (str_bytes " server"); IPair (str_bytes "token") (str_bytes "a b");
   IPair (str_bytes "user") []].
Definition demo_handler (s n v : bytes) (l : list (bytes * bytes * bytes)) : bool * list (bytes * bytes * bytes) :=
  (negb (zlen v =? 0), l ++ [(s, n, v)]).

Lemma demo_items_ok : Forall item_ok demo_items.
Proof.
  repeat constructor; vm_compute; try done;
    try (intros Hin; repeat (apply elem_of_cons in Hin as [Hin|Hin]; [done|]); by apply elem_of_nil in Hin).
Qed.

Lemma ini_roundtrip_witness :
  ini_parse_string demo_handler (print_ini demo_items) [] =
  Some (4, [(str_bytes "common", str_bytes "token", str_bytes "a b"); (str_bytes "common", str_bytes "user", [])]).
Proof.
  etransitivity; [apply (ini_roundtrip demo_handler demo_items [])|reflexivity]. exact demo_items_ok.
Defined.
