(* ===== verification/Toml.v ===== *)
(** * Reading TOML values

    Models [src/src/toml_parser.c]: looking up a value by its path and turning
    it into text.  The parser and [toml_seek] are the vendored tomlc17: the
    first gives a value of type [toml], the second is a parameter.  Numbers,
    floats and arrays are written to a static buffer, to which the caller gets
    a pointer; [None] is a write outside of a buffer. *)

From stdpp Require Import pretty.
From S2P Require Import Prelude Ctext.

(** [toml_datum_t]; a float with its text under [%g]. *)
Inductive toml :=
| TUnknown
| TString (s : string)
| TInt (n : Z)
| TBool (b : bool)
| TFloat (text : string)
| TArray (l : list toml)
| TTable (l : list (string * toml))
| TDate.

Definition sizeof_tls_buf : Z := 1024.
Definition sizeof_tls_pairs : Z := 2048.

(** [snprintf(buf + pos, size - pos, ...)]: the text in the buffer, and [pos]
    plus the length the output would have. *)
Definition snprintf_at (size : Z) (buf : bytes) (pos : Z) (s : bytes) : option (bytes * Z) :=
  if size <? pos then None else Some (ztake (size - 1) (ztake pos buf ++ s), pos + zlen s).

(** A pointer to text: of the document or a literal, or the static buffer. *)
Inductive text_ptr := PText (s : string) | PBuf.
Definition text_of (buf : bytes) (p : text_ptr) : string :=
  match p with PText s => s | PBuf => bytes_string buf end.

Definition int_text (n : Z) : bytes := str_bytes (pretty n).

(** The loop over an array. *)
Fixpoint array_text (l : list toml) (first : bool) (buf : bytes) (pos : Z) : option bytes :=
  match l with
  | [] => Some buf
  | x :: l =>
      if pos <? sizeof_tls_buf - 4 then
        '(buf, pos) ← (if first then Some (buf, pos) else snprintf_at sizeof_tls_buf buf pos (str_bytes ", "));
        '(buf, pos) ← match x with
                      | TString s => snprintf_at sizeof_tls_buf buf pos (str_bytes s)
                      | TInt n => snprintf_at sizeof_tls_buf buf pos (int_text n)
                      | _ => Some (buf, pos)
                      end;
        array_text l false buf pos
      else Some buf
  end.

(** The result and the static buffer after the call. *)
Definition toml_text (buf : bytes) (val : toml) : option (option text_ptr * bytes) :=
  match val with
  | TString s => Some (Some (PText s), buf)
  | TInt n => '(buf, _) ← snprintf_at sizeof_tls_buf buf 0 (int_text n); Some (Some PBuf, buf)
  | TBool b => Some (Some (PText (if b then "1" else "0")%string), buf)
  | TFloat t => '(buf, _) ← snprintf_at sizeof_tls_buf buf 0 (str_bytes t); Some (Some PBuf, buf)
  | TArray l => buf ← array_text l true buf 0; Some (Some PBuf, buf)
  | TUnknown | TTable _ | TDate => Some (None, buf)
  end.

Fixpoint pairs_text (l : list (string * toml)) (buf : bytes) (pos : Z) : option (bytes * Z) :=
  match l with
  | [] => Some (buf, pos)
  | (k, v) :: l =>
      if pos <? sizeof_tls_pairs - 4 then
        match v with
        | TString s =>
            '(buf, pos) ← (if 0 <? pos then snprintf_at sizeof_tls_pairs buf pos (str_bytes ",") else Some (buf, pos));
            '(buf, pos) ← snprintf_at sizeof_tls_pairs buf pos (str_bytes k ++ [61] ++ str_bytes s);
            pairs_text l buf pos
        | _ => pairs_text l buf pos
        end
      else Some (buf, pos)
  end.

Section Seek.
Context (seek : toml → string → toml).

Definition xfrpc_toml_get (sec : toml) (key : string) (buf : bytes) : option (option text_ptr * bytes) :=
  toml_text buf (seek sec key).

(** The buffer of pairs starts empty; what an earlier call left is overwritten
    by the first write. *)
Definition xfrpc_toml_get_table_pairs (sec : toml) (path : string) (buf : bytes) : option (option string) :=
  match seek sec path with
  | TTable l =>
      if zlen l =? 0 then Some None
      else
        '(buf, pos) ← pairs_text l buf 0;
        Some (if 0 <? pos then Some (bytes_string buf) else None)
  | _ => Some None
  end.

(** [get] is the library's [toml_get], which looks up a single key. *)
Context (get : toml → string → toml).

Definition xfrpc_toml_find_array_section (doc : toml) (prefix : string) (index : Z) : option toml :=
  if index <? 0 then Some doc
  else
    match (if bool_decide (prefix = EmptyString) then doc else get doc prefix) with
    | TArray l => if zlen l <=? index then None else l !! Z.to_nat index
    | _ => None
    end.

Definition xfrpc_toml_count_array_sections (doc : toml) (prefix : string) : Z :=
  match get doc prefix with TArray l => zlen l | _ => 0 end.
End Seek.

(** ** Bounds *)

Lemma snprintf_ok size buf pos s :
  0 < size → pos ≤ size → ∃ buf', snprintf_at size buf pos s = Some (buf', pos + zlen s) ∧ zlen buf' < size.
Proof.
  intros Hs Hp. unfold snprintf_at. rewrite (proj2 (Z.ltb_ge size pos)) by lia. eexists. split; [done|].
  rewrite zlen_ztake. lia.
Qed.

Lemma array_text_ok l first buf pos :
  zlen buf < sizeof_tls_buf → ∃ buf', array_text l first buf pos = Some buf' ∧ zlen buf' < sizeof_tls_buf.
Proof.
  revert first buf pos. induction l as [|x l IH]; intros first buf pos Hb; [by exists buf|]. cbn [array_text].
  case_if; [|by exists buf]. unfold sizeof_tls_buf in *.
  assert (∃ buf1 pos1, (if first then Some (buf, pos) else snprintf_at 1024 buf pos (str_bytes ", ")) = Some (buf1, pos1) ∧
            zlen buf1 < 1024 ∧ pos1 ≤ 1024) as (b1 & p1 & -> & Hb1 & Hp1).
  { destruct first; [exists buf, pos; split_and!; [done|done|lia]|].
    destruct (snprintf_ok 1024 buf pos (str_bytes ", ")) as (b1 & -> & ?); [lia|lia|].
    eexists _, _. split_and!; [done|done|]. change (zlen (str_bytes ", ")) with 2. lia. }
  cbn [mbind option_bind].
  assert (∃ buf2 pos2, match x with
            | TString s => snprintf_at 1024 b1 p1 (str_bytes s)
            | TInt n => snprintf_at 1024 b1 p1 (int_text n)
            | _ => Some (b1, p1) end = Some (buf2, pos2) ∧ zlen buf2 < 1024) as (b2 & p2 & -> & Hb2).
  { destruct x; try by exists b1, p1.
    - destruct (snprintf_ok 1024 b1 p1 (str_bytes s)) as (b2 & -> & ?); [lia|lia|by eexists _, _].
    - destruct (snprintf_ok 1024 b1 p1 (int_text n)) as (b2 & -> & ?); [lia|lia|by eexists _, _]. }
  cbn [mbind option_bind]. by apply IH.
Qed.

Lemma pairs_text_ok l buf pos :
  zlen buf < sizeof_tls_pairs → ∃ buf' pos', pairs_text l buf pos = Some (buf', pos') ∧ zlen buf' < sizeof_tls_pairs.
Proof.
  revert buf pos. induction l as [|[k v] l IH]; intros buf pos Hb; [by exists buf, pos|]. cbn [pairs_text].
  case_if; [|by exists buf, pos]. destruct v; try by apply IH. unfold sizeof_tls_pairs in *.
  assert (∃ buf1 pos1, (if 0 <? pos then snprintf_at 2048 buf pos (str_bytes ",") else Some (buf, pos)) = Some (buf1, pos1) ∧
            pos1 ≤ 2048) as (b1 & p1 & -> & Hp1).
  { case_if; [|exists buf, pos; split; [done|lia]].
    destruct (snprintf_ok 2048 buf pos (str_bytes ",")) as (b1 & -> & ?); [lia|lia|].
    eexists _, _. split; [done|]. change (zlen (str_bytes ",")) with 1. lia. }
  cbn [mbind option_bind].
  destruct (snprintf_ok 2048 b1 p1 (str_bytes k ++ [61] ++ str_bytes s)) as (b2 & -> & ?); [lia|lia|].
  cbn [mbind option_bind]. by apply IH.
Qed.

Lemma toml_get_ok seek sec key buf :
  zlen buf < sizeof_tls_buf → ∃ r buf', xfrpc_toml_get seek sec key buf = Some (r, buf') ∧ zlen buf' < sizeof_tls_buf.
Proof.
  intros Hb. unfold xfrpc_toml_get, toml_text. destruct (seek sec key); try by eexists _, buf.
  - destruct (snprintf_ok sizeof_tls_buf buf 0 (int_text n)) as (b & -> & ?); [done|done|by eexists _, _].
  - destruct (snprintf_ok sizeof_tls_buf buf 0 (str_bytes text)) as (b & -> & ?); [done|done|by eexists _, _].
  - destruct (array_text_ok l true buf 0 Hb) as (b & -> & ?). by eexists _, _.
Qed.

Lemma toml_pairs_ok seek sec key buf :
  zlen buf < sizeof_tls_pairs → ∃ r, xfrpc_toml_get_table_pairs seek sec key buf = Some r.
Proof.
  intros Hb. unfold xfrpc_toml_get_table_pairs. destruct (seek sec key) as [| | | | | |l|]; try by eexists.
  case_if; [by eexists|]. destruct (pairs_text_ok l buf 0 Hb) as (b & p & -> & _). by eexists.
Qed.

(** No value in a document makes the reader write outside of its buffers.
    Whatever is found under a path, long strings, long arrays and large tables
    included, the text is cut to what the static buffers hold. *)
Lemma toml_text_in_bounds (seek : toml → string → toml) (sec : toml) (key : string) (buf pairs : bytes)
    (Hb : zlen buf < sizeof_tls_buf) (Hp : zlen pairs < sizeof_tls_pairs) :
  (∃ r buf', xfrpc_toml_get seek sec key buf = Some (r, buf') ∧ zlen buf' < sizeof_tls_buf) ∧
  ∃ r, xfrpc_toml_get_table_pairs seek sec key pairs = Some r.
Proof. split; [by apply toml_get_ok|by apply toml_pairs_ok]. Qed.

Lemma toml_text_in_bounds_witness :
  ∃ r buf', xfrpc_toml_get (λ _ _, TArray [TInt 8080; TString "a"]) TUnknown "k" [] = Some (r, buf') ∧ zlen buf' < sizeof_tls_buf.
Proof.
  apply (toml_text_in_bounds (λ _ _, TArray [TInt 8080; TString "a"]) TUnknown "k" [] []); vm_compute; reflexivity.
Defined.
