(* ===== verification/Config.v ===== *)
(** * Configuration

    Models [src/src/config.c] and the start functions of
    [src/port/xfrpc_api.c]: the settings and the table of services, the INI
    handlers and the TOML loader, validation, and what each way to start the
    client leaves behind.  A structure of pointers is a function from its
    fields; the hash table is the list of its entries in insertion order.
    Failed allocations end the program ([assert]) but where the code tests for
    them. *)

From S2P Require Import Prelude Ctext World Ini Toml Msg.

(** ** Settings *)

(** The strings and numbers of [struct common_conf]. *)
Inductive conf_str :=
| server_addr | auth_token | auth_method | oidc_client_id | oidc_client_secret | oidc_audience | oidc_scope
| oidc_token_endpoint_url | oidc_trusted_ca_file | oidc_proxy_url | protocol | wire_protocol | tls_cert_file
| tls_key_file | tls_trusted_ca_file | tls_server_name | tls_trusted_ca_pem | tls_cert_pem | tls_key_pem | user.
Inductive conf_int :=
| server_port | oidc_insecure_skip_verify | heartbeat_interval | heartbeat_timeout | tcp_mux | quic_bind_port
| tls_enable | is_router.
#[export] Instance conf_str_eq : EqDecision conf_str. Proof. solve_decision. Defined.
#[export] Instance conf_int_eq : EqDecision conf_int. Proof. solve_decision. Defined.

Record common_conf := mkConf { c_str : conf_str → option string; c_int : conf_int → Z }.

(** The strings and numbers of [struct proxy_service]. *)
Inductive ps_str :=
| proxy_type | local_ip | bind_addr | custom_domains | subdomain | locations | host_header_rewrite | http_user
| http_pwd | request_headers | response_headers | s_root_dir | group | group_key | plugin | plugin_user | plugin_pwd
| multiplexer | route_by_http_user | sk | allow_users | plugin_unix_path | health_check_type | health_check_url.
Inductive ps_int :=
| use_encryption | use_compression | remote_port | remote_data_port | local_port | start_time | end_time
| health_check_interval | health_check_timeout | health_check_max_failed.
#[export] Instance ps_str_eq : EqDecision ps_str. Proof. solve_decision. Defined.
#[export] Instance ps_int_eq : EqDecision ps_int. Proof. solve_decision. Defined.

Record service := mkService {
  proxy_name : string;
  p_str : ps_str → option string;
  p_int : ps_int → Z;
  service_type : xdpi_service_type;
}.

(** [c_conf] and [all_ps]. *)
Record config_state := mkCfg { c_conf : option common_conf; all_ps : list service }.

(** Switches of the build: TLS with the certificates compiled in, and snappy. *)
Record build := mkBuild {
  enable_tls : bool;
  ca_pem : string;
  cert_pem : string;
  key_pem : string;
  enable_compression : bool;
}.

Definition upd {F V} `{EqDecision F} (f : F) (v : V) (g : F → V) : F → V := λ x, if decide (x = f) then v else g x.
Definition set_c_str (f : conf_str) (v : string) (c : common_conf) : common_conf := mkConf (upd f (Some v) (c_str c)) (c_int c).
Definition set_c_int (f : conf_int) (v : Z) (c : common_conf) : common_conf := mkConf (c_str c) (upd f v (c_int c)).
Definition set_p_str (f : ps_str) (v : string) (s : service) : service :=
  mkService (proxy_name s) (upd f (Some v) (p_str s)) (p_int s) (service_type s).
Definition set_p_int (f : ps_int) (v : Z) (s : service) : service :=
  mkService (proxy_name s) (p_str s) (upd f v (p_int s)) (service_type s).
Definition set_service_type (t : xdpi_service_type) (s : service) : service :=
  mkService (proxy_name s) (p_str s) (p_int s) t.

(** The [strcmp] cascades: the entry of the first equal name. *)
Fixpoint assoc {A} (k : string) (l : list (string * A)) : option A :=
  match l with [] => None | (k', a) :: l => if bool_decide (k = k') then Some a else assoc k l end.

Definition is_true (val : string) : bool :=
  strcaseeq val "true" || strcaseeq val "yes" || strcaseeq val "on" || bool_decide (val = "1"%string).
(** [is_true(value) || atoi(value) != 0]. *)
Definition flag_value (val : string) : Z := Z.b2z (is_true val || negb (atoi val =? 0)).

Definition valid_types : list string :=
  ["tcp"; "udp"; "socks5"; "http"; "https"; "tcpmux"; "stcp"; "xtcp"; "sudp"]%string.
Definition get_valid_type (val : option string) : bool :=
  match val with None => false | Some t => bool_decide (t ∈ valid_types) end.

Definition zero_conf : common_conf := mkConf (λ _, None) (λ _, 0).

Section Config.
Context (b : build).

(** [if (PEM[0]) { field = strdup(PEM); tls_enable = 1; }]. *)
Definition pem_default (f : conf_str) (pem : string) (c : common_conf) : common_conf :=
  match pem with EmptyString => c | _ => set_c_int tls_enable 1 (set_c_str f pem c) end.

Definition init_common_conf : common_conf :=
  let c := set_c_str server_addr "127.0.0.1" zero_conf in
  let c := set_c_int server_port 7000 c in
  let c := set_c_int heartbeat_interval 30 c in
  let c := set_c_int heartbeat_timeout 90 c in
  let c := set_c_int tcp_mux 1 c in
  let c := set_c_str protocol "tcp" c in
  let c := set_c_str wire_protocol "v1" c in
  if enable_tls b
  then pem_default tls_key_pem (key_pem b) (pem_default tls_cert_pem (cert_pem b) (pem_default tls_trusted_ca_pem (ca_pem b) c))
  else c.

(** Whether the structure was there or not. *)
Definition init_common_config (s : config_state) : config_state := mkCfg (Some init_common_conf) (all_ps s).

(** All strings become null; the numbers stay. *)
Definition free_common_config (s : config_state) : config_state :=
  mkCfg ((λ c, mkConf (λ _, None) (c_int c)) <$> c_conf s) (all_ps s).

(** ** Services *)

Definition new_proxy_service (name : string) : service :=
  mkService name (λ _, None)
    (upd health_check_max_failed 1 (upd health_check_timeout 3 (upd health_check_interval 10 (λ _, 0)))) NO_XDPI.

Fixpoint find_ps (name : string) (l : list service) : option service :=
  match l with [] => None | s :: l => if bool_decide (proxy_name s = name) then Some s else find_ps name l end.
Definition get_proxy_service (name : string) (s : config_state) : option service := find_ps name (all_ps s).

Definition free_all_proxy_services (s : config_state) : config_state := mkCfg (c_conf s) [].

(** [HASH_DEL] of the entry of that name. *)
Definition del_ps (name : string) (l : list service) : list service := filter (λ s, proxy_name s ≠ name) l.

Definition add_or_replace_proxy_service (ps : service) (s : config_state) : config_state :=
  mkCfg (c_conf s) (del_ps (proxy_name ps) (all_ps s) ++ [ps]).

(** The entry is changed in place, or a new one is put at the end. *)
Definition upd_ps (name : string) (f : service → service) (s : config_state) : config_state :=
  mkCfg (c_conf s) ((λ x, if bool_decide (proxy_name x = name) then f x else x) <$> all_ps s).
Definition get_or_create_proxy_service (name : string) (s : config_state) : config_state :=
  match get_proxy_service name s with
  | Some _ => s
  | None => mkCfg (c_conf s) (all_ps s ++ [new_proxy_service name])
  end.

Definition service_types : list (string * xdpi_service_type) :=
  [("ssh", SERVICE_SSH); ("rdp", SERVICE_RDP); ("vnc", SERVICE_VNC); ("telnet", SERVICE_TELNET); ("http", SERVICE_HTTP);
   ("https", SERVICE_HTTPS); ("mstsc", SERVICE_MSTSC)]%string.
Definition convert_service_type (value : string) : xdpi_service_type := default NO_XDPI (assoc value service_types).

Definition type_is (s : service) (t : string) : bool := bool_decide (p_str s proxy_type = Some t).
Definition is_set (o : option string) : bool := match o with Some _ => true | None => false end.

(** Exactly one of custom domains and subdomain. *)
Definition domain_ok (s : service) : bool :=
  negb (is_set (p_str s custom_domains) && is_set (p_str s subdomain)) &&
  (is_set (p_str s custom_domains) || is_set (p_str s subdomain)).

Definition local_types : list string := ["tcp"; "udp"; "http"; "https"; "tcpmux"; "stcp"; "xtcp"; "sudp"]%string.

Definition validate_proxy (s : service) : bool :=
  match p_str s proxy_type with
  | None => false
  | Some t =>
      if bool_decide (t ∈ local_types) && ((p_int s local_port =? 0) || negb (is_set (p_str s local_ip))) then false
      else if type_is s "socks5" then negb (p_int s remote_port =? 0)
      else if type_is s "http" || type_is s "https" then domain_ok s
      else if type_is s "tcpmux" then domain_ok s
      else if type_is s "stcp" || type_is s "xtcp" || type_is s "sudp" then is_set (p_str s sk)
      else type_is s "tcp" || type_is s "udp"
  end.

Definition validate_heartbeat_config (s : config_state) : bool :=
  match c_conf s with
  | None => false
  | Some c => (0 <? c_int c heartbeat_interval) && (c_int c heartbeat_interval <=? c_int c heartbeat_timeout)
  end.

(** ** INI *)

Definition common_strings : list (string * conf_str) :=
  [("server_addr", server_addr); ("token", auth_token); ("protocol", protocol); ("wire_protocol", wire_protocol);
   ("tls_cert_file", tls_cert_file); ("tls_key_file", tls_key_file); ("tls_trusted_ca_file", tls_trusted_ca_file);
   ("tls_server_name", tls_server_name); ("user", user); ("auth_method", auth_method);
   ("oidc_client_id", oidc_client_id); ("oidc_client_secret", oidc_client_secret); ("oidc_audience", oidc_audience);
   ("oidc_scope", oidc_scope); ("oidc_token_endpoint_url", oidc_token_endpoint_url);
   ("oidc_trusted_ca_file", oidc_trusted_ca_file); ("oidc_proxy_url", oidc_proxy_url)]%string.
Definition common_ints : list (string * conf_int) :=
  [("server_port", server_port); ("heartbeat_interval", heartbeat_interval); ("heartbeat_timeout", heartbeat_timeout);
   ("quic_bind_port", quic_bind_port)]%string.
Definition common_flags : list (string * conf_int) :=
  [("tcp_mux", tcp_mux); ("tls_enable", tls_enable); ("oidc_insecure_skip_verify", oidc_insecure_skip_verify)]%string.

(** One option; an unknown one is only logged. *)
Definition set_common (name value : string) (c : common_conf) : common_conf :=
  match assoc name common_strings, assoc name common_ints, assoc name common_flags with
  | Some f, _, _ => set_c_str f value c
  | _, Some f, _ => set_c_int f (atoi value) c
  | _, _, Some f => set_c_int f (flag_value value) c
  | None, None, None => c
  end.

Definition common_handler (section name value : string) (s : config_state) : bool * config_state :=
  match c_conf s with
  | Some c => if bool_decide (section = "common"%string) then (true, mkCfg (Some (set_common name value c)) (all_ps s)) else (true, s)
  | None => (true, s)
  end.

Definition proxy_strings : list (string * ps_str) :=
  [("local_ip", local_ip); ("bind_addr", bind_addr); ("http_user", http_user); ("http_pwd", http_pwd);
   ("request_headers", request_headers); ("response_headers", response_headers); ("subdomain", subdomain);
   ("custom_domains", custom_domains); ("locations", locations); ("host_header_rewrite", host_header_rewrite);
   ("group", group); ("group_key", group_key); ("plugin", plugin); ("plugin_user", plugin_user);
   ("plugin_pwd", plugin_pwd); ("plugin_unix_path", plugin_unix_path); ("root_dir", s_root_dir);
   ("multiplexer", multiplexer); ("route_by_http_user", route_by_http_user); ("sk", sk); ("allow_users", allow_users);
   ("health_check_type", health_check_type); ("health_check_url", health_check_url)]%string.
Definition proxy_ints : list (string * ps_int) :=
  [("local_port", local_port); ("remote_port", remote_port); ("health_check_interval", health_check_interval);
   ("health_check_timeout", health_check_timeout); ("health_check_max_failed", health_check_max_failed)]%string.
Definition proxy_flags : list (string * ps_int) :=
  [("use_encryption", use_encryption); ("use_compression", use_compression)]%string.
Definition proxy_hours : list (string * ps_int) := [("start_time", start_time); ("end_time", end_time)]%string.

(** One option of a service; [None] is a value that is refused. *)
Definition set_proxy (name value : string) (p : service) : option service :=
  if bool_decide (name = "type"%string) then
    if get_valid_type (Some value) then Some (set_p_str proxy_type value p) else None
  else if bool_decide (name = "service_type"%string) then Some (set_service_type (convert_service_type value) p)
  else
    match assoc name proxy_strings, assoc name proxy_ints, assoc name proxy_flags, assoc name proxy_hours with
    | Some f, _, _, _ => Some (set_p_str f value p)
    | _, Some f, _, _ => Some (set_p_int f (atoi value) p)
    | _, _, Some f, _ => Some (set_p_int f (flag_value value) p)
    | _, _, _, Some f => if (atoi value <? 0) || (23 <? atoi value) then None else Some (set_p_int f (atoi value) p)
    | None, None, None, None => Some p
    end.

Definition DEFAULT_SOCKS5_PORT : Z := 1980.
Definition default_socks5_port (p : service) : service :=
  if type_is p "socks5" && (p_int p remote_port =? 0) then set_p_int remote_port DEFAULT_SOCKS5_PORT p else p.

(** The name in a section's title; [None] for an empty name. *)
Definition section_name (sect : string) : option string :=
  if starts_with (str_bytes "proxy:") (str_bytes sect) then
    match bytes_string (zdrop 6 (str_bytes sect)) with EmptyString => None | n => Some n end
  else Some sect.

Definition proxy_service_handler (sect nm value : string) (s : config_state) : bool * config_state :=
  if bool_decide (sect = "common"%string) then (true, s)
  else if contains (str_bytes "visitor") (str_bytes sect) then (true, s)
  else
    match section_name sect with
    | None => (false, s)
    | Some name =>
        let s := get_or_create_proxy_service name s in
        match get_proxy_service name s ≫= set_proxy nm value with
        | None => (false, s)
        | Some p => (true, upd_ps name (λ _, default_socks5_port p) s)
        end
    end.

(** A handler on the bytes the parser has. *)
Definition on_text (h : string → string → string → config_state → bool * config_state)
    (s n v : bytes) (c : config_state) : bool * config_state :=
  h (bytes_string s) (bytes_string n) (bytes_string v) c.

(** ** TOML *)

(** [seek] and [get] are [toml_seek] and [toml_get] of the library; the state
    has the static buffer of [xfrpc_toml_get]. *)
Context (seek get : toml → string → toml).

(** The text under a path, if there is some, copied at once. *)
Definition toml_value (sec : toml) (key : string) (buf : bytes) : option (option string * bytes) :=
  '(p, buf) ← xfrpc_toml_get seek sec key buf; Some (option_map (text_of buf) p, buf).

Inductive common_field := CStr (f : conf_str) | CInt (f : conf_int) | CFlag (f : conf_int).
Definition toml_common_fields : list (string * common_field) :=
  [("serverAddr", CStr server_addr); ("serverPort", CInt server_port); ("user", CStr user);
   ("auth.token", CStr auth_token); ("auth.method", CStr auth_method); ("auth.oidc.clientID", CStr oidc_client_id);
   ("auth.oidc.clientSecret", CStr oidc_client_secret); ("auth.oidc.audience", CStr oidc_audience);
   ("auth.oidc.scope", CStr oidc_scope); ("auth.oidc.tokenEndpointURL", CStr oidc_token_endpoint_url);
   ("auth.oidc.trustedCaFile", CStr oidc_trusted_ca_file); ("auth.oidc.proxyURL", CStr oidc_proxy_url);
   ("auth.oidc.insecureSkipVerify", CFlag oidc_insecure_skip_verify); ("transport.protocol", CStr protocol);
   ("transport.wireProtocol", CStr wire_protocol); ("transport.tcpMux", CFlag tcp_mux);
   ("transport.heartbeatInterval", CInt heartbeat_interval); ("transport.heartbeatTimeout", CInt heartbeat_timeout);
   ("transport.tls.enable", CFlag tls_enable); ("transport.tls.certFile", CStr tls_cert_file);
   ("transport.tls.keyFile", CStr tls_key_file); ("transport.tls.trustedCaFile", CStr tls_trusted_ca_file);
   ("transport.tls.serverName", CStr tls_server_name); ("quicBindPort", CInt quic_bind_port)]%string.

Definition set_common_field (f : common_field) (v : string) (c : common_conf) : common_conf :=
  match f with
  | CStr f => set_c_str f v c
  | CInt f => set_c_int f (atoi v) c
  | CFlag f => set_c_int f (flag_value v) c
  end.

Fixpoint toml_common (root : toml) (l : list (string * common_field)) (buf : bytes) (c : common_conf)
    : option (bytes * common_conf) :=
  match l with
  | [] => Some (buf, c)
  | (key, f) :: l =>
      '(v, buf) ← toml_value root key buf;
      toml_common root l buf (match v with Some v => set_common_field f v c | None => c end)
  end.

Definition load_toml_common (doc : toml) (buf : bytes) (s : config_state) : option (bytes * config_state) :=
  match xfrpc_toml_find_array_section get doc "" (-1), c_conf s with
  | Some root, Some c => '(buf, c) ← toml_common root toml_common_fields buf c; Some (buf, mkCfg (Some c) (all_ps s))
  | Some _, None => None
  | None, _ => Some (buf, s)
  end.

Inductive proxy_field := PStr (f : ps_str) | PInt (f : ps_int) | PFlag (f : ps_int) | PService | PPairs (f : ps_str).
Definition toml_proxy_fields : list (string * proxy_field) :=
  [("localIP", PStr local_ip); ("bindAddr", PStr bind_addr); ("localPort", PInt local_port);
   ("remotePort", PInt remote_port); ("serviceType", PService); ("startTime", PInt start_time); ("endTime", PInt end_time);
   ("transport.useEncryption", PFlag use_encryption); ("transport.useCompression", PFlag use_compression);
   ("customDomains", PStr custom_domains); ("subdomain", PStr subdomain); ("locations", PStr locations);
   ("hostHeaderRewrite", PStr host_header_rewrite); ("httpUser", PStr http_user); ("httpPassword", PStr http_pwd);
   ("requestHeaders.set", PPairs request_headers); ("responseHeaders.set", PPairs response_headers);
   ("loadBalancer.group", PStr group); ("loadBalancer.groupKey", PStr group_key); ("plugin.type", PStr plugin);
   ("plugin.httpUser", PStr plugin_user); ("plugin.httpPassword", PStr plugin_pwd);
   ("plugin.unixPath", PStr plugin_unix_path); ("plugin.localPath", PStr s_root_dir); ("multiplexer", PStr multiplexer);
   ("routeByHTTPUser", PStr route_by_http_user); ("secretKey", PStr sk); ("allowUsers", PStr allow_users);
   ("healthCheck.type", PStr health_check_type); ("healthCheck.path", PStr health_check_url);
   ("healthCheck.intervalSeconds", PInt health_check_interval); ("healthCheck.timeoutSeconds", PInt health_check_timeout);
   ("healthCheck.maxFailed", PInt health_check_max_failed)]%string.

Definition set_proxy_field (f : proxy_field) (v : string) (p : service) : service :=
  match f with
  | PStr f | PPairs f => set_p_str f v p
  | PInt f => set_p_int f (atoi v) p
  | PFlag f => set_p_int f (flag_value v) p
  | PService => set_service_type (convert_service_type v) p
  end.

Definition proxy_value (sec : toml) (key : string) (f : proxy_field) (buf : bytes) : option (option string * bytes) :=
  match f with
  | PPairs _ => v ← xfrpc_toml_get_table_pairs seek sec key []; Some (v, buf)
  | _ => toml_value sec key buf
  end.

Fixpoint toml_proxy (sec : toml) (l : list (string * proxy_field)) (buf : bytes) (p : service) : option (bytes * service) :=
  match l with
  | [] => Some (buf, p)
  | (key, f) :: l =>
      '(v, buf) ← proxy_value sec key f buf;
      toml_proxy sec l buf (match v with Some v => set_proxy_field f v p | None => p end)
  end.

(** What an entry of [proxies] does: [None] for the return of -1. *)
Definition load_toml_proxy (sec : toml) (buf : bytes) (s : config_state) : option (bytes * option config_state) :=
  '(name, buf) ← xfrpc_toml_get seek sec "name" buf;
  match name with
  | None => Some (buf, None)
  | Some name =>
      '(v, buf) ← toml_value sec "enabled" buf;
      if from_option (λ v, flag_value v =? 0) false v then Some (buf, Some s)
      else
        let ps := new_proxy_service (text_of buf name) in
        '(v, buf) ← toml_value sec "type" buf;
        let ps := match v with Some v => set_p_str proxy_type v ps | None => ps end in
        if negb (get_valid_type (p_str ps proxy_type)) then Some (buf, None)
        else
          '(buf, ps) ← toml_proxy sec toml_proxy_fields buf ps;
          Some (buf, Some (add_or_replace_proxy_service ps s))
  end.

(** [n] entries from index [i] on. *)
Fixpoint load_toml_proxies (doc : toml) (n : nat) (i : Z) (buf : bytes) (s : config_state) : option (Z * config_state) :=
  match n with
  | O => Some (0, s)
  | S n =>
      match xfrpc_toml_find_array_section get doc "proxies" i with
      | None => load_toml_proxies doc n (i + 1) buf s
      | Some sec =>
          '(buf, r) ← load_toml_proxy sec buf s;
          match r with
          | None => Some (-1, s)
          | Some s => load_toml_proxies doc n (i + 1) buf s
          end
      end
  end.

Definition load_toml_config_text (doc : toml) (buf : bytes) (s : config_state) : option (Z * config_state) :=
  '(buf, s) ← load_toml_common doc buf s;
  load_toml_proxies doc (Z.to_nat (xfrpc_toml_count_array_sections get doc "proxies")) 0 buf s.

(** ** Loading *)

Inductive config_format := XFRPC_CFG_FORMAT_AUTO | XFRPC_CFG_FORMAT_INI | XFRPC_CFG_FORMAT_TOML.

(** From the last dot on. *)
Fixpoint strrchr_dot (l : bytes) : option bytes :=
  match l with
  | [] => None
  | c :: l' => match strrchr_dot l' with Some r => Some r | None => if c =? 46 then Some l else None end
  end.
Definition has_toml_extension (path : string) : bool :=
  match strrchr_dot (str_bytes path) with Some ext => strcaseeq (bytes_string ext) ".toml" | None => false end.

Definition detect_config_format (path : option string) (text : option bytes) (len : Z) (requested : config_format) : config_format :=
  match requested with
  | XFRPC_CFG_FORMAT_INI | XFRPC_CFG_FORMAT_TOML => requested
  | XFRPC_CFG_FORMAT_AUTO =>
      match path, text with
      | Some path, _ => if has_toml_extension path then XFRPC_CFG_FORMAT_TOML else XFRPC_CFG_FORMAT_INI
      | None, None => XFRPC_CFG_FORMAT_INI
      | None, Some text =>
          if len =? 0 then XFRPC_CFG_FORMAT_INI
          else
            let p := skip_white (if (3 <=? len) && has_bom text then zdrop 3 text else text) in
            if starts_with [91; 91] p || contains (str_bytes "serverAddr") text || contains (str_bytes "serverPort") text ||
               contains (str_bytes "auth.token") text || contains (str_bytes "transport.") text
            then XFRPC_CFG_FORMAT_TOML else XFRPC_CFG_FORMAT_INI
      end
  end.

Definition nonempty (o : option string) : bool := match o with Some (String _ _) => true | _ => false end.

(** [true] is 0. *)
Definition validate_loaded_config (s : config_state) : bool * config_state :=
  match c_conf s with
  | None => (false, s)
  | Some c =>
      if negb (nonempty (c_str c server_addr)) then (false, s)
      else if match c_str c wire_protocol with Some w => negb (bool_decide (w ∈ ["v1"; "v2"]%string)) | None => false end
      then (false, s)
      else if negb (validate_heartbeat_config s) then (false, s)
      else
        let c := if bool_decide (c_str c protocol = Some "quic"%string) then set_c_int tcp_mux 0 c else c in
        (forallb validate_proxy (all_ps s), mkCfg (Some c) (all_ps s))
  end.

(** [ini_parse_string] with one handler and then the other; 0 or -1. *)
Definition load_ini (text : bytes) (s : config_state) : option (Z * config_state) :=
  '(rc, s) ← ini_parse_string (on_text common_handler) text s;
  '(rc, s) ← (if rc =? 0 then ini_parse_string (on_text proxy_service_handler) text s else Some (rc, s));
  Some (if rc =? 0 then 0 else -1, s).

(** The part [load_config_file] and [load_config_string] share. *)
Definition load_detected (toml_parse : bytes → option toml) (buf : bytes) (detected : config_format) (text : option bytes)
    (s : config_state) : option (Z * config_state) :=
  let s := init_common_config (free_all_proxy_services s) in
  '(rc, s) ← match detected, text with
             | XFRPC_CFG_FORMAT_TOML, Some text =>
                 match toml_parse text with None => Some (-1, s) | Some doc => load_toml_config_text doc buf s end
             | _, Some text => load_ini text s
             | _, None => Some (-1, s)
             end;
  let '(ok, s) := if rc =? 0 then validate_loaded_config s else (false, s) in
  Some (if (ok : bool) then (0, s) else (-1, free_common_config (free_all_proxy_services s))).

(** [mem]: the copy can be allocated.  [text] holds at least [len] bytes. *)
Definition load_config_string (toml_parse : bytes → option toml) (buf : bytes) (mem : bool) (text : option bytes) (len : Z)
    (format : config_format) (s : config_state) : option (Z * config_state) :=
  match text with
  | None => Some (-1, s)
  | Some text =>
      let len := if len =? 0 then zlen (c_string text) else len in
      if 2 ^ 31 - 1 <? len then Some (-1, s)
      else if negb mem then Some (-1, s)
      else
        let copy := ztake len text in
        load_detected toml_parse buf (detect_config_format None (Some (c_string copy)) len format) (Some copy) s
  end.

(** [file]: what the file holds, or [None] if it cannot be opened. *)
Definition load_config_file (toml_parse : bytes → option toml) (buf : bytes) (file : option bytes) (confile : string)
    (format : config_format) (s : config_state) : option (Z * config_state) :=
  match confile with
  | EmptyString => Some (-1, s)
  | _ => load_detected toml_parse buf (detect_config_format (Some confile) None 0 format) file s
  end.

(** ** The programming interface *)

Definition config_add_proxy_service (name : option string) (type : option string) (ip : option string) (lport rport : Z)
    (encryption compression : bool) (s : config_state) : bool * config_state :=
  match name, ip with
  | Some name, Some ip =>
      if negb (get_valid_type type) then (false, s)
      else
        let ps := new_proxy_service name in
        let ps := match type with Some t => set_p_str proxy_type t ps | None => ps end in
        let ps := set_p_int remote_port rport (set_p_int local_port lport (set_p_str local_ip ip ps)) in
        let ps := set_p_int use_encryption (Z.b2z encryption) ps in
        let ps := set_p_int use_compression (Z.b2z (compression && enable_compression b)) ps in
        (true, mkCfg (c_conf s) (del_ps name (all_ps s) ++ [ps]))
  | _, _ => (false, s)
  end.

(** [xfrpc_client_config_t] and [xfrpc_tcp_proxy_t]. *)
Record client_config := mkClient {
  x_server_addr : option string;
  x_server_port : Z;
  x_auth_token : option string;
  x_user : option string;
  x_heartbeat_interval : Z;
  x_heartbeat_timeout : Z;
  x_tcp_mux : Z;
  x_tls_enable : Z;
  x_tls_ca_pem : option string;
  x_tls_cert_pem : option string;
  x_tls_key_pem : option string;
  x_tls_server_name : option string;
}.
Record tcp_proxy := mkTcpProxy {
  t_name : option string;
  t_local_ip : option string;
  t_local_port : Z;
  t_remote_port : Z;
  t_encryption : bool;
  t_compression : bool;
}.

(** [g_api.running] and the configuration. *)
Record api_state := mkApi { running : bool; cfg : config_state }.

Definition set_str (f : conf_str) (v : option string) (c : common_conf) : common_conf :=
  match v with Some v => set_c_str f v c | None => c end.

(** [launched]: the task could be created. *)
Definition xfrpc_launch (launched : bool) (a : api_state) : Z * api_state :=
  (if launched then 0 else -1, mkApi launched (cfg a)).

(** The settings of [xfrpc_start]. *)
Definition client_settings (x : client_config) : common_conf :=
  let c := set_str server_addr (x_server_addr x) init_common_conf in
  let c := if x_server_port x =? 0 then c else set_c_int server_port (x_server_port x) c in
  let c := set_str user (x_user x) (set_str auth_token (x_auth_token x) c) in
  let c := if 0 <? x_heartbeat_interval x then set_c_int heartbeat_interval (x_heartbeat_interval x) c else c in
  let c := if 0 <? x_heartbeat_timeout x then set_c_int heartbeat_timeout (x_heartbeat_timeout x) c else c in
  let c := if (x_tcp_mux x =? 0) || (x_tcp_mux x =? 1) then set_c_int tcp_mux (x_tcp_mux x) c else c in
  let c := set_str tls_key_pem (x_tls_key_pem x) (set_str tls_cert_pem (x_tls_cert_pem x) (set_str tls_trusted_ca_pem (x_tls_ca_pem x) c)) in
  let c := set_str tls_server_name (x_tls_server_name x) c in
  let c := if x_tls_enable x =? 1 then set_c_int tls_enable 1 c else c in
  if is_set (c_str c tls_trusted_ca_pem) || is_set (c_str c tls_cert_pem) || is_set (c_str c tls_key_pem)
  then set_c_int tls_enable 1 c else c.

Fixpoint add_proxies (l : list tcp_proxy) (s : config_state) : bool * config_state :=
  match l with
  | [] => (true, s)
  | p :: l =>
      if negb (is_set (t_name p)) || negb (is_set (t_local_ip p)) || (t_local_port p =? 0) then (false, s)
      else
        let '(ok, s) := config_add_proxy_service (t_name p) (Some "tcp"%string) (t_local_ip p) (t_local_port p)
                          (t_remote_port p) (t_encryption p) (t_compression p) s in
        if (ok : bool) then add_proxies l s else (false, s)
  end.

(** [x] is a null pointer when [None]; [proxies] is [None] for a negative count,
    or a null pointer with a positive one. *)
Definition xfrpc_start (launched : bool) (x : option client_config) (proxies : option (list tcp_proxy)) (a : api_state)
    : Z * api_state :=
  match x, proxies with
  | Some x, Some l =>
      if negb (nonempty (x_server_addr x)) then (-1, a)
      else if running a then (1, a)
      else
        let c := client_settings x in
        let s := mkCfg (Some c) [] in
        if negb (enable_tls b) && negb (c_int c tls_enable =? 0) then (-1, mkApi false s)
        else if negb (validate_heartbeat_config s) then (-1, mkApi false s)
        else
          let '(ok, s) := add_proxies l s in
          if (ok : bool) then xfrpc_launch launched (mkApi false s) else (-1, mkApi false s)
  | _, _ => (-1, a)
  end.

(** The check of [xfrpc_api.c], after the one of [config.c]. *)
Definition api_validate_loaded_config (s : config_state) : bool :=
  match c_conf s with
  | None => false
  | Some c =>
      nonempty (c_str c server_addr) && validate_heartbeat_config s &&
      negb (negb (enable_tls b) && negb (c_int c tls_enable =? 0)) && forallb validate_proxy (all_ps s)
  end.

(** [load] is [load_config_file] or [load_config_string] with its arguments. *)
Definition start_loaded (launched : bool) (load : config_state → option (Z * config_state)) (a : api_state)
    : option (Z * api_state) :=
  '(rc, s) ← load (cfg a);
  Some (if negb (rc =? 0) then (-1, mkApi false s)
        else if negb (api_validate_loaded_config s) then (-1, mkApi false s)
        else xfrpc_launch launched (mkApi false s)).

Definition xfrpc_start_from_string (toml_parse : bytes → option toml) (buf : bytes) (mem launched : bool) (config : option bytes)
    (len : Z) (format : config_format) (a : api_state) : option (Z * api_state) :=
  if running a then Some (1, a)
  else match config with
       | None => Some (-1, a)
       | Some _ => start_loaded launched (load_config_string toml_parse buf mem config len format) a
       end.

Definition xfrpc_start_from_file (toml_parse : bytes → option toml) (buf : bytes) (launched : bool) (file : option bytes)
    (path : string) (format : config_format) (a : api_state) : option (Z * api_state) :=
  if running a then Some (1, a)
  else match path with
       | EmptyString => Some (-1, a)
       | _ => start_loaded launched (load_config_file toml_parse buf file path format) a
       end.

End Config.
