(* ===== verification/ConfigThm.v ===== *)
(** * What a loaded configuration guarantees

    Validation accepts exactly the services the protocol can register, loading
    ends in a state the session can work with or in an empty one, and the two
    file formats agree. *)

From stdpp Require Import pretty.
From S2P Require Import Prelude Ctext World Ini Toml Msg Config.

(** ** Services *)

Definition has_type (s : service) (l : list string) : Prop := ∃ t, p_str s proxy_type = Some t ∧ t ∈ l.
Definition has_local (s : service) : Prop := p_int s local_port ≠ 0 ∧ ∃ ip, p_str s local_ip = Some ip.
Definition one_domain (s : service) : Prop :=
  (p_str s custom_domains = None ∧ ∃ d, p_str s subdomain = Some d) ∨
  (p_str s subdomain = None ∧ ∃ d, p_str s custom_domains = Some d).

(** The services that can be registered. *)
Inductive service_ok (s : service) : Prop :=
| ok_plain : has_type s ["tcp"; "udp"]%string → has_local s → service_ok s
| ok_socks5 : has_type s ["socks5"]%string → p_int s remote_port ≠ 0 → service_ok s
| ok_domain : has_type s ["http"; "https"; "tcpmux"]%string → has_local s → one_domain s → service_ok s
| ok_secret k : has_type s ["stcp"; "xtcp"; "sudp"]%string → has_local s → p_str s sk = Some k → service_ok s.

Lemma domain_ok_spec s : domain_ok s = true ↔ one_domain s.
Proof.
  unfold domain_ok, one_domain, is_set. destruct (p_str s custom_domains), (p_str s subdomain); simpl; naive_solver.
Qed.

Lemma local_spec s : (p_int s local_port =? 0) || negb (is_set (p_str s local_ip)) = false ↔ has_local s.
Proof.
  unfold has_local, is_set. destruct (Z.eqb_spec (p_int s local_port) 0), (p_str s local_ip); simpl; naive_solver.
Qed.

Lemma type_is_some s t u : p_str s proxy_type = Some t → type_is s u = bool_decide (t = u).
Proof. intros E. unfold type_is. rewrite E. apply bool_decide_ext. naive_solver. Qed.

(** The same by cases on the type. *)
Lemma service_ok_cases s t :
  p_str s proxy_type = Some t →
  service_ok s ↔
    (bool_decide (t ∈ ["tcp"; "udp"]%string) = true ∧ has_local s) ∨
    (bool_decide (t ∈ ["socks5"]%string) = true ∧ p_int s remote_port ≠ 0) ∨
    (bool_decide (t ∈ ["http"; "https"; "tcpmux"]%string) = true ∧ has_local s ∧ one_domain s) ∨
    (bool_decide (t ∈ ["stcp"; "xtcp"; "sudp"]%string) = true ∧ has_local s ∧ is_set (p_str s sk) = true).
Proof.
  intros Et. assert (∀ l, has_type s l ↔ t ∈ l) as Ht by (intros l; unfold has_type; naive_solver).
  rewrite !bool_decide_eq_true. split.
  - intros [H1 H2|H1 H2|H1 H2 H3|k H1 H2 H3]; apply Ht in H1; [by left|by right; left|by right; right; left|].
    right; right; right. by rewrite H3.
  - intros [[H1 H2]|[[H1 H2]|[(H1 & H2 & H3)|(H1 & H2 & H3)]]]; apply Ht in H1.
    + by apply ok_plain.
    + by apply ok_socks5.
    + by apply ok_domain.
    + destruct (p_str s sk) as [k|] eqn:Ek; [|done]. by apply (ok_secret s k).
Qed.

(** C26: validation accepts exactly the services that can be registered: a known
    type; a local address and port where the type forwards to one; a remote
    port for SOCKS5; one of custom domains and subdomain for the HTTP types;
    and a key for the secret types. *)
Theorem validate_proxy_correct (s : service) : validate_proxy s = true ↔ service_ok s.
Proof.
  unfold validate_proxy. destruct (p_str s proxy_type) as [t|] eqn:Et.
  2: { split; [done|]. intros [[t [E _]] _|[t [E _]] _|[t [E _]] _ _|k [t [E _]] _ _]; congruence. }
  rewrite (service_ok_cases s t Et), <- local_spec, <- domain_ok_spec, !(type_is_some s t) by done.
  destruct (decide (t ∈ valid_types)) as [Hin|Hout].
  - repeat (apply elem_of_cons in Hin as [->|Hin]; [cbn; destruct (p_int s remote_port =? 0) eqn:?, ((p_int s local_port =? 0) || _); cbn; b2p; naive_solver|]).
    by apply elem_of_nil in Hin.
  - rewrite !bool_decide_false by (unfold valid_types, local_types in *; set_solver). cbn. naive_solver.
Qed.

(** ** Loading *)

(** The settings exist and the names are those of a hash table. *)
Definition good (s : config_state) : Prop := (∃ c, c_conf s = Some c) ∧ NoDup (proxy_name <$> all_ps s).

Lemma find_ps_none name l : find_ps name l = None → name ∉ proxy_name <$> l.
Proof.
  induction l as [|s l IH]; [set_solver|]. cbn [find_ps fmap list_fmap]. case_bool_decide; [done|].
  intros E%IH. set_solver.
Qed.
Lemma find_ps_some name l p : find_ps name l = Some p → proxy_name p = name ∧ p ∈ l.
Proof.
  induction l as [|s l IH]; [done|]. cbn [find_ps]. case_bool_decide as Hn; [intros [= <-]; by split; [|left]|].
  intros [? ?]%IH. split; [done|by right].
Qed.

Lemma nodup_snoc (l : list string) x : NoDup l → x ∉ l → NoDup (l ++ [x]).
Proof. intros Hl Hx. apply NoDup_app. split_and!; [done|set_solver|apply NoDup_singleton]. Qed.

Lemma good_create name s : good s → good (get_or_create_proxy_service name s).
Proof.
  intros [Hc Hn]. unfold get_or_create_proxy_service, get_proxy_service.
  destruct (find_ps name (all_ps s)) eqn:E; [by split|]. split; [done|]. cbn.
  rewrite fmap_app. apply nodup_snoc; [done|by apply find_ps_none].
Qed.

Lemma upd_ps_names name f s :
  (∀ x, proxy_name x = name → proxy_name (f x) = name) → proxy_name <$> all_ps (upd_ps name f s) = proxy_name <$> all_ps s.
Proof.
  intros Hf. cbn. rewrite <- list_fmap_compose. apply list_fmap_ext. intros i x _. cbn. case_bool_decide as E; [|done].
  by rewrite Hf.
Qed.

Lemma good_add ps s : good s → good (add_or_replace_proxy_service ps s).
Proof.
  intros [Hc Hn]. split; [done|]. cbn. rewrite fmap_app. apply nodup_snoc.
  - eapply sublist_NoDup; [exact Hn|]. apply fmap_sublist. unfold del_ps. apply sublist_filter.
  - unfold del_ps. intros (x & E & [Hx _]%list_elem_of_filter)%list_elem_of_fmap. congruence.
Qed.

Lemma set_proxy_name nm v p p' : set_proxy nm v p = Some p' → proxy_name p' = proxy_name p.
Proof. unfold set_proxy. repeat case_match; try done; by intros [= <-]. Qed.

Lemma default_port_name p : proxy_name (default_socks5_port p) = proxy_name p.
Proof. unfold default_socks5_port. by case_match. Qed.

Lemma good_common s n v st : good st → good (snd (common_handler s n v st)).
Proof. intros [[c Hc] Hn]. unfold common_handler. rewrite Hc. case_match; by split; [eauto|]. Qed.

Lemma good_proxy s n v st : good st → good (snd (proxy_service_handler s n v st)).
Proof.
  intros Hg. unfold proxy_service_handler. case_match; [done|]. case_match; [done|].
  destruct (section_name s) as [name|]; [|done]. cbv zeta.
  pose proof (good_create name st Hg) as Hg1. set (st1 := get_or_create_proxy_service name st) in *.
  destruct (get_proxy_service name st1) as [p|] eqn:Ep; [|done]. cbn [mbind option_bind].
  destruct (set_proxy n v p) as [p'|] eqn:Es; [|done]. cbn [snd]. destruct Hg1 as [Hc Hn]. split; [done|].
  rewrite upd_ps_names; [done|]. intros _ _. rewrite default_port_name, (set_proxy_name _ _ _ _ Es).
  by apply find_ps_some in Ep as [? _].
Qed.

Section Load.
Context (b : build) (seek get : toml → string → toml).

Lemma toml_value_ok sec key buf :
  zlen buf < sizeof_tls_buf → ∃ v buf', toml_value seek sec key buf = Some (v, buf') ∧ zlen buf' < sizeof_tls_buf.
Proof.
  intros Hb. unfold toml_value. destruct (toml_get_ok seek sec key buf Hb) as (r & buf' & -> & Hb'). by eexists _, buf'.
Qed.

Lemma toml_common_ok root l buf c :
  zlen buf < sizeof_tls_buf → ∃ buf' c', toml_common seek root l buf c = Some (buf', c') ∧ zlen buf' < sizeof_tls_buf.
Proof.
  revert buf c. induction l as [|[key f] l IH]; intros buf c Hb; [by exists buf, c|]. cbn [toml_common].
  destruct (toml_value_ok root key buf Hb) as (v & buf1 & -> & Hb1). cbn [mbind option_bind]. by apply IH.
Qed.

Lemma toml_proxy_ok sec l buf p :
  zlen buf < sizeof_tls_buf →
  ∃ buf' p', toml_proxy seek sec l buf p = Some (buf', p') ∧ zlen buf' < sizeof_tls_buf ∧ proxy_name p' = proxy_name p.
Proof.
  revert buf p. induction l as [|[key f] l IH]; intros buf p Hb; [by exists buf, p|]. cbn [toml_proxy].
  assert (∃ v buf1, proxy_value seek sec key f buf = Some (v, buf1) ∧ zlen buf1 < sizeof_tls_buf) as (v & buf1 & -> & Hb1).
  { unfold proxy_value. destruct f; try by apply toml_value_ok.
    destruct (toml_pairs_ok seek sec key []) as [r ->]; [done|]. by eexists _, buf. }
  cbn [mbind option_bind]. destruct (IH buf1 (match v with Some v => set_proxy_field f v p | None => p end) Hb1)
    as (buf' & p' & -> & Hb' & Hn). exists buf', p'. split_and!; [done|done|]. rewrite Hn. by destruct v, f.
Qed.

Lemma load_toml_proxy_ok sec buf s :
  zlen buf < sizeof_tls_buf → good s →
  ∃ buf' r, load_toml_proxy seek sec buf s = Some (buf', r) ∧ zlen buf' < sizeof_tls_buf ∧
    match r with Some s' => good s' | None => True end.
Proof.
  intros Hb Hg. unfold load_toml_proxy. destruct (toml_get_ok seek sec "name" buf Hb) as ([name|] & b1 & -> & Hb1);
    cbn [mbind option_bind]; [|by eexists _, _].
  destruct (toml_value_ok sec "enabled" b1 Hb1) as (v & b2 & -> & Hb2). cbn [mbind option_bind].
  case_match; [by eexists _, _|]. cbv zeta. destruct (toml_value_ok sec "type" b2 Hb2) as (t & b3 & -> & Hb3).
  cbn [mbind option_bind]. case_match; [by eexists _, _|].
  destruct (toml_proxy_ok sec toml_proxy_fields b3 (match t with
     | Some v => set_p_str proxy_type v (new_proxy_service (text_of b2 name)) | None => new_proxy_service (text_of b2 name) end) Hb3)
    as (b4 & p & -> & Hb4 & _). cbn [mbind option_bind]. eexists _, _. split_and!; [done|done|by apply good_add].
Qed.

Lemma load_toml_proxies_ok doc n i buf s :
  zlen buf < sizeof_tls_buf → good s → ∃ rc s', load_toml_proxies seek get doc n i buf s = Some (rc, s') ∧ good s'.
Proof.
  revert i buf s. induction n as [|n IH]; intros i buf s Hb Hg; [by exists 0, s|]. cbn [load_toml_proxies].
  destruct (xfrpc_toml_find_array_section get doc "proxies" i) as [sec|]; [|by apply IH].
  destruct (load_toml_proxy_ok sec buf s Hb Hg) as (b1 & [s1|] & -> & Hb1 & Hg1); cbn [mbind option_bind]; [by apply IH|].
  by eexists _, _.
Qed.

Lemma load_toml_ok doc buf s :
  zlen buf < sizeof_tls_buf → good s → ∃ rc s', load_toml_config_text seek get doc buf s = Some (rc, s') ∧ good s'.
Proof.
  intros Hb [[c Hc] Hn]. unfold load_toml_config_text, load_toml_common. cbn [xfrpc_toml_find_array_section Z.ltb Z.compare].
  rewrite Hc. destruct (toml_common_ok doc toml_common_fields buf c Hb) as (b1 & c1 & E & Hb1).
  change (xfrpc_toml_find_array_section get doc "" (-1)) with (Some doc). cbv iota. rewrite E. cbn [mbind option_bind].
  apply load_toml_proxies_ok; [done|]. by split; [eexists|].
Qed.

Lemma load_ini_ok text s : good s → ∃ rc s', load_ini text s = Some (rc, s') ∧ good s' ∧ (rc = 0 ∨ rc = -1).
Proof.
  intros Hg. unfold load_ini.
  destruct (ini_parse_keeps (on_text common_handler) good text s) as (rc1 & s1 & -> & Hg1);
    [intros; by apply good_common|done|]. cbn [mbind option_bind].
  assert (∃ rc s', (if rc1 =? 0 then ini_parse_string (on_text proxy_service_handler) text s1 else Some (rc1, s1)) = Some (rc, s') ∧ good s')
    as (rc & s' & -> & Hg').
  { case_match; [|by eexists _, _]. apply ini_parse_keeps; [intros; by apply good_proxy|done]. }
  cbn [mbind option_bind]. exists (if rc =? 0 then 0 else -1), s'. split_and!; [done|done|]. destruct (rc =? 0); auto.
Qed.

(** What the rest of the program relies on. *)
Record config_ok (s : config_state) (c : common_conf) : Prop := {
  co_conf : c_conf s = Some c;
  co_addr : nonempty (c_str c server_addr) = true;
  co_wire : c_str c wire_protocol ∈ [None; Some "v1"%string; Some "v2"%string];
  co_beat : 0 < c_int c heartbeat_interval ≤ c_int c heartbeat_timeout;
  co_quic : c_str c protocol = Some "quic"%string → c_int c tcp_mux = 0;
  co_names : NoDup (proxy_name <$> all_ps s);
  co_services : Forall (λ p, validate_proxy p = true) (all_ps s);
}.

Lemma validate_loaded_ok s : good s → validate_loaded_config s = (true, snd (validate_loaded_config s)) →
  ∃ c, config_ok (snd (validate_loaded_config s)) c.
Proof.
  intros [[c Hc] Hn]. unfold validate_loaded_config. rewrite Hc.
  destruct (nonempty (c_str c server_addr)) eqn:Ea; [|done]. cbn [negb].
  destruct (match c_str c wire_protocol with Some w => _ | None => false end) eqn:Ew; [done|].
  destruct (validate_heartbeat_config s) eqn:Eh; [|done]. cbn [negb]. cbv zeta. cbn [snd].
  unfold validate_heartbeat_config in Eh. rewrite Hc in Eh. apply andb_true_iff in Eh as [H1 H2]. b2p.
  intros Hall. assert (forallb validate_proxy (all_ps s) = true) as Hall' by congruence.
  assert (∃ c', (if bool_decide (c_str c protocol = Some "quic"%string) then set_c_int tcp_mux 0 c else c) = c' ∧ c_str c' = c_str c ∧
            (∀ f, f ≠ tcp_mux → c_int c' f = c_int c f) ∧ (c_str c protocol = Some "quic"%string → c_int c' tcp_mux = 0))
    as (c' & -> & Es & Ei & Eq).
  { case_bool_decide; (eexists; split_and!; [done|done| |done]); [|done]. intros f Hf. cbn. unfold upd. by rewrite decide_False. }
  exists c'.
  constructor; cbn; rewrite ?Es; try done.
  - destruct (c_str c wire_protocol) as [w|]; [|set_solver]. apply negb_false_iff, bool_decide_eq_true in Ew. set_solver.
  - rewrite !Ei by done. lia.
  - apply Forall_forall. intros x Hx. apply (proj1 (forallb_forall _ _) Hall'). by apply list_elem_of_In.
Qed.

(** Nothing is left but the numbers. *)
Definition config_cleared (s : config_state) : Prop :=
  all_ps s = [] ∧ ∃ c, c_conf s = Some c ∧ ∀ f, c_str c f = None.

Lemma load_detected_ok toml_parse buf detected text s :
  zlen buf < sizeof_tls_buf →
  ∃ rc s', load_detected b seek get toml_parse buf detected text s = Some (rc, s') ∧
    (rc = 0 ∧ (∃ c, config_ok s' c) ∨ rc = -1 ∧ config_cleared s').
Proof.
  intros Hb. unfold load_detected. cbv zeta. set (s0 := init_common_config b (free_all_proxy_services s)).
  assert (good s0) as Hg by (split; [by eexists|constructor]).
  assert (∃ rc s1, match detected, text with
            | XFRPC_CFG_FORMAT_TOML, Some text =>
                match toml_parse text with None => Some (-1, s0) | Some doc => load_toml_config_text seek get doc buf s0 end
            | _, Some text => load_ini text s0
            | _, None => Some (-1, s0)
            end = Some (rc, s1) ∧ good s1) as (rc & s1 & -> & Hg1).
  { destruct detected, text as [text|]; try by eexists _, _.
    - destruct (load_ini_ok text s0 Hg) as (rc & s1 & -> & ? & _). by eexists _, _.
    - destruct (load_ini_ok text s0 Hg) as (rc & s1 & -> & ? & _). by eexists _, _.
    - destruct (toml_parse text) as [doc|]; [|by eexists _, _]. by apply load_toml_ok. }
  cbn [mbind option_bind].
  assert (∀ s2, (∃ c, c_conf s2 = Some c) → config_cleared (free_common_config (free_all_proxy_services s2))) as Hclear.
  { intros s2 [c Hc]. split; [done|]. cbn. rewrite Hc. by eexists. }
  destruct (rc =? 0); [|eexists _, _; split; [done|]; right; split; [done|apply Hclear, Hg1]].
  destruct (validate_loaded_config s1) as [ok s2] eqn:Ev. destruct ok; eexists _, _; (split; [done|]).
  - left. split; [done|]. pose proof (validate_loaded_ok s1 Hg1) as Hv. rewrite Ev in Hv. by apply Hv.
  - right. split; [done|]. apply Hclear. destruct Hg1 as [[c Hc] _]. unfold validate_loaded_config in Ev. rewrite Hc in Ev.
    repeat case_match; simplify_eq/=; eauto.
Qed.
End Load.

(** C24: loading a configuration, from text or from a file, always ends, and
    either succeeds with settings and services the client can work with, or
    fails and leaves no services and no strings behind (or, when it has not
    begun, what was there).  Success means: a server address, a heartbeat that
    is positive and not slower than its timeout, a known wire protocol, no
    multiplexing over QUIC, services with distinct names, each of which is one
    that can be registered. *)
Theorem load_config_sound (b : build) (seek get : toml → string → toml) (toml_parse : bytes → option toml) (buf : bytes)
    (mem : bool) (text file : option bytes) (len : Z) (path : string) (format : config_format) (s : config_state)
    (Hbuf : zlen buf < sizeof_tls_buf) :
  (∃ rc s', load_config_string b seek get toml_parse buf mem text len format s = Some (rc, s') ∧
     (rc = 0 ∧ (∃ c, config_ok s' c) ∨ rc = -1 ∧ (s' = s ∨ config_cleared s'))) ∧
  (∃ rc s', load_config_file b seek get toml_parse buf file path format s = Some (rc, s') ∧
     (rc = 0 ∧ (∃ c, config_ok s' c) ∨ rc = -1 ∧ (s' = s ∨ config_cleared s'))).
Proof.
  split.
  - unfold load_config_string. destruct text as [text|]; [|eexists _, _; split; [done|]; auto]. cbv zeta.
    case_match; [eexists _, _; split; [done|]; auto|]. destruct mem; [|eexists _, _; split; [done|]; auto]. cbn [negb].
    edestruct (load_detected_ok b seek get) as (rc & s' & E & Hr); [exact Hbuf|]. exists rc, s'. split; [exact E|]. naive_solver.
  - unfold load_config_file. destruct path; [eexists _, _; split; [done|]; auto|].
    edestruct (load_detected_ok b seek get) as (rc & s' & E & Hr); [exact Hbuf|]. exists rc, s'. split; [exact E|]. naive_solver.
Qed.

(** ** Starting from the program *)

Section Api.
Context (b : build).

(** The service a [xfrpc_tcp_proxy_t] stands for. *)
Definition api_service (name ip : string) (p : tcp_proxy) : service :=
  set_p_int use_compression (Z.b2z (t_compression p && enable_compression b))
    (set_p_int use_encryption (Z.b2z (t_encryption p))
       (set_p_int remote_port (t_remote_port p) (set_p_int local_port (t_local_port p)
          (set_p_str local_ip ip (set_p_str proxy_type "tcp" (new_proxy_service name)))))).

Fixpoint last_named (name : string) (l : list tcp_proxy) : option tcp_proxy :=
  match l with
  | [] => None
  | p :: l => match last_named name l with
              | Some q => Some q
              | None => if bool_decide (t_name p = Some name) then Some p else None
              end
  end.

Lemma find_del name other l : name ≠ other → find_ps name (del_ps other l) = find_ps name l.
Proof.
  intros Hn. induction l as [|s l IH]; [done|]. unfold del_ps in *. cbn [find_ps]. rewrite filter_cons.
  case_decide as E; cbn [find_ps]; [by rewrite IH|]. rewrite IH. case_bool_decide; [|done]. congruence.
Qed.
Lemma find_del_same name l : find_ps name (del_ps name l) = None.
Proof.
  induction l as [|s l IH]; [done|]. unfold del_ps in *. rewrite filter_cons. case_decide as E; [|done]. cbn [find_ps].
  by rewrite bool_decide_false.
Qed.
Lemma find_app name l k : find_ps name (l ++ k) = match find_ps name l with Some s => Some s | None => find_ps name k end.
Proof. induction l as [|s l IH]; [done|]. cbn [app find_ps]. by case_bool_decide. Qed.

(** The table after adding proxies: for each name the last one given. *)
Lemma add_proxies_ok l s s' :
  good s → Forall (λ p, validate_proxy p = true) (all_ps s) → add_proxies b l s = (true, s') →
  c_conf s' = c_conf s ∧ good s' ∧ Forall (λ p, validate_proxy p = true) (all_ps s') ∧
  ∀ name, match last_named name l with
          | Some p => ∃ ip, t_local_ip p = Some ip ∧ find_ps name (all_ps s') = Some (api_service name ip p)
          | None => find_ps name (all_ps s') = find_ps name (all_ps s)
          end.
Proof.
  revert s. induction l as [|p l IH]; intros s Hg Hv; cbn [add_proxies].
  { intros [= <-]. done. }
  destruct (t_name p) as [n|] eqn:En; [|done]. destruct (t_local_ip p) as [ip|] eqn:Eip; [|done]. cbn [is_set negb orb].
  destruct (Z.eqb_spec (t_local_port p) 0) as [|Hport]; [done|].
  unfold config_add_proxy_service. change (get_valid_type (Some "tcp"%string)) with true. cbn [negb]. cbv zeta iota.
  fold (api_service n ip p). set (s1 := mkCfg _ _). intros Hrun.
  assert (good s1) as Hg1 by exact (good_add (api_service n ip p) s Hg).
  assert (validate_proxy (api_service n ip p) = true) as Hvp.
  { unfold validate_proxy. change (p_str (api_service n ip p) proxy_type) with (Some "tcp"%string).
    change (p_int (api_service n ip p) local_port) with (t_local_port p). by rewrite (proj2 (Z.eqb_neq _ _) Hport). }
  destruct (IH s1 Hg1) as (Ec & Hg' & Hv' & Hf); [|done|].
  { apply Forall_app. split; [|by constructor]. unfold del_ps. apply Forall_forall. intros x [_ Hx]%list_elem_of_filter.
    by apply (proj1 (Forall_forall _ _) Hv). }
  split_and!; [done|done|done|]. intros name. specialize (Hf name). cbn [last_named]. destruct (last_named name l) as [q|]; [done|].
  cbn [all_ps s1] in Hf. rewrite find_app in Hf. case_bool_decide as Eq.
  - assert (n = name) as -> by congruence. exists ip. split; [done|].
    rewrite Hf, find_del_same. cbn [find_ps]. by rewrite bool_decide_true.
  - rewrite Hf, find_del by congruence. destruct (find_ps name (all_ps s)); [done|]. cbn [find_ps].
    rewrite bool_decide_false; [done|]. cbn. congruence.
Qed.

Lemma set_str_other f v c g : g ≠ f → c_str (set_str f v c) g = c_str c g.
Proof. intros Hn. destruct v; [|done]. cbn. unfold upd. by rewrite decide_False. Qed.
Lemma set_str_int f v c : c_int (set_str f v c) = c_int c.
Proof. by destruct v. Qed.
(** [if (...) c->field = n]. *)
Lemma if_int_str (t : bool) i n c : c_str (if t then set_c_int i n c else c) = c_str c.
Proof. by destruct t. Qed.
Lemma if_not_int_str (t : bool) i n c : c_str (if t then c else set_c_int i n c) = c_str c.
Proof. by destruct t. Qed.

Lemma client_settings_str x f :
  f ≠ server_addr → f ≠ user → f ≠ auth_token → f ≠ tls_key_pem → f ≠ tls_cert_pem → f ≠ tls_trusted_ca_pem → f ≠ tls_server_name →
  c_str (client_settings b x) f = c_str (init_common_conf b) f.
Proof.
  intros. unfold client_settings. cbv zeta.
  repeat first [rewrite if_int_str | rewrite if_not_int_str | rewrite set_str_other by done]. done.
Qed.

Lemma client_settings_addr x a : x_server_addr x = Some a → c_str (client_settings b x) server_addr = Some a.
Proof.
  intros E. unfold client_settings. cbv zeta.
  repeat first [rewrite if_int_str | rewrite if_not_int_str | rewrite set_str_other by done]. by rewrite E.
Qed.

Lemma init_conf_str f :
  f ≠ tls_key_pem → f ≠ tls_cert_pem → f ≠ tls_trusted_ca_pem →
  c_str (init_common_conf b) f =
    if decide (f = wire_protocol) then Some "v1"%string else if decide (f = protocol) then Some "tcp"%string
    else if decide (f = server_addr) then Some "127.0.0.1"%string else None.
Proof.
  intros. unfold init_common_conf, pem_default. cbv zeta.
  destruct (enable_tls b), (ca_pem b), (cert_pem b), (key_pem b); cbn [c_str set_c_int set_c_str]; unfold upd;
    by rewrite ?(decide_False (P := f = tls_key_pem)), ?(decide_False (P := f = tls_cert_pem)), ?(decide_False (P := f = tls_trusted_ca_pem)) by done.
Qed.
End Api.

(** A successful [xfrpc_start] leaves the client running on exactly the
    given settings: the server's address, a sound heartbeat, TLS only in a
    build that has it, and for every name the last proxy given under it, as a
    TCP service that can be registered; nothing of an earlier configuration
    survives. *)
Lemma xfrpc_start_sound (b : build) (launched : bool) (x : client_config) (l : list tcp_proxy) (a a' : api_state)
    (Hrun : xfrpc_start b launched (Some x) (Some l) a = (0, a')) :
  running a = false ∧ running a' = true ∧
  ∃ c, config_ok (cfg a') c ∧ c_str c server_addr = x_server_addr x ∧
    (enable_tls b = false → c_int c tls_enable = 0) ∧
    ∀ name, match last_named name l with
            | Some p => ∃ ip, t_local_ip p = Some ip ∧ get_proxy_service name (cfg a') = Some (api_service b name ip p)
            | None => get_proxy_service name (cfg a') = None
            end.
Proof.
  unfold xfrpc_start in Hrun. destruct (nonempty (x_server_addr x)) eqn:Ea; [|done]. cbn [negb] in Hrun.
  destruct (running a); [done|]. cbv zeta in Hrun. set (c := client_settings b x) in *.
  destruct (negb (enable_tls b) && _) eqn:Et; [done|].
  destruct (validate_heartbeat_config _) eqn:Eh; [|done]. cbn [negb] in Hrun.
  destruct (add_proxies b l (mkCfg (Some c) [])) as [[] s'] eqn:Ep; [|done].
  apply add_proxies_ok in Ep as (Ec & [_ Hn] & Hv & Hf); [|split; [by eexists|constructor]|constructor].
  unfold xfrpc_launch in Hrun. destruct launched; [|done]. injection Hrun as <-. cbn [cfg running]. split_and!; [done|done|].
  destruct (x_server_addr x) as [addr|] eqn:Ex; [|done]. pose proof (client_settings_addr b x addr Ex) as Eaddr. fold c in Eaddr.
  exists c. split_and!; [|done| |].
  - cbn in Eh. apply andb_true_iff in Eh as [H1 H2]. b2p. constructor; try done.
    + by rewrite Eaddr.
    + unfold c. rewrite client_settings_str, init_conf_str by done. cbn. set_solver.
    + unfold c. rewrite client_settings_str, init_conf_str by done. done.
  - intros Hb. rewrite Hb in Et. cbn in Et. apply negb_false_iff in Et. by b2p.
  - intros name. specialize (Hf name). by destruct (last_named name l).
Qed.

(** ** The two formats *)

(** The INI option for each TOML path; header tables have no counterpart. *)
Definition ini_option : list (string * string) :=
  [("localIP", "local_ip"); ("bindAddr", "bind_addr"); ("localPort", "local_port"); ("remotePort", "remote_port");
   ("serviceType", "service_type"); ("startTime", "start_time"); ("endTime", "end_time");
   ("transport.useEncryption", "use_encryption"); ("transport.useCompression", "use_compression");
   ("customDomains", "custom_domains"); ("subdomain", "subdomain"); ("locations", "locations");
   ("hostHeaderRewrite", "host_header_rewrite"); ("httpUser", "http_user"); ("httpPassword", "http_pwd");
   ("loadBalancer.group", "group"); ("loadBalancer.groupKey", "group_key"); ("plugin.type", "plugin");
   ("plugin.httpUser", "plugin_user"); ("plugin.httpPassword", "plugin_pwd"); ("plugin.unixPath", "plugin_unix_path");
   ("plugin.localPath", "root_dir"); ("multiplexer", "multiplexer"); ("routeByHTTPUser", "route_by_http_user");
   ("secretKey", "sk"); ("allowUsers", "allow_users"); ("healthCheck.type", "health_check_type");
   ("healthCheck.path", "health_check_url"); ("healthCheck.intervalSeconds", "health_check_interval");
   ("healthCheck.timeoutSeconds", "health_check_timeout"); ("healthCheck.maxFailed", "health_check_max_failed")]%string.

Section Agree.
Context (seek get : toml → string → toml) (sec : toml) (name type : string) (vals : string → option string).

(** A TOML entry with the given strings. *)
Definition toml_entry : Prop :=
  seek sec "name" = TString name ∧ seek sec "enabled" = TUnknown ∧ seek sec "type" = TString type ∧
  ∀ path, path ∈ map fst toml_proxy_fields → seek sec path = match vals path with Some v => TString v | None => TUnknown end.

(** The INI section with the same strings. *)
Definition ini_pairs (l : list (string * proxy_field)) : list (string * string) :=
  omap (λ pf, i ← assoc pf.1 ini_option; v ← vals pf.1; Some (i, v)) l.
Definition ini_section : list ini_item :=
  ISection (str_bytes name) :: map (λ nv, IPair (str_bytes nv.1) (str_bytes nv.2)) (("type"%string, type) :: ini_pairs toml_proxy_fields).

(** What both make of the strings. *)
Definition fields_applied (l : list (string * proxy_field)) (p : service) : service :=
  foldl (λ p kf, match vals kf.1 with Some v => set_proxy_field kf.2 v p | None => p end) p l.
Definition described : service := fields_applied toml_proxy_fields (set_p_str proxy_type type (new_proxy_service name)).

Hypothesis Hhours : ∀ v, vals "startTime"%string = Some v ∨ vals "endTime"%string = Some v → 0 ≤ atoi v ≤ 23.
Hypothesis Hheaders : vals "requestHeaders.set"%string = None ∧ vals "responseHeaders.set"%string = None.

Lemma toml_proxy_fold l buf p :
  (∀ path, path ∈ map fst l → seek sec path = match vals path with Some v => TString v | None => TUnknown end) →
  Forall (λ kf, match kf.2 with PPairs _ => vals kf.1 = None | _ => True end) l →
  toml_proxy seek sec l buf p = Some (buf, fields_applied l p).
Proof.
  intros Hs Hp. revert p. induction Hp as [|[key f] l Hf Hl IH]; intros p; [done|]. cbn [toml_proxy].
  assert (proxy_value seek sec key f buf = Some (vals key, buf)) as ->.
  { assert (seek sec key = match vals key with Some v => TString v | None => TUnknown end) as E by (apply Hs; by left).
    unfold proxy_value, toml_value, xfrpc_toml_get, xfrpc_toml_get_table_pairs. cbn in Hf.
    destruct f; rewrite ?E, ?Hf; by destruct (vals key). }
  cbn [mbind option_bind fields_applied foldl fst snd]. apply IH. intros path Hin. apply Hs. by right.
Qed.

Lemma pairs_absent : Forall (λ kf, match kf.2 with PPairs _ => vals kf.1 = None | _ => True end) toml_proxy_fields.
Proof. destruct Hheaders. repeat constructor; done. Qed.

Lemma set_hour i f v p : (i, f) ∈ proxy_hours → 0 ≤ atoi v ≤ 23 → set_proxy i v p = Some (set_p_int f (atoi v) p).
Proof.
  intros Hin [Hl Hu].
  assert (set_proxy i v p = if (atoi v <? 0) || (23 <? atoi v) then None else Some (set_p_int f (atoi v) p)) as ->.
  { apply elem_of_cons in Hin as [[= -> ->]|[[= -> ->]|Hin%elem_of_nil]%elem_of_cons]; [reflexivity..|done]. }
  by rewrite (proj2 (Z.ltb_ge _ _) Hl), (proj2 (Z.ltb_ge _ _) Hu).
Qed.

(** Each option means the same as its path. *)
Lemma option_agrees path f v p :
  (path, f) ∈ toml_proxy_fields → vals path = Some v →
  ∃ i, assoc path ini_option = Some i ∧ i ≠ "type"%string ∧ set_proxy i v p = Some (set_proxy_field f v p).
Proof.
  intros Hin Hv. destruct Hheaders as [Hq1 Hq2].
  repeat (apply elem_of_cons in Hin as [[= -> ->]|Hin];
    [first [congruence
           | eexists; split; [reflexivity|]; split; [done|]; reflexivity
           | eexists; split; [reflexivity|]; split; [done|];
             apply set_hour; [unfold proxy_hours; set_solver|apply Hhours; by (left + right)]]|]).
  by apply elem_of_nil in Hin.
Qed.

(** A title that is the name of a service. *)
Definition plain_title : Prop :=
  name ≠ "common"%string ∧ contains (str_bytes "visitor") (str_bytes name) = false ∧
  starts_with (str_bytes "proxy:") (str_bytes name) = false.

Hypothesis Htitle : plain_title.
Hypothesis Htype : type ∈ valid_types ∧ type ≠ "socks5"%string.

Lemma find_last l p : name ∉ proxy_name <$> l → proxy_name p = name → find_ps name (l ++ [p]) = Some p.
Proof.
  intros Hl Hp. rewrite find_app. destruct (find_ps name l) as [q|] eqn:E.
  - apply find_ps_some in E as [Hq Hin]. exfalso. apply Hl. rewrite <- Hq. by apply list_elem_of_fmap_2.
  - cbn [find_ps]. by rewrite bool_decide_true.
Qed.

Lemma upd_last c l p f :
  name ∉ proxy_name <$> l → proxy_name p = name → upd_ps name f (mkCfg c (l ++ [p])) = mkCfg c (l ++ [f p]).
Proof.
  intros Hl Hp. unfold upd_ps. cbn. rewrite fmap_app. cbn. rewrite bool_decide_true by done. do 2 f_equal.
  induction l as [|x l IH]; [done|]. cbn in *. apply not_elem_of_cons in Hl as [Hx Hl]. rewrite bool_decide_false by congruence.
  by rewrite IH.
Qed.

(** One pair of the section, when the service is there already. *)
Lemma handler_pair c l p nm v p' :
  name ∉ proxy_name <$> l → proxy_name p = name → set_proxy nm v p = Some p' → p_str p' proxy_type = Some type →
  proxy_service_handler name nm v (mkCfg c (l ++ [p])) = (true, mkCfg c (l ++ [p'])).
Proof.
  intros Hl Hp Hs Ht. destruct Htitle as (Hc & Hv & Hx). unfold proxy_service_handler.
  rewrite bool_decide_false, Hv by done. unfold section_name. rewrite Hx. cbv zeta.
  unfold get_or_create_proxy_service, get_proxy_service. cbn [all_ps]. rewrite find_last by done. cbn [all_ps].
  rewrite find_last by done. cbn [mbind option_bind]. rewrite Hs, upd_last by done.
  assert (default_socks5_port p' = p') as ->; [|done].
  unfold default_socks5_port, type_is. rewrite Ht, bool_decide_false; [done|]. destruct Htype. congruence.
Qed.

Lemma field_keeps f v p :
  f ≠ PStr proxy_type → f ≠ PPairs proxy_type →
  p_str (set_proxy_field f v p) proxy_type = p_str p proxy_type ∧ proxy_name (set_proxy_field f v p) = proxy_name p.
Proof.
  intros H1 H2. destruct f as [g|g|g| |g]; cbn; try done; unfold upd; (split; [|done]); rewrite decide_False; [done| |done|]; intros <-; congruence.
Qed.

Lemma ini_run_fields fs c l p line :
  fs ⊆ toml_proxy_fields → name ∉ proxy_name <$> l → proxy_name p = name → p_str p proxy_type = Some type →
  run_items (on_text proxy_service_handler) (map (λ nv, IPair (str_bytes nv.1) (str_bytes nv.2)) (ini_pairs fs)) line
    (str_bytes name) 0 (mkCfg c (l ++ [p])) = (0, mkCfg c (l ++ [fields_applied fs p])).
Proof.
  intros Hsub Hl. revert p line. induction fs as [|[path f] fs IH]; intros p line Hp Ht; [done|].
  assert ((path, f) ∈ toml_proxy_fields) as Hin by (apply Hsub; by left).
  assert (fs ⊆ toml_proxy_fields) as Hsub' by (intros x Hx; apply Hsub; by right).
  unfold ini_pairs, fields_applied. cbn [omap list_omap foldl fst snd]. destruct (vals path) as [v|] eqn:Ev.
  - destruct (option_agrees path f v p Hin Ev) as (i & -> & _ & Hs). cbn [mbind option_bind map run_items fst snd].
    assert (f ≠ PStr proxy_type ∧ f ≠ PPairs proxy_type) as [F1 F2].
    { repeat (apply elem_of_cons in Hin as [[= _ ->]|Hin]; [done|]). by apply elem_of_nil in Hin. }
    destruct (field_keeps f v p F1 F2) as [K1 K2]. unfold on_text at 1. rewrite !bytes_string_str.
    rewrite (handler_pair c l p i v (set_proxy_field f v p)) by (done || congruence). cbn match.
    apply (IH Hsub'); congruence.
  - destruct (assoc path ini_option); cbn [mbind option_bind]; by apply (IH Hsub').
Qed.

Lemma run_common_fields fs line e s :
  name ≠ "common"%string →
  run_items (on_text common_handler) (map (λ nv, IPair (str_bytes nv.1) (str_bytes nv.2)) fs) line (str_bytes name) e s = (e, s).
Proof.
  intros Hn. revert line. induction fs as [|[n v] fs IH]; intros line; [done|]. cbn [map run_items fst snd]. unfold on_text at 1.
  rewrite !bytes_string_str. unfold common_handler. rewrite bool_decide_false by done. destruct (c_conf s); apply IH.
Qed.

(** The whole file, whatever the other pairs do. *)
Lemma load_ini_pairs (pairs : list (string * string)) c l p :
  let items := ISection (str_bytes name) :: map (λ nv, IPair (str_bytes nv.1) (str_bytes nv.2)) (("type"%string, type) :: pairs) in
  Forall item_ok items → name ∉ proxy_name <$> l →
  (∀ line, run_items (on_text proxy_service_handler) (map (λ nv, IPair (str_bytes nv.1) (str_bytes nv.2)) pairs) line
     (str_bytes name) 0 (mkCfg c (l ++ [set_p_str proxy_type type (new_proxy_service name)])) = (0, mkCfg c (l ++ [p]))) →
  load_ini (print_ini items) (mkCfg c l) = Some (0, mkCfg c (l ++ [p])).
Proof.
  intros items Hok Hn Hrest. destruct Htitle as (Hc & Hv & Hx).
  unfold load_ini. rewrite !ini_parse_printed by done.
  change (run_items (on_text common_handler) items 0 [] 0 (mkCfg c l)) with
    (run_items (on_text common_handler) (map (λ nv, IPair (str_bytes nv.1) (str_bytes nv.2)) (("type"%string, type) :: pairs)) 1
       (str_bytes name) 0 (mkCfg c l)).
  rewrite run_common_fields by done. cbn [mbind option_bind]. change (0 =? 0) with true. cbv iota.
  rewrite ini_parse_printed by done. unfold items. cbn [map run_items fst snd].
  unfold on_text at 1. rewrite !bytes_string_str.
  assert (proxy_service_handler name "type" type (mkCfg c l) =
            (true, mkCfg c (l ++ [set_p_str proxy_type type (new_proxy_service name)]))) as ->.
  { rewrite <- (handler_pair c l (new_proxy_service name) "type" type); [|done|done| |done].
    - unfold proxy_service_handler. rewrite bool_decide_false, Hv by done. unfold section_name. rewrite Hx. cbv zeta.
      unfold get_or_create_proxy_service, get_proxy_service. cbn [all_ps]. rewrite find_last by done.
      destruct (find_ps name l) as [q|] eqn:E; [|done]. apply find_ps_some in E as [Hq Hin]. exfalso. apply Hn.
      rewrite <- Hq. by apply list_elem_of_fmap_2.
    - unfold set_proxy. rewrite (bool_decide_true ("type"%string = _)) by done. unfold get_valid_type.
      by rewrite bool_decide_true by apply Htype. }
  cbv iota. rewrite Hrest. done.
Qed.

Lemma load_ini_section c l :
  Forall item_ok ini_section → name ∉ proxy_name <$> l →
  load_ini (print_ini ini_section) (mkCfg c l) = Some (0, mkCfg c (l ++ [described])).
Proof.
  intros Hok Hn. apply (load_ini_pairs (ini_pairs toml_proxy_fields)); [exact Hok|exact Hn|].
  intros line. apply ini_run_fields; done.
Qed.
End Agree.

Lemma del_absent name l : name ∉ proxy_name <$> l → del_ps name l = l.
Proof.
  induction l as [|x l IH]; [done|]. rewrite fmap_cons. intros [Hx Hl]%not_elem_of_cons. unfold del_ps in *. rewrite filter_cons.
  rewrite decide_True by congruence. by rewrite IH.
Qed.

Lemma fields_name vals l p : proxy_name (fields_applied vals l p) = proxy_name p.
Proof.
  unfold fields_applied. revert p. induction l as [|[k f] l IH]; intros p; [done|]. cbn [foldl fst snd]. rewrite IH.
  destruct (vals k); [|done]. by destruct f.
Qed.
Lemma described_name name type vals : proxy_name (described name type vals) = name.
Proof. apply fields_name. Qed.


(** ** A stale buffer *)

Section Stale.
Context (seek : toml → string → toml) (sec : toml).

Lemma toml_proxy_app l k buf p :
  toml_proxy seek sec (l ++ k) buf p = '(buf, p) ← toml_proxy seek sec l buf p; toml_proxy seek sec k buf p.
Proof.
  revert buf p. induction l as [|[key f] l IH]; intros buf p; [done|]. cbn [app toml_proxy].
  destruct (proxy_value seek sec key f buf) as [[v b1]|]; [|done]. cbn [mbind option_bind]. apply IH.
Qed.

(** Paths that are not there. *)
Lemma toml_proxy_absent l buf p :
  Forall (λ kf, seek sec kf.1 = TUnknown) l → toml_proxy seek sec l buf p = Some (buf, p).
Proof.
  induction 1 as [|[key f] l E Hl IH]; [done|]. cbn [toml_proxy fst] in *.
  unfold proxy_value, toml_value, xfrpc_toml_get, xfrpc_toml_get_table_pairs. rewrite E. by destruct f.
Qed.

(** Fields other than [g]. *)
Lemma toml_proxy_other g l buf p :
  zlen buf < sizeof_tls_buf → Forall (λ kf, kf.2 ≠ PStr g ∧ kf.2 ≠ PPairs g) l →
  ∃ buf' p', toml_proxy seek sec l buf p = Some (buf', p') ∧ zlen buf' < sizeof_tls_buf ∧ p_str p' g = p_str p g.
Proof.
  intros Hb Hl. revert buf p Hb. induction Hl as [|[key f] l Hf Hl IH]; intros buf p Hb; [by exists buf, p|].
  cbn [snd] in Hf. change ((key, f) :: l) with ([(key, f)] ++ l). rewrite toml_proxy_app. cbn [toml_proxy].
  assert (∃ v b1, proxy_value seek sec key f buf = Some (v, b1) ∧ zlen b1 < sizeof_tls_buf) as (v & b1 & -> & Hb1).
  { unfold proxy_value. destruct f; try by apply toml_value_ok.
    destruct (toml_pairs_ok seek sec key []) as [r ->]; [done|]. by eexists _, buf. }
  cbn [mbind option_bind]. destruct (IH b1 (match v with Some v => set_proxy_field f v p | None => p end) Hb1) as (b2 & p2 & -> & Hb2 & E).
  exists b2, p2. split_and!; [done|done|]. rewrite E. destruct v as [v|]; [|done].
  destruct Hf as [F1 F2], f as [h|h|h| |h]; cbn; try done; unfold upd; rewrite decide_False; [done| |done|]; intros <-; congruence.
Qed.

Definition middle_paths : list (string * proxy_field) :=
  [("remotePort", PInt remote_port); ("serviceType", PService); ("startTime", PInt start_time); ("endTime", PInt end_time);
   ("transport.useEncryption", PFlag use_encryption); ("transport.useCompression", PFlag use_compression)]%string.
End Stale.

(** An empty array is read as an earlier number.  In an entry with a numeric
    local port, none of the options between, and an empty list of custom
    domains, the service gets the digits of the port as its custom domains:
    the text of an empty array is whatever the static buffer still holds. *)
Lemma toml_empty_array_stale (seek : toml → string → toml) (sec : toml) (n : Z) (buf : bytes) (p : service)
    (Hbuf : zlen buf < sizeof_tls_buf) (Hport : seek sec "localPort"%string = TInt n)
    (Habsent : Forall (λ kf, seek sec kf.1 = TUnknown) middle_paths)
    (Hempty : seek sec "customDomains"%string = TArray []) (Hn : zlen (int_text n) < sizeof_tls_buf) :
  ∃ buf' p', toml_proxy seek sec toml_proxy_fields buf p = Some (buf', p') ∧ p_str p' custom_domains = Some (pretty n).
Proof.
  change toml_proxy_fields with ([("localIP", PStr local_ip); ("bindAddr", PStr bind_addr)]%string ++
    [("localPort"%string, PInt local_port)] ++ middle_paths ++ [("customDomains"%string, PStr custom_domains)] ++ drop 10 toml_proxy_fields).
  rewrite !toml_proxy_app.
  destruct (toml_proxy_other seek sec custom_domains [("localIP", PStr local_ip); ("bindAddr", PStr bind_addr)]%string buf p)
    as (b1 & p1 & -> & Hb1 & _); [done|by repeat constructor|]. cbn [mbind option_bind]. rewrite toml_proxy_app.
  set (p2 := set_p_int local_port (atoi (pretty n)) p1).
  assert (toml_proxy seek sec [("localPort"%string, PInt local_port)] b1 p1 = Some (int_text n, p2)) as ->.
  { cbn [toml_proxy]. unfold proxy_value, toml_value, xfrpc_toml_get. rewrite Hport. cbn [toml_text]. unfold snprintf_at.
    change (sizeof_tls_buf <? 0) with false. cbv iota. change (ztake 0 b1) with (@nil Z). cbn [app mbind option_bind].
    rewrite ztake_ge by (unfold sizeof_tls_buf in *; lia). cbn [option_map text_of]. unfold int_text. by rewrite bytes_string_str. }
  cbn [mbind option_bind]. rewrite toml_proxy_app, toml_proxy_absent by done. cbn [mbind option_bind]. rewrite toml_proxy_app.
  assert (toml_proxy seek sec [("customDomains"%string, PStr custom_domains)] (int_text n) p2
            = Some (int_text n, set_p_str custom_domains (pretty n) p2)) as ->.
  { cbn [toml_proxy]. unfold proxy_value, toml_value, xfrpc_toml_get. rewrite Hempty. cbn. unfold int_text. by rewrite bytes_string_str. }
  cbn [mbind option_bind].
  destruct (toml_proxy_other seek sec custom_domains (drop 10 toml_proxy_fields) (int_text n) (set_p_str custom_domains (pretty n) p2))
    as (b3 & p3 & -> & _ & E); [done|by repeat constructor|]. exists b3, p3. split; [done|]. by rewrite E.
Qed.

(** ** The session's view *)

(** The fields the session reads. *)
Definition session_service (s : service) : World.proxy_service :=
  mkPs (proxy_name s) (p_str s proxy_type) (negb (p_int s use_encryption =? 0)) (negb (p_int s use_compression =? 0))
    (p_str s local_ip) (p_int s local_port) (p_int s start_time) (p_int s end_time) (service_type s) (p_str s plugin)
    (p_str s plugin_unix_path)
    (mkReg (p_int s remote_port) (p_str s custom_domains) (p_str s subdomain) (p_str s locations) (p_str s host_header_rewrite)
       (p_str s http_user) (p_str s http_pwd) (p_str s request_headers) (p_str s response_headers) (p_str s group)
       (p_str s group_key) (p_str s multiplexer) (p_str s route_by_http_user) (p_str s sk) (p_str s allow_users)).

(** What the session asks of its services: distinct names, and a type. *)
Lemma config_ok_services s c :
  config_ok s c →
  NoDup (ps_proxy_name <$> (session_service <$> all_ps s)) ∧
  Forall (λ p, ps_proxy_type p ≠ None) (session_service <$> all_ps s).
Proof.
  intros Ok. split.
  - rewrite <- list_fmap_compose. exact (co_names _ _ Ok).
  - apply Forall_fmap. eapply Forall_impl; [exact (co_services _ _ Ok)|]. intros p Hv E. unfold validate_proxy in Hv.
    cbn in E. by rewrite E in Hv.
Qed.

(** ** Concrete configurations *)

Definition plain_build : build := mkBuild false "" "" "" false.
Definition no_config : config_state := mkCfg None [].

Definition demo_text : bytes := str_bytes "[common]
server_addr = frps.example
token = t

[ssh]
type = tcp
local_ip = 127.0.0.1
local_port = 22
".

Lemma load_config_sound_witness :
  ∃ s', load_config_string plain_build (λ _ _, TUnknown) (λ _ _, TUnknown) (λ _, None) [] true (Some demo_text) 0
          XFRPC_CFG_FORMAT_AUTO no_config = Some (0, s') ∧ ∃ c, config_ok s' c.
Proof.
  destruct (load_config_sound plain_build (λ _ _, TUnknown) (λ _ _, TUnknown) (λ _, None) [] true (Some demo_text) None 0 ""
              XFRPC_CFG_FORMAT_AUTO no_config) as [(rc & s' & E & Hr) _]; [reflexivity|].
  assert (rc = 0) as ->.
  { assert (fst <$> load_config_string plain_build (λ _ _, TUnknown) (λ _ _, TUnknown) (λ _, None) [] true (Some demo_text) 0
              XFRPC_CFG_FORMAT_AUTO no_config = Some 0) as E0 by (vm_compute; reflexivity).
    rewrite E in E0. injection E0 as ->. reflexivity. }
  exists s'. split; [exact E|]. destruct Hr as [[_ Hc]|[Hrc _]]; [exact Hc|discriminate Hrc].
Defined.

Definition demo_client : client_config :=
  mkClient (Some "frps.example"%string) 0 None None 0 0 (-1) 0 None None None None.
Definition demo_proxy (port : Z) : tcp_proxy := mkTcpProxy (Some "ssh"%string) (Some "127.0.0.1"%string) port 6000 false true.

(** The same name twice: the second one stays. *)
Lemma xfrpc_start_sound_witness :
  let a' := snd (xfrpc_start plain_build true (Some demo_client) (Some [demo_proxy 22; demo_proxy 2222]) (mkApi false no_config)) in
  running a' = true ∧ ∃ ip, get_proxy_service "ssh" (cfg a') = Some (api_service plain_build "ssh" ip (demo_proxy 2222)).
Proof.
  destruct (xfrpc_start_sound plain_build true demo_client [demo_proxy 22; demo_proxy 2222] (mkApi false no_config)
              (snd (xfrpc_start plain_build true (Some demo_client) (Some [demo_proxy 22; demo_proxy 2222]) (mkApi false no_config))))
    as (_ & Hr & c & _ & _ & _ & Hf); [reflexivity|].
  split; [exact Hr|]. specialize (Hf "ssh"%string). cbn [last_named] in Hf. destruct Hf as (ip & _ & Hf). exists ip. exact Hf.
Defined.

Definition demo_vals (path : string) : option string :=
  assoc path [("localIP", "127.0.0.1"); ("localPort", "22"); ("startTime", "8"); ("transport.useEncryption", "true")]%string.
Definition demo_seek (_ : toml) (path : string) : toml :=
  match assoc path [("name", "ssh"); ("type", "tcp")]%string, demo_vals path with
  | Some v, _ | None, Some v => TString v
  | None, None => TUnknown
  end.

Lemma demo_entry : toml_entry demo_seek TUnknown "ssh" "tcp" demo_vals.
Proof.
  split_and!; [reflexivity..|]. intros path Hin.
  repeat (apply elem_of_cons in Hin as [->|Hin]; [reflexivity|]). by apply elem_of_nil in Hin.
Qed.
Lemma demo_section_ok : Forall item_ok (ini_section "ssh" "tcp" demo_vals).
Proof.
  vm_compute ini_section. repeat constructor; vm_compute; try done;
    try (intros Hin; repeat (apply elem_of_cons in Hin as [Hin|Hin]; [done|]); by apply elem_of_nil in Hin).
Qed.


Lemma toml_empty_array_stale_witness :
  ∃ buf' p', toml_proxy (λ _ k, if bool_decide (k = "localPort"%string) then TInt 8080
                                else if bool_decide (k = "customDomains"%string) then TArray [] else TUnknown)
               TUnknown toml_proxy_fields [] (new_proxy_service "web") = Some (buf', p') ∧
    p_str p' custom_domains = Some "8080"%string.
Proof.
  apply (toml_empty_array_stale (λ _ k, if bool_decide (k = "localPort"%string) then TInt 8080
                                else if bool_decide (k = "customDomains"%string) then TArray [] else TUnknown)
           TUnknown 8080 [] (new_proxy_service "web")).
  - reflexivity.
  - reflexivity.
  - repeat constructor.
  - reflexivity.
  - vm_compute. reflexivity.
Defined.
