(* ===== verification/EventLoop.v ===== *)
(** * The event loop

    Models the loop of [src/port/mini_event.c]: timers, bufferevents over a
    socket or over a transport ([struct mini_bev_ssl_ops]), and the passes of
    [event_base_dispatch].  The heap maps pointers to structures, the intrusive
    lists are lists of pointers, and [None] is the use of a freed structure.
    The clock, the sockets and the transport answer as functions of a counter;
    the callbacks are a parameter. *)

From S2P Require Import Prelude.

Definition MINI_SELECT_MAX_WAIT_MS : Z := 100.
Definition MINI_RECV_MAX_PER_LOOP : Z := 64 * 1024.
Definition MINI_TLS_HANDSHAKE_TIMEOUT_S : Z := 10.

(** ** State *)

(** [struct event]; it is linked when it is in the list of its base. *)
Record event := mkEvent { ev_expire : Z; ev_pending : bool }.

(** The fields of [struct bufferevent] for its transport. *)
Record ssl := mkSsl { s_hs_done : bool; s_hs_start : Z; s_want_read : bool; s_want_write : bool }.

(** [struct bufferevent]: times in microseconds, a timeout of 0 is disabled. *)
Record bev := mkLBev {
  b_fd : Z;
  b_rd : bool;
  b_wr : bool;
  b_connecting : bool;
  b_connect_start : Z;
  b_tv_read : Z;
  b_tv_write : Z;
  b_last_read : Z;
  b_last_write : Z;
  b_wm_low : Z;
  b_input : bytes;
  b_output : bytes;
  b_has_readcb : bool;
  b_has_writecb : bool;
  b_has_eventcb : bool;
  b_ssl : option ssl;
}.

Definition set_fd v x := mkLBev v (b_rd x) (b_wr x) (b_connecting x) (b_connect_start x) (b_tv_read x) (b_tv_write x) (b_last_read x) (b_last_write x) (b_wm_low x) (b_input x) (b_output x) (b_has_readcb x) (b_has_writecb x) (b_has_eventcb x) (b_ssl x).
Definition set_enabled r w x := mkLBev (b_fd x) r w (b_connecting x) (b_connect_start x) (b_tv_read x) (b_tv_write x) (b_last_read x) (b_last_write x) (b_wm_low x) (b_input x) (b_output x) (b_has_readcb x) (b_has_writecb x) (b_has_eventcb x) (b_ssl x).
Definition set_connecting v t x := mkLBev (b_fd x) (b_rd x) (b_wr x) v t (b_tv_read x) (b_tv_write x) (b_last_read x) (b_last_write x) (b_wm_low x) (b_input x) (b_output x) (b_has_readcb x) (b_has_writecb x) (b_has_eventcb x) (b_ssl x).
Definition set_tv r w x := mkLBev (b_fd x) (b_rd x) (b_wr x) (b_connecting x) (b_connect_start x) r w (b_last_read x) (b_last_write x) (b_wm_low x) (b_input x) (b_output x) (b_has_readcb x) (b_has_writecb x) (b_has_eventcb x) (b_ssl x).
Definition set_last r w x := mkLBev (b_fd x) (b_rd x) (b_wr x) (b_connecting x) (b_connect_start x) (b_tv_read x) (b_tv_write x) r w (b_wm_low x) (b_input x) (b_output x) (b_has_readcb x) (b_has_writecb x) (b_has_eventcb x) (b_ssl x).
Definition set_input v x := mkLBev (b_fd x) (b_rd x) (b_wr x) (b_connecting x) (b_connect_start x) (b_tv_read x) (b_tv_write x) (b_last_read x) (b_last_write x) (b_wm_low x) v (b_output x) (b_has_readcb x) (b_has_writecb x) (b_has_eventcb x) (b_ssl x).
Definition set_output v x := mkLBev (b_fd x) (b_rd x) (b_wr x) (b_connecting x) (b_connect_start x) (b_tv_read x) (b_tv_write x) (b_last_read x) (b_last_write x) (b_wm_low x) (b_input x) v (b_has_readcb x) (b_has_writecb x) (b_has_eventcb x) (b_ssl x).
Definition set_cbs r w e x := mkLBev (b_fd x) (b_rd x) (b_wr x) (b_connecting x) (b_connect_start x) (b_tv_read x) (b_tv_write x) (b_last_read x) (b_last_write x) (b_wm_low x) (b_input x) (b_output x) r w e (b_ssl x).
Definition set_wm v x := mkLBev (b_fd x) (b_rd x) (b_wr x) (b_connecting x) (b_connect_start x) (b_tv_read x) (b_tv_write x) (b_last_read x) (b_last_write x) v (b_input x) (b_output x) (b_has_readcb x) (b_has_writecb x) (b_has_eventcb x) (b_ssl x).
Definition set_ssl v x := mkLBev (b_fd x) (b_rd x) (b_wr x) (b_connecting x) (b_connect_start x) (b_tv_read x) (b_tv_write x) (b_last_read x) (b_last_write x) (b_wm_low x) (b_input x) (b_output x) (b_has_readcb x) (b_has_writecb x) (b_has_eventcb x) v.
(** The directions the transport waits for. *)
Definition set_wants (w : bool * bool) (x : bev) : bev :=
  set_ssl ((λ s, mkSsl (s_hs_done s) (s_hs_start s) (fst w) (snd w)) <$> b_ssl x) x.
Definition set_hs_start (t : Z) (x : bev) : bev :=
  set_ssl ((λ s, mkSsl (s_hs_done s) t (s_want_read s) (s_want_write s)) <$> b_ssl x) x.
Definition set_hs_done (x : bev) : bev :=
  set_ssl ((λ s, mkSsl true (s_hs_start s) (s_want_read s) (s_want_write s)) <$> b_ssl x) x.
(** [bev->ssl_ops && !bev->ssl_hs_done]. *)
Definition handshaking (x : bev) : bool := match b_ssl x with Some s => negb (s_hs_done s) | None => false end.
Definition ssl_want_read (x : bev) : bool := match b_ssl x with Some s => s_want_read s | None => false end.
Definition ssl_want_write (x : bev) : bool := match b_ssl x with Some s => s_want_write s | None => false end.

(** [struct event_base] with the heap. *)
Record base := mkBase {
  l_event : gmap positive event;
  l_events : list positive;
  l_bev : gmap positive bev;
  l_bevs : list positive;
  l_break : bool;
  l_stop : bool;
  l_tick : nat;
}.

Definition set_l_event v l := mkBase v (l_events l) (l_bev l) (l_bevs l) (l_break l) (l_stop l) (l_tick l).
Definition set_l_events v l := mkBase (l_event l) v (l_bev l) (l_bevs l) (l_break l) (l_stop l) (l_tick l).
Definition set_l_bev v l := mkBase (l_event l) (l_events l) v (l_bevs l) (l_break l) (l_stop l) (l_tick l).
Definition set_l_bevs v l := mkBase (l_event l) (l_events l) (l_bev l) v (l_break l) (l_stop l) (l_tick l).
Definition set_l_break v l := mkBase (l_event l) (l_events l) (l_bev l) (l_bevs l) v (l_stop l) (l_tick l).
Definition set_l_stop v l := mkBase (l_event l) (l_events l) (l_bev l) (l_bevs l) (l_break l) v (l_tick l).
Definition set_l_tick v l := mkBase (l_event l) (l_events l) (l_bev l) (l_bevs l) (l_break l) (l_stop l) v.

(** What [recv] and [send] answer. *)
Inductive recv_answer := RData (d : bytes) | REof | RAgain | RIntr | RError.
Inductive send_answer := SSent (n : Z) | SAgain | SIntr | SError.
(** What the operations of the transport answer, before the two directions
    they wait for. *)
Inductive handshake_answer := HDone | HProgress | HFatal.
Inductive ssl_read_answer := TData (d : bytes) | TNone | TEof | TError.

(** What [mini_event.h] promises of the operations of a transport. *)
Definition handshake_ok (a : handshake_answer * (bool * bool)) : Prop :=
  fst a = HProgress → fst (snd a) || snd (snd a) = true.
Definition ssl_read_ok (a : ssl_read_answer * (bool * bool)) : Prop := fst a ≠ TData [].
Definition ssl_write_ok (a : bool * Z * (bool * bool)) : Prop := 0 ≤ snd (fst a).

(** The outside: the clock, the sockets, the transport, and what [select]
    reports ready after a wait of at most so many microseconds. *)
Record outside := mkOutside {
  o_clock : nat → Z;
  o_recv : nat → recv_answer;
  o_send : nat → send_answer;
  o_so_error : nat → bool;
  o_select : nat → Z → Z → bool * bool;
  o_handshake : nat → handshake_answer * (bool * bool);
  o_ssl_read : nat → ssl_read_answer * (bool * bool);
  o_ssl_write : nat → bool * Z * (bool * bool);
  o_ssl_pending : nat → Z;
}.

(** ** Operations in a state monad *)

Definition L (A : Type) : Type := base → option (A * base).
Definition lret {A} (a : A) : L A := λ l, Some (a, l).
Definition lbind {A B} (m : L A) (f : A → L B) : L B := λ l, match m l with Some (a, l') => f a l' | None => None end.
Declare Scope loop_scope.
Delimit Scope loop_scope with loop.
Notation "x <~ m ;; k" := (lbind m (λ x, k)) (at level 100, m at next level, right associativity) : loop_scope.
Notation "m ;~ k" := (lbind m (λ _, k)) (at level 100, right associativity) : loop_scope.
Open Scope loop_scope.

Definition lgets {A} (f : base → A) : L A := λ l, Some (f l, l).
Definition lmodify (f : base → base) : L () := λ l, Some ((), f l).
Definition lub {A} : L A := λ _, None.

(** Reading and writing through a pointer. *)
Definition lget_ev (e : positive) : L event := λ l, x ← l_event l !! e; Some (x, l).
Definition lput_ev (e : positive) (x : event) : L () := lmodify (λ l, set_l_event (<[e := x]> (l_event l)) l).
Definition lget (b : positive) : L bev := λ l, x ← l_bev l !! b; Some (x, l).
Definition lput (b : positive) (x : bev) : L () := lmodify (λ l, set_l_bev (<[b := x]> (l_bev l)) l).
Definition lupd (b : positive) (f : bev → bev) : L () := x <~ lget b ;; lput b (f x).

(** What a callback is called for. *)
Inductive bev_event := BevConnected | BevEof | BevError | BevTimeoutRead | BevTimeoutWrite.
Inductive callback := CTimer | CRead | CWrite | CEvent (e : bev_event).

Section Loop.
Context (o : outside) (run : callback → positive → L ()).

Definition ltick : L nat := λ l, Some (l_tick l, set_l_tick (S (l_tick l)) l).
Definition mini_now_us : L Z := t <~ ltick ;; lret (o_clock o t).

(** ** Timers *)

(** [p]: the pointer [calloc] answers. *)
Definition event_new (p : positive) : L positive :=
  lput_ev p (mkEvent 0 false) ;~ lret p.

Definition event_add (e : positive) (tv : Z) : L () :=
  now <~ mini_now_us ;;
  lget_ev e ;~
  lput_ev e (mkEvent (now + tv) true) ;~
  lmodify (λ l, if bool_decide (e ∈ l_events l) then l else set_l_events (e :: l_events l) l).

Definition event_del (e : positive) : L () :=
  x <~ lget_ev e ;;
  lput_ev e (mkEvent (ev_expire x) false) ;~
  lmodify (λ l, set_l_events (filter (λ y, y ≠ e) (l_events l)) l).

Definition event_free (e : positive) : L () :=
  event_del e ;~ lmodify (λ l, set_l_event (delete e (l_event l)) l).

(** The events that are left, then the base. *)
Fixpoint free_events (fuel : nat) : L () :=
  es <~ lgets l_events ;;
  match es, fuel with
  | [], _ => lret ()
  | _ :: _, O => lub
  | e :: _, S fuel => event_free e ;~ free_events fuel
  end.
Definition event_base_free : L () := es <~ lgets l_events ;; free_events (length es).

Definition event_base_loopbreak : L () := lmodify (set_l_break true).
Definition mini_event_base_stop : L () := lmodify (set_l_stop true).

(** The first event of the list that is due. *)
Fixpoint first_due (now : Z) (es : list positive) : L (option positive) :=
  match es with
  | [] => lret None
  | e :: es =>
      x <~ lget_ev e ;;
      if ev_pending x && (ev_expire x <=? now) then lret (Some e) else first_due now es
  end.

(** [do { ... } while (fired)]: the scan starts again after every callback. *)
Fixpoint run_timers (fuel : nat) (now : Z) : L () :=
  match fuel with
  | O => lub
  | S fuel =>
      es <~ lgets l_events ;;
      due <~ first_due now es ;;
      match due with
      | None => lret ()
      | Some e =>
          x <~ lget_ev e ;;
          lput_ev e (mkEvent (ev_expire x) false) ;~
          run CTimer e ;~
          run_timers fuel now
      end
  end.

(** The earliest deadline, or -1. *)
Fixpoint next_expire (es : list positive) (acc : Z) : L Z :=
  match es with
  | [] => lret acc
  | e :: es =>
      x <~ lget_ev e ;;
      next_expire es (if ev_pending x && ((acc <? 0) || (ev_expire x <? acc)) then ev_expire x else acc)
  end.

Definition wait_time (now expire : Z) : Z :=
  let w := MINI_SELECT_MAX_WAIT_MS * 1000 in
  if 0 <=? expire then
    let until := if expire - now <? 0 then 0 else expire - now in
    if until <? w then until else w
  else w.

(** ** Bufferevents *)

(** [p]: the pointer [calloc] answers. *)
Definition bev_new (p : positive) (fd : Z) : L positive :=
  now <~ mini_now_us ;;
  lput p (mkLBev fd false false false 0 0 0 now now 0 [] [] false false false None) ;~
  lmodify (λ l, set_l_bevs (p :: l_bevs l) l) ;~
  lret p.

Definition bufferevent_free (b : positive) : L () :=
  lget b ;~
  lmodify (λ l, set_l_bevs (filter (λ y, y ≠ b) (l_bevs l)) (set_l_bev (delete b (l_bev l)) l)).

Definition bufferevent_enable (b : positive) (rd wr : bool) : L () :=
  x <~ lget b ;;
  now <~ mini_now_us ;;
  lput b (set_last (if rd then now else b_last_read x) (if wr then now else b_last_write x)
            (set_enabled (b_rd x || rd) (b_wr x || wr) x)).

Definition bufferevent_set_timeouts (b : positive) (tv_read tv_write : option Z) : L () :=
  x <~ lget b ;;
  now <~ mini_now_us ;;
  lput b (set_last now now (set_tv (default 0 tv_read) (default 0 tv_write) x)).

Definition bufferevent_disable (b : positive) (rd wr : bool) : L () :=
  lupd b (λ x, set_enabled (b_rd x && negb rd) (b_wr x && negb wr) x).

Definition bufferevent_setcb (b : positive) (r w e : bool) : L () := lupd b (set_cbs r w e).

Definition bufferevent_setwatermark (b : positive) (rd : bool) (lowmark : Z) : L () :=
  lupd b (λ x, if rd then set_wm lowmark x else x).

Definition mini_bev_set_ssl (b : positive) : L () :=
  lget b ;~
  now <~ mini_now_us ;;
  lupd b (λ x, set_enabled true true (set_ssl (Some (mkSsl false now false false)) x)).

(** With a transport the socket carries ciphertext. *)
Definition bufferevent_getfd (b : positive) : L Z :=
  x <~ lget b ;; lret (if b_ssl x then -1 else b_fd x).

(** [fd]: the descriptor [socket] answers when there is none yet; [nonblock],
    [conn]: the outcomes of [fcntl] and [connect]. *)
Definition bufferevent_socket_connect (b : positive) (fd : Z) (nonblock conn : bool) : L Z :=
  x <~ lget b ;;
  let fd := if b_fd x <? 0 then fd else b_fd x in
  if fd <? 0 then lret (-1)
  else
    lput b (set_fd fd x) ;~
    if negb nonblock || negb conn then lret (-1)
    else
      now <~ mini_now_us ;;
      lupd b (λ x, set_enabled true true (set_connecting true now x)) ;~
      lret 0.

(** [resolved]: whether [getaddrinfo] brings an address. *)
Definition bufferevent_socket_connect_hostname (b : positive) (resolved : bool) (fd : Z) (nonblock conn : bool) : L Z :=
  if negb resolved then lret (-1) else bufferevent_socket_connect b fd nonblock conn.

Definition bev_linked (b : positive) : L bool := lgets (λ l, bool_decide (b ∈ l_bevs l)).

Definition bev_call_eventcb (b : positive) (what : bev_event) : L () :=
  x <~ lget b ;; if b_has_eventcb x then run (CEvent what) b else lret ().

(** Drives the handshake of the transport. *)
Definition bev_ssl_handshake (b : positive) : L () :=
  x <~ lget b ;;
  match b_ssl x with
  | None => lub
  | Some _ =>
      t <~ ltick ;;
      lupd b (set_wants (snd (o_handshake o t))) ;~
      match fst (o_handshake o t) with
      | HDone =>
          lupd b set_hs_done ;~
          now <~ mini_now_us ;;
          lupd b (λ x, set_last now (b_last_write x) x) ;~
          now <~ mini_now_us ;;
          lupd b (λ x, set_last (b_last_read x) now x) ;~
          bev_call_eventcb b BevConnected
      | HProgress =>
          if fst (snd (o_handshake o t)) || snd (snd (o_handshake o t)) then lret () else bev_call_eventcb b BevError
      | HFatal => bev_call_eventcb b BevError
      end
  end.

Definition bev_check_connect (b : positive) : L () :=
  lget b ;~
  t <~ ltick ;;
  now <~ mini_now_us ;;
  lupd b (λ x, set_connecting false (b_connect_start x) (set_last now now x)) ;~
  if o_so_error o t then bev_call_eventcb b BevError
  else
    lupd b (set_enabled true true) ;~
    x <~ lget b ;;
    match b_ssl x with
    | Some _ => now <~ mini_now_us ;; lupd b (set_hs_start now) ;~ bev_ssl_handshake b
    | None => bev_call_eventcb b BevConnected
    end.

(** At most [rounds] = 8 rounds, until the transport waits or is done;
    [bev->base] is read after the callback of the handshake. *)
Fixpoint bev_ssl_drive_handshake (rounds : nat) (b : positive) : L () :=
  match rounds with
  | O => lret ()
  | S rounds =>
      x <~ lget b ;;
      if negb (handshaking x) then lret ()
      else
        bev_ssl_handshake b ;~
        lget b ;~
        linked <~ bev_linked b ;;
        if negb linked then lret ()
        else
          y <~ lget b ;;
          if negb (handshaking y) then lret ()
          else if eqb (ssl_want_read y) (ssl_want_read x) && eqb (ssl_want_write y) (ssl_want_write x) then lret ()
          else bev_ssl_drive_handshake rounds b
  end.

Inductive read_end := ReadStop | ReadEvent (e : bev_event).

(** One call of [recv], or of the transport; [None]: interrupted. *)
Definition read_chunk (b : positive) : L (option (bytes + read_end)) :=
  x <~ lget b ;;
  t <~ ltick ;;
  match b_ssl x with
  | Some _ =>
      lupd b (set_wants (snd (o_ssl_read o t))) ;~
      lret (Some match fst (o_ssl_read o t) with
                 | TEof => inr (ReadEvent BevEof)
                 | TError => inr (ReadEvent BevError)
                 | TNone => inr ReadStop
                 | TData d => inl d
                 end)
  | None =>
      lret match o_recv o t with
           | REof => Some (inr (ReadEvent BevEof))
           | RError => Some (inr (ReadEvent BevError))
           | RAgain => Some (inr ReadStop)
           | RIntr => None
           | RData d => Some (inl d)
           end
  end.

(** [got] bytes so far. *)
Fixpoint recv_loop (fuel : nat) (b : positive) (got : Z) : L (Z * read_end) :=
  match fuel with
  | O => lub
  | S fuel =>
      r <~ read_chunk b ;;
      match r with
      | None => recv_loop fuel b got
      | Some (inr e) => lret (got, e)
      | Some (inl d) =>
          now <~ mini_now_us ;;
          lupd b (λ x, set_last now (b_last_write x) (set_input (b_input x ++ d) x)) ;~
          if MINI_RECV_MAX_PER_LOOP <=? got + zlen d then lret (got + zlen d, ReadStop)
          else recv_loop fuel b (got + zlen d)
      end
  end.

(** At least a byte per round. *)
Definition bev_read_input (b : positive) : L () :=
  r <~ recv_loop (S (Z.to_nat MINI_RECV_MAX_PER_LOOP)) b 0 ;;
  match snd r with
  | ReadEvent e => bev_call_eventcb b e
  | ReadStop =>
      x <~ lget b ;;
      if (0 <? fst r) && b_has_readcb x && b_rd x && (b_wm_low x <=? zlen (b_input x)) then run CRead b else lret ()
  end.

(** What the transport has decrypted already. *)
Definition bev_ssl_apply_backlog (b : positive) : L () :=
  x <~ lget b ;;
  match b_ssl x with
  | None => lub
  | Some _ => t <~ ltick ;; if o_ssl_pending o t <=? 0 then lret () else bev_read_input b
  end.

(** One call of [send], or of the transport: so many bytes are accepted, the
    loop stops, the call failed, or ([None]) it was interrupted. *)
Inductive send_end := Sent (n : Z) | SendStop | SendFailed.
Definition send_chunk (b : positive) : L (option send_end) :=
  x <~ lget b ;;
  t <~ ltick ;;
  match b_ssl x with
  | Some _ =>
      let '(ok, done, w) := o_ssl_write o t in
      lupd b (set_wants w) ;~
      (if 0 <? done then now <~ mini_now_us ;; lupd b (λ x, set_last (b_last_read x) now x) else lret ()) ;~
      lret (Some (if negb ok then (if fst w || snd w then SendStop else SendFailed)
                  else if done =? 0 then SendStop else Sent done))
  | None =>
      match o_send o t with
      | SSent n =>
          if 0 <? n then now <~ mini_now_us ;; lupd b (λ x, set_last (b_last_read x) now x) ;~ lret (Some (Sent n))
          else lret (Some SendStop)
      | SIntr => lret None
      | SAgain => lret (Some SendStop)
      | SError => lret (Some SendFailed)
      end
  end.

(** [true] when [send] failed. *)
Fixpoint send_loop (fuel : nat) (b : positive) : L bool :=
  match fuel with
  | O => lub
  | S fuel =>
      x <~ lget b ;;
      if zlen (b_output x) =? 0 then lret false
      else
        r <~ send_chunk b ;;
        match r with
        | None => send_loop fuel b
        | Some SendStop => lret false
        | Some SendFailed => lret true
        | Some (Sent n) => lupd b (λ x, set_output (zdrop n (b_output x)) x) ;~ send_loop fuel b
        end
  end.

Definition bev_flush_output (b : positive) : L () :=
  x <~ lget b ;;
  failed <~ send_loop (S (length (b_output x))) b ;;
  if (failed : bool) then bev_call_eventcb b BevError
  else
    x <~ lget b ;;
    if (zlen (b_output x) =? 0) && b_has_writecb x && b_wr x then run CWrite b else lret ().

(** [bev->base] is read again after the callback of a read timeout. *)
Definition bev_check_timeouts (b : positive) : L () :=
  now <~ mini_now_us ;;
  x <~ lget b ;;
  let rd := b_tv_read x in
  let wr := b_tv_write x in
  if b_connecting x then
    if (0 <? wr) && (wr <=? now - b_connect_start x) then
      lput b (set_connecting false (b_connect_start x) x) ;~ bev_call_eventcb b BevTimeoutWrite
    else lret ()
  else if handshaking x then
    if MINI_TLS_HANDSHAKE_TIMEOUT_S * 1000000 <=? now - default 0 (s_hs_start <$> b_ssl x) then bev_call_eventcb b BevTimeoutWrite
    else lret ()
  else
    linked <~ (if b_rd x && (0 <? rd) && (rd <=? now - b_last_read x) then
                 lput b (set_last now (b_last_write x) x) ;~
                 bev_call_eventcb b BevTimeoutRead ;~
                 lget b ;~ bev_linked b
               else lret true) ;;
    if negb linked then lret ()
    else
      x <~ lget b ;;
      if b_wr x && (0 <? wr) && (0 <? zlen (b_output x)) && (wr <=? now - b_last_write x) then
        lput b (set_last (b_last_read x) now x) ;~ bev_call_eventcb b BevTimeoutWrite
      else lret ().

(** The directions [select] waits for; [pending]: what the transport has
    decrypted already. *)
Definition wants (x : bev) (pending : Z) : bool * bool :=
  if b_fd x <? 0 then (false, false)
  else if b_connecting x then (false, true)
  else if handshaking x then
    (ssl_want_read x || negb (ssl_want_write x), ssl_want_write x || negb (ssl_want_read x))
  else
    (b_rd x || match b_ssl x with Some s => s_want_read s || (0 <? pending) | None => false end,
     b_wr x && ((0 <? zlen (b_output x)) || ssl_want_write x)).

(** The descriptors waited for, in the order of the list. *)
Fixpoint select_sets (bs : list positive) : L (list (Z * (bool * bool))) :=
  match bs with
  | [] => lret []
  | b :: bs =>
      x <~ lget b ;;
      t <~ ltick ;;
      r <~ select_sets bs ;;
      lret ((b_fd x, wants x (o_ssl_pending o t)) :: r)
  end.

(** [FD_ISSET] after [select]: waited for and ready. *)
Definition is_set (sets : list (Z * (bool * bool))) (ready : Z → bool * bool) (fd : Z) : bool * bool :=
  (existsb (λ s, (fst s =? fd) && fst (snd s)) sets && fst (ready fd),
   existsb (λ s, (fst s =? fd) && snd (snd s)) sets && snd (ready fd)).

(** What follows [b] in the list: its [next] pointer. *)
Fixpoint next_of (b : positive) (l : list positive) : option positive :=
  match l with
  | [] => None
  | x :: l => if bool_decide (x = b) then head l else next_of b l
  end.

(** A bufferevent whose transport is shaking hands. *)
Definition serve_handshake (b : positive) : L () :=
  bev_ssl_drive_handshake 8 b ;~
  linked <~ bev_linked b ;;
  if negb linked then lret ()
  else
    x <~ lget b ;;
    if handshaking x then bev_check_timeouts b
    else
      bev_flush_output b ;~
      linked <~ bev_linked b ;;
      if negb linked then lret ()
      else
        bev_ssl_apply_backlog b ;~
        linked <~ bev_linked b ;;
        if negb linked then lret () else bev_check_timeouts b.

(** One bufferevent. *)
Definition serve_bev (fds : Z → bool * bool) (b : positive) : L () :=
  x <~ lget b ;;
  if b_connecting x && snd (fds (b_fd x)) then bev_check_connect b
  else if negb (b_connecting x) && handshaking x then serve_handshake b
  else
    (if negb (b_connecting x) && fst (fds (b_fd x)) then bev_read_input b else lret ()) ;~
    linked <~ bev_linked b ;;
    if negb linked then lret ()
    else
      x <~ lget b ;;
      (if negb (b_connecting x) && snd (fds (b_fd x)) then bev_flush_output b else lret ()) ;~
      linked <~ bev_linked b ;;
      if negb linked then lret () else bev_check_timeouts b.

(** The loop over the list: [next] is read before the callbacks run, and read
    from even when they have freed it. *)
Fixpoint serve_bevs (fuel : nat) (fds : Z → bool * bool) (cur : option positive) : L () :=
  match cur, fuel with
  | None, _ => lret ()
  | Some _, O => lub
  | Some b, S fuel =>
      x <~ lget b ;;
      next <~ lgets (λ l, next_of b (l_bevs l)) ;;
      linked <~ bev_linked b ;;
      (if (b_fd x <? 0) || negb linked then lret () else serve_bev fds b) ;~
      serve_bevs fuel fds next
  end.

(** One pass; the result of [event_base_dispatch] when it returns.  The timers
    get one round per linked event, which is enough when no callback arms an
    event that is due at once. *)
Definition dispatch_pass : L (option Z) :=
  stop <~ lgets (λ l, l_break l || l_stop l) ;;
  if (stop : bool) then lret (Some 0)
  else
    now <~ mini_now_us ;;
    bs <~ lgets l_bevs ;;
    sets <~ select_sets bs ;;
    es <~ lgets l_events ;;
    expire <~ next_expire es (-1) ;;
    let have_fds := existsb (λ s, fst (snd s) || snd (snd s)) sets in
    if negb have_fds && (expire <? 0) then lret (Some 1)
    else
      let wait := wait_time now expire in
      t <~ ltick ;;
      now <~ mini_now_us ;;
      stop <~ lgets (λ l, l_break l || l_stop l) ;;
      if (stop : bool) then lret (Some 0)
      else
        es <~ lgets l_events ;;
        run_timers (S (length es)) now ;~
        stop <~ lgets (λ l, l_break l || l_stop l) ;;
        if (stop : bool) then lret (Some 0)
        else
          bs <~ lgets l_bevs ;;
          serve_bevs (length bs) (is_set sets (o_select o t wait)) (head bs) ;~
          lret None.

Fixpoint dispatch_passes (passes : nat) : L (option Z) :=
  match passes with
  | O => lret None
  | S passes =>
      r <~ dispatch_pass ;;
      match r with Some rc => lret (Some rc) | None => dispatch_passes passes end
  end.

(** [None]: still running after that many passes. *)
Definition event_base_dispatch (passes : nat) : L (option Z) :=
  lmodify (set_l_break false) ;~ dispatch_passes passes.

End Loop.
