(* ===== verification/EventThm.v ===== *)
(** * The event loop is safe and keeps its deadlines

    Given callbacks that respect the loop's contract, a pass uses no freed
    structure and ends; it never sleeps past a timer; and the ways in which a
    callback that frees a bufferevent breaks the loop. *)

From S2P Require Import Prelude EventLoop.
Open Scope loop_scope.

(** ** The invariant *)

Record loop_ok (l : base) : Prop := {
  lo_events : NoDup (l_events l);
  lo_event : ∀ e, e ∈ l_events l → is_Some (l_event l !! e);
  lo_bevs : NoDup (l_bevs l);
  lo_bev : ∀ b, b ∈ l_bevs l → is_Some (l_bev l !! b);
}.

(** [holds P m Q]: from a state in [P], [m] runs and ends in [Q]. *)
Definition holds {A} (P : base → Prop) (m : L A) (Q : A → base → Prop) : Prop :=
  ∀ l, P l → ∃ a l', m l = Some (a, l') ∧ Q a l'.

Lemma holds_bind {A B} P (m : L A) (f : A → L B) Q R :
  holds P m Q → (∀ a, holds (Q a) (f a) R) → holds P (lbind m f) R.
Proof.
  intros Hm Hf l Hl. destruct (Hm l Hl) as (a & l1 & E & H1). destruct (Hf a l1 H1) as (c & l2 & E2 & H2).
  exists c, l2. split; [|done]. unfold lbind. by rewrite E.
Qed.
Lemma holds_ret {A} P (a : A) Q : (∀ l, P l → Q a l) → holds P (lret a) Q.
Proof. intros HQ l Hl. exists a, l. split; [done|by apply HQ]. Qed.
Lemma holds_weaken {A} (P P' : base → Prop) (m : L A) (Q Q' : A → base → Prop) :
  holds P' m Q' → (∀ l, P l → P' l) → (∀ a l, Q' a l → Q a l) → holds P m Q.
Proof. intros Hm HP HQ l Hl. destruct (Hm l (HP l Hl)) as (a & l' & E & H'). exists a, l'. auto. Qed.
Lemma holds_pre {A} (P P' : base → Prop) (m : L A) Q : holds P' m Q → (∀ l, P l → P' l) → holds P m Q.
Proof. intros Hm HP. by eapply holds_weaken. Qed.
Lemma holds_gets {A} P (f : base → A) Q : (∀ l, P l → Q (f l) l) → holds P (lgets f) Q.
Proof. intros HQ l Hl. exists (f l), l. split; [done|by apply HQ]. Qed.

(** Goes past the first operation of a sequence. *)
Ltac hstep lem := eapply holds_bind; [eapply lem|intros ?; cbn beta].

(** ** Bufferevents *)

Definition is_tls (x : bev) : bool := if b_ssl x then true else false.
Definition of_kind (t : bool) (x : bev) : Prop := is_tls x = t.

(** [b] is linked, its structure satisfies [P], and [post] is a tail of what
    follows it. *)
Definition at_bev (P : bev → Prop) (b : positive) (post : list positive) (l : base) : Prop :=
  loop_ok l ∧ (∃ pre mid, l_bevs l = pre ++ b :: mid ++ post) ∧ ∃ x, l_bev l !! b = Some x ∧ P x.
(** [post] is still the end of the list; [b] may be gone. *)
Definition after (P : bev → Prop) (b : positive) (post : list positive) (l : base) : Prop :=
  loop_ok l ∧ (∃ pre, l_bevs l = pre ++ post) ∧ (b ∈ l_bevs l → ∃ x, l_bev l !! b = Some x ∧ P x).

Lemma at_after P b post l : at_bev P b post l → after P b post l.
Proof. intros (Ok & (pre & mid & E) & Hx). split_and!; [done| |done]. exists (pre ++ b :: mid). by rewrite E, <- app_assoc. Qed.
Lemma at_mono (P P' : bev → Prop) b post l : (∀ x, P x → P' x) → at_bev P b post l → at_bev P' b post l.
Proof. intros HP (Ok & Hl & x & Hx & H'). split_and!; eauto. Qed.

(** A write to the structure of [b]. *)
Lemma at_put P b post l x : at_bev P b post l → at_bev (eq x) b post (set_l_bev (<[b := x]> (l_bev l)) l).
Proof.
  intros ([H1 H2 H3 H4] & Hl & Hx). split_and!; [|done|exists x; cbn; by rewrite lookup_insert_eq].
  constructor; cbn; try done. intros d Hd.
  destruct (decide (d = b)) as [->|Hn]; [rewrite lookup_insert_eq; eauto|]. rewrite lookup_insert_ne by done. by apply H4.
Qed.
Lemma at_tick P b post l n : at_bev P b post l → at_bev P b post (set_l_tick n l).
Proof. intros ([] & Hl). by split. Qed.

Section Triples.
Context (o : outside) (b : positive) (post : list positive).
Notation at_ P := (at_bev P b post).

(** What is known of the structure is known of what is read. *)
Lemma holds_get {A} (P : bev → Prop) (k : bev → L A) Q :
  (∀ x, P x → holds (at_ (eq x)) (k x) Q) → holds (at_ P) (lbind (lget b) k) Q.
Proof.
  intros Hk l Hl. pose proof Hl as (Ok & Hs & x & Hx & HP). destruct (Hk x HP l) as (a & l' & E & H'); [split_and!; eauto|].
  exists a, l'. split; [|done]. unfold lbind, lget. by rewrite Hx.
Qed.
Lemma holds_get_keep P : holds (at_ P) (lget b) (λ _, at_ P).
Proof. intros l Hl. pose proof Hl as (_ & _ & x & Hx & _). exists x, l. split; [|done]. unfold lget. by rewrite Hx. Qed.
Lemma holds_put P x : holds (at_ P) (lput b x) (λ _, at_ (eq x)).
Proof. intros l Hl. eexists _, _. split; [done|]. by eapply at_put. Qed.
Lemma holds_upd (P P' : bev → Prop) f : (∀ x, P x → P' (f x)) → holds (at_ P) (lupd b f) (λ _, at_ P').
Proof.
  intros HP. apply holds_get. intros x Hx. eapply holds_weaken; [apply holds_put|intros ? H; exact H|]. intros ? l. apply at_mono. intros ? <-. by apply HP.
Qed.
Lemma holds_tick P : holds (at_ P) ltick (λ _, at_ P).
Proof. intros l Hl. eexists _, _. split; [done|]. by apply at_tick. Qed.
Lemma holds_now P : holds (at_ P) (mini_now_us o) (λ _, at_ P).
Proof. eapply holds_bind; [apply holds_tick|]. intros t. by apply holds_ret. Qed.
Lemma holds_stay P : holds (at_ P) (lret ()) (λ _, after P b post).
Proof. apply holds_ret. intros l. apply at_after. Qed.

(** Whether [b] is still there. *)
Lemma holds_linked {A} P (m1 m2 : L A) Q :
  b ∉ post → holds (after P b post) m1 Q → holds (at_ P) m2 Q →
  holds (after P b post) (linked <~ bev_linked b ;; if negb linked then m1 else m2) Q.
Proof.
  intros Hb H1 H2 l Hl. pose proof Hl as (Ok & (pre & E) & Hx). unfold lbind, bev_linked, lgets.
  case_bool_decide as Hin; cbn [negb]; [|by apply H1]. apply H2. split_and!; [done| |by apply Hx].
  rewrite E in Hin. apply elem_of_app in Hin as [Hin|Hin]; [|done].
  apply list_elem_of_split in Hin as (p1 & p2 & ->). exists p1, p2. by rewrite E, <- app_assoc.
Qed.
Lemma holds_linked_as P :
  b ∉ post → holds (after P b post) (bev_linked b) (λ r l, if (r : bool) then at_ P l else after P b post l).
Proof.
  intros Hb l Hl. destruct (holds_linked P (lret false) (lret true) (λ r l, if (r : bool) then at_ P l else after P b post l) Hb
    ltac:(by apply holds_ret) ltac:(by apply holds_ret) l Hl) as (a & l' & E & H').
  exists a, l'. split; [|done]. revert E. unfold lbind, bev_linked, lgets. by case_bool_decide.
Qed.
End Triples.

(** The updates that keep the transport. *)
Lemma kind_wants t w x : of_kind t x → of_kind t (set_wants w x).
Proof. unfold of_kind, is_tls, set_wants. by destruct x as [? ? ? ? ? ? ? ? ? ? ? ? ? ? ? []]. Qed.
Lemma kind_hs_start t n x : of_kind t x → of_kind t (set_hs_start n x).
Proof. unfold of_kind, is_tls, set_hs_start. by destruct x as [? ? ? ? ? ? ? ? ? ? ? ? ? ? ? []]. Qed.
Lemma kind_hs_done t x : of_kind t x → of_kind t (set_hs_done x).
Proof. unfold of_kind, is_tls, set_hs_done. by destruct x as [? ? ? ? ? ? ? ? ? ? ? ? ? ? ? []]. Qed.
Lemma handshaking_tls x : handshaking x = true → of_kind true x.
Proof. unfold handshaking, of_kind, is_tls. by destruct (b_ssl x). Qed.
Lemma handshaking_wants w x : handshaking x = true → handshaking (set_wants w x) = true.
Proof. unfold handshaking, set_wants. by destruct x as [? ? ? ? ? ? ? ? ? ? ? ? ? ? ? []]. Qed.
Create HintDb kind discriminated.
#[export] Hint Resolve kind_wants kind_hs_start kind_hs_done handshaking_tls handshaking_wants : kind.

Section Safe.
Context (o : outside) (run : callback → positive → L ()).

(** What the loop asks of the callbacks of a bufferevent: they leave the
    structures well-formed, free nothing further down the list and change no
    transport; the callback of a read timeout, and those of a handshake, keep
    the bufferevent itself. *)
Record bev_contract : Prop := {
  bc_any : ∀ k b post t, k ≠ CTimer → holds (at_bev (of_kind t) b post) (run k b) (λ _, after (of_kind t) b post);
  bc_timeout : ∀ b post t, holds (at_bev (of_kind t) b post) (run (CEvent BevTimeoutRead) b) (λ _, at_bev (of_kind t) b post);
  bc_secured : ∀ b post, holds (at_bev (of_kind true) b post) (run (CEvent BevConnected) b) (λ _, at_bev (of_kind true) b post);
  bc_refused : ∀ b post, holds (at_bev (λ x, handshaking x = true) b post) (run (CEvent BevError) b) (λ _, at_bev (of_kind true) b post);
}.

(** What the sockets and the transport promise: a successful read brings data,
    no call is interrupted, and no more is taken than is offered. *)
Record sockets_ok : Prop := {
  so_recv : ∀ t, o_recv o t ≠ RIntr ∧ o_recv o t ≠ RData [];
  so_read : ∀ t, ssl_read_ok (o_ssl_read o t);
  so_send : ∀ t, o_send o t ≠ SIntr;
  so_write : ∀ t, ssl_write_ok (o_ssl_write o t);
}.

Hypothesis Hcb : bev_contract.
Hypothesis Hsock : sockets_ok.
Context (b : positive) (post : list positive).
Notation at_ P := (at_bev P b post).
Notation after_ P := (after P b post).

Lemma holds_event t what : holds (at_ (of_kind t)) (bev_call_eventcb run b what) (λ _, after_ (of_kind t)).
Proof.
  apply holds_get. intros x Hx. eapply holds_pre; [|intros l; apply (at_mono _ (of_kind t)); by intros ? <-].
  destruct (b_has_eventcb x); [by apply (bc_any Hcb)|apply holds_stay].
Qed.
Lemma holds_keep_event (P P' : bev → Prop) what :
  (∀ x, P x → P' x) → holds (at_ P) (run (CEvent what) b) (λ _, at_ P') → holds (at_ P) (bev_call_eventcb run b what) (λ _, at_ P').
Proof.
  intros HP Hrun. apply holds_get. intros x Hx. destruct (b_has_eventcb x).
  - eapply holds_pre; [exact Hrun|]. intros l. apply at_mono. by intros ? <-.
  - apply holds_ret. intros l. apply at_mono. intros ? <-. by apply HP.
Qed.

(** ** The handshake *)

(** The part both callers share: [C] and [E] are what the two callbacks
    establish. *)
Lemma holds_handshake (P : bev → Prop) (Q : () → base → Prop) :
  (∀ x, P x → of_kind true x) → (∀ w x, P x → P (set_wants w x)) →
  (∀ l, at_ P l → Q () l) →
  holds (at_ (of_kind true)) (bev_call_eventcb run b BevConnected) Q →
  holds (at_ P) (bev_call_eventcb run b BevError) Q →
  holds (at_ P) (bev_ssl_handshake o run b) Q.
Proof.
  intros Htls Hw Hq Hc He. apply holds_get. intros x Hx. specialize (Htls x Hx) as Ht. unfold of_kind, is_tls in Ht. destruct (b_ssl x); [|done].
  hstep holds_tick. eapply holds_bind; [apply (holds_upd _ _ (eq x) P); intros ? <-; by apply Hw|]. intros ?. cbn beta.
  destruct (fst (o_handshake o a)); [|case_if; [by apply holds_ret|done]|done].
  eapply holds_bind; [apply (holds_upd _ _ P (of_kind true)); eauto with kind|]. intros ?. cbn beta.
  hstep holds_now. eapply holds_bind; [by apply (holds_upd _ _ _ (of_kind true))|]. intros ?. cbn beta.
  hstep holds_now. eapply holds_bind; [by apply (holds_upd _ _ _ (of_kind true))|]. intros ?. exact Hc.
Qed.

Lemma holds_check_connect t : holds (at_ (of_kind t)) (bev_check_connect o run b) (λ _, after_ (of_kind t)).
Proof.
  hstep holds_get_keep. hstep holds_tick. hstep holds_now.
  eapply holds_bind; [by apply (holds_upd _ _ _ (of_kind t))|]. intros ?. cbn beta.
  destruct (o_so_error o _); [apply holds_event|].
  eapply holds_bind; [by apply (holds_upd _ _ _ (of_kind t))|]. intros ?. cbn beta. apply holds_get. intros x Hx.
  eapply holds_pre; [|intros l; apply (at_mono _ (of_kind t)); by intros ? <-].
  pose proof Hx as Ht. unfold of_kind, is_tls in Ht. destruct (b_ssl x); [subst t|apply holds_event].
  hstep holds_now. eapply holds_bind; [by apply (holds_upd _ _ _ (of_kind true)); eauto with kind|]. intros ?. cbn beta.
  apply (holds_handshake (of_kind true)); eauto using holds_event, at_after with kind.
Qed.

Lemma holds_drive rounds : b ∉ post → holds (at_ (of_kind true)) (bev_ssl_drive_handshake o run rounds b) (λ _, after_ (of_kind true)).
Proof.
  intros Hb. induction rounds as [|n IH]; cbn [bev_ssl_drive_handshake]; [apply holds_stay|]. apply holds_get. intros x Hx.
  assert (∀ l, at_ (eq x) l → at_ (of_kind true) l) as Hof by (intros l; apply at_mono; by intros ? <-).
  destruct (handshaking x) eqn:Eh; cbn [negb]; [|apply holds_ret; intros l Hl; apply at_after; by apply Hof].
  eapply holds_bind with (Q := λ _, at_ (of_kind true)).
  { eapply holds_pre; [|intros l; apply (at_mono _ (λ y, handshaking y = true)); by intros ? <-].
    apply (holds_handshake (λ y, handshaking y = true)); eauto with kind.
    - intros l. apply at_mono. eauto with kind.
    - apply holds_keep_event; [done|apply (bc_secured Hcb)].
    - apply holds_keep_event; [eauto with kind|apply (bc_refused Hcb)]. }
  intros ?. cbn beta. hstep holds_get_keep. eapply holds_pre; [|intros l; apply at_after].
  apply holds_linked; [done|by apply holds_ret|]. apply holds_get. intros y Hy.
  eapply holds_pre; [|intros l; apply (at_mono _ (of_kind true)); by intros ? <-].
  case_if; [apply holds_stay|]. case_if; [apply holds_stay|done].
Qed.

(** ** Reading and writing *)

Lemma holds_read_chunk t :
  holds (at_ (of_kind t)) (read_chunk o b)
    (λ r l, at_ (of_kind t) l ∧ r ≠ None ∧ r ≠ Some (inl [])).
Proof.
  apply holds_get. intros x Hx. eapply holds_pre; [|intros l; apply (at_mono _ (of_kind t)); by intros ? <-].
  hstep holds_tick. destruct (so_recv Hsock a) as [Hr1 Hr2]. pose proof (so_read Hsock a) as Hr3. unfold ssl_read_ok in Hr3. destruct (b_ssl x).
  - eapply holds_bind; [apply (holds_upd _ _ (of_kind t) (of_kind t)); eauto with kind|]. intros ?. cbn beta. apply holds_ret. intros l Hl.
    split_and!; [done|done|]. destruct (fst (o_ssl_read o a)); congruence.
  - apply holds_ret. intros l Hl. destruct (o_recv o a); split_and!; congruence.
Qed.

Lemma holds_recv_loop t fuel got :
  0 ≤ got < MINI_RECV_MAX_PER_LOOP → (Z.to_nat (MINI_RECV_MAX_PER_LOOP - got) < fuel)%nat →
  holds (at_ (of_kind t)) (recv_loop o fuel b got) (λ _, at_ (of_kind t)).
Proof.
  revert got. induction fuel as [|fuel IH]; intros got Hg Hf; [lia|]. cbn [recv_loop]. hstep holds_read_chunk.
  intros l (Hl & Hn & Hd). revert l Hl. change (holds (at_ (of_kind t)) (match a with None => recv_loop o fuel b got | Some (inr e) => lret (got, e) | Some (inl d) => now <~ mini_now_us o ;; lupd b (λ x, set_last now (b_last_write x) (set_input (b_input x ++ d) x)) ;~ if MINI_RECV_MAX_PER_LOOP <=? got + zlen d then lret (got + zlen d, ReadStop) else recv_loop o fuel b (got + zlen d) end) (λ _, at_ (of_kind t))).
  destruct a as [[d|e]|]; [|by apply holds_ret|done].
  hstep holds_now. eapply holds_bind; [by apply (holds_upd _ _ _ (of_kind t))|]. intros ?. cbn beta. case_if; [by apply holds_ret|].
  assert (0 < zlen d) by (destruct d; [done|rewrite zlen_cons; pose proof (zlen_nonneg d); lia]). apply IH; lia.
Qed.

Lemma holds_read_input t : holds (at_ (of_kind t)) (bev_read_input o run b) (λ _, after_ (of_kind t)).
Proof.
  eapply holds_bind; [apply holds_recv_loop; unfold MINI_RECV_MAX_PER_LOOP; lia|]. intros [got e]. cbn beta. cbn [fst snd].
  destruct e; [|apply holds_event]. apply holds_get. intros x Hx. eapply holds_pre; [|intros l; apply (at_mono _ (of_kind t)); by intros ? <-].
  case_match; [by apply (bc_any Hcb)|apply holds_stay].
Qed.

Lemma holds_backlog : holds (at_ (of_kind true)) (bev_ssl_apply_backlog o run b) (λ _, after_ (of_kind true)).
Proof.
  apply holds_get. intros x Hx. eapply holds_pre; [|intros l; apply (at_mono _ (of_kind true)); by intros ? <-].
  unfold of_kind, is_tls in Hx. destruct (b_ssl x); [|done]. hstep holds_tick. case_if; [apply holds_stay|apply holds_read_input].
Qed.

(** A socket that takes nothing, or an interrupted call, does not count as
    progress. *)
Definition queued (t : bool) (out : bytes) (x : bev) : Prop := of_kind t x ∧ b_output x = out.
Lemma holds_send_chunk t out :
  holds (at_ (queued t out)) (send_chunk o b)
    (λ r l, at_ (queued t out) l ∧ r ≠ None ∧ ∀ n, r = Some (Sent n) → 0 < n).
Proof.
  apply holds_get. intros x Hx. eapply holds_pre; [|intros l; apply (at_mono _ (queued t out)); by intros ? <-].
  hstep holds_tick. destruct (b_ssl x).
  - pose proof (so_write Hsock a) as Hd. destruct (o_ssl_write o a) as [[ok done'] w]. unfold ssl_write_ok in Hd. cbn [fst snd] in Hd.
    eapply holds_bind; [apply (holds_upd _ _ (queued t out) (queued t out)); intros ? []; split; auto with kind|]. intros ?. cbn beta.
    eapply holds_bind with (Q := λ _, at_ (queued t out)).
    { case_if; [|by apply holds_ret]. hstep holds_now. by apply holds_upd. }
    intros ?. cbn beta. apply holds_ret. intros l Hl. split_and!; [done|done|]. intros n. repeat case_if; intros [= <-]. b2p. lia.
  - pose proof (so_send Hsock a) as Hs. destruct (o_send o a) as [n| | |]; [|by apply holds_ret|done|by apply holds_ret].
    destruct (0 <? n) eqn:E; [|by apply holds_ret]. hstep holds_now. eapply holds_bind; [by apply (holds_upd _ _ _ (queued t out))|].
    intros ?. cbn beta. apply holds_ret. intros l Hl. split_and!; [done|done|]. intros ? [= <-]. b2p. lia.
Qed.

(** At least a byte per round leaves the queue. *)
Lemma holds_send_loop t fuel out :
  (length out < fuel)%nat → holds (at_ (queued t out)) (send_loop o fuel b) (λ _, at_ (of_kind t)).
Proof.
  revert out. induction fuel as [|fuel IH]; intros out Hf; [lia|]. cbn [send_loop]. apply holds_get. intros x Hx.
  eapply holds_pre; [|intros l; apply (at_mono _ (queued t out)); by intros ? <-]. destruct Hx as [_ Ho]. rewrite Ho.
  destruct (zlen out =? 0) eqn:Ez; [apply holds_ret; intros l; apply at_mono; by intros ? []|]. eapply holds_bind; [apply holds_send_chunk|]. intros r l (Hl & Hn & Hp).
  assert (∀ l', at_ (queued t out) l' → at_ (of_kind t) l') as Hof by (intros l'; apply at_mono; by intros ? []).
  destruct r as [[n| |]|]; [|by eexists _, _; split; [|apply Hof]|by eexists _, _; split; [|apply Hof]|done].
  eapply (holds_bind (at_ (queued t out)) _ _ (λ _, at_ (queued t (zdrop n out)))); [|intros ?; cbn beta; apply IH|exact Hl].
  - apply holds_upd. intros y [Hk <-]. by split.
  - specialize (Hp n eq_refl). unfold zdrop. rewrite length_drop. b2p. unfold zlen in Ez. lia.
Qed.

Lemma holds_flush_output t : holds (at_ (of_kind t)) (bev_flush_output o run b) (λ _, after_ (of_kind t)).
Proof.
  apply holds_get. intros x Hx. eapply holds_bind.
  - eapply holds_pre; [apply (holds_send_loop t _ (b_output x)); lia|]. intros l. apply at_mono. by intros ? <-.
  - intros failed. cbn beta. destruct failed; [apply holds_event|]. apply holds_get. intros y Hy.
    eapply holds_pre; [|intros l; apply (at_mono _ (of_kind t)); by intros ? <-]. case_match; [by apply (bc_any Hcb)|apply holds_stay].
Qed.

Lemma holds_check_timeouts t : b ∉ post → holds (at_ (of_kind t)) (bev_check_timeouts o run b) (λ _, after_ (of_kind t)).
Proof.
  intros Hb. hstep holds_now. apply holds_get. intros x Hx. eapply holds_pre; [|intros l; apply (at_mono _ (of_kind t)); by intros ? <-].
  cbv zeta. assert (∀ y, b_ssl y = b_ssl x → of_kind t y) as Hs by (intros y Hy; unfold of_kind, is_tls; by rewrite Hy).
  assert (∀ P y w, b_ssl y = b_ssl x → holds (at_ P) (lput b y ;~ bev_call_eventcb run b w) (λ _, after_ (of_kind t))) as Hfire.
  { intros P y w Hy. hstep holds_put. eapply holds_pre; [apply holds_event|]. intros l. apply at_mono. intros ? <-. by apply Hs. }
  destruct (b_connecting x); [case_if; [by apply Hfire|apply holds_stay]|].
  destruct (handshaking x); [case_if; [apply holds_event|apply holds_stay]|].
  eapply holds_bind with (Q := λ r l, if (r : bool) then at_ (of_kind t) l else after_ (of_kind t) l).
  - case_if; [|by apply holds_ret]. hstep holds_put.
    eapply holds_bind; [apply (holds_keep_event _ (of_kind t)); [intros ? <-; by apply Hs|]|intros ?; cbn beta].
    { eapply holds_pre; [apply (bc_timeout Hcb)|]. intros l. apply at_mono. intros ? <-. by apply Hs. }
    hstep holds_get_keep. eapply holds_pre; [by apply holds_linked_as|apply at_after].
  - intros r. cbn beta. destruct r; cbn [negb]; [|by apply holds_ret]. apply holds_get. intros y Hy.
    eapply holds_pre; [|intros l; apply (at_mono _ (of_kind t)); by intros ? <-]. case_if; [|apply holds_stay].
    hstep holds_put. eapply holds_pre; [apply holds_event|]. intros l. apply at_mono. by intros ? <-.
Qed.

(** ** One bufferevent *)

Lemma holds_serve_handshake : b ∉ post → holds (at_ (of_kind true)) (serve_handshake o run b) (λ _, after_ (of_kind true)).
Proof.
  intros Hb. eapply holds_bind; [by apply holds_drive|]. intros ?. cbn beta. apply holds_linked; [done|by apply holds_ret|].
  apply holds_get. intros x Hx. eapply holds_pre; [|intros l; apply (at_mono _ (of_kind true)); by intros ? <-].
  case_if; [by apply holds_check_timeouts|]. hstep holds_flush_output. apply holds_linked; [done|by apply holds_ret|].
  hstep holds_backlog. apply holds_linked; [done|by apply holds_ret|by apply holds_check_timeouts].
Qed.

Lemma holds_serve t fds : b ∉ post → holds (at_ (of_kind t)) (serve_bev o run fds b) (λ _, after_ (of_kind t)).
Proof.
  intros Hb. apply holds_get. intros x Hx. eapply holds_pre; [|intros l; apply (at_mono _ (of_kind t)); by intros ? <-].
  case_if; [apply holds_check_connect|].
  destruct (negb (b_connecting x) && handshaking x) eqn:Eh.
  { apply andb_prop in Eh as [_ Eh]. apply handshaking_tls in Eh. assert (t = true) as -> by (unfold of_kind in *; congruence). by apply holds_serve_handshake. }
  eapply holds_bind with (Q := λ _, after_ (of_kind t)); [case_if; [apply holds_read_input|apply holds_stay]|].
  intros ?. cbn beta. apply holds_linked; [done|by apply holds_ret|]. apply holds_get. intros y Hy.
  eapply holds_pre; [|intros l; apply (at_mono _ (of_kind t)); by intros ? <-].
  eapply holds_bind with (Q := λ _, after_ (of_kind t)); [case_if; [apply holds_flush_output|apply holds_stay]|].
  intros ?. cbn beta. apply holds_linked; [done|by apply holds_ret|by apply holds_check_timeouts].
Qed.
End Safe.

(** ** The list *)

Lemma next_of_app b pre post : b ∉ pre → next_of b (pre ++ b :: post) = head post.
Proof.
  intros Hb. induction pre as [|x pre IH]; cbn [app next_of]; [by rewrite bool_decide_true|].
  apply not_elem_of_cons in Hb as [Hn Hb]. rewrite bool_decide_false by congruence. by apply IH.
Qed.

Definition ends_with (post : list positive) (l : base) : Prop := loop_ok l ∧ ∃ pre, l_bevs l = pre ++ post.

Lemma holds_serve_all o run fds post fuel :
  bev_contract run → sockets_ok o → (length post ≤ fuel)%nat →
  holds (ends_with post) (serve_bevs o run fuel fds (head post)) (λ _, loop_ok).
Proof.
  intros Hcb Hsock. revert fuel. induction post as [|b post IH]; intros fuel Hf l [Ok (pre & E)].
  { eexists _, l. split; [by destruct fuel|done]. }
  destruct fuel as [|fuel]; [simpl in Hf; lia|]. cbn [head serve_bevs].
  pose proof (lo_bevs _ Ok) as Hnd. rewrite E in Hnd. apply NoDup_app in Hnd as (_ & Hpre & Hnd). apply NoDup_cons in Hnd as [Hb _].
  assert (b ∈ l_bevs l) as Hin by (rewrite E; apply elem_of_app; right; by left).
  destruct (lo_bev _ Ok b Hin) as [x Hx]. unfold lbind at 1, lget at 1. rewrite Hx. cbn [mbind option_bind].
  unfold lbind at 1, lgets at 1. rewrite E, next_of_app by (intros H; by apply (Hpre b H); left).
  unfold lbind at 1, bev_linked, lgets. rewrite bool_decide_true by done. cbn [negb]. rewrite orb_false_r.
  eapply (holds_bind (at_bev (of_kind (is_tls x)) b post) _ _ (λ _, ends_with post)).
  - case_if.
    + apply holds_ret. intros l' Hl'. apply at_after in Hl' as (? & ? & _). by split.
    + eapply holds_weaken; [by apply (holds_serve _ _ Hcb Hsock b post (is_tls x))|done|]. intros ? l' (? & ? & _). by split.
  - intros ?. cbn beta. apply IH. simpl in Hf. lia.
  - split_and!; [done|by exists pre, []|by exists x].
Qed.

(** ** Timers *)

(** [e] is armed, in the state [l]. *)
Definition armed (l : base) (e : positive) (x : event) : Prop :=
  e ∈ l_events l ∧ l_event l !! e = Some x ∧ ev_pending x = true.
Definition due (now : Z) (l : base) (e : positive) : Prop := ∃ x, armed l e x ∧ ev_expire x ≤ now.

Lemma run_first_due now l es :
  (∀ e, e ∈ es → is_Some (l_event l !! e)) →
  first_due now es l = Some (None, l) ∧ (∀ e, e ∈ es → ∃ x, l_event l !! e = Some x ∧ (ev_pending x = true → now < ev_expire x)) ∨
  ∃ e x, first_due now es l = Some (Some e, l) ∧ e ∈ es ∧ l_event l !! e = Some x ∧ ev_pending x = true ∧ ev_expire x ≤ now.
Proof.
  induction es as [|e es IH]; intros Hl; [left; split; [done|]; by intros e ?%elem_of_nil|].
  destruct (Hl e) as [x Hx]; [by left|]. cbn [first_due]. unfold lbind, lget_ev. rewrite Hx. cbn [mbind option_bind].
  destruct (ev_pending x && (ev_expire x <=? now)) eqn:E.
  - right. apply andb_prop in E as [Hp He]. exists e, x. split_and!; try done; [by left|lia].
  - destruct IH as [[-> Hall]|(e' & y & -> & Hin & Hy)]; [intros e' ?; apply Hl; by right| |].
    + left. split; [done|]. intros e' [->|Hin]%elem_of_cons; [|by apply Hall]. exists x. split; [done|]. intros Hp. rewrite Hp in E. b2p. lia.
    + right. exists e', y. split; [done|]. split; [by right|done].
Qed.

(** The number of rounds the timers still need. *)
Definition is_due (now : Z) (l : base) (e : positive) : bool :=
  match l_event l !! e with Some x => ev_pending x && (ev_expire x <=? now) | None => false end.
Definition n_due (now : Z) (l : base) : nat := length (base.filter (λ e, is_due now l e = true) (l_events l)).

Lemma is_due_spec now l e : e ∈ l_events l → is_due now l e = true ↔ due now l e.
Proof.
  intros Hin. unfold is_due, due, armed. split.
  - destruct (l_event l !! e) as [x|] eqn:E; [|done]. intros [Hp He]%andb_prop. exists x. split_and!; try done. lia.
  - intros (x & (_ & -> & ->) & He). cbn. lia.
Qed.

Lemma n_due_shrinks now l l' e :
  loop_ok l → loop_ok l' → e ∈ l_events l → is_due now l e = true → ¬ due now l' e →
  (∀ e', due now l' e' → due now l e') → (n_due now l' < n_due now l)%nat.
Proof.
  intros Ok Ok' Hin Hd Hn Hsub. unfold n_due.
  assert (e ∉ base.filter (λ y, is_due now l' y = true) (l_events l')) as Hne by (intros [? ?]%list_elem_of_filter; by apply Hn, is_due_spec).
  enough (length (e :: base.filter (λ y, is_due now l' y = true) (l_events l')) ≤ length (base.filter (λ y, is_due now l y = true) (l_events l)))%nat by (cbn [length] in *; lia).
  apply submseteq_length, NoDup_submseteq; [constructor; [done|apply NoDup_filter, Ok']|].
  intros y [->|[Hy Hin']%list_elem_of_filter]%elem_of_cons; apply list_elem_of_filter; [done|].
  apply is_due_spec, Hsub in Hy as Hy'; [|done]. destruct Hy' as (x & Hx & ?). pose proof Hx as (Hiny & _). split; [|done].
  apply is_due_spec; [done|]. by exists x.
Qed.

(** What the loop asks of the callbacks of timers: they leave the structures
    well-formed and arm nothing that was already due at the time [o_clock o t]
    read before they run. *)
Definition timer_contract (o : outside) (run : callback → positive → L ()) : Prop :=
  ∀ e l t, loop_ok l → e ∈ l_events l → (t < l_tick l)%nat →
  ∃ l', run CTimer e l = Some ((), l') ∧ loop_ok l' ∧ (l_tick l ≤ l_tick l')%nat ∧
        ∀ e', due (o_clock o t) l' e' → due (o_clock o t) l e'.

(** The event that fires is disarmed first. *)
Lemma disarm_ok l e x :
  loop_ok l → l_event l !! e = Some x → loop_ok (set_l_event (<[e := mkEvent (ev_expire x) false]> (l_event l)) l).
Proof.
  intros [H1 H2 H3 H4] Hx. constructor; cbn; try done. intros y Hy.
  destruct (decide (y = e)) as [->|Hn]; [rewrite lookup_insert_eq; eauto|]. rewrite lookup_insert_ne by done. by apply H2.
Qed.
Lemma disarm_due now l e x y :
  due now (set_l_event (<[e := mkEvent x false]> (l_event l)) l) y → y ≠ e ∧ due now l y.
Proof.
  intros (z & (Hin & Hz & Hp) & He). cbn in Hz. destruct (decide (y = e)) as [->|Hn].
  - rewrite lookup_insert_eq in Hz. injection Hz as <-. done.
  - rewrite lookup_insert_ne in Hz by done. split; [done|]. by exists z.
Qed.

Lemma timers_end o run fuel t l :
  timer_contract o run → loop_ok l → (t < l_tick l)%nat → (n_due (o_clock o t) l < fuel)%nat →
  ∃ l', run_timers run fuel (o_clock o t) l = Some ((), l') ∧ loop_ok l' ∧ ∀ e, ~ due (o_clock o t) l' e.
Proof.
  intros Hrun. revert l. induction fuel as [|fuel IH]; intros l Ok Ht Hf; [lia|]. cbn [run_timers]. unfold lbind at 1, lgets at 1.
  destruct (run_first_due (o_clock o t) l (l_events l) (lo_event _ Ok)) as [[E Hall]|(e & x & E & Hin & Hx & Hp & He)]; unfold lbind at 1; rewrite E.
  - exists l. split_and!; [done|done|]. intros e (x & (Hin & Hx & Hp) & He). destruct (Hall e Hin) as (y & Hy & Hlt).
    assert (y = x) as -> by congruence. specialize (Hlt Hp). lia.
  - unfold lbind at 1, lget_ev at 1. rewrite Hx. cbn [mbind option_bind]. unfold lbind at 1, lput_ev at 1, lmodify at 1.
    pose proof (disarm_ok _ _ _ Ok Hx) as Ok1. set (l1 := set_l_event _ l) in *.
    destruct (Hrun e l1 t Ok1 Hin Ht) as (l2 & E2 & Ok2 & Htick & Hsub). unfold lbind at 1. rewrite E2. apply IH; [done|cbn in Htick; lia|].
    assert (∀ y, due (o_clock o t) l2 y → y ≠ e ∧ due (o_clock o t) l y) as Hd by (intros y Hy; by eapply disarm_due, Hsub).
    enough (n_due (o_clock o t) l2 < n_due (o_clock o t) l)%nat by lia.
    apply (n_due_shrinks _ _ _ e); [done|done|done| | |intros y Hy; by apply Hd].
    + apply is_due_spec; [done|]. by exists x.
    + by intros [? _]%Hd.
Qed.

Lemma n_due_le now l : (n_due now l ≤ length (l_events l))%nat.
Proof. apply length_filter. Qed.

(** C20: The timers phase of a pass ends and leaves no timer due: with one
    round per armed event, and callbacks that arm nothing that is already due,
    every due callback has run when the phase ends. *)
Theorem timers_phase_ends o run t l :
  timer_contract o run → loop_ok l → (t < l_tick l)%nat →
  ∃ l', run_timers run (S (length (l_events l))) (o_clock o t) l = Some ((), l') ∧ loop_ok l' ∧
        ∀ e, ~ due (o_clock o t) l' e.
Proof. intros Hrun Ok Ht. apply timers_end; [done|done|done|]. pose proof (n_due_le (o_clock o t) l). lia. Qed.

(** ** Deadlines *)

Lemma run_next_expire l es acc :
  (∀ e, e ∈ es → is_Some (l_event l !! e)) →
  (∀ e x, e ∈ es → l_event l !! e = Some x → ev_pending x = true → 0 ≤ ev_expire x) → -1 ≤ acc →
  ∃ r, next_expire es acc l = Some (r, l) ∧ -1 ≤ r ∧ (0 ≤ acc → 0 ≤ r ≤ acc) ∧
       (∀ e x, e ∈ es → l_event l !! e = Some x → ev_pending x = true → 0 ≤ r ≤ ev_expire x) ∧
       (r = acc ∨ ∃ e x, e ∈ es ∧ l_event l !! e = Some x ∧ ev_pending x = true ∧ r = ev_expire x).
Proof.
  revert acc. induction es as [|e es IH]; intros acc Hl Hp Ha.
  { exists acc. split_and!; [done|done|lia|by intros ? ? ?%elem_of_nil|by left]. }
  destruct (Hl e) as [x Hx]; [by left|]. cbn [next_expire]. unfold lbind, lget_ev. rewrite Hx. cbn [mbind option_bind].
  set (acc1 := if ev_pending x && ((acc <? 0) || (ev_expire x <? acc)) then ev_expire x else acc).
  assert (ev_pending x = true → 0 ≤ acc1 ≤ ev_expire x) as Hx1.
  { intros Hpx. pose proof (Hp e x (list_elem_of_here _ _) Hx Hpx). unfold acc1. rewrite Hpx. cbn [andb]. case_if; b2p; lia. }
  assert (-1 ≤ acc1 ∧ (0 ≤ acc → 0 ≤ acc1 ≤ acc)) as [Ha1 Ha2].
  { unfold acc1 in *. destruct (ev_pending x); cbn [andb] in *; [|lia]. specialize (Hx1 eq_refl). case_if; b2p; lia. }
  destruct (IH acc1) as (r & E & Hr & Hacc & Hall & Hat); [intros; apply Hl; by right|intros; eapply Hp; eauto; by right|done|].
  exists r. split_and!; [done|done|intros; specialize (Ha2 ltac:(lia)); specialize (Hacc ltac:(lia)); lia| |].
  - intros e' y [->|Hin]%elem_of_cons Hy Hpy; [|by eapply Hall]. assert (y = x) as -> by congruence. specialize (Hx1 Hpy). specialize (Hacc ltac:(lia)). lia.
  - destruct Hat as [->|(e' & y & ? & ?)]; [|right; exists e', y; split; [by right|done]].
    unfold acc1. destruct (ev_pending x && _) eqn:Ec; [|by left]. right. exists e, x. apply andb_prop in Ec as [? _]. split_and!; try done. by left.
Qed.

Lemma wait_time_min now r :
  wait_time now r = if 0 <=? r then (r - now) `max` 0 `min` (MINI_SELECT_MAX_WAIT_MS * 1000) else MINI_SELECT_MAX_WAIT_MS * 1000.
Proof. unfold wait_time. cbv zeta. destruct (r - now <? 0) eqn:?; repeat case_if; b2p; lia. Qed.


(** ** One pass *)

Lemma next_expire_runs l es acc : (∀ e, e ∈ es → is_Some (l_event l !! e)) → ∃ r, next_expire es acc l = Some (r, l).
Proof.
  revert acc. induction es as [|e es IH]; intros acc Hl; [by exists acc|]. destruct (Hl e) as [x Hx]; [by left|].
  cbn [next_expire]. unfold lbind, lget_ev. rewrite Hx. cbn [mbind option_bind]. apply IH. intros e' ?. apply Hl. by right.
Qed.
Lemma select_sets_runs o l bs : (∀ b, b ∈ bs → is_Some (l_bev l !! b)) → ∃ r n, select_sets o bs l = Some (r, set_l_tick n l).
Proof.
  revert l. induction bs as [|b bs IH]; intros l Hl; [exists [], (l_tick l); by destruct l|]. destruct (Hl b) as [x Hx]; [by left|].
  cbn [select_sets]. unfold lbind at 1, lget at 1. rewrite Hx. cbn [mbind option_bind]. unfold lbind at 1, ltick at 1.
  destruct (IH (set_l_tick (S (l_tick l)) l)) as (r & n & E); [intros b' ?; apply Hl; by right|]. unfold lbind. rewrite E. by eexists _, n.
Qed.

(** The time a pass compares the timers with was read before. *)
Definition read_at (o : outside) (now : Z) (l : base) : Prop := loop_ok l ∧ ∃ t, now = o_clock o t ∧ (t < l_tick l)%nat.
Lemma ok_tick l n : loop_ok l → loop_ok (set_l_tick n l).
Proof. by intros []. Qed.
Lemma holds_read_at o P : (∀ l, P l → loop_ok l) → holds P (mini_now_us o) (read_at o).
Proof.
  intros HP l Hl. eexists _, _. split; [done|]. split; [by apply ok_tick, HP|]. exists (l_tick l). split; [done|]. cbn. lia.
Qed.
(** The flags are only read. *)
Lemma holds_stop {A} P (rc : A) (m : L A) :
  (∀ l, P l → loop_ok l) → holds P m (λ _, loop_ok) →
  holds P (stop <~ lgets (λ l, l_break l || l_stop l) ;; if (stop : bool) then lret rc else m) (λ _, loop_ok).
Proof. intros HP Hm l Hl. unfold lbind, lgets. case_if; [eexists _, _; split; [done|by apply HP]|by apply Hm]. Qed.

Lemma holds_pass o run :
  timer_contract o run → bev_contract run → sockets_ok o → holds loop_ok (dispatch_pass o run) (λ _, loop_ok).
Proof.
  intros Ht Hb Hs. apply holds_stop; [done|]. eapply holds_bind; [by apply holds_read_at|]. intros now0. cbn beta.
  intros l [Ok _]. unfold lbind at 1, lgets at 1. destruct (select_sets_runs o l (l_bevs l) (lo_bev _ Ok)) as (sets & n & E).
  unfold lbind at 1. rewrite E. unfold lbind at 1, lgets at 1. pose proof (ok_tick l n Ok) as Ok1. set (l1 := set_l_tick n l) in *.
  destruct (next_expire_runs l1 (l_events l1) (-1) (lo_event _ Ok1)) as (r & E1). unfold lbind at 1. rewrite E1. cbv zeta.
  case_if; [by eexists _, l1|]. clear E. clearbody l1. revert l1 Ok1 E1. clear l Ok.
  enough (∀ t wait, holds loop_ok (now <~ mini_now_us o ;; stop <~ lgets (λ l, l_break l || l_stop l) ;; if (stop : bool) then lret (Some 0) else
    es <~ lgets l_events ;; run_timers run (S (length es)) now ;~ stop <~ lgets (λ l, l_break l || l_stop l) ;; if (stop : bool) then lret (Some 0) else
    bs <~ lgets l_bevs ;; serve_bevs o run (length bs) (is_set sets (o_select o t wait)) (head bs) ;~ lret None) (λ _, loop_ok)) as Hrest.
  { intros l1 Ok1 _. apply Hrest. by apply ok_tick. }
  intros t wait. eapply holds_bind; [by apply holds_read_at|]. intros now. cbn beta. apply holds_stop; [by intros ? []|].
  intros l [Ok (t' & -> & Htick)]. unfold lbind at 1, lgets at 1. destruct (timers_end o run (S (length (l_events l))) t' l Ht Ok Htick) as (l' & E & Ok' & _).
  { pose proof (n_due_le (o_clock o t') l). lia. }
  unfold lbind at 1. rewrite E. revert l' Ok' E. intros l' Ok' _. revert l' Ok'. apply holds_stop; [done|].
  intros l' Ok'. unfold lbind at 1, lgets at 1.
  eapply (holds_bind (ends_with (l_bevs l'))); [by apply holds_serve_all|intros ?; cbn beta; by apply holds_ret|]. split; [done|]. by exists [].
Qed.


(** ** Callbacks that respect the contracts *)

Lemma filter_ne_id (b : positive) (l : list positive) : b ∉ l → base.filter (λ y, y ≠ b) l = l.
Proof.
  induction l as [|x l IH]; [done|]. intros [Hx Hl]%not_elem_of_cons. rewrite filter_cons_True by congruence. by rewrite IH.
Qed.

(** A callback may free its own bufferevent. *)
Lemma holds_free P Q b post : holds (at_bev P b post) (bufferevent_free b) (λ _, after Q b post).
Proof.
  intros l ([H1 H2 H3 H4] & (pre & mid & E) & x & Hx & _). unfold bufferevent_free, lbind, lget. rewrite Hx. cbn [mbind option_bind].
  eexists _, _. split; [done|]. assert (b ∉ post) as Hb.
  { rewrite E in H3. apply NoDup_app in H3 as (_ & _ & H3). apply NoDup_cons in H3 as [H3 _]. intros Hb. apply H3, elem_of_app. by right. }
  assert (b ∉ base.filter (λ y, y ≠ b) (l_bevs l)) as Hn by (by intros [? _]%list_elem_of_filter). split_and!; cbn; [|exists (base.filter (λ y, y ≠ b) (pre ++ b :: mid))|done].
  - constructor; cbn; try done; [by apply NoDup_filter|]. intros c [Hc Hin]%list_elem_of_filter. rewrite lookup_delete_ne by done. by apply H4.
  - assert (l_bevs l = (pre ++ b :: mid) ++ post) as -> by (by rewrite E, <- app_assoc). by rewrite filter_app, (filter_ne_id b post).
Qed.

(** A timer may arm itself again, later. *)
Lemma add_rearms o e tv l t :
  (∀ t t', (t ≤ t')%nat → o_clock o t ≤ o_clock o t') → 0 < tv → loop_ok l → e ∈ l_events l → (t < l_tick l)%nat →
  ∃ l', event_add o e tv l = Some ((), l') ∧ loop_ok l' ∧ (l_tick l ≤ l_tick l')%nat ∧ ∀ e', due (o_clock o t) l' e' → due (o_clock o t) l e'.
Proof.
  intros Hm Htv [H1 H2 H3 H4] Hin Ht. destruct (H2 e Hin) as [x Hx]. unfold event_add, mini_now_us, lbind, ltick, lget_ev, lput_ev, lmodify, lret.
  cbn. rewrite Hx. cbn. rewrite bool_decide_true by done. eexists. split; [done|]. split_and!; [| cbn; lia |].
  - constructor; cbn; try done. intros y Hy. destruct (decide (y = e)) as [->|Hn]; [rewrite lookup_insert_eq; eauto|]. rewrite lookup_insert_ne by done. by apply H2.
  - intros y (z & (Hiny & Hz & Hp) & He). cbn in Hz, Hiny. destruct (decide (y = e)) as [->|Hn].
    + rewrite lookup_insert_eq in Hz. injection Hz as <-. cbn in He. specialize (Hm t (l_tick l) ltac:(lia)). lia.
    + rewrite lookup_insert_ne in Hz by done. by exists z.
Qed.

(** ** Callbacks that do not *)

(** When the callback of a read timeout frees its bufferevent, as a health
    check whose server does not answer in time does, the loop then reads the
    freed structure. *)
Lemma read_timeout_use_after_free o run b l x :
  l_bev l !! b = Some x → b_connecting x = false → handshaking x = false → b_has_eventcb x = true → b_rd x = true →
  0 < b_tv_read x → b_tv_read x ≤ o_clock o (l_tick l) - b_last_read x →
  run (CEvent BevTimeoutRead) b = bufferevent_free b →
  bev_check_timeouts o run b l = None.
Proof.
  intros Hx Hc Hh He Hr Hpos Htime Hrun. unfold bev_check_timeouts, mini_now_us, lbind, ltick, lret, lget. cbn. rewrite Hx. cbn [mbind option_bind].
  rewrite Hc, Hh, Hr, (proj2 (Z.ltb_lt 0 (b_tv_read x))), (proj2 (Z.leb_le (b_tv_read x) (o_clock o (l_tick l) - b_last_read x))) by done. cbn [andb].
  unfold lput, lmodify, bev_call_eventcb, lbind, lget. cbn. rewrite lookup_insert_eq. cbn. rewrite He, Hrun.
  unfold bufferevent_free, lbind, lget, lmodify. cbn. rewrite lookup_insert_eq. cbn. by rewrite lookup_delete_eq.
Qed.

(** A failed handshake whose callback frees the bufferevent. *)
Lemma handshake_frees o run b l x :
  l_bev l !! b = Some x → handshaking x = true → b_has_eventcb x = true →
  fst (o_handshake o (l_tick l)) = HFatal → run (CEvent BevError) b = bufferevent_free b →
  ∃ l', bev_ssl_handshake o run b l = Some ((), l') ∧ l_bev l' !! b = None.
Proof.
  intros Hx Hh He Hf Hrun. unfold bev_ssl_handshake, lbind at 1, lget at 1. rewrite Hx. cbn [mbind option_bind].
  pose proof (handshaking_tls x Hh) as Ht. unfold of_kind, is_tls in Ht. destruct (b_ssl x); [|done]. unfold lbind at 1, ltick at 1. rewrite Hf.
  unfold lupd, lput, lmodify, bev_call_eventcb, lbind, lget. cbn. rewrite Hx. cbn. rewrite lookup_insert_eq. cbn. rewrite He, Hrun.
  unfold bufferevent_free, lbind, lget, lmodify. cbn. rewrite lookup_insert_eq. cbn. eexists. split; [done|]. cbn. apply lookup_delete_eq.
Qed.

(** When the callback of a failed handshake frees its bufferevent, as the
    error handler of a work connection does, the loop then reads the freed
    structure. *)
Lemma handshake_failure_use_after_free o run fds b l x :
  l_bev l !! b = Some x → b_connecting x = false → handshaking x = true → b_has_eventcb x = true →
  fst (o_handshake o (l_tick l)) = HFatal → run (CEvent BevError) b = bufferevent_free b →
  serve_bev o run fds b l = None.
Proof.
  intros Hx Hc Hh He Hf Hrun. unfold serve_bev, lbind at 1, lget at 1. rewrite Hx. cbn [mbind option_bind]. rewrite Hc, Hh. cbn [andb negb].
  destruct (handshake_frees o run b l x) as (l' & E & Hgone); try done.
  unfold serve_handshake, lbind at 1. cbn [bev_ssl_drive_handshake]. unfold lbind at 1, lget at 1. rewrite Hx. cbn [mbind option_bind]. rewrite Hh. cbn [negb].
  unfold lbind at 1. rewrite E. unfold lbind at 1, lget at 1. by rewrite Hgone.
Qed.

(** ** Witnesses *)

(** A clock that advances, sockets that are closed by their peer, a transport
    that fails. *)
Definition demo_out : outside :=
  mkOutside (λ t, 1000 * Z.of_nat t) (λ _, REof) (λ _, SAgain) (λ _, false) (λ _ _ _, (true, true))
    (λ _, (HFatal, (false, false))) (λ _, (TEof, (false, false))) (λ _, (true, 0, (false, false))) (λ _, 0).
(** Timers arm themselves again; a connection closed by its peer is freed. *)
Definition demo_run (k : callback) (b : positive) : L () :=
  match k with
  | CTimer => event_add demo_out b 1000000
  | CEvent BevEof => bufferevent_free b
  | _ => lret ()
  end.
Definition demo_bev : bev := mkLBev 3 true true false 0 5000000 0 0 0 0 [] [] true true true None.
Definition demo_loop : base :=
  mkBase {[ 1%positive := mkEvent 0 true; 2%positive := mkEvent 7000000 true ]} [1%positive; 2%positive]
    {[ 1%positive := demo_bev; 2%positive := demo_bev ]} [1%positive; 2%positive] false false 1.

Lemma demo_loop_ok : loop_ok demo_loop.
Proof.
  constructor; cbn.
  - apply (bool_decide_unpack (NoDup [1%positive; 2%positive])). exact I.
  - intros e [->|[->|?%elem_of_nil]%elem_of_cons]%elem_of_cons; first [done|by eexists].
  - apply (bool_decide_unpack (NoDup [1%positive; 2%positive])). exact I.
  - intros e [->|[->|?%elem_of_nil]%elem_of_cons]%elem_of_cons; first [done|by eexists].
Qed.
Lemma demo_timers : timer_contract demo_out demo_run.
Proof. intros e l t Ok Hin Ht. apply add_rearms; [|done|done|done|done]. intros t1 t2 ?. cbn. lia. Qed.
Lemma demo_bevs : bev_contract demo_run.
Proof.
  constructor.
  - intros k b post t Hk. destruct k as [| | |[]]; try done; try apply holds_stay. apply holds_free.
  - intros. by apply holds_ret.
  - intros. by apply holds_ret.
  - intros. apply holds_ret. intros l. apply at_mono. apply handshaking_tls.
Qed.
Lemma demo_sockets : sockets_ok demo_out.
Proof. by constructor. Qed.

Lemma timers_phase_ends_witness :
  ∃ l', run_timers demo_run 3 (o_clock demo_out 0) demo_loop = Some ((), l') ∧ loop_ok l' ∧ ∀ e, ~ due (o_clock demo_out 0) l' e.
Proof. apply (timers_phase_ends demo_out demo_run 0 demo_loop); [exact demo_timers|exact demo_loop_ok|cbn; lia]. Defined.

Lemma demo_expire e x : armed demo_loop e x → 0 ≤ ev_expire x.
Proof.
  intros (Hin & Hx & _). cbn [demo_loop l_events] in Hin. apply elem_of_cons in Hin as [->|[->|?%elem_of_nil]%elem_of_cons]; [| |done];
    vm_compute in Hx; injection Hx as <-; cbn; lia.
Qed.


(** A health check's connection, five seconds after its last byte. *)
Lemma read_timeout_use_after_free_witness :
  bev_check_timeouts demo_out (λ _, bufferevent_free) 1 (set_l_tick 5000 demo_loop) = None.
Proof. apply (read_timeout_use_after_free demo_out _ 1 (set_l_tick 5000 demo_loop) demo_bev); try reflexivity; cbn; lia. Defined.

Lemma handshake_failure_use_after_free_witness :
  serve_bev demo_out (λ _, bufferevent_free) (λ _, (true, true)) 1
    (set_l_bev {[ 1%positive := set_ssl (Some (mkSsl false 0 true false)) demo_bev ]} demo_loop) = None.
Proof.
  by apply (handshake_failure_use_after_free demo_out (λ _, bufferevent_free) (λ _, (true, true)) 1
    (set_l_bev {[ 1%positive := set_ssl (Some (mkSsl false 0 true false)) demo_bev ]} demo_loop) (set_ssl (Some (mkSsl false 0 true false)) demo_bev)).
Defined.
