(* ===== verification/Tls.v ===== *)
(** * TLS transport

    Models [src/port/mini_event_ssl.c], the operations that tie an mbedtls
    session to a bufferevent, and [src/port/tls.c], which sets mbedtls up from
    the configuration and wraps connections.  mbedtls is not part of the
    sources: its error codes are a record with the documented laws, and what
    its functions answer are arguments of the operations that call them. *)

From S2P Require Import Prelude Ctext World Ini Toml Msg Config EventLoop EventThm.
Open Scope loop_scope.

(** ** Codes of mbedtls *)

Record mbedtls_codes := mkCodes {
  WANT_READ : Z;
  WANT_WRITE : Z;
  PEER_CLOSE_NOTIFY : Z;
  CONN_EOF : Z;
  RECEIVED_NEW_SESSION_TICKET : Z;
  WAITING_SERVER_HELLO_RENEGO : Z;
  CRYPTO_IN_PROGRESS : Z;
  NET_SEND_FAILED : Z;
  NET_RECV_FAILED : Z;
}.
Definition code_list (k : mbedtls_codes) : list Z :=
  [WANT_READ k; WANT_WRITE k; PEER_CLOSE_NOTIFY k; CONN_EOF k; RECEIVED_NEW_SESSION_TICKET k;
   WAITING_SERVER_HELLO_RENEGO k; CRYPTO_IN_PROGRESS k; NET_SEND_FAILED k; NET_RECV_FAILED k].
(** Error codes are negative and distinct. *)
Class CodesOk (k : mbedtls_codes) : Prop := {
  codes_negative : Forall (λ c, c < 0) (code_list k);
  codes_distinct : NoDup (code_list k);
}.

(** [printf] of an [unsigned] with the format [%04X]. *)
Definition hex_digit (d : Z) : Z := if d <? 10 then 48 + d else 55 + d.
Fixpoint hex_text (digits : nat) (n : Z) : bytes :=
  match digits with
  | O => []
  | S digits => (if n / 16 =? 0 then [] else hex_text digits (n / 16)) ++ [hex_digit (n mod 16)]
  end.
Definition printf_04X (n : Z) : bytes :=
  let t := hex_text 8 (u32 n) in replicate (4 - length t) 48 ++ t.

(** ** A session *)

(** [struct mini_tls_conn]. *)
Record tls_conn := mkConn {
  c_fd : Z;
  c_active : bool;
  c_got_eof : bool;
  c_last_err : Z;
  c_err_buf : bytes;
}.

(** What a session and the module remember: the session, [g_tls_last_err]. *)
Record tls_state := mkTls { t_conn : tls_conn; g_tls_last_err : bytes }.

Inductive tls_ret := TLS_RET_ERR | TLS_RET_OK | TLS_RET_WANT | TLS_RET_EOF.

Section Session.
Context (k : mbedtls_codes) (strerror : Z → bytes).

(** [EINTR] is retried; [answers] are those of the calls of [send]. *)
Fixpoint tls_bio_send (answers : list send_answer) : option Z :=
  match answers with
  | [] => None
  | SIntr :: answers => tls_bio_send answers
  | SAgain :: _ => Some (WANT_WRITE k)
  | SError :: _ => Some (NET_SEND_FAILED k)
  | SSent n :: _ => Some n
  end.
Fixpoint tls_bio_recv (answers : list recv_answer) : option (Z + bytes) :=
  match answers with
  | [] => None
  | RIntr :: answers => tls_bio_recv answers
  | RAgain :: _ => Some (inl (WANT_READ k))
  | RError :: _ => Some (inl (NET_RECV_FAILED k))
  | REof :: _ => Some (inl (CONN_EOF k))
  | RData d :: _ => Some (inr d)
  end.

(** [snprintf] and [strncpy] into the 96 bytes of a buffer. *)
Definition cut_text (t : bytes) : bytes := ztake 95 t.

Definition tls_record_error (s : tls_state) (rc : Z) : tls_state :=
  let c := t_conn s in
  let text := cut_text (strerror rc) in
  let text := match text with [] => cut_text (str_bytes "mbedtls error -0x" ++ printf_04X (- rc)) | _ => text end in
  mkTls (mkConn (c_fd c) (c_active c) (c_got_eof c) rc text) (cut_text text).

Definition set_got_eof (s : tls_state) : tls_state :=
  let c := t_conn s in mkTls (mkConn (c_fd c) (c_active c) true (c_last_err c) (c_err_buf c)) (g_tls_last_err s).

(** The class of a return code, and the directions it waits for. *)
Definition tls_classify (s : tls_state) (rc : Z) : tls_ret * (bool * bool) * tls_state :=
  if rc =? 0 then (TLS_RET_OK, (false, false), s)
  else if rc =? WANT_READ k then (TLS_RET_WANT, (true, false), s)
  else if rc =? WANT_WRITE k then (TLS_RET_WANT, (false, true), s)
  else if (rc =? PEER_CLOSE_NOTIFY k) || (rc =? CONN_EOF k) then (TLS_RET_EOF, (false, false), set_got_eof s)
  else if rc =? RECEIVED_NEW_SESSION_TICKET k then (TLS_RET_WANT, (true, false), s)
  else if (rc =? WAITING_SERVER_HELLO_RENEGO k) || (rc =? CRYPTO_IN_PROGRESS k) then (TLS_RET_WANT, (true, false), s)
  else (TLS_RET_ERR, (false, false), tls_record_error s rc).

(** [rc]: what [mbedtls_ssl_handshake] answers. *)
Definition tls_op_handshake (s : tls_state) (rc : Z) : handshake_answer * (bool * bool) * tls_state :=
  if rc =? 0 then (HDone, (false, false), s)
  else
    let '(cls, w, s) := tls_classify s rc in
    match cls with
    | TLS_RET_ERR | TLS_RET_EOF => (HFatal, w, s)
    | _ => (HProgress, w, s)
    end.

(** [rc], [d]: what [mbedtls_ssl_read] answers and puts in the buffer. *)
Definition tls_op_read (s : tls_state) (rc : Z) (d : bytes) : ssl_read_answer * (bool * bool) * tls_state :=
  if c_got_eof (t_conn s) then (TEof, (false, false), s)
  else if 0 <? rc then (TData (ztake rc d), (false, false), s)
  else
    let '(cls, w, s) := tls_classify s rc in
    match cls with
    | TLS_RET_EOF => (TEof, w, s)
    | TLS_RET_ERR => (TError, w, s)
    | _ => (TNone, w, s)
    end.

(** [rc]: what [mbedtls_ssl_write] answers; the result is whether it succeeded
    and how many bytes were accepted. *)
Definition tls_op_write (s : tls_state) (rc : Z) : bool * Z * (bool * bool) * tls_state :=
  if c_got_eof (t_conn s) then (false, 0, (false, false), s)
  else if 0 <? rc then (true, rc, (false, false), s)
  else
    let '(cls, w, s) := tls_classify s rc in
    match cls with TLS_RET_ERR => (false, 0, w, s) | _ => (true, 0, w, s) end.

(** A sequence of operations, and what each answers. *)
Inductive tls_op := OpHandshake (rc : Z) | OpRead (rc : Z) (d : bytes) | OpWrite (rc : Z).
Inductive tls_out := OutHandshake (a : handshake_answer) | OutRead (a : ssl_read_answer) | OutWrite (ok : bool) (done : Z).
Definition tls_step (s : tls_state) (op : tls_op) : tls_out * tls_state :=
  match op with
  | OpHandshake rc => let '(a, _, s) := tls_op_handshake s rc in (OutHandshake a, s)
  | OpRead rc d => let '(a, _, s) := tls_op_read s rc d in (OutRead a, s)
  | OpWrite rc => let '(ok, done, _, s) := tls_op_write s rc in (OutWrite ok done, s)
  end.
Fixpoint tls_steps (s : tls_state) (ops : list tls_op) : list tls_out :=
  match ops with [] => [] | op :: ops => let '(out, s) := tls_step s op in out :: tls_steps s ops end.

(** [avail], [pending]: what mbedtls has decrypted, or read. *)
Definition tls_op_pending (avail : Z) (pending : bool) : Z :=
  if 0 <? avail then avail else if pending then 1 else 0.

(** ** Attaching a session to a bufferevent *)

(** [mem], [setup], [set_name]: what [calloc], [mbedtls_ssl_setup] and
    [mbedtls_ssl_set_hostname] answer.  The session is freed on failure. *)
Definition mini_tls_attach (o : outside) (b : positive) (fd : Z) (hostname : option bytes) (g : bytes)
    (mem : bool) (setup set_name : Z) : L (Z * option tls_conn * bytes) :=
  if (fd <? 0) || negb mem then lret (-1, None, g)
  else
    let s := mkTls (mkConn fd false false 0 []) g in
    if negb (setup =? 0) then lret (-1, None, g_tls_last_err (tls_record_error s setup))
    else
      let named := match hostname with Some (_ :: _) => true | _ => false end in
      if named && negb (set_name =? 0) then lret (-1, None, g_tls_last_err (tls_record_error s set_name))
      else mini_bev_set_ssl o b ;~ lret (0, Some (mkConn fd true false 0 []), g).

End Session.

(** ** Setting up from the configuration *)

Inductive authmode := VERIFY_NONE | VERIFY_REQUIRED.

(** [g_tls]: what was put into the configuration of mbedtls. *)
Record tls_global := mkGlobal {
  g_initialized : bool;
  g_ok : bool;
  g_auth : authmode;
  g_ca : option bytes;
  g_own : option (bytes * bytes);
  g_verify : authmode;
  g_err : bytes;
}.
Definition zero_global : tls_global := mkGlobal false false VERIFY_NONE None None VERIFY_NONE [].

(** What opening and reading a file brings: [sz] from [ftell], [d] from
    [fread]. *)
Inductive file_answer := FAbsent | FUnseekable | FRead (sz : Z) (d : bytes).

(** What mbedtls, the files and [inet_pton] answer; [e_mem]: whether memory is
    there. *)
Record tls_env := mkEnv {
  e_strerror : Z → bytes;
  e_seed : Z;
  e_defaults : Z;
  e_crt_parse : bytes → Z;
  e_pk_parse : bytes → Z;
  e_own_cert : Z;
  e_file : string → file_answer;
  e_is_ip : string → bool;
  e_mem : bool;
}.

(** A C string ends at the first zero byte. *)
Fixpoint c_string (l : bytes) : bytes :=
  match l with [] => [] | b :: l => if b =? 0 then [] else b :: c_string l end.

Section Setup.
Context (env : tls_env).

Definition tls_set_err (rc : Z) (g : tls_global) : tls_global :=
  let text := cut_text (e_strerror env rc) in
  let text := match text with [] => cut_text (str_bytes "mbedtls error -0x" ++ printf_04X (- rc)) | _ => text end in
  mkGlobal (g_initialized g) (g_ok g) (g_auth g) (g_ca g) (g_own g) (g_verify g) text.

Definition non_empty (s : option string) : option string :=
  match s with Some EmptyString | None => None | _ => s end.

Definition tls_load_pem (pem path : option string) : option bytes :=
  match non_empty pem, non_empty path with
  | Some t, _ => if e_mem env then Some (str_bytes t) else None
  | None, Some p =>
      match e_file env p with
      | FAbsent | FUnseekable => None
      | FRead sz d => if (sz <=? 0) || (64 * 1024 <? sz) || negb (e_mem env) then None else Some (c_string (ztake sz d))
      end
  | None, None => None
  end.

Definition set_ca (t : bytes) (g : tls_global) : tls_global :=
  mkGlobal (g_initialized g) (g_ok g) VERIFY_REQUIRED (Some t) (g_own g) VERIFY_REQUIRED (g_err g).
Definition set_own (c key : bytes) (g : tls_global) : tls_global :=
  mkGlobal (g_initialized g) (g_ok g) (g_auth g) (g_ca g) (Some (c, key)) (g_verify g) (g_err g).
Definition set_ok (g : tls_global) : tls_global :=
  mkGlobal (g_initialized g) true (g_auth g) (g_ca g) (g_own g) (g_verify g) (g_err g).

(** The authority: verification is required when there is one. *)
Definition init_ca (c : common_conf) (g : tls_global) : bool * tls_global :=
  match tls_load_pem (c_str c tls_trusted_ca_pem) (c_str c tls_trusted_ca_file) with
  | None => (true, g)
  | Some ca =>
      let rc := e_crt_parse env ca in
      if negb (rc =? 0) then (false, tls_set_err rc g) else (true, set_ca ca g)
  end.

(** The certificate of the client, with its key. *)
Definition init_own_cert (c : common_conf) (g : tls_global) : bool * tls_global :=
  let cert := tls_load_pem (c_str c tls_cert_pem) (c_str c tls_cert_file) in
  let key := tls_load_pem (c_str c tls_key_pem) (c_str c tls_key_file) in
  match cert with
  | None => (true, g)
  | Some cert =>
      let rc := e_crt_parse env cert in
      if negb (rc =? 0) then (false, tls_set_err rc g)
      else
        match key with
        | None => (false, g)
        | Some key =>
            let rc := e_pk_parse env key in
            if negb (rc =? 0) then (false, tls_set_err rc g)
            else
              let rc := e_own_cert env in
              if negb (rc =? 0) then (false, tls_set_err rc g) else (true, set_own cert key g)
        end
  end.

Definition xfrpc_tls_init (conf : option common_conf) (g : tls_global) : Z * tls_global :=
  if g_initialized g then (if g_ok g then 0 else -1, g)
  else
    let g := mkGlobal true false (g_auth g) (g_ca g) (g_own g) VERIFY_NONE (g_err g) in
    match conf with
    | None => (-1, g)
    | Some c =>
        let g := mkGlobal true false VERIFY_NONE None None VERIFY_NONE (g_err g) in
        if negb (e_seed env =? 0) then (-1, tls_set_err (e_seed env) g)
        else if negb (e_defaults env =? 0) then (-1, tls_set_err (e_defaults env) g)
        else
          let '(ok, g) := init_ca c g in
          if negb ok then (-1, g)
          else
            let '(ok, g) := init_own_cert c g in
            if negb ok then (-1, g) else (0, set_ok g)
    end.

Definition xfrpc_tls_is_enabled (conf : option common_conf) : bool :=
  match conf with Some c => negb (c_int c tls_enable =? 0) | None => false end.

Definition xfrpc_tls_cleanup (g : tls_global) : tls_global := if g_initialized g then zero_global else g.

Definition xfrpc_tls_load_certs_to_ctx (g : tls_global) : Z := if g_ok g then 0 else -1.

(** The text [xfrpc_tls_log_errors] writes, if any. *)
Definition xfrpc_tls_log_errors (g_last : bytes) (g : tls_global) : option bytes :=
  match g_last, g_err g with
  | _ :: _, _ => Some g_last
  | [], _ :: _ => Some (g_err g)
  | [], [] => None
  end.

(** The name for SNI and for the check of the certificate. *)
Definition tls_host (conf : option common_conf) : option string :=
  let host := match conf with
              | Some c => match non_empty (c_str c tls_server_name) with Some n => Some n | None => c_str c server_addr end
              | None => None
              end in
  match host with Some h => if e_is_ip env h then None else Some h | None => None end.

(** [setup], [set_name]: what mbedtls answers when the session is attached. *)
Definition xfrpc_tls_wrap_bev (o : outside) (conf : option common_conf) (g : tls_global) (g_last : bytes)
    (b : positive) (setup set_name : Z) : L (option (tls_conn * option string) * bytes) :=
  if negb (g_initialized g) || negb (g_ok g) then bufferevent_free b ;~ lret (None, g_last)
  else
    fd <~ bufferevent_getfd b ;;
    if fd <? 0 then bufferevent_free b ;~ lret (None, g_last)
    else
      let host := tls_host conf in
      r <~ mini_tls_attach (e_strerror env) o b fd (str_bytes <$> host) g_last (e_mem env) setup set_name ;;
      let '(rc, conn, g_last) := r in
      if negb (rc =? 0) then bufferevent_free b ;~ lret (None, g_last)
      else lret ((λ c, (c, host)) <$> conn, g_last).

End Setup.

(** ** The transport keeps its interface *)

Section TransportFacts.
Context (k : mbedtls_codes) `{!CodesOk k} (strerror : Z → bytes).

(** Facts about the codes, in the form [lia] uses. *)
Lemma codes_facts :
  WANT_READ k < 0 ∧ WANT_WRITE k < 0 ∧ PEER_CLOSE_NOTIFY k < 0 ∧ CONN_EOF k < 0 ∧
  WANT_READ k ≠ WANT_WRITE k ∧ WANT_READ k ≠ PEER_CLOSE_NOTIFY k ∧ WANT_READ k ≠ CONN_EOF k ∧
  WANT_WRITE k ≠ PEER_CLOSE_NOTIFY k ∧ WANT_WRITE k ≠ CONN_EOF k.
Proof.
  pose proof codes_negative as Hn. pose proof codes_distinct as Hd. unfold code_list in Hn, Hd.
  rewrite !Forall_cons in Hn. rewrite !NoDup_cons, !not_elem_of_cons in Hd. naive_solver.
Qed.

Lemma classify_eof s rc :
  rc = PEER_CLOSE_NOTIFY k ∨ rc = CONN_EOF k → tls_classify k strerror s rc = (TLS_RET_EOF, (false, false), set_got_eof s).
Proof.
  intros Hrc. pose proof codes_facts. unfold tls_classify.
  destruct (rc =? 0) eqn:E1, (rc =? WANT_READ k) eqn:E2, (rc =? WANT_WRITE k) eqn:E3; b2p; try lia.
  assert ((rc =? PEER_CLOSE_NOTIFY k) || (rc =? CONN_EOF k) = true) as -> by (apply orb_true_iff; lia). done.
Qed.

(** The end of the stream is never forgotten. *)
Lemma classify_keeps s rc :
  c_got_eof (t_conn s) = true → c_got_eof (t_conn (snd (tls_classify k strerror s rc))) = true.
Proof. unfold tls_classify. intros H. by repeat case_if. Qed.
Lemma step_keeps s op : c_got_eof (t_conn s) = true → c_got_eof (t_conn (snd (tls_step k strerror s op))) = true.
Proof.
  intros H. destruct op; cbn [tls_step]; unfold tls_op_handshake, tls_op_read, tls_op_write; rewrite ?H; try done.
  case_if; [done|]. pose proof (classify_keeps s rc H). destruct (tls_classify k strerror s rc) as [[[] ?] ?]; done.
Qed.

(** No data either way. *)
Definition out_silent (out : tls_out) : Prop :=
  match out with OutHandshake _ => True | OutRead a => a = TEof | OutWrite ok done => ok = false ∧ done = 0 end.
Lemma steps_silent s ops : c_got_eof (t_conn s) = true → Forall out_silent (tls_steps k strerror s ops).
Proof.
  revert s. induction ops as [|op ops IH]; intros s H; cbn [tls_steps]; [constructor|].
  pose proof (step_keeps s op H) as H'. destruct (tls_step k strerror s op) as [out s'] eqn:E. constructor; [|by apply IH].
  destruct op; cbn [tls_step] in E; unfold tls_op_read, tls_op_write in E; rewrite ?H in E; [|by injection E as <- _|by injection E as <- _].
  destruct (tls_op_handshake k strerror s rc) as [[] ?]. by injection E as <- _.
Qed.

(** A classified code waits for at most one direction, and for one when it is
    retryable. *)
Lemma classify_wants s rc cls w s' :
  tls_classify k strerror s rc = (cls, w, s') → fst w && snd w = false ∧ (cls = TLS_RET_WANT ↔ fst w || snd w = true) ∧ (cls = TLS_RET_OK ↔ rc = 0).
Proof.
  unfold tls_classify. pose proof codes_facts.
  repeat (case_if; [intros [= <- <- <-]; split_and!; [done|done|split; [done || lia|done || lia]]|]).
  intros [= <- <- <-]. split_and!; [done|done|]. split; [done|lia].
Qed.

Lemma op_handshake_ok s rc : handshake_ok (fst (tls_op_handshake k strerror s rc)).
Proof.
  unfold tls_op_handshake, handshake_ok. case_if; [done|]. destruct (tls_classify k strerror s rc) as [[cls w] s'] eqn:Ec.
  apply classify_wants in Ec as (_ & Hw & Hok). destruct cls; cbn; try done; [|by intros _; apply Hw]. intros _. destruct Hok as [Hok _]. specialize (Hok eq_refl). lia.
Qed.
Lemma op_read_ok s rc d : (0 < rc → rc ≤ zlen d) → ssl_read_ok (fst (tls_op_read k strerror s rc d)).
Proof.
  intros Hd. unfold tls_op_read, ssl_read_ok. case_if; [done|]. case_if.
  - cbn. intros [= H]. apply (f_equal zlen) in H. specialize (Hd ltac:(lia)). rewrite zlen_ztake in H by lia. change (zlen []) with 0 in H. lia.
  - by destruct (tls_classify k strerror s rc) as [[[] w] s'].
Qed.
Lemma op_write_ok s rc : ssl_write_ok (fst (tls_op_write k strerror s rc)).
Proof.
  unfold tls_op_write, ssl_write_ok. case_if; [done|]. case_if; [cbn; lia|]. by destruct (tls_classify k strerror s rc) as [[[] w] s'].
Qed.
Lemma classify_want s rc : rc = WANT_READ k ∨ rc = WANT_WRITE k → fst (fst (tls_classify k strerror s rc)) = TLS_RET_WANT.
Proof.
  intros Hrc. pose proof codes_facts. unfold tls_classify. rewrite (proj2 (Z.eqb_neq rc 0)) by lia.
  destruct (rc =? WANT_READ k) eqn:E1; [done|]. b2p. by rewrite (proj2 (Z.eqb_eq rc (WANT_WRITE k))) by lia.
Qed.

(** C18: The transport over mbedtls keeps what the event loop relies on: an
    unfinished handshake waits for a direction, a read that succeeds brings the
    bytes mbedtls decrypted and at least one, a write accepts what mbedtls
    accepted; retryable codes are never reported as errors; and once the peer
    has closed, no operation of any later sequence moves a byte. *)
Theorem tls_transport_contract s rc d :
  (0 < rc → rc ≤ zlen d) →
  handshake_ok (fst (tls_op_handshake k strerror s rc)) ∧
  ssl_read_ok (fst (tls_op_read k strerror s rc d)) ∧
  ssl_write_ok (fst (tls_op_write k strerror s rc)) ∧
  (c_got_eof (t_conn s) = false → 0 < rc →
     fst (fst (tls_op_read k strerror s rc d)) = TData (ztake rc d) ∧ fst (fst (tls_op_write k strerror s rc)) = (true, rc)) ∧
  (c_got_eof (t_conn s) = false → rc = WANT_READ k ∨ rc = WANT_WRITE k →
     fst (fst (tls_op_read k strerror s rc d)) = TNone ∧ fst (fst (tls_op_write k strerror s rc)) = (true, 0) ∧
     fst (fst (tls_op_handshake k strerror s rc)) = HProgress) ∧
  (rc = PEER_CLOSE_NOTIFY k ∨ rc = CONN_EOF k → ∀ ops,
     fst (fst (tls_op_read k strerror s rc d)) = TEof ∧
     Forall out_silent (tls_steps k strerror (snd (tls_op_read k strerror s rc d)) ops)).
Proof.
  intros Hd. pose proof codes_facts as Hk. split_and!; [apply op_handshake_ok|by apply op_read_ok|apply op_write_ok|..].
  - intros He Hrc. unfold tls_op_read, tls_op_write. by rewrite He, (proj2 (Z.ltb_lt 0 rc)).
  - intros He Hrc. pose proof (classify_want s rc Hrc) as Hc. unfold tls_op_read, tls_op_write, tls_op_handshake.
    rewrite He, (proj2 (Z.ltb_ge 0 rc)), (proj2 (Z.eqb_neq rc 0)) by lia. by destruct (tls_classify k strerror s rc) as [[[] w] s'].
  - intros Hrc ops. unfold tls_op_read. destruct (c_got_eof (t_conn s)) eqn:He; [split; [done|by apply steps_silent]|].
    rewrite (proj2 (Z.ltb_ge 0 rc)) by lia. rewrite (classify_eof _ _ Hrc). split; [done|by apply steps_silent].
Qed.
End TransportFacts.

(** ** What the setup guarantees *)

Section SetupFacts.
Context (env : tls_env).
Notation load c pem path := (tls_load_pem env (c_str c pem) (c_str c path)).

Lemma init_ca_result c g g' :
  init_ca env c g = (true, g') → g_ca g = None →
  g_ca g' = load c tls_trusted_ca_pem tls_trusted_ca_file ∧ g_own g' = g_own g ∧
  g_auth g' = (if g_ca g' then VERIFY_REQUIRED else g_auth g) ∧ g_verify g' = (if g_ca g' then VERIFY_REQUIRED else g_verify g).
Proof.
  unfold init_ca. intros H Hg. destruct (load c tls_trusted_ca_pem tls_trusted_ca_file) as [ca|]; [|injection H as <-; by rewrite Hg].
  cbv zeta in H. destruct (e_crt_parse env ca =? 0); cbn [negb] in H; [|done]. by injection H as <-.
Qed.
Lemma init_own_result c g g' :
  init_own_cert env c g = (true, g') → g_own g = None →
  g_own g' = match load c tls_cert_pem tls_cert_file with Some t => pair t <$> load c tls_key_pem tls_key_file | None => None end ∧
  (is_Some (load c tls_cert_pem tls_cert_file) → is_Some (load c tls_key_pem tls_key_file)) ∧
  g_ca g' = g_ca g ∧ g_auth g' = g_auth g ∧ g_verify g' = g_verify g.
Proof.
  unfold init_own_cert. cbv zeta. intros H Hg. destruct (load c tls_cert_pem tls_cert_file) as [t|].
  - destruct (e_crt_parse env t =? 0); cbn [negb] in H; [|done]. destruct (load c tls_key_pem tls_key_file) as [y|]; [|done].
    destruct (e_pk_parse env y =? 0); cbn [negb] in H; [|done]. destruct (e_own_cert env =? 0); cbn [negb] in H; [|done].
    injection H as <-. split_and!; eauto.
  - injection H as <-. by split_and!.
Qed.

Lemma init_ca_flags c g : g_initialized (snd (init_ca env c g)) = g_initialized g ∧ g_ok (snd (init_ca env c g)) = g_ok g.
Proof. unfold init_ca. destruct (load c _ _); [|done]. cbv zeta. by case_if. Qed.
Lemma init_own_flags c g : g_initialized (snd (init_own_cert env c g)) = g_initialized g ∧ g_ok (snd (init_own_cert env c g)) = g_ok g.
Proof.
  unfold init_own_cert. cbv zeta. destruct (load c tls_cert_pem tls_cert_file); [|done]. case_if; [done|].
  destruct (load c tls_key_pem tls_key_file); [|done]. by repeat case_if.
Qed.

(** The first call decides: its result is that of every later one. *)
Lemma init_decides conf g :
  g_initialized g = false →
  g_initialized (snd (xfrpc_tls_init env conf g)) = true ∧
  fst (xfrpc_tls_init env conf g) = (if g_ok (snd (xfrpc_tls_init env conf g)) then 0 else -1).
Proof.
  intros Hg. unfold xfrpc_tls_init. rewrite Hg. destruct conf as [c|]; [|done]. cbv zeta. case_if; [done|]. case_if; [done|].
  set (g0 := mkGlobal true false _ _ _ _ _). destruct (init_ca_flags c g0) as [F1 F2]. destruct (init_ca env c g0) as [ok g1]. cbn [snd] in F1, F2.
  destruct ok; cbn [negb]; [|cbn [fst snd]; by rewrite F1, F2]. destruct (init_own_flags c g1) as [F3 F4]. destruct (init_own_cert env c g1) as [ok g2]. cbn [snd] in F3, F4.
  destruct ok; cbn [negb fst snd]; [split; [|done]; cbn; by rewrite F3, F1|]. by rewrite F3, F4, F1, F2.
Qed.

(** TLS runs as configured: when the setup succeeds, the peer's
    certificate is required exactly when an authority was loaded, and checked
    against that authority; a client certificate is used exactly when one was
    loaded, together with its key; and until the cleanup every later setup
    answers the same and changes nothing, whatever the configuration. *)
Lemma tls_init_as_configured c g g' :
  g_initialized g = false → xfrpc_tls_init env (Some c) g = (0, g') →
  g_ca g' = load c tls_trusted_ca_pem tls_trusted_ca_file ∧
  (g_auth g' = VERIFY_REQUIRED ↔ is_Some (g_ca g')) ∧ g_verify g' = g_auth g' ∧
  g_own g' = match load c tls_cert_pem tls_cert_file with Some t => pair t <$> load c tls_key_pem tls_key_file | None => None end ∧
  (is_Some (load c tls_cert_pem tls_cert_file) → is_Some (g_own g')) ∧
  ∀ env' conf, xfrpc_tls_init env' conf g' = (0, g').
Proof.
  intros Hg H. pose proof (init_decides (Some c) g Hg) as [Hi Hr]. rewrite H in Hi, Hr. cbn [fst snd] in Hi, Hr.
  assert (∀ env' conf, xfrpc_tls_init env' conf g' = (0, g')) as Hlater by (intros; unfold xfrpc_tls_init; by rewrite Hi, <- Hr).
  unfold xfrpc_tls_init in H. rewrite Hg in H. cbv zeta in H. destruct (e_seed env =? 0); cbn [negb] in H; [|done].
  destruct (e_defaults env =? 0); cbn [negb] in H; [|done]. destruct (init_ca env c _) as [ok1 g1] eqn:E1. destruct ok1; cbn [negb] in H; [|done].
  destruct (init_own_cert env c g1) as [ok2 g2] eqn:E2. destruct ok2; cbn [negb] in H; [|done]. injection H as <-.
  apply init_ca_result in E1 as (Hca & Hown & Hauth & Hver); [|done]. apply init_own_result in E2 as (Hown2 & Hkey & Hca2 & Hauth2 & Hver2); [|done].
  cbn in *. split_and!; [by rewrite Hca2| |by rewrite Hver2, Hauth2, Hver, Hauth|done| |exact Hlater].
  - rewrite Hauth2, Hca2, Hauth. destruct (g_ca g1); split; [by eauto|done|done|by intros []].
  - rewrite Hown2. intros Hc. specialize (Hkey Hc) as [y ->]. destruct Hc as [t ->]. by eexists.
Qed.
(** A trusted authority that cannot be read is ignored: when the file
    named as the authority cannot be opened, is empty or is larger than 64 KiB,
    the setup succeeds and the certificate of the peer is not verified. *)
Lemma tls_unreadable_ca_unverified c g p :
  g_initialized g = false → e_seed env = 0 → e_defaults env = 0 →
  non_empty (c_str c tls_trusted_ca_pem) = None → non_empty (c_str c tls_trusted_ca_file) = Some p →
  match e_file env p with FRead sz _ => sz ≤ 0 ∨ 64 * 1024 < sz | _ => True end →
  load c tls_cert_pem tls_cert_file = None →
  fst (xfrpc_tls_init env (Some c) g) = 0 ∧ g_auth (snd (xfrpc_tls_init env (Some c) g)) = VERIFY_NONE.
Proof.
  intros Hg Hs Hd Hpem Hpath Hfile Hcert.
  assert (load c tls_trusted_ca_pem tls_trusted_ca_file = None) as Hca.
  { unfold tls_load_pem. rewrite Hpem, Hpath. destruct (e_file env p) as [| |sz d]; [done|done|].
    destruct ((sz <=? 0) || (64 * 1024 <? sz)) eqn:E; [done|]. b2p. lia. }
  unfold xfrpc_tls_init, init_ca, init_own_cert. cbv zeta. rewrite Hg, Hs, Hd, Hca, Hcert. done.
Qed.
End SetupFacts.

(** ** Wrapping a connection *)

(** The state without [b]. *)
Definition without (b : positive) (l : base) : base :=
  set_l_bevs (base.filter (λ y, y ≠ b) (l_bevs l)) (set_l_bev (delete b (l_bev l)) l).
Lemma run_free b l x : l_bev l !! b = Some x → bufferevent_free b l = Some ((), without b l).
Proof. intros Hx. unfold bufferevent_free, lbind, lget. by rewrite Hx. Qed.
Lemma without_ok b l : loop_ok l → loop_ok (without b l) ∧ b ∉ l_bevs (without b l) ∧ l_bev (without b l) !! b = None.
Proof.
  intros [H1 H2 H3 H4]. split_and!; cbn; [|by intros [? _]%list_elem_of_filter|apply lookup_delete_eq].
  constructor; cbn; try done; [by apply NoDup_filter|]. intros c [Hc Hin]%list_elem_of_filter. rewrite lookup_delete_ne by done. by apply H4.
Qed.

(** [b] is gone, or it is there with a session that shakes hands. *)
Definition wrapped (b : positive) (r : option (tls_conn * option string)) (host : option string) (l' : base) : Prop :=
  match r with
  | None => b ∉ l_bevs l' ∧ l_bev l' !! b = None
  | Some (conn, h) =>
      h = host ∧ c_active conn = true ∧ b ∈ l_bevs l' ∧
      ∃ x, l_bev l' !! b = Some x ∧ handshaking x = true ∧ b_fd x = c_fd conn ∧ 0 ≤ b_fd x ∧ b_rd x = true ∧ b_wr x = true
  end.

Section Wrap.
Context (env : tls_env) (o : outside).

Lemma run_attach b l x fd name g mem setup set_name :
  l_bev l !! b = Some x →
  ∃ rc conn g' l', mini_tls_attach (e_strerror env) o b fd name g mem setup set_name l = Some ((rc, conn, g'), l') ∧
    (rc ≠ 0 ∧ l' = l ∨ rc = 0 ∧ 0 ≤ fd ∧ conn = Some (mkConn fd true false 0 []) ∧
     l' = set_l_bev (<[b := set_enabled true true (set_ssl (Some (mkSsl false (o_clock o (l_tick l)) false false)) x)]> (l_bev l)) (set_l_tick (S (l_tick l)) l)).
Proof.
  intros Hx. unfold mini_tls_attach. destruct ((fd <? 0) || negb mem) eqn:Ef; [eexists _, _, _, _; split; [done|by left]|].
  cbv zeta. case_if; [eexists _, _, _, _; split; [done|by left]|]. case_if; [eexists _, _, _, _; split; [done|by left]|].
  unfold mini_bev_set_ssl, mini_now_us, lupd, lput, lmodify, ltick, lret, lbind, lget. cbn. rewrite Hx. cbn. rewrite Hx. cbn.
  eexists _, _, _, _. split; [done|]. right. b2p. split_and!; [done|lia|done|done].
Qed.

(** Wrapping a connection in TLS hands it over or frees it: the wrapped
    bufferevent is still linked, starts its handshake on the same descriptor
    and carries the configured name; on every failure, a missing descriptor or
    an earlier failed setup included, it is unlinked and freed; no other
    bufferevent is touched. *)
Lemma tls_wrap_contract conf g g_last b setup set_name l :
  loop_ok l → b ∈ l_bevs l →
  ∃ r g' l', xfrpc_tls_wrap_bev env o conf g g_last b setup set_name l = Some ((r, g'), l') ∧ loop_ok l' ∧
    wrapped b r (tls_host env conf) l' ∧ (∀ c, c ≠ b → l_bev l' !! c = l_bev l !! c) ∧
    (r ≠ None → g_initialized g = true ∧ g_ok g = true).
Proof.
  intros Ok Hin. destruct (lo_bev _ Ok b Hin) as [x Hx].
  assert (∀ g0 : bytes, ∃ r g' l', (bufferevent_free b ;~ lret (None, g0)) l = Some ((r : option (tls_conn * option string), g'), l') ∧ loop_ok l' ∧
    wrapped b r (tls_host env conf) l' ∧ (∀ c, c ≠ b → l_bev l' !! c = l_bev l !! c) ∧ (r ≠ None → g_initialized g = true ∧ g_ok g = true)) as Hfree.
  { intros g0. exists None, g0, (without b l). destruct (without_ok b l Ok) as (H1 & H2 & H3). unfold lbind. rewrite (run_free b l x Hx).
    split_and!; try done. intros c Hc. cbn. by rewrite lookup_delete_ne. }
  unfold xfrpc_tls_wrap_bev. destruct (negb (g_initialized g) || negb (g_ok g)) eqn:Eg; [apply Hfree|].
  unfold lbind at 1, bufferevent_getfd, lbind at 1, lget at 1. rewrite Hx. cbn [mbind option_bind lret]. case_if; [apply Hfree|]. cbv zeta.
  destruct (run_attach b l x (if b_ssl x then -1 else b_fd x) (str_bytes <$> tls_host env conf) g_last (e_mem env) setup set_name Hx)
    as (rc & conn & g' & l' & E & [[Hrc ->]|(-> & Hfd & -> & ->)]); unfold lbind at 1; rewrite E.
  - rewrite (proj2 (Z.eqb_neq rc 0)) by done. cbn [negb]. apply Hfree.
  - cbn [Z.eqb negb fmap option_fmap option_map]. eexists _, g', _. split; [done|]. b2p. destruct (b_ssl x); [lia|]. destruct Ok as [H1 H2 H3 H4]. split_and!.
    + constructor; cbn; try done. intros c Hcin. destruct (decide (c = b)) as [->|Hn]; [rewrite lookup_insert_eq; eauto|]. rewrite lookup_insert_ne by done. by apply H4.
    + cbn. split_and!; try done. rewrite lookup_insert_eq. by eexists.
    + intros c Hne. cbn. by rewrite lookup_insert_ne.
    + intros _. by destruct (g_initialized g), (g_ok g).
Qed.
End Wrap.

(** ** Witnesses *)

(** The values of mbedtls 3. *)
Definition demo_codes : mbedtls_codes := mkCodes (-0x6900) (-0x6880) (-0x7880) (-0x7280) (-0x7B00) (-0x6B00) (-0x7000) (-0x4E) (-0x4C).
Lemma demo_codes_ok : CodesOk demo_codes.
Proof. split; apply (bool_decide_unpack _); vm_compute; exact I. Qed.
Definition demo_session : tls_state := mkTls (mkConn 3 true false 0 []) [].
Definition demo_tls_env : tls_env := mkEnv (λ _, []) 0 0 (λ _, 0) (λ _, 0) 0 (λ _, FAbsent) (λ _, false) true.
Definition demo_tls_conf : common_conf := set_c_str server_addr "frps.example" (set_c_str tls_trusted_ca_file "/ca.pem" zero_conf).

Lemma tls_transport_contract_witness :
  fst (fst (tls_op_read demo_codes (λ _, []) demo_session (-0x7880) [])) = TEof ∧
  Forall out_silent (tls_steps demo_codes (λ _, []) (snd (tls_op_read demo_codes (λ _, []) demo_session (-0x7880) [])) [OpRead 5 [1; 2; 3; 4; 5]; OpWrite 7]).
Proof.
  pose proof demo_codes_ok as Hk. pose proof (tls_transport_contract demo_codes (λ _, []) demo_session (-0x7880) [] ltac:(lia)) as (_ & _ & _ & _ & _ & H).
  apply H. left. reflexivity.
Defined.

Lemma tls_init_as_configured_witness :
  g_auth (snd (xfrpc_tls_init demo_tls_env (Some (set_c_str tls_trusted_ca_pem "pem" zero_conf)) zero_global)) = VERIFY_REQUIRED.
Proof.
  apply (tls_init_as_configured demo_tls_env (set_c_str tls_trusted_ca_pem "pem" zero_conf) zero_global); [reflexivity|reflexivity|]. by eexists.
Defined.

Lemma tls_unreadable_ca_unverified_witness :
  fst (xfrpc_tls_init demo_tls_env (Some demo_tls_conf) zero_global) = 0 ∧
  g_auth (snd (xfrpc_tls_init demo_tls_env (Some demo_tls_conf) zero_global)) = VERIFY_NONE.
Proof. by apply (tls_unreadable_ca_unverified demo_tls_env demo_tls_conf zero_global "/ca.pem"). Defined.

Lemma tls_wrap_contract_witness :
  ∃ r g' l', xfrpc_tls_wrap_bev demo_tls_env demo_out (Some demo_tls_conf) (set_ok (mkGlobal true false VERIFY_NONE None None VERIFY_NONE [])) [] 1 0 0 demo_loop
             = Some ((r, g'), l') ∧ wrapped 1 r (Some "frps.example"%string) l'.
Proof.
  destruct (tls_wrap_contract demo_tls_env demo_out (Some demo_tls_conf) (set_ok (mkGlobal true false VERIFY_NONE None None VERIFY_NONE [])) [] 1 0 0 demo_loop demo_loop_ok)
    as (r & g' & l' & E & _ & H & _); [by left|]. by exists r, g', l'.
Defined.
