(* ===== verification/Platform.v ===== *)
(** * The platform

    The small functions of [src/src/utils.c], [src/port/esp_platform.c] and
    [src/src/debug.c] that stand between the client and the board: the run id
    made of the radio's address, sleeping, the system's names and log lines.
    The board's answers are arguments. *)

From S2P Require Import Prelude Ctext World Ini Toml Msg Config EventLoop EventThm Tls.

(** [snprintf] into a buffer, from an offset on: as much as fits, and the zero
    byte.  [None]: it would be written outside. *)
Definition snprintf_into (buf : bytes) (off size : Z) (text : bytes) : option bytes :=
  if size <=? 0 then Some buf
  else
    let out := ztake (size - 1) text ++ [0] in
    if zlen buf <? off + zlen out then None
    else Some (ztake off buf ++ out ++ zdrop (off + zlen out) buf).

(** [%02X] of a byte. *)
Definition printf_02X (b : Z) : bytes := [hex_digit (b / 16); hex_digit (b mod 16)].

Fixpoint format_mac (i : Z) (mac : list Z) (mac_len : Z) (buf : bytes) : option bytes :=
  match mac with
  | [] => Some buf
  | b :: mac => buf ← snprintf_into buf (i * 2) (mac_len - i * 2) (printf_02X b); format_mac (i + 1) mac mac_len buf
  end.

(** [base]: the six bytes [esp_read_mac] answers.  The status and the buffer. *)
Definition get_net_mac (base : option (list Z)) (mac_len : Z) (buf : bytes) : option (Z * bytes) :=
  if mac_len <? 13 then Some (1, buf)
  else
    match base with
    | None => Some (1, buf)
    | Some m => buf ← format_mac 0 m mac_len buf; Some (0, buf)
    end.

Definition get_net_ifname (blen : Z) (buf : bytes) : Z * bytes :=
  if blen <? 8 then (-1, buf)
  else
    let name := str_bytes "sta" in
    (0, ztake blen (name ++ replicate (Z.to_nat (blen - zlen name)) 0) ++ zdrop blen buf).

(** The milliseconds that are slept. *)
Definition s_sleep (s u : Z) : Z :=
  let ms := u64 (u64 (s * 1000) + u32 (u + 999) / 1000) in
  u32 (if ms =? 0 then 1 else ms).

Inductive esp_level := ESP_LOG_ERROR | ESP_LOG_WARN | ESP_LOG_INFO | ESP_LOG_DEBUG.
Definition to_esp_level (level : Z) : esp_level :=
  if (0 <=? level) && (level <=? 3) then ESP_LOG_ERROR
  else if level =? 4 then ESP_LOG_WARN
  else if (level =? 5) || (level =? 6) then ESP_LOG_INFO
  else ESP_LOG_DEBUG.

(** The line that is logged, if any: [prefix] is the file and the line, [text]
    the formatted message; 512 bytes with the zero byte. *)
Definition _debug (debuglevel level : Z) (prefix text : bytes) : option (esp_level * bytes) :=
  if debuglevel <? level then None
  else if 512 <=? zlen prefix then None
  else Some (to_esp_level level, prefix ++ ztake (512 - zlen prefix - 1) text).

(** ** The run id *)

Definition mac_text (mac : list Z) : bytes := concat (printf_02X <$> mac).

Lemma hex_digit_inj a b : 0 ≤ a < 16 → 0 ≤ b < 16 → hex_digit a = hex_digit b → a = b.
Proof. unfold hex_digit. intros Ha Hb. repeat case_match; b2p; lia. Qed.
Lemma hex_digit_nonzero a : 0 ≤ a → hex_digit a ≠ 0.
Proof. unfold hex_digit. intros Ha. case_match; lia. Qed.
Lemma mac_text_inj m m' : bytes_ok m → bytes_ok m' → mac_text m = mac_text m' → m = m'.
Proof.
  revert m'. induction m as [|b m IH]; intros [|b' m']; [done|done|done|]. intros [Hb Hm]%Forall_cons [Hb' Hm']%Forall_cons [= E1 E2 E3].
  unfold byte_ok in *. apply hex_digit_inj in E1; [|wordlia..]. apply hex_digit_inj in E2; [|wordlia..]. f_equal; [wordlia|by apply IH].
Qed.
Lemma zlen_mac_text m : zlen (mac_text m) = 2 * zlen m.
Proof. induction m as [|b m IH]; [done|]. unfold mac_text in *. cbn [fmap list_fmap concat]. rewrite zlen_app, zlen_cons, IH. change (zlen (printf_02X b)) with 2. lia. Qed.

(** What is before the offset stays, the rest is overwritten from there. *)
Lemma format_mac_spec m : ∀ i mac_len pre rest,
  zlen pre = i * 2 → zlen m * 2 < zlen rest → mac_len = zlen (pre ++ rest) →
  ∃ rest', format_mac i m mac_len (pre ++ rest) = Some (pre ++ mac_text m ++ rest') ∧ zlen rest' = zlen rest - 2 * zlen m ∧
    (m ≠ [] → head rest' = Some 0).
Proof.
  induction m as [|b m IH]; intros i mac_len pre rest Hp Hr Hl; cbn [format_mac].
  { exists rest. split; [done|]. split; [unfold zlen; cbn; lia|done]. }
  rewrite zlen_cons in Hr. pose proof (zlen_nonneg m). rewrite zlen_app in Hl.
  assert (∃ r1, snprintf_into (pre ++ rest) (i * 2) (mac_len - i * 2) (printf_02X b) = Some (pre ++ printf_02X b ++ 0 :: r1) ∧ zlen r1 = zlen rest - 3) as (r1 & -> & Hr1).
  { exists (zdrop 3 rest). unfold snprintf_into. rewrite (proj2 (Z.leb_gt _ _)) by lia. cbv zeta. rewrite ztake_ge by (change (zlen (printf_02X b)) with 2; lia).
    assert (zlen (printf_02X b ++ [0]) = 3) as E3 by done. rewrite (proj2 (Z.ltb_ge _ _)) by (rewrite E3, zlen_app; lia).
    rewrite <- Hp, ztake_app_exact, zdrop_app_ge by lia. replace (zlen pre + zlen (printf_02X b ++ [0]) - zlen pre) with 3 by (rewrite E3; lia).
    split; [done|]. rewrite zlen_zdrop. lia. }
  cbn [mbind option_bind]. destruct (IH (i + 1) mac_len (pre ++ printf_02X b) (0 :: r1)) as (r2 & E & Hr2 & Hz).
  { rewrite zlen_app, Hp. change (zlen (printf_02X b)) with 2. lia. }
  { rewrite zlen_cons, Hr1. lia. }
  { rewrite !zlen_app, zlen_cons, Hr1, Hl. change (zlen (printf_02X b)) with 2. lia. }
  rewrite <- app_assoc in E. rewrite E. exists r2. split; [|split].
  - unfold mac_text. cbn [fmap list_fmap concat]. by rewrite <- !app_assoc.
  - rewrite Hr2, !zlen_cons, Hr1. lia.
  - intros _. destruct m as [|b' m]; [|by apply Hz]. cbn in E. rewrite <- app_assoc in E. injection E as E. apply app_inv_head, (app_inv_head [_; _]) in E. by rewrite <- E.
Qed.

Lemma c_string_text t rest : Forall (λ b, b ≠ 0) t → Tls.c_string (t ++ 0 :: rest) = t.
Proof. induction 1 as [|b t Hb _ IH]; [done|]. cbn. by rewrite (proj2 (Z.eqb_neq b 0)), IH. Qed.
Lemma mac_text_nonzero m : bytes_ok m → Forall (λ b, b ≠ 0) (mac_text m).
Proof.
  induction 1 as [|b m Hb _ IH]; [constructor|]. unfold mac_text in *. cbn. unfold byte_ok in Hb. repeat constructor; [apply hex_digit_nonzero; wordlia..|done].
Qed.

(** The run id names the board: for the six bytes of any address and any
    buffer of at least 13 bytes, the text is written within the buffer, has
    twelve characters, and two boards with the same text have the same
    address. *)
Lemma run_ids_distinct (mac mac' : list Z) (buf buf' : bytes) :
  bytes_ok mac → bytes_ok mac' → zlen mac = 6 → zlen mac' = 6 → 13 ≤ zlen buf → 13 ≤ zlen buf' →
  ∃ out out', get_net_mac (Some mac) (zlen buf) buf = Some (0, out) ∧ get_net_mac (Some mac') (zlen buf') buf' = Some (0, out') ∧
    zlen out = zlen buf ∧ zlen (Tls.c_string out) = 12 ∧ (Tls.c_string out = Tls.c_string out' → mac = mac').
Proof.
  assert (∀ m b, bytes_ok m → zlen m = 6 → 13 ≤ zlen b → ∃ out, get_net_mac (Some m) (zlen b) b = Some (0, out) ∧ zlen out = zlen b ∧ Tls.c_string out = mac_text m) as Hone.
  { intros m b Hm H6 H13. destruct (format_mac_spec m 0 (zlen b) [] b) as (rest & E & Hl & Hz); [done|lia|done|]. unfold get_net_mac. rewrite (proj2 (Z.ltb_ge _ _)) by lia.
    cbn [app] in E. rewrite E. cbn [mbind option_bind app]. eexists. split; [done|]. split; [rewrite zlen_app, zlen_mac_text; lia|].
    assert (m ≠ []) as Hne by (intros ->; done). specialize (Hz Hne). destruct rest as [|z rest]; [done|]. injection Hz as ->. apply c_string_text. by apply mac_text_nonzero. }
  intros Hm Hm' H6 H6' H13 H13'. destruct (Hone mac buf) as (out & E & Hl & Hc); [done..|]. destruct (Hone mac' buf') as (out' & E' & Hl' & Hc'); [done..|].
  exists out, out'. split_and!; try done; [rewrite Hc, zlen_mac_text; lia|]. rewrite Hc, Hc'. by apply mac_text_inj.
Qed.

Lemma run_ids_distinct_witness :
  get_net_mac (Some [36; 10; 196; 0; 255; 9]) 64 (replicate 64 0) = Some (0, str_bytes "240AC400FF09" ++ replicate 52 0) ∧
  ∃ out out', get_net_mac (Some [36; 10; 196; 0; 255; 9]) 64 (replicate 64 0) = Some (0, out) ∧ get_net_mac (Some [36; 10; 196; 0; 255; 8]) 64 (replicate 64 0) = Some (0, out') ∧
    zlen out = 64 ∧ zlen (Tls.c_string out) = 12 ∧ (Tls.c_string out = Tls.c_string out' → [36; 10; 196; 0; 255; 9] = [36; 10; 196; 0; 255; 8]).
Proof.
  split; [vm_compute; reflexivity|]. apply (run_ids_distinct [36; 10; 196; 0; 255; 9] [36; 10; 196; 0; 255; 8] (replicate 64 0) (replicate 64 0)); try done; repeat constructor; done.
Defined.
