(* ===== verification/Quic.v ===== *)
(** * The QUIC transport

    Models [src/src/quic_client_transport.c] as it is compiled with ngtcp2 and
    libevent (the port builds the stubs of its last lines): one QUIC connection whose control
    stream and work streams are each bridged to a bufferevent by a socketpair.
    The contexts, events and buffers live in heaps, so that [None] is the use of
    something freed or of a missing buffer.  ngtcp2, the sockets and the allocator answer as functions
    of a counter; what ngtcp2 calls back during a call is part of its answer.
    The completion callback of the caller is a parameter. *)

From S2P Require Import Prelude.

Definition QC_MAX_UDP_PAYLOAD : Z := 1452.
Definition QC_RELAY_BUF_SIZE : Z := 65536.
Definition QC_MAX_WORK_STREAMS : nat := 64.
Definition NGTCP2_SECONDS : Z := 1000000000.
Definition UINT64_MAX : Z := 18446744073709551615.
Definition QC_HS_INTERVAL : Z := 10000.

(** ** State *)

(** [struct work_stream_relay]. *)
Record relay := mkRelay { r_sid : Z; r_fd : Z; r_buf : option positive; r_ev : option positive }.

(** What the TLS context was given: peers are verified, a certificate chain and
    a private key are loaded. *)
Record tls_setup := mkTls { t_verify : bool; t_cert : bool; t_key : bool }.

(** [struct quic_client_ctx], without the objects that only ngtcp2 and the TLS
    library look into. *)
Record qctx := mkCtx {
  q_udp_ev : option positive;
  q_timer_ev : option positive;
  q_hs_ev : option positive;
  q_udp_fd : Z;
  q_tls : tls_setup;
  q_sp_fd : Z;
  q_bev_fd : Z;
  q_sp_ev : option positive;
  q_out : option positive;
  q_done : bool;
  q_confirmed : bool;
  q_draining : bool;
  q_stream : Z;
  q_cb : bool;
  q_slots : list relay;
  q_count : nat;
}.

Definition set_udp_ev v c := mkCtx v (q_timer_ev c) (q_hs_ev c) (q_udp_fd c) (q_tls c) (q_sp_fd c) (q_bev_fd c) (q_sp_ev c) (q_out c) (q_done c) (q_confirmed c) (q_draining c) (q_stream c) (q_cb c) (q_slots c) (q_count c).
Definition set_timer_ev v c := mkCtx (q_udp_ev c) v (q_hs_ev c) (q_udp_fd c) (q_tls c) (q_sp_fd c) (q_bev_fd c) (q_sp_ev c) (q_out c) (q_done c) (q_confirmed c) (q_draining c) (q_stream c) (q_cb c) (q_slots c) (q_count c).
Definition set_hs_ev v c := mkCtx (q_udp_ev c) (q_timer_ev c) v (q_udp_fd c) (q_tls c) (q_sp_fd c) (q_bev_fd c) (q_sp_ev c) (q_out c) (q_done c) (q_confirmed c) (q_draining c) (q_stream c) (q_cb c) (q_slots c) (q_count c).
Definition set_udp_fd v c := mkCtx (q_udp_ev c) (q_timer_ev c) (q_hs_ev c) v (q_tls c) (q_sp_fd c) (q_bev_fd c) (q_sp_ev c) (q_out c) (q_done c) (q_confirmed c) (q_draining c) (q_stream c) (q_cb c) (q_slots c) (q_count c).
Definition set_tls v c := mkCtx (q_udp_ev c) (q_timer_ev c) (q_hs_ev c) (q_udp_fd c) v (q_sp_fd c) (q_bev_fd c) (q_sp_ev c) (q_out c) (q_done c) (q_confirmed c) (q_draining c) (q_stream c) (q_cb c) (q_slots c) (q_count c).
Definition set_pair s b c := mkCtx (q_udp_ev c) (q_timer_ev c) (q_hs_ev c) (q_udp_fd c) (q_tls c) s b (q_sp_ev c) (q_out c) (q_done c) (q_confirmed c) (q_draining c) (q_stream c) (q_cb c) (q_slots c) (q_count c).
Definition set_sp_ev v c := mkCtx (q_udp_ev c) (q_timer_ev c) (q_hs_ev c) (q_udp_fd c) (q_tls c) (q_sp_fd c) (q_bev_fd c) v (q_out c) (q_done c) (q_confirmed c) (q_draining c) (q_stream c) (q_cb c) (q_slots c) (q_count c).
Definition set_out v c := mkCtx (q_udp_ev c) (q_timer_ev c) (q_hs_ev c) (q_udp_fd c) (q_tls c) (q_sp_fd c) (q_bev_fd c) (q_sp_ev c) v (q_done c) (q_confirmed c) (q_draining c) (q_stream c) (q_cb c) (q_slots c) (q_count c).
Definition set_done v c := mkCtx (q_udp_ev c) (q_timer_ev c) (q_hs_ev c) (q_udp_fd c) (q_tls c) (q_sp_fd c) (q_bev_fd c) (q_sp_ev c) (q_out c) v (q_confirmed c) (q_draining c) (q_stream c) (q_cb c) (q_slots c) (q_count c).
Definition set_confirmed v c := mkCtx (q_udp_ev c) (q_timer_ev c) (q_hs_ev c) (q_udp_fd c) (q_tls c) (q_sp_fd c) (q_bev_fd c) (q_sp_ev c) (q_out c) (q_done c) v (q_draining c) (q_stream c) (q_cb c) (q_slots c) (q_count c).
Definition set_draining v c := mkCtx (q_udp_ev c) (q_timer_ev c) (q_hs_ev c) (q_udp_fd c) (q_tls c) (q_sp_fd c) (q_bev_fd c) (q_sp_ev c) (q_out c) (q_done c) (q_confirmed c) v (q_stream c) (q_cb c) (q_slots c) (q_count c).
Definition set_stream v c := mkCtx (q_udp_ev c) (q_timer_ev c) (q_hs_ev c) (q_udp_fd c) (q_tls c) (q_sp_fd c) (q_bev_fd c) (q_sp_ev c) (q_out c) (q_done c) (q_confirmed c) (q_draining c) v (q_cb c) (q_slots c) (q_count c).
Definition set_cb v c := mkCtx (q_udp_ev c) (q_timer_ev c) (q_hs_ev c) (q_udp_fd c) (q_tls c) (q_sp_fd c) (q_bev_fd c) (q_sp_ev c) (q_out c) (q_done c) (q_confirmed c) (q_draining c) (q_stream c) v (q_slots c) (q_count c).
Definition set_slots v c := mkCtx (q_udp_ev c) (q_timer_ev c) (q_hs_ev c) (q_udp_fd c) (q_tls c) (q_sp_fd c) (q_bev_fd c) (q_sp_ev c) (q_out c) (q_done c) (q_confirmed c) (q_draining c) (q_stream c) (q_cb c) v (q_count c).
Definition set_count v c := mkCtx (q_udp_ev c) (q_timer_ev c) (q_hs_ev c) (q_udp_fd c) (q_tls c) (q_sp_fd c) (q_bev_fd c) (q_sp_ev c) (q_out c) (q_done c) (q_confirmed c) (q_draining c) (q_stream c) (q_cb c) (q_slots c) v.

(** The zeroed context of [calloc] with the descriptors and the stream unset. *)
Definition fresh_ctx : qctx :=
  mkCtx None None None (-1) (mkTls false false false) (-1) (-1) None None false false false (-1) false
        (replicate QC_MAX_WORK_STREAMS (mkRelay 0 0 None None)) 0.

(** The callbacks of the events, with their argument: a context, or a relay,
    which is a slot of a context. *)
Inductive qcb := QUdp (q : positive) | QTimer (q : positive) | QHs (q : positive) | QSp (q : positive) | QWork (q : positive) (i : nat).

#[global] Instance qcb_eq_dec : EqDecision qcb.
Proof. solve_decision. Defined.

(** The context a callback's argument points into. *)
Definition cb_ctx (cb : qcb) : positive :=
  match cb with QUdp q | QTimer q | QHs q | QSp q | QWork q _ => q end.

(** An event: its descriptor, whether it persists, whether it is added, whether
    [event_active] queued it, and the delay it was added with. *)
Record qevent := mkQEv { e_fd : Z; e_cb : qcb; e_persist : bool; e_added : bool; e_active : bool; e_delay : Z }.

(** What the transport does to the outside, in order: packets sent, bytes that
    ngtcp2 took for a stream, bytes written to the socketpair of the control
    stream or of a relay, a half-closed control socketpair, completion
    callbacks. *)
Inductive qout :=
  | OPkt (q : positive) (p : bytes)
  | OStream (q : positive) (sid : Z) (d : bytes)
  | ODown (q : positive) (dst : option nat) (d : bytes)
  | OShut (q : positive)
  | OTlsDone (q : positive)
  | OCall (q : positive) (bev : option positive).

Record qworld := mkQW {
  k_ctx : gmap positive qctx;
  k_ev : gmap positive qevent;
  k_buf : gmap positive bytes;
  k_bev : gmap positive Z;
  k_fds : gset Z;
  k_g : option positive;
  k_next : positive;
  k_tick : nat;
  k_log : list qout;
}.

Definition set_k_ctx v s := mkQW v (k_ev s) (k_buf s) (k_bev s) (k_fds s) (k_g s) (k_next s) (k_tick s) (k_log s).
Definition set_k_ev v s := mkQW (k_ctx s) v (k_buf s) (k_bev s) (k_fds s) (k_g s) (k_next s) (k_tick s) (k_log s).
Definition set_k_buf v s := mkQW (k_ctx s) (k_ev s) v (k_bev s) (k_fds s) (k_g s) (k_next s) (k_tick s) (k_log s).
Definition set_k_bev v s := mkQW (k_ctx s) (k_ev s) (k_buf s) v (k_fds s) (k_g s) (k_next s) (k_tick s) (k_log s).
Definition set_k_fds v s := mkQW (k_ctx s) (k_ev s) (k_buf s) (k_bev s) v (k_g s) (k_next s) (k_tick s) (k_log s).
Definition set_k_g v s := mkQW (k_ctx s) (k_ev s) (k_buf s) (k_bev s) (k_fds s) v (k_next s) (k_tick s) (k_log s).
Definition set_k_next v s := mkQW (k_ctx s) (k_ev s) (k_buf s) (k_bev s) (k_fds s) (k_g s) v (k_tick s) (k_log s).
Definition set_k_tick v s := mkQW (k_ctx s) (k_ev s) (k_buf s) (k_bev s) (k_fds s) (k_g s) (k_next s) v (k_log s).
Definition set_k_log v s := mkQW (k_ctx s) (k_ev s) (k_buf s) (k_bev s) (k_fds s) (k_g s) (k_next s) (k_tick s) v.

(** ** The outside *)

(** The error codes of ngtcp2 that the code tells apart. *)
Inductive ngerr := NgDraining | NgWriteMore | NgHandshakeTimeout | NgCallbackFailure | NgOther (code : Z).
(** A call that writes a packet: a packet, nothing to write, an error. *)
Inductive wres := WPkt (p : bytes) | WNone | WErr (e : ngerr).
(** The handshake callbacks: the crypto data callback with what the crypto layer
    returned and whether the handshake is now complete. *)
Inductive hs_event := HsCrypto (rv : Z) (completed : bool) | HsDone | HsConfirmed.
(** The callbacks of reading a packet or of a timer of the connection. *)
Inductive ng_event :=
  | NgHs (h : hs_event)
  | NgData (fin : bool) (sid : Z) (d : bytes)
  | NgClosed (sid : Z)
  | NgOpened (sid : Z)
  | NgAcked (sid : Z).

Record qoutside := mkQO {
  (** [clock_gettime]: seconds and nanoseconds *)
  o_now : nat → Z * Z;
  o_expiry : nat → Z;
  (** the answers the loop of [qc_write_udp] gets; after them there is nothing to write *)
  o_flush : nat → list (list hs_event * wres);
  (** a write with data for a stream: the result, and the number of bytes taken (-1: no stream frame) *)
  o_writev : nat → Z → bytes → list hs_event * (wres * Z);
  o_read_pkt : nat → bytes → list ng_event * option ngerr;
  o_handle_expiry : nat → list ng_event * option ngerr;
  o_fatal : ngerr → bool;
  o_open_stream : nat → option Z;
  o_send : nat → bool;
  o_recvfrom : nat → option bytes;
  o_read : nat → Z → option bytes;
  (** how many bytes a write to a socketpair takes, negative on an error *)
  o_write : nat → bytes → Z;
  o_socketpair : nat → option (Z * Z);
  o_socket : nat → Z;
  (** one step of [quic_connect_to_server] that can fail *)
  o_step : nat → bool;
  (** loading a configured certificate file *)
  o_load : nat → bool;
  o_alloc : nat → bool;
  (** allocation of a buffer *)
  o_buf_alloc : nat → bool;
}.

(** ** The monad *)

Definition Q (A : Type) : Type := qworld → option (A * qworld).
Definition qret {A} (a : A) : Q A := λ s, Some (a, s).
Definition qbind {A B} (m : Q A) (f : A → Q B) : Q B := λ s, match m s with Some (a, s') => f a s' | None => None end.
Declare Scope quic_scope.
Delimit Scope quic_scope with quic.
Notation "x <~ m ;; k" := (qbind m (λ x, k)) (at level 100, m at next level, right associativity) : quic_scope.
Notation "' p <~ m ;; k" := (qbind m (λ x, match x with p => k end)) (at level 100, p pattern, m at next level, right associativity) : quic_scope.
Notation "m ;~ k" := (qbind m (λ _, k)) (at level 100, right associativity) : quic_scope.
Open Scope quic_scope.

Definition qget : Q qworld := λ s, Some (s, s).
Definition qmod (f : qworld → qworld) : Q () := λ s, Some ((), f s).
Definition qub {A} : Q A := λ _, None.
Definition qask {A} (f : nat → A) : Q A := λ s, Some (f (k_tick s), set_k_tick (S (k_tick s)) s).
Definition qlog (x : qout) : Q () := qmod (λ s, set_k_log (k_log s ++ [x]) s).
Definition qwhen (b : bool) (m : Q ()) : Q () := if b then m else qret ().
(** A pointer that the code follows without a test. *)
Definition qptr (p : option positive) : Q positive := match p with Some e => qret e | None => qub end.
Definition qopt (p : option positive) (f : positive → Q ()) : Q () := match p with Some e => f e | None => qret () end.
Definition qnew : Q positive := λ s, Some (k_next s, set_k_next (Pos.succ (k_next s)) s).

(** Access to a context. *)
Definition qctx_of (q : positive) : Q qctx := λ s, c ← k_ctx s !! q; Some (c, s).
Definition qput (q : positive) (c : qctx) : Q () := qmod (λ s, set_k_ctx (<[q := c]> (k_ctx s)) s).
Definition qupd (q : positive) (f : qctx → qctx) : Q () := c <~ qctx_of q ;; qput q (f c).
(** [qc->work_streams[i]]. *)
Definition qslot (q : positive) (i : nat) : Q relay := c <~ qctx_of q ;; match q_slots c !! i with Some r => qret r | None => qub end.
Definition qput_slot (q : positive) (i : nat) (r : relay) : Q () :=
  c <~ qctx_of q ;; match q_slots c !! i with Some _ => qput q (set_slots (<[i := r]> (q_slots c)) c) | None => qub end.

(** Events. *)
Definition qev_of (e : positive) : Q qevent := λ s, x ← k_ev s !! e; Some (x, s).
Definition qput_ev (e : positive) (x : qevent) : Q () := qmod (λ s, set_k_ev (<[e := x]> (k_ev s)) s).
Definition event_add (e : positive) (delay : Z) : Q () :=
  x <~ qev_of e ;; qput_ev e (mkQEv (e_fd x) (e_cb x) (e_persist x) true (e_active x) delay).
Definition event_del (e : positive) : Q () :=
  x <~ qev_of e ;; qput_ev e (mkQEv (e_fd x) (e_cb x) (e_persist x) false false (e_delay x)).
Definition event_active (e : positive) : Q () :=
  x <~ qev_of e ;; qput_ev e (mkQEv (e_fd x) (e_cb x) (e_persist x) (e_added x) true (e_delay x)).
Definition event_free (e : positive) : Q () := _ <~ qev_of e ;; qmod (λ s, set_k_ev (delete e (k_ev s)) s).

(** Buffers, as byte queues. *)
Definition buf_of (p : positive) : Q bytes := λ s, d ← k_buf s !! p; Some (d, s).
Definition put_buf (p : positive) (d : bytes) : Q () := qmod (λ s, set_k_buf (<[p := d]> (k_buf s)) s).
Definition evbuffer_add (p : positive) (d : bytes) : Q () := b <~ buf_of p ;; put_buf p (b ++ d).
Definition evbuffer_drain (p : positive) (n : Z) : Q () := b <~ buf_of p ;; put_buf p (zdrop n b).
Definition evbuffer_free (p : positive) : Q () := _ <~ buf_of p ;; qmod (λ s, set_k_buf (delete p (k_buf s)) s).

Definition close (fd : Z) : Q () := qmod (λ s, set_k_fds (k_fds s ∖ {[fd]}) s).
Definition opened (fd : Z) : Q () := qmod (λ s, set_k_fds ({[fd]} ∪ k_fds s) s).

Section Transport.
Context (o : qoutside) (hs_cb : option positive → Q ()).

Definition event_new (fd : Z) (persist : bool) (cb : qcb) : Q (option positive) :=
  ok <~ qask (o_alloc o) ;;
  if negb ok then qret None
  else e <~ qnew ;; qput_ev e (mkQEv fd cb persist false false 0) ;~ qret (Some e).

Definition evbuffer_new : Q (option positive) :=
  ok <~ qask (o_buf_alloc o) ;; if negb ok then qret None else p <~ qnew ;; put_buf p [] ;~ qret (Some p).

(** [bufferevent_socket_new] with [BEV_OPT_CLOSE_ON_FREE]. *)
Definition bufferevent_socket_new (fd : Z) : Q (option positive) :=
  ok <~ qask (o_alloc o) ;;
  if negb ok then qret None else b <~ qnew ;; qmod (λ s, set_k_bev (<[b := fd]> (k_bev s)) s) ;~ qret (Some b).

Definition socketpair : Q (option (Z * Z)) :=
  r <~ qask (o_socketpair o) ;;
  match r with None => qret None | Some (a, b) => opened a ;~ opened b ;~ qret (Some (a, b)) end.

(** [evbuffer_write] to the socketpair of a destination: a prefix is taken. *)
Definition evbuffer_write (q : positive) (dst : option nat) (p : positive) : Q () :=
  b <~ buf_of p ;;
  n <~ qask (λ t, o_write o t b) ;;
  qwhen (0 <? n) (put_buf p (zdrop n b) ;~ qlog (ODown q dst (ztake n b))).

(** The completion callback of the caller. *)
Definition call_hs_cb (q : positive) (bev : option positive) : Q () :=
  c <~ qctx_of q ;; qwhen (q_cb c) (qlog (OCall q bev) ;~ hs_cb bev).

(** ** Sending *)

Definition qc_flush_sp (q : positive) : Q () :=
  c <~ qctx_of q ;;
  qopt (q_out c) (λ p, b <~ buf_of p ;; qwhen (negb (zlen b =? 0)) (evbuffer_write q None p)).

(** The callbacks of the handshake; the result is what they return. *)
Definition qc_recv_crypto (q : positive) (rv : Z) (completed : bool) : Q bool :=
  if negb (rv =? 0) then qret false
  else
    c <~ qctx_of q ;;
    qwhen (negb (q_done c) && completed) (qput q (set_done true c)) ;~
    c <~ qctx_of q ;;
    qwhen (completed && negb (q_done c)) (qlog (OTlsDone q)) ;~
    qret true.
Definition qc_handshake_done (q : positive) : Q bool := qupd q (set_done true) ;~ qret true.
Definition qc_handshake_confirmed (q : positive) : Q bool := qupd q (set_confirmed true) ;~ qret true.

Definition run_hs_event (q : positive) (h : hs_event) : Q bool :=
  match h with
  | HsCrypto rv completed => qc_recv_crypto q rv completed
  | HsDone => qc_handshake_done q
  | HsConfirmed => qc_handshake_confirmed q
  end.

(** Callbacks run in order; a failing one ends the call. *)
Fixpoint run_calls {A} (f : A → Q bool) (l : list A) : Q bool :=
  match l with [] => qret true | x :: l => ok <~ f x ;; if (ok : bool) then run_calls f l else qret false end.

(** The clock of ngtcp2, in nanoseconds. *)
Definition qc_ts (ts : Z * Z) : Z := u64 (u64 (u64 (fst ts) * NGTCP2_SECONDS) + u64 (snd ts)).

(** The delay until the next timer of the connection, in microseconds. *)
Definition expiry_delay (exp now : Z) : Z :=
  let d := if now <? exp then exp - now else 0 in
  let sec := d / NGTCP2_SECONDS in
  let usec := (d mod NGTCP2_SECONDS) / 1000 in
  if (sec =? 0) && (usec =? 0) then 1000 else sec * 1000000 + usec.

Fixpoint write_loop (q : positive) (ws : list (list hs_event * wres)) : Q bool :=
  match ws with
  | [] => qret true
  | (hs, r) :: ws =>
      ok <~ run_calls (run_hs_event q) hs ;;
      match (if (ok : bool) then r else WErr NgCallbackFailure) with
      | WErr NgWriteMore => write_loop q ws
      | WErr NgDraining => qret false
      | WErr _ | WNone => qret true
      | WPkt p =>
          sent <~ qask (o_send o) ;;
          if (sent : bool) then qlog (OPkt q p) ;~ write_loop q ws else qret false
      end
  end.

(** The result is whether the call succeeded. *)
Definition qc_write_udp (q : positive) : Q bool :=
  c <~ qctx_of q ;;
  if q_draining c then qret false
  else
    ws <~ qask (o_flush o) ;;
    ok <~ write_loop q ws ;;
    if negb ok then qret false
    else
      exp <~ qask (o_expiry o) ;;
      if exp =? UINT64_MAX then qret true
      else
        now <~ qask (λ t, qc_ts (o_now o t)) ;;
        c <~ qctx_of q ;;
        e <~ qptr (q_timer_ev c) ;;
        event_add e (expiry_delay exp now) ;~
        qret true.

(** [ngtcp2_conn_writev_stream] with data: the bytes it takes are logged. *)
Definition ng_writev (q : positive) (sid : Z) (d : bytes) : Q (wres * Z) :=
  '(hs, (r, n)) <~ qask (λ t, o_writev o t sid d) ;;
  ok <~ run_calls (run_hs_event q) hs ;;
  if negb ok then qret (WErr NgCallbackFailure, -1)
  else match r with WErr _ => qret (r, n) | _ => qlog (OStream q sid (ztake n d)) ;~ qret (r, n) end.

(** Sending the packet a write produced; the result of [send] is ignored. *)
Definition send_packet (q : positive) (r : wres) : Q () :=
  match r with WPkt p => sent <~ qask (o_send o) ;; qwhen sent (qlog (OPkt q p)) | _ => qret () end.

(** ** Receiving *)

(** The loops over the relays: the first slot in use that satisfies a test. *)
Definition find_slot (test : relay → bool) (c : qctx) : option (nat * relay) :=
  list_find (λ r, test r = true) (take (q_count c) (q_slots c)).

(** What is released of the relay of a stream that ended. *)
Definition close_relay (q : positive) (sid : Z) : Q () :=
  c <~ qctx_of q ;;
  match find_slot (λ r, r_sid r =? sid) c with
  | None => qret ()
  | Some (i, _) =>
      r <~ qslot q i ;;
      qopt (r_ev r) event_free ;~
      qput_slot q i (mkRelay (r_sid r) (r_fd r) (r_buf r) None) ;~
      qwhen (0 <=? r_fd r) (close (r_fd r)) ;~
      qput_slot q i (mkRelay (r_sid r) (if 0 <=? r_fd r then -1 else r_fd r) (r_buf r) None) ;~
      qopt (r_buf r) evbuffer_free ;~
      qput_slot q i (mkRelay (r_sid r) (if 0 <=? r_fd r then -1 else r_fd r) None None)
  end.

Definition qc_recv_stream (q : positive) (fin : bool) (sid : Z) (d : bytes) : Q bool :=
  c <~ qctx_of q ;;
  (if (zlen d =? 0) && fin then
     if (sid =? q_stream c) && (0 <=? q_sp_fd c) then qlog (OShut q) else close_relay q sid
   else if zlen d <=? 0 then qret ()
   else if negb (sid =? q_stream c) then
     match find_slot (λ r, (r_sid r =? sid) && (0 <=? r_fd r)) c with
     | None => qret ()
     | Some (i, r) => qopt (r_buf r) (λ p, evbuffer_add p d ;~ evbuffer_write q (Some i) p)
     end
   else
     p <~ qptr (q_out c) ;; evbuffer_add p d ;~ qc_flush_sp q) ;~
  qret true.

Definition qc_stream_close (q : positive) (sid : Z) : Q bool :=
  c <~ qctx_of q ;;
  (if sid =? q_stream c then qwhen (0 <=? q_sp_fd c) (qlog (OShut q)) else close_relay q sid) ;~
  qret true.

Definition qc_acked : Q bool := qret true.
Definition qc_stream_open : Q bool := qret true.

(** [qc_cbs]: which callback answers which event. *)
Definition run_ng_event (q : positive) (e : ng_event) : Q bool :=
  match e with
  | NgHs h => run_hs_event q h
  | NgData fin sid d => qc_recv_stream q fin sid d
  | NgClosed sid => qc_stream_close q sid
  | NgOpened _ => qc_stream_open
  | NgAcked _ => qc_acked
  end.

(** A call into ngtcp2 with its callbacks. *)
Definition ng_call (q : positive) (a : list ng_event * option ngerr) : Q (option ngerr) :=
  ok <~ run_calls (run_ng_event q) (fst a) ;; qret (if (ok : bool) then snd a else Some NgCallbackFailure).

(** What the two callbacks that meet a fatal error do: the connection drains,
    no more datagrams are read, and a caller still waiting is told. *)
Definition fail_connection (q : positive) : Q () :=
  qupd q (set_draining true) ;~
  c <~ qctx_of q ;;
  qopt (q_udp_ev c) event_del ;~
  c <~ qctx_of q ;;
  qwhen (negb (q_confirmed c)) (call_hs_cb q None).

Definition qc_udp_read_cb (q : positive) : Q () :=
  r <~ qask (o_recvfrom o) ;;
  match r with
  | None => qret ()
  | Some pkt =>
      if zlen pkt <=? 0 then qret ()
      else
        a <~ qask (λ t, o_read_pkt o t (ztake QC_MAX_UDP_PAYLOAD pkt)) ;;
        rv <~ ng_call q a ;;
        match rv with
        | Some e => if o_fatal o e then fail_connection q else qc_flush_sp q ;~ qc_write_udp q ;~ qret ()
        | None => qc_flush_sp q ;~ qc_write_udp q ;~ qret ()
        end
  end.

Definition qc_sp_read_cb (fd : Z) (q : positive) : Q () :=
  c <~ qctx_of q ;;
  if q_draining c then qret ()
  else
    r <~ qask (λ t, o_read o t fd) ;;
    match r with
    | None | Some [] => qret ()
    | Some d =>
        '(w, _) <~ ng_writev q (q_stream c) (ztake QC_RELAY_BUF_SIZE d) ;;
        match w with
        | WErr NgDraining =>
            qupd q (set_draining true) ;~
            c <~ qctx_of q ;; qopt (q_udp_ev c) event_del ;~ qopt (q_sp_ev c) event_del
        | WErr _ => qret ()
        | _ => send_packet q w ;~ qc_write_udp q ;~ qret ()
        end
    end.

(** [NGTCP2_ERR_HANDSHAKE_TIMEOUT]. *)
Definition is_hs_timeout (e : ngerr) : bool := match e with NgHandshakeTimeout => true | _ => false end.

Definition qc_timer_cb (q : positive) : Q () :=
  c <~ qctx_of q ;;
  if q_draining c then qret ()
  else
    a <~ qask (o_handle_expiry o) ;;
    rv <~ ng_call q a ;;
    c <~ qctx_of q ;;
    match rv with
    | Some e =>
        if o_fatal o e && (negb (is_hs_timeout e) || q_done c) then fail_connection q
        else qc_write_udp q ;~ qret ()
    | None => qc_write_udp q ;~ qret ()
    end.

(** ** Opening and closing *)

Definition qc_free (q : positive) : Q () :=
  qmod (λ s, if bool_decide (k_g s = Some q) then set_k_g None s else s) ;~
  c <~ qctx_of q ;;
  qopt (q_udp_ev c) event_free ;~
  qopt (q_timer_ev c) event_free ;~
  qopt (q_sp_ev c) event_free ;~
  qopt (q_out c) evbuffer_free ;~
  qwhen (0 <=? q_udp_fd c) (close (q_udp_fd c)) ;~
  qwhen (0 <=? q_sp_fd c) (close (q_sp_fd c)) ;~
  qmod (λ s, set_k_ctx (delete q (k_ctx s)) s).

Definition quic_transport_available : Z := 1.

(** The certificate files of the configuration: each is loaded if it is set;
    peers are verified only when the CA file was loaded. *)
Definition load_file (file : option string) : Q bool :=
  match file with None => qret false | Some _ => qask (o_load o) end.

Definition connect_failed (q : positive) : Q Z :=
  c <~ qctx_of q ;; qwhen (0 <=? q_bev_fd c) (close (q_bev_fd c)) ;~ qc_free q ;~ qret (-1).

Definition connect_events (q : positive) (cb : bool) : Q Z :=
  c <~ qctx_of q ;;
  u <~ event_new (q_udp_fd c) true (QUdp q) ;; qupd q (set_udp_ev u) ;~
  t <~ event_new (-1) false (QTimer q) ;; qupd q (set_timer_ev t) ;~
  p <~ event_new (q_sp_fd c) true (QSp q) ;; qupd q (set_sp_ev p) ;~
  b <~ evbuffer_new ;; qupd q (set_out b) ;~
  match u, t, p, b with
  | Some u, Some _, Some _, Some _ =>
      qc_write_udp q ;~
      event_add u 0 ;~
      qupd q (set_cb cb) ;~
      h <~ event_new (-1) false (QHs q) ;; qupd q (set_hs_ev h) ;~
      match h with
      | None => connect_failed q
      | Some h => event_add h QC_HS_INTERVAL ;~ qret 0
      end
  | _, _, _, _ => connect_failed q
  end.

Definition connect_tls (ca cert key : option string) (q : positive) (cb : bool) : Q Z :=
  ok <~ qask (o_step o) ;;
  if negb ok then connect_failed q
  else
    v <~ load_file ca ;; x <~ load_file cert ;; k <~ load_file key ;;
    qupd q (set_tls (mkTls v x k)) ;~
    ok <~ qask (o_step o) ;;
    if negb ok then connect_failed q
    else
      ok <~ qask (o_step o) ;;
      if negb ok then connect_failed q else connect_events q cb.

Definition quic_connect_to_server (ca cert key : option string) (base : bool) (addr : option string) (port : Z) (cb : bool) : Q Z :=
  match base, addr with
  | true, Some _ =>
      if port <=? 0 then qret (-1)
      else
        ok <~ qask (o_alloc o) ;;
        if negb ok then qret (-1)
        else
          q <~ qnew ;; qput q fresh_ctx ;~
          sp <~ socketpair ;;
          match sp with
          | None => qmod (λ s, set_k_ctx (delete q (k_ctx s)) s) ;~ qret (-1)
          | Some (a, b) =>
              qupd q (set_pair a b) ;~
              fd <~ qask (o_socket o) ;;
              qwhen (0 <=? fd) (opened fd) ;~
              qupd q (set_udp_fd fd) ;~
              if fd <? 0 then connect_failed q
              else
                ok <~ qask (o_step o) ;;
                if negb ok then connect_failed q
                else
                  ok <~ qask (o_step o) ;;
                  if negb ok then connect_failed q else connect_tls ca cert key q cb
          end
  | _, _ => qret (-1)
  end.

(** The end of the handshake: the control stream, the bufferevent, the caller. *)
Definition finish_handshake (q : positive) : Q () :=
  qupd q (set_draining false) ;~
  qmod (set_k_g (Some q)) ;~
  c <~ qctx_of q ;;
  e <~ qptr (q_sp_ev c) ;;
  event_add e 0 ;~
  bev <~ bufferevent_socket_new (q_bev_fd c) ;;
  match bev with
  | None => call_hs_cb q None ;~ qc_free q
  | Some b => qupd q (λ c, set_pair (q_sp_fd c) (-1) c) ;~ call_hs_cb q (Some b)
  end.

Definition rearm_hs_timer (q : positive) : Q () :=
  c <~ qctx_of q ;; e <~ qptr (q_hs_ev c) ;; event_add e QC_HS_INTERVAL.

Definition qc_handshake_timer_cb (q : positive) : Q () :=
  _ <~ qctx_of q ;;
  qc_write_udp q ;~
  c <~ qctx_of q ;;
  if q_draining c then
    if q_confirmed c then call_hs_cb q None ;~ qc_free q
    else qupd q (set_draining false) ;~ rearm_hs_timer q
  else if negb (q_done c) then rearm_hs_timer q
  else if negb (q_confirmed c) then rearm_hs_timer q
  else
    qopt (q_hs_ev c) (λ e, event_del e ;~ event_free e ;~ qupd q (set_hs_ev None)) ;~
    if q_stream c <? 0 then
      sid <~ qask (o_open_stream o) ;;
      match sid with
      | None => call_hs_cb q None ;~ qc_free q
      | Some sid => qupd q (set_stream sid) ;~ finish_handshake q
      end
    else finish_handshake q.

(** ** Work streams *)

(** [evbuffer_get_length(relay->out_buf) > 0] for a buffer that may be missing. *)
Definition pending (p : option positive) : Q bytes := match p with Some p => buf_of p | None => qret [] end.

(** After a write took [consumed] of the [d] bytes offered. *)
Definition work_consumed (q : positive) (i : nat) (d : bytes) (consumed : Z) : Q () :=
  r <~ qslot q i ;;
  left <~ pending (r_buf r) ;;
  match r_buf r, left with
  | Some p, _ :: _ =>
      evbuffer_drain p consumed ;~
      left <~ buf_of p ;;
      qwhen (0 <? zlen left) (qopt (r_ev r) event_active)
  | _, _ =>
      if consumed <? zlen d then
        b <~ (match r_buf r with
              | Some p => qret p
              | None =>
                  n <~ evbuffer_new ;;
                  qput_slot q i (mkRelay (r_sid r) (r_fd r) n (r_ev r)) ;~
                  qptr n
              end) ;;
        evbuffer_add b (zdrop consumed d) ;~
        qopt (r_ev r) event_active
      else qret ()
  end.

(** Sending [d] on the relay's stream. *)
Definition work_send (q : positive) (owner : positive) (i : nat) (sid : Z) (d : bytes) : Q () :=
  '(w, n) <~ ng_writev q sid d ;;
  match w with
  | WErr NgDraining => qupd q (set_draining true)
  | WErr _ => qret ()
  | _ =>
      send_packet q w ;~
      qc_write_udp q ;~
      work_consumed owner i d (if 0 <=? n then n else zlen d)
  end.

(** The relay is slot [i] of context [owner]; the connection it sends on is the
    global one. *)
Definition qc_work_sp_read_cb (fd : Z) (owner : positive) (i : nat) : Q () :=
  s <~ qget ;;
  match k_g s with
  | None => qret ()
  | Some q =>
      c <~ qctx_of q ;;
      if q_draining c then qret ()
      else
        r <~ qslot owner i ;;
        left <~ pending (r_buf r) ;;
        match r_buf r, left with
        | Some p, _ :: _ =>
            x <~ qask (λ t, o_read o t fd) ;;
            (match x with Some (b :: d) => evbuffer_add p (ztake QC_RELAY_BUF_SIZE (b :: d)) | _ => qret () end) ;~
            all <~ buf_of p ;;
            work_send q owner i (r_sid r) all
        | _, _ =>
            x <~ qask (λ t, o_read o t fd) ;;
            match x with
            | None | Some [] => qret ()
            | Some d => work_send q owner i (r_sid r) (ztake QC_RELAY_BUF_SIZE d)
            end
        end
  end.

Definition quic_open_work_stream (base : bool) : Q (option positive) :=
  s <~ qget ;;
  match k_g s with
  | None => qret None
  | Some q =>
      c <~ qctx_of q ;;
      if q_draining c || negb base then qret None
      else
        sid <~ qask (o_open_stream o) ;;
        match sid with
        | None => qret None
        | Some sid =>
            sp <~ socketpair ;;
            match sp with
            | None => qret None
            | Some (a, b) =>
                if (QC_MAX_WORK_STREAMS <=? q_count c)%nat then close a ;~ close b ;~ qret None
                else
                  let i := q_count c in
                  qupd q (set_count (S i)) ;~
                  old <~ qslot q i ;;
                  buf <~ evbuffer_new ;;
                  qput_slot q i (mkRelay sid a buf (r_ev old)) ;~
                  ev <~ event_new a true (QWork q i) ;;
                  match ev with
                  | None =>
                      close a ;~ close b ;~ p <~ qptr buf ;; evbuffer_free p ;~ qupd q (set_count i) ;~ qret None
                  | Some e =>
                      qput_slot q i (mkRelay sid a buf (Some e)) ;~
                      event_add e 0 ;~
                      bev <~ bufferevent_socket_new b ;;
                      match bev with
                      | None =>
                          event_free e ;~ p <~ qptr buf ;; evbuffer_free p ;~ close a ;~ close b ;~
                          qupd q (set_count i) ;~ qret None
                      | Some v => qret (Some v)
                      end
                  end
            end
        end
  end.

Definition quic_work_stream_send_initial (data : option bytes) : Q Z :=
  s <~ qget ;;
  match k_g s, data with
  | Some q, Some d =>
      c <~ qctx_of q ;;
      if q_draining c || (zlen d =? 0) then qret (-1)
      else
        match q_count c with
        | O => qret (-1)
        | S i =>
            r <~ qslot q i ;;
            '(w, _) <~ ng_writev q (r_sid r) d ;;
            match w with
            | WPkt p =>
                sent <~ qask (o_send o) ;;
                if negb sent then qret (-1) else qlog (OPkt q p) ;~ qc_write_udp q ;~ qret 0
            | _ => qret (-1)
            end
        end
  | _, _ => qret (-1)
  end.

(** One round of the loop that releases the relays. *)
Definition reset_relay (q : positive) (i : nat) : Q () :=
  r <~ qslot q i ;;
  qwhen (0 <=? r_fd r) (close (r_fd r)) ;~
  qput_slot q i (mkRelay (r_sid r) (if 0 <=? r_fd r then -1 else r_fd r) (r_buf r) (r_ev r)) ;~
  qopt (r_buf r) evbuffer_free ;~
  qput_slot q i (mkRelay (r_sid r) (if 0 <=? r_fd r then -1 else r_fd r) None (r_ev r)).

Fixpoint qfor (f : nat → Q ()) (l : list nat) : Q () :=
  match l with [] => qret () | i :: l => f i ;~ qfor f l end.

Definition quic_transport_reset : Q () :=
  s <~ qget ;;
  match k_g s with
  | None => qret ()
  | Some q =>
      qmod (set_k_g None) ;~
      qupd q (set_draining true) ;~
      c <~ qctx_of q ;;
      qopt (q_udp_ev c) event_del ;~
      qopt (q_sp_ev c) event_del ;~
      qopt (q_hs_ev c) (λ e, event_del e ;~ event_free e ;~ qupd q (set_hs_ev None)) ;~
      qfor (reset_relay q) (seq 0 (q_count c)) ;~
      qupd q (set_count 0)
  end.

(** ** The event loop's view *)

(** An event fires when it is added or active; one that does not persist is
    then no longer added. *)
Definition fire (e : positive) : Q () :=
  s <~ qget ;;
  match k_ev s !! e with
  | None => qret ()
  | Some x =>
      if negb (e_added x || e_active x) then qret ()
      else
        qput_ev e (mkQEv (e_fd x) (e_cb x) (e_persist x) (e_added x && e_persist x) false (e_delay x)) ;~
        match e_cb x with
        | QUdp q => qc_udp_read_cb q
        | QTimer q => qc_timer_cb q
        | QHs q => qc_handshake_timer_cb q
        | QSp q => qc_sp_read_cb (e_fd x) q
        | QWork q i => qc_work_sp_read_cb (e_fd x) q i
        end
  end.

(** What can happen to the transport: an event, or a call of the program. *)
Inductive qop :=
  | OpFire (e : positive)
  | OpConnect (ca cert key : option string) (base : bool) (addr : option string) (port : Z) (cb : bool)
  | OpOpen (base : bool)
  | OpSendInitial (d : option bytes)
  | OpReset.

Definition run_qop (op : qop) : Q () :=
  match op with
  | OpFire e => fire e
  | OpConnect ca cert key base addr port cb => quic_connect_to_server ca cert key base addr port cb ;~ qret ()
  | OpOpen base => quic_open_work_stream base ;~ qret ()
  | OpSendInitial d => quic_work_stream_send_initial d ;~ qret ()
  | OpReset => quic_transport_reset
  end.

Fixpoint run_qops (ops : list qop) : Q () :=
  match ops with [] => qret () | op :: ops => run_qop op ;~ run_qops ops end.

End Transport.

(** Nothing connected. *)
Definition quic_init : qworld := mkQW ∅ ∅ ∅ ∅ ∅ None 1 0 [].

(** The transport of the port, where QUIC is not compiled in. *)
Definition stub_transport_available : Z := 0.
Definition stub_connect_to_server (base : bool) (addr : option string) (port : Z) (cb : bool) : Q Z := qret (-1).
Definition stub_open_work_stream (base : bool) : Q (option positive) := qret None.
