(* ===== verification/QuicSafe.v ===== *)
(** * The QUIC transport is memory safe

    The invariant [qinv] of the state of [Quic], that every operation and every
    event preserves it, and that none of them uses a freed context, event or
    buffer.  The completion callback of the caller is assumed to keep the
    invariant; a callback that resets the transport and connects again does. *)

From S2P Require Import Prelude Quic.

(** ** Total weakest preconditions *)

Definition wpq {A} (m : Q A) (P : A → qworld → Prop) (s : qworld) : Prop :=
  ∃ a s', m s = Some (a, s') ∧ P a s'.

Lemma wpq_mono {A} (m : Q A) (P R : A → qworld → Prop) s : wpq m P s → (∀ a s', P a s' → R a s') → wpq m R s.
Proof. intros (a & s' & E & H) I. exists a, s'. auto. Qed.
Lemma wpq_bind {A B} (m : Q A) (f : A → Q B) P s : wpq m (λ a s', wpq (f a) P s') s → wpq (qbind m f) P s.
Proof. intros (a & s' & E & b & s'' & E' & H). exists b, s''. unfold qbind. by rewrite E. Qed.
Lemma wpq_seq {A B} (m : Q A) (f : A → Q B) (R : A → qworld → Prop) P s :
  wpq m R s → (∀ a s', R a s' → wpq (f a) P s') → wpq (qbind m f) P s.
Proof. intros H K. apply wpq_bind. by eapply wpq_mono. Qed.
Lemma wpq_ret {A} (a : A) P s : P a s → wpq (qret a) P s.
Proof. intros H. by exists a, s. Qed.
Lemma wpq_get P s : P s s → wpq qget P s.
Proof. intros H. by exists s, s. Qed.
Lemma wpq_mod f P s : P () (f s) → wpq (qmod f) P s.
Proof. intros H. by exists (), (f s). Qed.
Lemma wpq_log x P s : P () (set_k_log (k_log s ++ [x]) s) → wpq (qlog x) P s.
Proof. apply wpq_mod. Qed.
Lemma wpq_ask {A} (f : nat → A) P s : P (f (k_tick s)) (set_k_tick (S (k_tick s)) s) → wpq (qask f) P s.
Proof. intros H. by exists (f (k_tick s)), (set_k_tick (S (k_tick s)) s). Qed.
Lemma wpq_ctx q c (P : qctx → qworld → Prop) s : k_ctx s !! q = Some c → P c s → wpq (qctx_of q) P s.
Proof. intros E H. exists c, s. unfold qctx_of. by rewrite E. Qed.
Lemma wpq_ev e x (P : qevent → qworld → Prop) s : k_ev s !! e = Some x → P x s → wpq (qev_of e) P s.
Proof. intros E H. exists x, s. unfold qev_of. by rewrite E. Qed.
Lemma wpq_buf p d (P : bytes → qworld → Prop) s : k_buf s !! p = Some d → P d s → wpq (buf_of p) P s.
Proof. intros E H. exists d, s. unfold buf_of. by rewrite E. Qed.
Lemma wpq_upd q c f P s : k_ctx s !! q = Some c → P () (set_k_ctx (<[q := f c]> (k_ctx s)) s) → wpq (qupd q f) P s.
Proof. intros E H. apply wpq_bind. eapply wpq_ctx; [done|]. by apply wpq_mod. Qed.

(** ** The invariant *)

(** The event of a context that carries a callback, and its buffers: that of
    the control stream, and those of the first [n] slots. *)
Definition refs (n : nat) (c : qctx) (cb : qcb) : option positive :=
  match cb with
  | QUdp _ => q_udp_ev c
  | QTimer _ => q_timer_ev c
  | QHs _ => q_hs_ev c
  | QSp _ => q_sp_ev c
  | QWork _ i => if (i <? n)%nat then r ← q_slots c !! i; r_ev r else None
  end.
Definition bufs (n : nat) (c : qctx) (d : option nat) : option positive :=
  match d with
  | None => q_out c
  | Some i => if (i <? n)%nat then r ← q_slots c !! i; r_buf r else None
  end.

Definition is_work (cb : qcb) : bool := match cb with QWork _ _ => true | _ => false end.
Definition ev_pending (x : qevent) : bool := e_added x || e_active x.

(** The set-up of a context is complete. *)
Definition ready (c : qctx) : Prop :=
  is_Some (q_udp_ev c) ∧ is_Some (q_timer_ev c) ∧ is_Some (q_sp_ev c) ∧ is_Some (q_out c).
(** The handshake is confirmed and the control stream open. *)
Definition established (c : qctx) : Prop := q_confirmed c = true ∧ 0 ≤ q_stream c.

(** No event of a relay of the context; no waiting handshake timer of it. *)
Definition no_work (q : positive) (evs : gmap positive qevent) : Prop :=
  ∀ e x i, evs !! e = Some x → e_cb x ≠ QWork q i.
Definition idle_hs (q : positive) (evs : gmap positive qevent) : Prop :=
  ∀ e x, evs !! e = Some x → e_cb x = QHs q → ev_pending x = false.

(** How often a bufferevent was handed to the caller for a context. *)
Definition delivers (q : positive) (x : qout) : bool :=
  match x with OCall q' (Some _) => bool_decide (q' = q) | _ => false end.
Definition delivered (q : positive) (l : list qout) : nat := length (List.filter (delivers q) l).
#[global] Arguments delivered : simpl never.
(** Bytes were given to a stream of the context. *)
Definition gave_data (q : positive) (x : qout) : Prop := match x with OStream q' _ _ => q' = q | _ => False end.

Create HintDb quic.
Section Invariant.
(** How many slots of a context were ever given to a work stream: the slots in
    use, and after a reset those whose events may still fire. *)
Context (hw : positive → nat).

(** A pending event can run: its argument is alive, and it is the one the
    context knows. *)
Definition runnable (ctxs : gmap positive qctx) (e : positive) (cb : qcb) : Prop :=
  ∃ c, ctxs !! cb_ctx cb = Some c ∧
  match cb with
  | QWork q i => (i < hw q)%nat
  | _ => refs (hw (cb_ctx cb)) c cb = Some e ∧ ready c ∧ (cb = QSp (cb_ctx cb) → established c)
  end.

Record qinv (s : qworld) : Prop := {
  i_ctx_next : ∀ q c, k_ctx s !! q = Some c → (q < k_next s)%positive;
  i_ev_next : ∀ e x, k_ev s !! e = Some x → (e < k_next s)%positive ∧ (cb_ctx (e_cb x) < k_next s)%positive;
  i_buf_next : ∀ p d, k_buf s !! p = Some d → (p < k_next s)%positive;
  i_shape : ∀ q c, k_ctx s !! q = Some c → length (q_slots c) = QC_MAX_WORK_STREAMS ∧ (q_count c ≤ hw q ≤ QC_MAX_WORK_STREAMS)%nat;
  i_hw_next : ∀ q, (k_next s ≤ q)%positive → hw q = 0%nat;
  i_refs : ∀ q c cb e, k_ctx s !! q = Some c → cb_ctx cb = q → refs (hw q) c cb = Some e → ∃ x, k_ev s !! e = Some x ∧ e_cb x = cb;
  i_bufs : ∀ q c d p, k_ctx s !! q = Some c → bufs (hw q) c d = Some p → is_Some (k_buf s !! p);
  i_uniq : ∀ q q' c c' d d' p, k_ctx s !! q = Some c → k_ctx s !! q' = Some c' →
             bufs (hw q) c d = Some p → bufs (hw q') c' d' = Some p → q = q' ∧ d = d';
  i_pend : ∀ e x, k_ev s !! e = Some x → ev_pending x = true → runnable (k_ctx s) e (e_cb x);
  i_hs : ∀ q c, k_ctx s !! q = Some c → is_Some (q_hs_ev c) →
           ready c ∧ k_g s ≠ Some q ∧ no_work q (k_ev s) ∧ delivered q (k_log s) = 0%nat ∧ hw q = 0%nat;
  i_g : ∀ q, k_g s = Some q → ∃ c, k_ctx s !! q = Some c ∧ ready c ∧ established c ∧ q_hs_ev c = None ∧ hw q = q_count c;
  i_once : ∀ q, (delivered q (k_log s) ≤ 1)%nat;
  i_log_next : ∀ q, (k_next s ≤ q)%positive → delivered q (k_log s) = 0%nat ∧ Forall (λ x, ¬ gave_data q x) (k_log s);
  i_gate : ∀ q c, k_ctx s !! q = Some c → q_confirmed c = false → Forall (λ x, ¬ gave_data q x) (k_log s);
  i_persist : ∀ e x q, k_ev s !! e = Some x → e_cb x = QHs q → e_persist x = false;
}.

Lemma delivered_app q l k : delivered q (l ++ k) = (delivered q l + delivered q k)%nat.
Proof. unfold delivered. by rewrite List.filter_app, length_app. Qed.

(** *** Changes of one part of the state *)

Lemma inv_tick s n : qinv s → qinv (set_k_tick n s).
Proof. intros []; split; done. Qed.
Lemma inv_bev s v : qinv s → qinv (set_k_bev v s).
Proof. intros []; split; done. Qed.
Lemma inv_fds s v : qinv s → qinv (set_k_fds v s).
Proof. intros []; split; done. Qed.

(** Log entries. *)
Lemma inv_log s x :
  qinv s →
  (∀ q, gave_data q x → ∃ c, k_ctx s !! q = Some c ∧ q_confirmed c = true) →
  (∀ q, delivers q x = true → ∃ c, k_ctx s !! q = Some c ∧ q_hs_ev c = None ∧ delivered q (k_log s) = 0%nat) →
  qinv (set_k_log (k_log s ++ [x]) s).
Proof.
  intros I Hg Hd. destruct I as [A1 A2 A3 A4 A4' A5 A6 A7 A8 A9 A10 A11 A12 A13 A14]. split; cbn; auto.
  - intros q c Hq Hh. destruct (A9 q c Hq Hh) as (K1 & K2 & K3 & K4 & K5). split_and!; auto.
    rewrite delivered_app, K4. unfold delivered. cbn. destruct (delivers q x) eqn:E; [|done].
    destruct (Hd q E) as (c' & Hc & Hn & _). simplify_eq. destruct Hh. congruence.
  - intros q. rewrite delivered_app. unfold delivered at 2. cbn. destruct (delivers q x) eqn:E; cbn; [|specialize (A11 q); lia].
    destruct (Hd q E) as (? & _ & _ & ->). lia.
  - intros q Hq. destruct (A12 q Hq) as [K1 K2]. split.
    + rewrite delivered_app, K1. unfold delivered. cbn. destruct (delivers q x) eqn:E; [|done].
      destruct (Hd q E) as (c & Hc & _). apply A1 in Hc. lia.
    + apply Forall_app. split; [done|]. repeat constructor. intros G. destruct (Hg q G) as (c & Hc & _). apply A1 in Hc. lia.
  - intros q c Hq Hc. apply Forall_app. split; [by eapply A13|]. repeat constructor. intros G.
    destruct (Hg q G) as (c' & Hc' & Hf). congruence.
Qed.

(** Flags of an event. *)
Lemma inv_ev_put s e x x' :
  qinv s → k_ev s !! e = Some x → e_cb x' = e_cb x → e_persist x' = e_persist x →
  (ev_pending x' = true → ev_pending x = true ∨ runnable (k_ctx s) e (e_cb x)) →
  qinv (set_k_ev (<[e := x']> (k_ev s)) s).
Proof.
  intros I Hx Hcb Hps Hp. destruct I as [A1 A2 A3 A4 A4' A5 A6 A7 A8 A9 A10 A11 A12 A13 A14]. split; cbn; auto.
  - intros e' y. rewrite lookup_insert_Some. intros [[<- <-]|[_ ?]]; [|by apply (A2 e' y)]. rewrite Hcb. by apply (A2 e x).
  - intros q c cb e' Hq Hc Hr. destruct (A5 q c cb e' Hq Hc Hr) as (y & Hy & Hcy).
    destruct (decide (e = e')) as [<-|]; [|exists y; by rewrite lookup_insert_ne].
    exists x'. rewrite lookup_insert_eq. split; [done|]. congruence.
  - intros e' y. rewrite lookup_insert_Some. intros [[<- <-]|[_ ?]] Hpy; [|by apply (A8 e' y)].
    rewrite Hcb. destruct (Hp Hpy) as [Hpx|?]; [by apply (A8 e x)|done].
  - intros q c Hq Hh. destruct (A9 q c Hq Hh) as (K1 & K2 & K3 & K4 & K5). split_and!; auto.
    intros e' y i. rewrite lookup_insert_Some. intros [[<- <-]|[_ ?]]; [rewrite Hcb; by apply (K3 e)|by apply (K3 e')].
  - intros e' y q. rewrite lookup_insert_Some. intros [[<- <-]|[_ ?]]; [rewrite Hcb, Hps; by apply (A14 e)|by apply (A14 e')].
Qed.

(** A buffer that exists gets new contents. *)
Lemma inv_buf_put s p d d' : qinv s → k_buf s !! p = Some d → qinv (set_k_buf (<[p := d']> (k_buf s)) s).
Proof.
  intros I Hd. destruct I as [A1 A2 A3 A4 A4' A5 A6 A7 A8 A9 A10 A11 A12 A13 A14]. split; cbn; auto.
  - intros p' y. rewrite lookup_insert_Some. intros [[<- _]|[_ ?]]; [by apply (A3 p d)|by apply (A3 p' y)].
  - intros q c d0 p' Hq Hb. destruct (decide (p = p')) as [<-|]; [by rewrite lookup_insert_eq|]. rewrite lookup_insert_ne by done. by eapply A6.
Qed.

(** A context loses references, and keeps or gains what its pending events need. *)
Record narrows (n : nat) (c c' : qctx) : Prop := {
  n_refs : ∀ cb e, refs n c' cb = Some e → refs n c cb = Some e;
  n_keep : ∀ cb, is_work cb = false → refs n c' cb = refs n c cb;
  n_bufs : ∀ d p, bufs n c' d = Some p → bufs n c d = Some p;
  n_out : q_out c' = q_out c;
  n_shape : length (q_slots c') = length (q_slots c) ∧ q_count c' = q_count c;
  n_confirmed : q_confirmed c = true → q_confirmed c' = true;
  n_stream : 0 ≤ q_stream c → 0 ≤ q_stream c';
}.

Lemma narrows_refl n c : narrows n c c.
Proof. split; auto. Qed.
Lemma narrows_trans n c1 c2 c3 : narrows n c1 c2 → narrows n c2 c3 → narrows n c1 c3.
Proof.
  intros [A1 A2 A3 A4 A5 A6 A7] [B1 B2 B3 B4 B5 B6 B7]. split; eauto.
  - intros cb H. by rewrite B2, A2.
  - congruence.
  - destruct A5, B5. split; congruence.
Qed.

Lemma narrows_ready n c c' : narrows n c c' → ready c → ready c'.
Proof.
  intros N (R1 & R2 & R3 & R4). unfold ready. rewrite (n_out _ _ _ N).
  pose proof (n_keep _ _ _ N (QUdp 1) eq_refl) as E1. pose proof (n_keep _ _ _ N (QTimer 1) eq_refl) as E2.
  pose proof (n_keep _ _ _ N (QSp 1) eq_refl) as E3. cbn in E1, E2, E3. by rewrite E1, E2, E3.
Qed.
Lemma narrows_hs n c c' : narrows n c c' → q_hs_ev c' = q_hs_ev c.
Proof. intros N. exact (n_keep _ _ _ N (QHs 1) eq_refl). Qed.
Lemma narrows_established n c c' : narrows n c c' → established c → established c'.
Proof. intros N [E1 E2]. split; [by apply (n_confirmed _ _ _ N)|by apply (n_stream _ _ _ N)]. Qed.

Lemma runnable_narrows ctxs q c c' e cb :
  ctxs !! q = Some c → narrows (hw q) c c' → runnable ctxs e cb → runnable (<[q := c']> ctxs) e cb.
Proof.
  intros Hq N (c0 & H0 & R). destruct (decide (cb_ctx cb = q)) as [E|E].
  2: { exists c0. by rewrite lookup_insert_ne. }
  rewrite E in *. simplify_eq. exists c'. rewrite lookup_insert_eq. split; [done|].
  destruct cb; try done; destruct R as (R1 & R2 & R3); (split_and!;
    [by rewrite (n_keep _ _ _ N) | by eapply narrows_ready | intros K; eapply narrows_established; eauto]).
Qed.

(** A context is replaced. *)
Lemma inv_ctx_any s q c c' :
  qinv s → k_ctx s !! q = Some c →
  length (q_slots c') = QC_MAX_WORK_STREAMS ∧ (q_count c' ≤ hw q ≤ QC_MAX_WORK_STREAMS)%nat →
  (∀ cb e, cb_ctx cb = q → refs (hw q) c' cb = Some e → ∃ x, k_ev s !! e = Some x ∧ e_cb x = cb) →
  (∀ d p, bufs (hw q) c' d = Some p → bufs (hw q) c d = Some p ∨
     (is_Some (k_buf s !! p) ∧ ∀ q0 c0 d0, k_ctx s !! q0 = Some c0 → bufs (hw q0) c0 d0 ≠ Some p)) →
  (∀ d d' p, bufs (hw q) c' d = Some p → bufs (hw q) c' d' = Some p → d = d') →
  (∀ e x, k_ev s !! e = Some x → ev_pending x = true → cb_ctx (e_cb x) = q → runnable (<[q := c']> (k_ctx s)) e (e_cb x)) →
  (is_Some (q_hs_ev c') → ready c' ∧ k_g s ≠ Some q ∧ no_work q (k_ev s) ∧ delivered q (k_log s) = 0%nat ∧ hw q = 0%nat) →
  (k_g s = Some q → ready c' ∧ established c' ∧ q_hs_ev c' = None ∧ hw q = q_count c') →
  (q_confirmed c' = false → Forall (λ x, ¬ gave_data q x) (k_log s)) →
  qinv (set_k_ctx (<[q := c']> (k_ctx s)) s).
Proof.
  intros I Hq Hs Hr Hb Hu Hp Hh Hg Hc. destruct I as [A1 A2 A3 A4 A4' A5 A6 A7 A8 A9 A10 A11 A12 A13 A14]. split; cbn; auto.
  - intros q' y. rewrite lookup_insert_Some. intros [[<- _]|[_ ?]]; [by apply (A1 q c)|by apply (A1 q' y)].
  - intros q' y. rewrite lookup_insert_Some. intros [[<- <-]|[_ ?]]; [done|by apply (A4 q' y)].
  - intros q' y cb e. rewrite lookup_insert_Some. intros [[<- <-]|[_ ?]]; [apply Hr|by apply (A5 q' y)].
  - intros q' y d p. rewrite lookup_insert_Some. intros [[<- <-]|[_ ?]] B; [|by apply (A6 q' y d p)].
    destruct (Hb d p B) as [?|[? _]]; [by apply (A6 q c d p)|done].
  - intros q1 q2 c1 c2 d1 d2 p. rewrite !lookup_insert_Some. intros [[<- <-]|[N1 H1]] [[<- <-]|[N2 H2]] B1 B2.
    + split; [done|by eapply Hu].
    + exfalso. destruct (Hb _ _ B1) as [B|[_ B]]; [|by eapply B]. by destruct (A7 q q2 c c2 d1 d2 p).
    + exfalso. destruct (Hb _ _ B2) as [B|[_ B]]; [|by eapply B]. by destruct (A7 q q1 c c1 d2 d1 p).
    + by eapply A7.
  - intros e x Hx Hpx. destruct (decide (cb_ctx (e_cb x) = q)) as [E|E]; [by apply Hp|].
    destruct (A8 e x Hx Hpx) as (c0 & H0 & R). exists c0. by rewrite lookup_insert_ne.
  - intros q' y. rewrite lookup_insert_Some. intros [[<- <-]|[_ ?]]; [done|by apply (A9 q' y)].
  - intros q' G. destruct (decide (q = q')) as [<-|]; [|destruct (A10 q' G) as (y & Hy); exists y; by rewrite lookup_insert_ne].
    exists c'. rewrite lookup_insert_eq. split; auto.
  - intros q' y. rewrite lookup_insert_Some. intros [[<- <-]|[_ ?]]; [done|by apply (A13 q' y)].
Qed.

Lemma inv_ctx_put s q c c' : qinv s → k_ctx s !! q = Some c → narrows (hw q) c c' → qinv (set_k_ctx (<[q := c']> (k_ctx s)) s).
Proof.
  intros I Hq N. eapply inv_ctx_any; eauto.
  - destruct (i_shape s I q c Hq) as [L1 L2]. destruct (n_shape _ _ _ N) as [L3 L4]. rewrite L3, L4. lia.
  - intros cb e Hc Hr. apply (i_refs s I q c cb e); auto. by apply (n_refs _ _ _ N).
  - intros d p B. left. by apply (n_bufs _ _ _ N).
  - intros d d' p B B'. apply (i_uniq s I q q c c d d' p); auto; by apply (n_bufs _ _ _ N).
  - intros e x Hx Hp _. eapply runnable_narrows; eauto. by apply (i_pend s I).
  - intros Hh. rewrite (narrows_hs _ _ _ N) in Hh. destruct (i_hs s I q c Hq Hh) as (K1 & K2 & K3 & K4 & K5).
    split_and!; auto. by eapply narrows_ready.
  - intros G. destruct (i_g s I q G) as (y & Hy & R & E & Hn & Hw). simplify_eq. destruct (n_shape _ _ _ N) as [_ ->].
    split_and!; eauto using narrows_ready, narrows_established. by rewrite (narrows_hs _ _ _ N).
  - intros Hf. apply (i_gate s I q c Hq). destruct (q_confirmed c) eqn:E; [|done]. by rewrite (n_confirmed _ _ _ N E) in Hf.
Qed.

(** The handshake timer of a context, made and forgotten. *)
Lemma inv_set_hs s q c e x :
  qinv s → k_ctx s !! q = Some c → k_ev s !! e = Some x → e_cb x = QHs q →
  ready c → k_g s ≠ Some q → no_work q (k_ev s) → delivered q (k_log s) = 0%nat → hw q = 0%nat →
  idle_hs q (k_ev s) →
  qinv (set_k_ctx (<[q := set_hs_ev (Some e) c]> (k_ctx s)) s).
Proof.
  intros I Hq Hx Hcb R G W D C Hid. eapply inv_ctx_any; eauto.
  - exact (i_shape s I q c Hq).
  - intros cb e' Hc Hr. destruct cb; try (by apply (i_refs s I q c _ e')). cbn in Hr, Hc. simplify_eq. eauto.
  - intros d d' p B B'. by apply (i_uniq s I q q c c d d' p).
  - intros e' y Hy Hp Hc. destruct (i_pend s I e' y Hy Hp) as (c0 & H0 & K). rewrite Hc in H0. assert (c0 = c) as -> by congruence.
    exists (set_hs_ev (Some e) c). rewrite Hc, lookup_insert_eq. split; [done|].
    destruct (e_cb y) eqn:Ey; cbn in Hc; subst; try done. by rewrite (Hid e' y Hy) in Hp.
  - done.
  - intros. by apply (i_gate s I q c).
Qed.

Lemma inv_clear_hs s q c :
  qinv s → k_ctx s !! q = Some c → idle_hs q (k_ev s) → qinv (set_k_ctx (<[q := set_hs_ev None c]> (k_ctx s)) s).
Proof.
  intros I Hq Hid. eapply inv_ctx_any; eauto.
  - exact (i_shape s I q c Hq).
  - intros cb e' Hc Hr. by destruct cb; try (apply (i_refs s I q c _ e')).
  - intros d d' p B B'. by apply (i_uniq s I q q c c d d' p).
  - intros e' y Hy Hp Hc. destruct (i_pend s I e' y Hy Hp) as (c0 & H0 & K). rewrite Hc in H0. assert (c0 = c) as -> by congruence.
    exists (set_hs_ev None c). rewrite Hc, lookup_insert_eq. split; [done|].
    destruct (e_cb y) eqn:Ey; cbn in Hc; subst; try done. by rewrite (Hid e' y Hy) in Hp.
  - intros [? ?]. done.
  - intros G. destruct (i_g s I q G) as (y & Hy & R & E & Hn & Hw). by simplify_eq.
  - intros. by apply (i_gate s I q c).
Qed.

(** Allocation. *)
Lemma inv_next s n : qinv s → (k_next s ≤ n)%positive → qinv (set_k_next n s).
Proof.
  intros I Hn. destruct I as [A1 A2 A3 A4 A4' A5 A6 A7 A8 A9 A10 A11 A12 A13 A14]. split; cbn; auto.
  - intros q c H. apply A1 in H. lia.
  - intros e x H. apply A2 in H. lia.
  - intros p d H. apply A3 in H. lia.
  - intros q Hq. apply A4'. lia.
  - intros q Hq. apply A12. lia.
Qed.

Lemma qfresh_none {A} (m : gmap positive A) n : (∀ p x, m !! p = Some x → (p < n)%positive) → m !! n = None.
Proof. intros H. destruct (m !! n) eqn:E; [|done]. apply H in E. lia. Qed.

Lemma inv_new_ev s fd cb pers :
  qinv s → (cb_ctx cb < k_next s)%positive →
  (∀ q i c, cb = QWork q i → k_ctx s !! q = Some c → q_hs_ev c = None) → (∀ q, cb = QHs q → pers = false) →
  qinv (set_k_ev (<[k_next s := mkQEv fd cb pers false false 0]> (k_ev s)) (set_k_next (Pos.succ (k_next s)) s)).
Proof.
  intros I Hcb Hw Hps. pose proof (inv_next s (Pos.succ (k_next s)) I ltac:(lia)) as I'.
  assert (Hf : k_ev s !! k_next s = None) by (apply qfresh_none; intros p x H; by apply (i_ev_next s I p x)).
  destruct I' as [A1 A2 A3 A4 A4' A5 A6 A7 A8 A9 A10 A11 A12 A13 A14]. split; cbn in *; auto.
  - intros e y. rewrite lookup_insert_Some. intros [[<- <-]|[_ ?]]; [cbn; lia|by apply (A2 e y)].
  - intros q c cb' e Hq Hc Hr. destruct (A5 q c cb' e Hq Hc Hr) as (y & Hy & ?). exists y. rewrite lookup_insert_ne; [done|]. intros <-. congruence.
  - intros e y. rewrite lookup_insert_Some. intros [[<- <-]|[_ ?]]; [done|by apply (A8 e y)].
  - intros q c Hq Hh. destruct (A9 q c Hq Hh) as (K1 & K2 & K3 & K4 & K5). split_and!; auto.
    intros e y i. rewrite lookup_insert_Some. intros [[<- <-]|[_ ?]]; [|by apply (K3 e)].
    cbn. intros E. destruct Hh as [h Hh]. rewrite (Hw q i c E Hq) in Hh. congruence.
  - intros e y q. rewrite lookup_insert_Some. intros [[<- <-]|[_ ?]]; [cbn; apply Hps|by apply (A14 e)].
Qed.

Lemma inv_new_buf s d :
  qinv s → qinv (set_k_buf (<[k_next s := d]> (k_buf s)) (set_k_next (Pos.succ (k_next s)) s)).
Proof.
  intros I. pose proof (inv_next s (Pos.succ (k_next s)) I ltac:(lia)) as I'.
  destruct I' as [A1 A2 A3 A4 A4' A5 A6 A7 A8 A9 A10 A11 A12 A13 A14]. split; cbn in *; auto.
  - intros p y. rewrite lookup_insert_Some. intros [[<- <-]|[_ ?]]; [cbn; lia|by apply (A3 p y)].
  - intros q c d' p Hq Hb. destruct (decide (k_next s = p)) as [<-|]; [by rewrite lookup_insert_eq|].
    rewrite lookup_insert_ne by done. by eapply A6.
Qed.

(** A new buffer is nobody's. *)
Lemma new_buf_unowned s q c d : qinv s → k_ctx s !! q = Some c → bufs (hw q) c d ≠ Some (k_next s).
Proof. intros I Hq E. destruct (i_bufs s I q c d _ Hq E) as [x Hx]. apply (i_buf_next s I) in Hx. lia. Qed.

Lemma fresh_slot i r : q_slots fresh_ctx !! i = Some r → r = mkRelay 0 0 None None.
Proof. by intros [-> _]%lookup_replicate. Qed.
Lemma refs_fresh n cb : refs n fresh_ctx cb = None.
Proof.
  destruct cb as [| | | |q i]; try done. unfold refs. case_if; [|done].
  destruct (q_slots fresh_ctx !! i) as [r|] eqn:E; [|done]. by rewrite (fresh_slot i r E).
Qed.
Lemma bufs_fresh n d : bufs n fresh_ctx d = None.
Proof.
  destruct d as [i|]; [|done]. unfold bufs. case_if; [|done].
  destruct (q_slots fresh_ctx !! i) as [r|] eqn:E; [|done]. by rewrite (fresh_slot i r E).
Qed.

Lemma inv_new_ctx s :
  qinv s → qinv (set_k_ctx (<[k_next s := fresh_ctx]> (k_ctx s)) (set_k_next (Pos.succ (k_next s)) s)).
Proof.
  intros I. pose proof (inv_next s (Pos.succ (k_next s)) I ltac:(lia)) as I'.
  assert (Hf : k_ctx s !! k_next s = None) by (apply qfresh_none; apply (i_ctx_next s I)).
  destruct I' as [A1 A2 A3 A4 A4' A5 A6 A7 A8 A9 A10 A11 A12 A13 A14]. split; cbn in *; auto.
  - intros q y. rewrite lookup_insert_Some. intros [[<- <-]|[_ ?]]; [lia|by apply (A1 q y)].
  - intros q y. rewrite lookup_insert_Some. intros [[<- <-]|[_ ?]]; [split; [done|cbn; rewrite (i_hw_next s I) by lia; lia]|by apply (A4 q y)].
  - intros q y cb e. rewrite lookup_insert_Some. intros [[<- <-]|[_ ?]] Hc Hr; [by rewrite refs_fresh in Hr|by apply (A5 q y)].
  - intros q y d p. rewrite lookup_insert_Some. intros [[<- <-]|[_ ?]] Hb; [by rewrite bufs_fresh in Hb|by apply (A6 q y d p)].
  - intros q1 q2 c1 c2 d1 d2 p. rewrite !lookup_insert_Some. intros [[<- <-]|[N1 H1]] [[<- <-]|[N2 H2]] B1 B2;
      try (by rewrite bufs_fresh in *). by eapply A7.
  - intros e x Hx Hp. destruct (A8 e x Hx Hp) as (c & Hc & R). exists c. rewrite lookup_insert_ne; [done|]. intros E. congruence.
  - intros q y. rewrite lookup_insert_Some. intros [[<- <-]|[_ ?]] Hh; [by destruct Hh|by apply (A9 q y)].
  - intros q G. destruct (A10 q G) as (c & Hc & R). exists c. rewrite lookup_insert_ne; [done|]. intros E. congruence.
  - intros q y. rewrite lookup_insert_Some. intros [[<- <-]|[_ ?]]; [|by apply (A13 q y)].
    intros _. apply (i_log_next s I). lia.
Qed.

(** Release. *)
Lemma inv_del_ev s e :
  qinv s → (∀ q c cb, k_ctx s !! q = Some c → cb_ctx cb = q → refs (hw q) c cb ≠ Some e) → qinv (set_k_ev (delete e (k_ev s)) s).
Proof.
  intros I Hn. destruct I as [A1 A2 A3 A4 A4' A5 A6 A7 A8 A9 A10 A11 A12 A13 A14]. split; cbn; auto.
  - intros e' y. rewrite lookup_delete_Some. intros [_ ?]. by apply (A2 e' y).
  - intros q c cb e' Hq Hc Hr. destruct (A5 q c cb e' Hq Hc Hr) as (y & Hy & ?). exists y. rewrite lookup_delete_ne; [done|].
    intros <-. by eapply Hn.
  - intros e' y. rewrite lookup_delete_Some. intros [_ ?]. by apply (A8 e' y).
  - intros q c Hq Hh. destruct (A9 q c Hq Hh) as (K1 & K2 & K3 & K4 & K5). split_and!; auto.
    intros e' y i. rewrite lookup_delete_Some. intros [_ ?]. by apply (K3 e').
  - intros e' y q. rewrite lookup_delete_Some. intros [_ ?]. by apply (A14 e').
Qed.

Lemma inv_del_buf s p :
  qinv s → (∀ q c d, k_ctx s !! q = Some c → bufs (hw q) c d ≠ Some p) → qinv (set_k_buf (delete p (k_buf s)) s).
Proof.
  intros I Hn. destruct I as [A1 A2 A3 A4 A4' A5 A6 A7 A8 A9 A10 A11 A12 A13 A14]. split; cbn; auto.
  - intros p' y. rewrite lookup_delete_Some. intros [_ ?]. by apply (A3 p' y).
  - intros q c d p' Hq Hb. rewrite lookup_delete_ne; [by eapply A6|]. intros <-. by eapply Hn.
Qed.

(** A context goes, with those of its events that are pending. *)
Lemma inv_del_ctx s q evs :
  qinv s → k_g s ≠ Some q →
  (∀ e x, evs !! e = Some x → k_ev s !! e = Some x ∧ (cb_ctx (e_cb x) = q → ev_pending x = false)) →
  (∀ e x, k_ev s !! e = Some x → cb_ctx (e_cb x) ≠ q → evs !! e = Some x) →
  qinv (set_k_ev evs (set_k_ctx (delete q (k_ctx s)) s)).
Proof.
  intros I G He He'. destruct I as [A1 A2 A3 A4 A4' A5 A6 A7 A8 A9 A10 A11 A12 A13 A14]. split; cbn; auto.
  - intros q' y. rewrite lookup_delete_Some. intros [_ ?]. by apply (A1 q' y).
  - intros e x [Hx _]%He. by apply (A2 e x).
  - intros q' y. rewrite lookup_delete_Some. intros [_ ?]. by apply (A4 q' y).
  - intros q' y cb e. rewrite lookup_delete_Some. intros [Hn Hq] Hc Hr. destruct (A5 q' y cb e Hq Hc Hr) as (x & Hx & Ex).
    exists x. split; [|done]. apply He'; [done|]. congruence.
  - intros q' y d p. rewrite lookup_delete_Some. intros [_ ?]. by apply (A6 q' y).
  - intros q1 q2 c1 c2 d1 d2 p. rewrite !lookup_delete_Some. intros [_ ?] [_ ?] B1 B2. by eapply A7.
  - intros e x Hx Hpx. destruct (He e x Hx) as [Hx' Hn]. destruct (A8 e x Hx' Hpx) as (c & Hc & R). exists c.
    rewrite lookup_delete_ne; [done|]. intros E. rewrite Hn in Hpx; done.
  - intros q' y. rewrite lookup_delete_Some. intros [_ Hq] Hh. destruct (A9 q' y Hq Hh) as (K1 & K2 & K3 & K4 & K5).
    split_and!; auto. intros e x i [Hx _]%He. by apply (K3 e).
  - intros q' G'. destruct (A10 q' G') as (c & Hc & K1 & K2 & K3 & K4). exists c. rewrite lookup_delete_ne by congruence.
    by split_and!.
  - intros q' y. rewrite lookup_delete_Some. intros [_ ?]. by apply (A13 q' y).
  - intros e x q' [Hx _]%He. by apply (A14 e).
Qed.

Lemma inv_unset_g s : qinv s → qinv (set_k_g None s).
Proof.
  intros I. destruct I as [A1 A2 A3 A4 A4' A5 A6 A7 A8 A9 A10 A11 A12 A13 A14]. split; cbn; auto; [|done].
  intros q c Hq Hh. destruct (A9 q c Hq Hh) as (K1 & K2 & K3 & K4 & K5). by split_and!.
Qed.

Lemma inv_set_g s q c :
  qinv s → k_ctx s !! q = Some c → ready c → established c → q_hs_ev c = None → hw q = q_count c → qinv (set_k_g (Some q) s).
Proof.
  intros I Hq R E Hh W. destruct I as [A1 A2 A3 A4 A4' A5 A6 A7 A8 A9 A10 A11 A12 A13 A14]. split; cbn; auto.
  - intros q' c' Hq' Hh'. destruct (A9 q' c' Hq' Hh') as (K1 & K2 & K3 & K4 & K5). split_and!; auto.
    intros [= <-]. simplify_eq. rewrite Hh in Hh'. by destruct Hh'.
  - intros q' [= <-]. exists c. by split_and!.
Qed.

(** ** What an operation on one context leaves alone *)

Record only (q : positive) (s s' : qworld) : Prop := {
  on_ctx : ∀ q', q' ≠ q → k_ctx s' !! q' = k_ctx s !! q';
  on_ev : ∀ e x, k_ev s !! e = Some x → cb_ctx (e_cb x) ≠ q → k_ev s' !! e = Some x;
  on_ev' : ∀ e x, k_ev s' !! e = Some x → cb_ctx (e_cb x) ≠ q → k_ev s !! e = Some x;
}.

Lemma only_refl q s : only q s s.
Proof. split; auto. Qed.
Lemma only_trans q s1 s2 s3 : only q s1 s2 → only q s2 s3 → only q s1 s3.
Proof. intros [A1 A2 A3] [B1 B2 B3]. split; auto. intros q' H. by rewrite B1, A1. Qed.

(** The operation worked on a context that stays, made no event, left the
    handshake timer and gave the caller nothing. *)
Record local (q : positive) (s s' : qworld) : Prop := {
  l_ctx : ∃ c c', k_ctx s !! q = Some c ∧ k_ctx s' !! q = Some c' ∧ narrows (hw q) c c' ∧ q_count c' = q_count c ∧ q_stream c' = q_stream c;
  l_only : only q s s';
  l_g : k_g s' = k_g s;
  l_next : k_next s' = k_next s;
  l_evs : ∀ e x', k_ev s' !! e = Some x' → ∃ x, k_ev s !! e = Some x ∧ e_cb x' = e_cb x ∧ (e_cb x = QHs q → x' = x);
  l_delivered : ∀ q', delivered q' (k_log s') = delivered q' (k_log s);
}.

Lemma local_refl q s c : k_ctx s !! q = Some c → local q s s.
Proof. intros H. split; eauto using only_refl. exists c, c. split_and!; auto using narrows_refl. Qed.
Lemma local_trans q s1 s2 s3 : local q s1 s2 → local q s2 s3 → local q s1 s3.
Proof.
  intros [(c & c' & C1 & C2 & C3 & C4 & C5) A2 A3 A4 A5 A6] [(d & d' & D1 & D2 & D3 & D4 & D5) B2 B3 B4 B5 B6]. split.
  - simplify_eq. exists c, d'. split_and!; eauto using narrows_trans; congruence.
  - eauto using only_trans.
  - congruence.
  - congruence.
  - intros e x3 H3. destruct (B5 e x3 H3) as (x2 & H2 & E2 & K2). destruct (A5 e x2 H2) as (x1 & H1 & E1 & K1).
    exists x1. split_and!; [done|congruence|]. intros E. rewrite K2 by congruence. auto.
  - intros q'. by rewrite B6, A6.
Qed.

Lemma local_no_work q s s' : local q s s' → no_work q (k_ev s) → no_work q (k_ev s').
Proof. intros L W e x i H. destruct (l_evs _ _ _ L e x H) as (y & Hy & -> & _). by eapply W. Qed.
Lemma local_idle_hs q s s' : local q s s' → idle_hs q (k_ev s) → idle_hs q (k_ev s').
Proof. intros L W e x H E. destruct (l_evs _ _ _ L e x H) as (y & Hy & Ey & K). rewrite K by congruence. apply (W e y); congruence. Qed.

(** An operation on a context with a complete set-up that keeps the invariant;
    [est] when it may give data to a stream. *)
Definition op_ok {A} (est : bool) (q : positive) (m : Q A) : Prop :=
  ∀ s c, qinv s → k_ctx s !! q = Some c → ready c → (est = true → established c) →
  wpq m (λ _ s', qinv s' ∧ local q s s') s.

Lemma op_ok_weaken {A} est q (m : Q A) : op_ok false q m → op_ok est q m.
Proof. intros H s c I Hq R _. by eapply H. Qed.

Lemma op_ok_next est q s c s' :
  k_ctx s !! q = Some c → ready c → (est = true → established c) → local q s s' →
  ∃ c', k_ctx s' !! q = Some c' ∧ ready c' ∧ (est = true → established c') ∧ narrows (hw q) c c' ∧ q_count c' = q_count c ∧ q_stream c' = q_stream c.
Proof.
  intros Hq R E L. destruct (l_ctx _ _ _ L) as (c0 & c' & H0 & H' & N & C & S). simplify_eq.
  exists c'. split_and!; eauto using narrows_ready, narrows_established.
Qed.

Lemma op_ok_bind {A B} est q (m : Q A) (f : A → Q B) :
  op_ok est q m → (∀ a, op_ok est q (f a)) → op_ok est q (qbind m f).
Proof.
  intros Hm Hf s c I Hq R E. eapply wpq_seq; [by eapply Hm|]. intros a s' [I' L].
  destruct (op_ok_next est q s c s' Hq R E L) as (c' & Hq' & R' & E' & _).
  eapply wpq_mono; [by eapply Hf|]. intros b s2 [I2 L2]. eauto using local_trans.
Qed.
Lemma op_ok_ret {A} est q (a : A) : op_ok est q (qret a).
Proof. intros s c I Hq R _. apply wpq_ret. eauto using local_refl. Qed.
Lemma op_ok_ask {A} est q (f : nat → A) : op_ok est q (qask f).
Proof.
  intros s c I Hq R _. apply wpq_ask. split; [by apply inv_tick|]. split; eauto; [|by split].
  exists c, c. split_and!; auto using narrows_refl.
Qed.
Lemma op_ok_when est q b m : (b = true → op_ok est q m) → op_ok est q (qwhen b m).
Proof. destruct b; intros H; [by apply H|apply op_ok_ret]. Qed.
(** Reading the context first. *)
Lemma op_ok_ctx {A} est q (f : qctx → Q A) :
  (∀ s c, qinv s → k_ctx s !! q = Some c → ready c → (est = true → established c) → wpq (f c) (λ _ s', qinv s' ∧ local q s s') s) →
  op_ok est q (c <~ qctx_of q ;; f c).
Proof. intros H s c I Hq R E. apply wpq_bind. eapply wpq_ctx; eauto. Qed.

Lemma local_log q s x c :
  k_ctx s !! q = Some c → (∀ q', delivers q' x = false) → local q s (set_k_log (k_log s ++ [x]) s).
Proof.
  intros Hq Hx. split; cbn; eauto; [|by split|].
  - exists c, c. split_and!; auto using narrows_refl.
  - intros q'. rewrite delivered_app. unfold delivered at 2. cbn. rewrite Hx. cbn. lia.
Qed.

Definition neutral (x : qout) : bool := match x with OStream _ _ _ | OCall _ _ => false | _ => true end.
Lemma op_ok_log est q x : neutral x = true → op_ok est q (qlog x).
Proof.
  intros Hx s c I Hq R _. apply wpq_log. split; [|eapply local_log; eauto; by destruct x].
  apply inv_log; [done| |]; intros q'; by destruct x.
Qed.
Lemma op_ok_log_stream q sid d : op_ok true q (qlog (OStream q sid d)).
Proof.
  intros s c I Hq R E. apply wpq_log. split; [|by eapply local_log]. apply inv_log; [done| |done].
  intros q' <-. exists c. split; [done|]. by apply E.
Qed.

Lemma local_ctx_put q s c c' :
  k_ctx s !! q = Some c → narrows (hw q) c c' → q_count c' = q_count c → q_stream c' = q_stream c →
  local q s (set_k_ctx (<[q := c']> (k_ctx s)) s).
Proof.
  intros Hq N C S. split; cbn; eauto.
  - exists c, c'. rewrite lookup_insert_eq. by split_and!.
  - split; cbn; auto. intros q' Hn. by rewrite lookup_insert_ne.
Qed.
Lemma op_ok_upd est q f :
  (∀ c, narrows (hw q) c (f c)) → (∀ c, q_count (f c) = q_count c) → (∀ c, q_stream (f c) = q_stream c) → op_ok est q (qupd q f).
Proof.
  intros N C S s c I Hq R _. eapply wpq_upd; [done|]. split; [by eapply inv_ctx_put|by eapply local_ctx_put].
Qed.

(** The updates of flags. *)
Lemma narrows_flag n c c' :
  (∀ cb, refs n c' cb = refs n c cb) → (∀ d, bufs n c' d = bufs n c d) → q_slots c' = q_slots c → q_count c' = q_count c →
  (q_confirmed c = true → q_confirmed c' = true) → (0 ≤ q_stream c → 0 ≤ q_stream c') → narrows n c c'.
Proof.
  intros Hr Hb Hs Hc H1 H2. split; auto.
  - intros cb e. by rewrite Hr.
  - intros d p. by rewrite Hb.
  - exact (Hb None).
  - by rewrite Hs, Hc.
Qed.
Lemma narrows_draining n v c : narrows n c (set_draining v c).
Proof. by apply narrows_flag; try (by intros []). Qed.
Lemma narrows_done n v c : narrows n c (set_done v c).
Proof. by apply narrows_flag; try (by intros []). Qed.
Lemma narrows_confirmed n c : narrows n c (set_confirmed true c).
Proof. by apply narrows_flag; try (by intros []). Qed.
Lemma narrows_cb n v c : narrows n c (set_cb v c).
Proof. by apply narrows_flag; try (by intros []). Qed.
Lemma narrows_tls n v c : narrows n c (set_tls v c).
Proof. by apply narrows_flag; try (by intros []). Qed.
Lemma narrows_udp_fd n v c : narrows n c (set_udp_fd v c).
Proof. by apply narrows_flag; try (by intros []). Qed.
Lemma narrows_pair n a b c : narrows n c (set_pair a b c).
Proof. by apply narrows_flag; try (by intros []). Qed.
Lemma narrows_stream n sid c : 0 ≤ sid → narrows n c (set_stream sid c).
Proof. intros. by apply narrows_flag; try (by intros []). Qed.

#[local] Hint Resolve narrows_refl narrows_draining narrows_done narrows_confirmed narrows_cb narrows_tls narrows_udp_fd narrows_pair
  op_ok_ret op_ok_ask op_ok_log_stream : quic.

(** ** The operations on one connection *)

Lemma local_ev_put q s c e x x' :
  k_ctx s !! q = Some c → k_ev s !! e = Some x → e_cb x' = e_cb x → cb_ctx (e_cb x) = q → e_cb x ≠ QHs q →
  local q s (set_k_ev (<[e := x']> (k_ev s)) s).
Proof.
  intros Hq Hx Hcb Hc Hn. split; cbn; eauto.
  - exists c, c. split_and!; auto using narrows_refl.
  - split; cbn; auto; intros e' y.
    + intros Hy Hyq. rewrite lookup_insert_ne; [done|]. intros <-. congruence.
    + rewrite lookup_insert_Some. intros [[<- <-]|[_ ?]] Hyq; [congruence|done].
  - intros e' y. rewrite lookup_insert_Some. intros [[<- <-]|[_ ?]]; [|eauto]. exists x. split_and!; [done|done|]. intros E. congruence.
Qed.

(** An event of the context is added, deleted or activated. *)
Lemma wpq_own_event q s c cb e (f : qevent → qevent) :
  qinv s → k_ctx s !! q = Some c → cb_ctx cb = q → cb ≠ QHs q → refs (hw q) c cb = Some e →
  (∀ x, e_cb (f x) = e_cb x) → (∀ x, e_persist (f x) = e_persist x) →
  (∀ x, ev_pending (f x) = true → ev_pending x = true ∨ runnable (k_ctx s) e cb) →
  wpq (x <~ qev_of e ;; qput_ev e (f x)) (λ _ s', qinv s' ∧ local q s s') s.
Proof.
  intros I Hq Hcb Hn Hr Hf Hps Hp. destruct (i_refs s I q c cb e Hq Hcb Hr) as (x & Hx & Ex).
  apply wpq_bind. eapply wpq_ev; [done|]. apply wpq_mod. split.
  - eapply inv_ev_put; eauto. rewrite Ex. apply Hp.
  - eapply local_ev_put; eauto; congruence.
Qed.

Lemma wpq_event_add q s c cb e d :
  qinv s → k_ctx s !! q = Some c → cb_ctx cb = q → cb ≠ QHs q → refs (hw q) c cb = Some e → is_work cb = false → ready c →
  (cb = QSp q → established c) →
  wpq (event_add e d) (λ _ s', qinv s' ∧ local q s s') s.
Proof.
  intros I Hq Hcb Hn Hr Hw R E. apply (wpq_own_event q s c cb e (λ x, mkQEv (e_fd x) (e_cb x) (e_persist x) true (e_active x) d)); auto. intros x _. right. exists c.
  split; [by rewrite Hcb|]. destruct cb; try discriminate; cbn in Hcb; subst; by split_and!.
Qed.

Lemma wpq_event_del q s c cb e :
  qinv s → k_ctx s !! q = Some c → cb_ctx cb = q → cb ≠ QHs q → refs (hw q) c cb = Some e →
  wpq (event_del e) (λ _ s', qinv s' ∧ local q s s') s.
Proof.
  intros I Hq Hcb Hn Hr. apply (wpq_own_event q s c cb e (λ x, mkQEv (e_fd x) (e_cb x) (e_persist x) false false (e_delay x))); auto. done.
Qed.

(** An optional field of events is deleted. *)
Lemma wpq_opt_del q s c cb :
  qinv s → k_ctx s !! q = Some c → cb_ctx cb = q → cb ≠ QHs q →
  wpq (qopt (refs (hw q) c cb) event_del) (λ _ s', qinv s' ∧ local q s s') s.
Proof.
  intros I Hq Hcb Hn. destruct (refs (hw q) c cb) as [e|] eqn:E; cbn; [by eapply wpq_event_del|].
  apply wpq_ret. eauto using local_refl.
Qed.

Lemma local_same q s s' c :
  k_ctx s !! q = Some c → k_ctx s' = k_ctx s → k_ev s' = k_ev s → k_g s' = k_g s → k_next s' = k_next s → k_log s' = k_log s →
  local q s s'.
Proof.
  intros Hq H1 H2 H3 H4 H5. split; auto.
  - exists c, c. rewrite H1. split_and!; auto using narrows_refl.
  - split; by rewrite ?H1, ?H2.
  - rewrite H2. eauto.
  - by rewrite H5.
Qed.

(** A buffer of the context changes. *)
Lemma wpq_put_buf q s c d p v :
  qinv s → k_ctx s !! q = Some c → bufs (hw q) c d = Some p → wpq (put_buf p v) (λ _ s', qinv s' ∧ local q s s' ∧ k_ctx s' = k_ctx s) s.
Proof.
  intros I Hq Hb. destruct (i_bufs s I q c d p Hq Hb) as [b E]. apply wpq_mod.
  split_and!; [by eapply inv_buf_put|by eapply local_same|done].
Qed.

(** *** Slots *)

Lemma wpq_slot q s c i r P : k_ctx s !! q = Some c → q_slots c !! i = Some r → P r s → wpq (qslot q i) P s.
Proof. intros Hq Hr H. apply wpq_bind. eapply wpq_ctx; [done|]. rewrite Hr. by apply wpq_ret. Qed.
Lemma wpq_put_slot q s c i r r' P :
  k_ctx s !! q = Some c → q_slots c !! i = Some r →
  P () (set_k_ctx (<[q := set_slots (<[i := r']> (q_slots c)) c]> (k_ctx s)) s) → wpq (qput_slot q i r') P s.
Proof. intros Hq Hr H. apply wpq_bind. eapply wpq_ctx; [done|]. rewrite Hr. by apply wpq_mod. Qed.
(** A slot written again. *)
Lemma wpq_reput_slot q s m c l i r1 r' P :
  k_ctx s = <[q := set_slots (<[i := r1]> l) c]> m → (i < length l)%nat →
  P () (set_k_ctx (<[q := set_slots (<[i := r']> l) c]> m) s) → wpq (qput_slot q i r') P s.
Proof.
  intros E Hi H. eapply wpq_put_slot; [by rewrite E, lookup_insert_eq|cbn; by apply list_lookup_insert_eq|].
  rewrite E, insert_insert_eq. cbn. by rewrite list_insert_insert_eq.
Qed.

Lemma refs_work n c q i r : q_slots c !! i = Some r → (i < n)%nat → refs n c (QWork q i) = r_ev r.
Proof. intros Hr Hi%Nat.ltb_lt. unfold refs. by rewrite Hi, Hr. Qed.
Lemma bufs_work n c i r : q_slots c !! i = Some r → (i < n)%nat → bufs n c (Some i) = r_buf r.
Proof. intros Hr Hi%Nat.ltb_lt. unfold bufs. by rewrite Hi, Hr. Qed.

Lemma narrows_slot n c i r r' :
  q_slots c !! i = Some r → (r_ev r' = r_ev r ∨ r_ev r' = None) → (r_buf r' = r_buf r ∨ r_buf r' = None) →
  narrows n c (set_slots (<[i := r']> (q_slots c)) c).
Proof.
  intros Hi He Hb. assert (Hl : (i < length (q_slots c))%nat) by by eapply lookup_lt_Some. split; cbn; auto.
  - intros cb e. destruct cb as [| | | |q j]; auto. cbn. case_if; [|done].
    destruct (decide (i = j)) as [<-|]; [rewrite list_lookup_insert_eq by done|by rewrite list_lookup_insert_ne].
    rewrite Hi. cbn. destruct He; congruence.
  - by intros [].
  - intros [j|] p; [|done]. cbn. case_if; [|done].
    destruct (decide (i = j)) as [<-|]; [rewrite list_lookup_insert_eq by done|by rewrite list_lookup_insert_ne].
    rewrite Hi. cbn. destruct Hb; congruence.
  - by rewrite length_insert.
Qed.

(** What a context no longer refers to can be released. *)
Lemma inv_drop_ev s q c cb e x :
  qinv s → k_ctx s !! q = Some c → cb_ctx cb = q → refs (hw q) c cb = None → k_ev s !! e = Some x → e_cb x = cb →
  qinv (set_k_ev (delete e (k_ev s)) s).
Proof.
  intros I Hq Hcb Hr Hx Ex. apply inv_del_ev; [done|]. intros q0 c0 cb0 H0 Hc0 Hr0.
  destruct (i_refs s I q0 c0 cb0 e H0 Hc0 Hr0) as (y & Hy & Ey). simplify_eq.
Qed.
Lemma dropped_buf s q c c' d p :
  qinv s → k_ctx s !! q = Some c → bufs (hw q) c d = Some p → narrows (hw q) c c' → bufs (hw q) c' d = None →
  ∀ q0 c0 d0, <[q := c']> (k_ctx s) !! q0 = Some c0 → bufs (hw q0) c0 d0 ≠ Some p.
Proof.
  intros I Hq Hb N Hn q0 c0 d0. rewrite lookup_insert_Some. intros [[<- <-]|[Hne H0]] B.
  - destruct (i_uniq s I q q c c d0 d p Hq Hq) as [_ ->]; [by apply (n_bufs _ _ _ N)|done|congruence].
  - by destruct (i_uniq s I q q0 c c0 d d0 p Hq H0).
Qed.
Lemma local_ev_del q s c e x :
  k_ctx s !! q = Some c → k_ev s !! e = Some x → cb_ctx (e_cb x) = q → local q s (set_k_ev (delete e (k_ev s)) s).
Proof.
  intros Hq Hx Hc. split; cbn; eauto.
  - exists c, c. split_and!; auto using narrows_refl.
  - split; cbn; auto; intros e' y.
    + intros Hy Hyq. rewrite lookup_delete_ne; [done|]. intros <-. congruence.
    + by rewrite lookup_delete_Some; intros [_ ?].
  - intros e' y. rewrite lookup_delete_Some. intros [_ ?]. eauto.
Qed.

Lemma find_slot_some test c i r :
  find_slot test c = Some (i, r) → q_slots c !! i = Some r ∧ (i < q_count c)%nat ∧ test r = true.
Proof.
  intros (H & T & _)%list_find_Some. apply lookup_take_Some in H. tauto.
Qed.

Section Ops.
Context (o : qoutside).

Lemma op_evbuffer_write est q dst p s c d :
  qinv s → k_ctx s !! q = Some c → ready c → (est = true → established c) → bufs (hw q) c d = Some p →
  wpq (evbuffer_write o q dst p) (λ _ s', qinv s' ∧ local q s s') s.
Proof.
  intros I Hq R E Hb. destruct (i_bufs s I q c d p Hq Hb) as [b Eb].
  apply wpq_bind. eapply wpq_buf; [done|]. apply wpq_bind, wpq_ask.
  set (s1 := set_k_tick (S (k_tick s)) s). set (n := o_write o (k_tick s) b).
  assert (I1 : qinv s1) by by apply inv_tick. assert (L1 : local q s s1) by by eapply local_same.
  unfold qwhen. destruct (0 <? n); [|apply wpq_ret; eauto].
  eapply wpq_seq; [by eapply (wpq_put_buf q s1 c d p)|]. intros [] s2 (I2 & L2 & C2).
  eapply wpq_mono; [eapply (op_ok_log est q (ODown q dst (ztake n b)) eq_refl s2 c); eauto; by rewrite C2|].
  intros [] s3 [I3 L3]. eauto using local_trans.
Qed.

Lemma op_flush_sp est q : op_ok est q (qc_flush_sp o q).
Proof.
  apply op_ok_ctx. intros s c I Hq R E. destruct R as (R1 & R2 & R3 & [p R4]). rewrite R4. cbn.
  destruct (i_bufs s I q c None p Hq R4) as [b Eb]. apply wpq_bind. eapply wpq_buf; [done|].
  unfold qwhen. destruct (negb _); [|apply wpq_ret; eauto using local_refl].
  apply (op_evbuffer_write est q None p s c None); auto. unfold ready. rewrite R4. split_and!; eauto.
Qed.

Lemma op_run_hs est q h : op_ok est q (run_hs_event q h).
Proof.
  destruct h as [rv completed| |]; cbn.
  - unfold qc_recv_crypto. destruct (negb _); [auto with quic|].
    apply op_ok_ctx. intros s c I Hq R E. eapply wpq_seq with (R := λ _ s', qinv s' ∧ local q s s').
    { unfold qwhen. destruct (negb _ && _); [|apply wpq_ret; eauto using local_refl].
      apply wpq_mod. split; [eapply inv_ctx_put|eapply local_ctx_put]; eauto with quic. }
    intros _ s1 [I1 L1]. destruct (op_ok_next est q s c s1 Hq R E L1) as (c1 & Hq1 & R1 & E1 & _).
    eapply wpq_mono with (P := λ _ s', qinv s' ∧ local q s1 s'); [|intros _ s2 [I2 L2]; eauto using local_trans].
    eapply (op_ok_ctx est q (λ c, qwhen (completed && negb (q_done c)) (qlog (OTlsDone q)) ;~ qret true)); eauto.
    intros s2 c2 I2 Hq2 R2 E2. eapply (op_ok_bind est q); eauto with quic. apply op_ok_when. intros _. by apply op_ok_log.
  - unfold qc_handshake_done. apply op_ok_bind; [|auto with quic]. apply op_ok_upd; auto with quic.
  - unfold qc_handshake_confirmed. apply op_ok_bind; [|auto with quic]. apply op_ok_upd; auto with quic.
Qed.

Lemma op_run_calls {A} est q (f : A → Q bool) l : (∀ x, op_ok est q (f x)) → op_ok est q (run_calls f l).
Proof.
  intros H. induction l as [|x l IH]; cbn; [apply op_ok_ret|]. apply op_ok_bind; [done|]. intros []; [done|apply op_ok_ret].
Qed.

Lemma op_write_loop est q ws : op_ok est q (write_loop o q ws).
Proof.
  induction ws as [|[hs r] ws IH]; cbn; [apply op_ok_ret|].
  apply op_ok_bind; [apply op_run_calls, op_run_hs|]. intros ok.
  destruct (if ok then r else _) as [p| |[]]; auto using op_ok_ret.
  apply op_ok_bind; [apply op_ok_ask|]. intros []; [|apply op_ok_ret]. apply op_ok_bind; [by apply op_ok_log|done].
Qed.

Lemma op_add_timer est q d :
  op_ok est q (c <~ qctx_of q ;; e <~ qptr (q_timer_ev c) ;; event_add e d ;~ qret true).
Proof.
  apply op_ok_ctx. intros s c I Hq R E. destruct (R) as (R1 & [e R2] & R3 & R4). rewrite R2. cbn.
  apply wpq_bind, wpq_ret. eapply wpq_seq; [by eapply (wpq_event_add q s c (QTimer q) e)|]. intros [] s' H. by apply wpq_ret.
Qed.

Lemma op_write_udp est q : op_ok est q (qc_write_udp o q).
Proof.
  apply op_ok_ctx. intros s c I Hq R E. destruct (q_draining c); [apply wpq_ret; eauto using local_refl|].
  eapply (op_ok_bind est q); [auto with quic| |eauto..]. intros ws. apply op_ok_bind; [apply op_write_loop|]. intros ok.
  destruct (negb ok); [apply op_ok_ret|]. apply op_ok_bind; [auto with quic|]. intros exp.
  destruct (exp =? _); [apply op_ok_ret|]. apply op_ok_bind; [auto with quic|]. intros now. apply op_add_timer.
Qed.

Lemma op_writev q sid d : op_ok true q (ng_writev o q sid d).
Proof.
  unfold ng_writev. apply op_ok_bind; [auto with quic|]. intros [hs [r n]]. apply op_ok_bind; [apply op_run_calls, op_run_hs|].
  intros ok. destruct (negb ok); [apply op_ok_ret|].
  destruct r; [apply op_ok_bind; auto with quic..|apply op_ok_ret].
Qed.

Lemma op_send_packet est q w : op_ok est q (send_packet o q w).
Proof.
  destruct w; cbn; [|apply op_ok_ret..]. apply op_ok_bind; [auto with quic|]. intros sent. apply op_ok_when. intros _. by apply op_ok_log.
Qed.
#[local] Hint Resolve op_flush_sp op_run_hs op_run_calls op_write_udp op_writev op_send_packet : quic.

(** The state after an optional release. *)
Definition del_opt {A} (p : option positive) (m : gmap positive A) : gmap positive A :=
  match p with Some p => delete p m | None => m end.

Lemma wpq_opt_free_ev p s P :
  (∀ e, p = Some e → is_Some (k_ev s !! e)) → P () (set_k_ev (del_opt p (k_ev s)) s) → wpq (qopt p event_free) P s.
Proof.
  intros H K. destruct p as [e|]; cbn; [|apply wpq_ret; by destruct s]. destruct (H e eq_refl) as [x Hx].
  apply wpq_bind. eapply wpq_ev; [done|]. by apply wpq_mod.
Qed.
Lemma wpq_opt_free_buf p s P :
  (∀ e, p = Some e → is_Some (k_buf s !! e)) → P () (set_k_buf (del_opt p (k_buf s)) s) → wpq (qopt p evbuffer_free) P s.
Proof.
  intros H K. destruct p as [e|]; cbn; [|apply wpq_ret; by destruct s]. destruct (H e eq_refl) as [x Hx].
  apply wpq_bind. eapply wpq_buf; [done|]. by apply wpq_mod.
Qed.

(** A slot in use gives up its buffer and perhaps its event. *)
Lemma release_slot s q c i r fd fds evp :
  qinv s → k_ctx s !! q = Some c → q_slots c !! i = Some r → (i < hw q)%nat → evp = None ∨ evp = r_ev r →
  let c' := set_slots (<[i := mkRelay (r_sid r) fd None (match evp with None => r_ev r | Some _ => None end)]> (q_slots c)) c in
  let s' := mkQW (<[q := c']> (k_ctx s)) (del_opt evp (k_ev s)) (del_opt (r_buf r) (k_buf s)) (k_bev s) fds (k_g s) (k_next s) (k_tick s) (k_log s) in
  qinv s' ∧ local q s s'.
Proof.
  intros I Hq Hr Hi Hevp c' s'.
  assert (Hl : (i < length (q_slots c))%nat) by by eapply lookup_lt_Some.
  assert (N : narrows (hw q) c c') by (eapply narrows_slot; [done|destruct evp; cbn; auto|cbn; auto]).
  set (s1 := set_k_ctx (<[q := c']> (k_ctx s)) s).
  assert (I1 : qinv s1) by by eapply inv_ctx_put. assert (L1 : local q s s1) by by eapply local_ctx_put.
  assert (Hq1 : k_ctx s1 !! q = Some c') by apply lookup_insert_eq.
  set (s2 := set_k_ev (del_opt evp (k_ev s1)) s1).
  assert (qinv s2 ∧ local q s1 s2) as [I2 L2].
  { destruct evp as [e|] eqn:Ee; cbn in s2; [|split; [exact I1|by eapply local_same]].
    assert (Re : r_ev r = Some e) by naive_solver.
    destruct (i_refs s I q c (QWork q i) e Hq eq_refl) as (x & Hx & Ex); [by rewrite (refs_work (hw q) c q i r)|].
    split; [|apply (local_ev_del q s1 c' e x); auto; by rewrite Ex].
    eapply (inv_drop_ev s1 q c' (QWork q i) e x); auto. by erewrite refs_work by (done || by apply list_lookup_insert_eq). }
  set (s3 := set_k_buf (del_opt (r_buf r) (k_buf s2)) s2).
  assert (qinv s3 ∧ local q s2 s3) as [I3 L3].
  { split; [|by eapply local_same]. destruct (r_buf r) as [p|] eqn:Ep; [|exact I2]. apply inv_del_buf; [done|].
    apply (dropped_buf s q c c' (Some i) p); auto; [by rewrite (bufs_work (hw q) c i r)|by erewrite bufs_work by (done || by apply list_lookup_insert_eq)]. }
  split; [exact (inv_fds s3 fds I3)|]. eapply local_trans; [exact L1|]. eapply local_trans; [exact L2|].
  eapply local_trans; [exact L3|]. by eapply local_same.
Qed.

Lemma op_close_relay est q sid : op_ok est q (close_relay q sid).
Proof.
  apply op_ok_ctx. intros s c I Hq R E. destruct (find_slot _ c) as [[i r]|] eqn:F; [|apply wpq_ret; eauto using local_refl].
  apply find_slot_some in F as (Hr & Hi & _). pose proof (i_shape s I q c Hq) as [_ [Hcnt _]].
  assert (Hi' : (i < hw q)%nat) by lia.
  assert (Hl : (i < length (q_slots c))%nat) by by eapply lookup_lt_Some.
  apply wpq_bind. eapply wpq_slot; [done..|]. apply wpq_bind, wpq_opt_free_ev.
  { intros e Ee. destruct (i_refs s I q c (QWork q i) e Hq eq_refl) as (x & Hx & _); [by rewrite (refs_work (hw q) c q i r)|by exists x]. }
  apply wpq_bind. eapply wpq_put_slot; [done..|]. cbn.
  apply wpq_bind. apply wpq_mono with (P := λ _ s', s' = set_k_fds (if 0 <=? r_fd r then k_fds s ∖ {[r_fd r]} else k_fds s)
     (set_k_ctx (<[q := set_slots (<[i := mkRelay (r_sid r) (r_fd r) (r_buf r) None]> (q_slots c)) c]> (k_ctx s)) (set_k_ev (del_opt (r_ev r) (k_ev s)) s))).
  { unfold qwhen. destruct (0 <=? r_fd r); [by apply wpq_mod|by apply wpq_ret]. }
  intros [] s1 ->. apply wpq_bind. eapply wpq_reput_slot; [done..|]. apply wpq_bind, wpq_opt_free_buf.
  { intros p Ep. apply (i_bufs s I q c (Some i) p Hq). by rewrite (bufs_work (hw q) c i r). }
  eapply wpq_reput_slot; [done..|]. cbn.
  destruct (release_slot s q c i r (if 0 <=? r_fd r then -1 else r_fd r) (if 0 <=? r_fd r then k_fds s ∖ {[r_fd r]} else k_fds s) (r_ev r) I Hq Hr Hi' (or_intror eq_refl)) as [K1 K2].
  destruct (r_ev r); [done|done].
Qed.
#[local] Hint Resolve op_close_relay : quic.

Lemma op_recv_stream est q fin sid d : op_ok est q (qc_recv_stream o q fin sid d).
Proof.
  unfold qc_recv_stream. apply op_ok_ctx. intros s c I Hq R E.
  eapply wpq_seq with (R := λ _ s', qinv s' ∧ local q s s'); [|intros _ s' H; by apply wpq_ret].
  case_if; [case_if; [by eapply (op_ok_log est q)|by eapply op_close_relay]|].
  case_if; [apply wpq_ret; eauto using local_refl|]. case_if.
  - destruct (find_slot _ c) as [[i r]|] eqn:F; [|apply wpq_ret; eauto using local_refl].
    apply find_slot_some in F as (Hr & Hi & _). pose proof (i_shape s I q c Hq) as [_ [Hcnt _]].
  assert (Hi' : (i < hw q)%nat) by lia.
    destruct (r_buf r) as [p|] eqn:Ep; cbn; [|apply wpq_ret; eauto using local_refl].
    assert (Hb : bufs (hw q) c (Some i) = Some p) by (by rewrite (bufs_work (hw q) c i r)).
    destruct (i_bufs s I q c (Some i) p Hq Hb) as [b Eb]. apply wpq_bind. apply wpq_bind. eapply wpq_buf; [done|].
    eapply wpq_mono; [by eapply (wpq_put_buf q s c (Some i) p)|]. intros [] s1 (I1 & L1 & C1).
    eapply wpq_mono; [eapply (op_evbuffer_write est q (Some i) p s1 c (Some i)); eauto; by rewrite C1|].
    intros _ s2 [I2 L2]. eauto using local_trans.
  - destruct (R) as (R1 & R2 & R3 & [p R4]). rewrite R4. apply wpq_bind, wpq_ret.
    destruct (i_bufs s I q c None p Hq R4) as [b Eb]. apply wpq_bind. apply wpq_bind. eapply wpq_buf; [done|].
    eapply wpq_mono; [by eapply (wpq_put_buf q s c None p)|]. intros [] s1 (I1 & L1 & C1).
    eapply wpq_mono; [eapply (op_flush_sp est q s1 c); eauto; by rewrite C1|].
    intros _ s2 [I2 L2]. eauto using local_trans.
Qed.

Lemma op_stream_close est q sid : op_ok est q (qc_stream_close q sid).
Proof.
  unfold qc_stream_close. apply op_ok_ctx. intros s c I Hq R E.
  eapply (op_ok_bind est q); [|auto with quic|eauto..]. case_if; [|auto with quic].
  apply op_ok_when. intros _. by apply op_ok_log.
Qed.

Lemma op_run_ng est q e : op_ok est q (run_ng_event o q e).
Proof. destruct e; cbn; [apply op_run_hs|apply op_recv_stream|apply op_stream_close|apply op_ok_ret..]. Qed.

Lemma op_ng_call est q a : op_ok est q (ng_call o q a).
Proof. unfold ng_call. apply op_ok_bind; [apply op_run_calls, op_run_ng|auto with quic]. Qed.

End Ops.

(** ** Releasing a context *)

Lemma del_opt_Some {A} p (m : gmap positive A) e x : del_opt p m !! e = Some x ↔ p ≠ Some e ∧ m !! e = Some x.
Proof. destruct p as [p|]; cbn; [rewrite lookup_delete_Some|]; naive_solver. Qed.

(** The events of a context that [qc_free] frees. *)
Definition free_events (c : qctx) (evs : gmap positive qevent) : gmap positive qevent :=
  del_opt (q_sp_ev c) (del_opt (q_timer_ev c) (del_opt (q_udp_ev c) evs)).

Lemma free_events_Some c evs e x :
  free_events c evs !! e = Some x ↔ evs !! e = Some x ∧ q_udp_ev c ≠ Some e ∧ q_timer_ev c ≠ Some e ∧ q_sp_ev c ≠ Some e.
Proof. unfold free_events. rewrite !del_opt_Some. tauto. Qed.

(** The references of a context to an event of another kind. *)
Lemma refs_cb s q c cb e x : qinv s → k_ctx s !! q = Some c → cb_ctx cb = q → refs (hw q) c cb = Some e → k_ev s !! e = Some x → e_cb x = cb.
Proof. intros I Hq Hc Hr Hx. destruct (i_refs s I q c cb e Hq Hc Hr) as (y & Hy & ?). congruence. Qed.

Lemma freed_ctx_ok s q c :
  qinv s → k_ctx s !! q = Some c → k_g s ≠ Some q → no_work q (k_ev s) → idle_hs q (k_ev s) →
  qinv (set_k_ev (free_events c (k_ev s)) (set_k_ctx (delete q (k_ctx s)) s)).
Proof.
  intros I Hq G W Hid. apply inv_del_ctx; [done..| |].
  - intros e x (Hx & N1 & N2 & N3)%free_events_Some. split; [done|]. intros Hc. apply not_true_iff_false. intros Hp.
    destruct (i_pend s I e x Hx Hp) as (c0 & H0 & K). rewrite Hc in H0. assert (c0 = c) as -> by congruence.
    destruct (e_cb x) eqn:Ex; cbn in Hc; subst; try (by destruct K).
    + by rewrite (Hid e x Hx Ex) in Hp.
    + by eapply W.
  - intros e x Hx Hc. apply free_events_Some. split_and!; [done|..]; intros E; apply Hc.
    + by rewrite (refs_cb s q c (QUdp q) e x).
    + by rewrite (refs_cb s q c (QTimer q) e x).
    + by rewrite (refs_cb s q c (QSp q) e x).
Qed.

Lemma refs_live s q c cb e : qinv s → k_ctx s !! q = Some c → cb_ctx cb = q → refs (hw q) c cb = Some e → is_Some (k_ev s !! e).
Proof. intros I Hq Hc Hr. destruct (i_refs s I q c cb e Hq Hc Hr) as (y & Hy & ?). by exists y. Qed.

(** Freed events of other kinds stay. *)
Lemma del_other s q c cb cb' e :
  qinv s → k_ctx s !! q = Some c → cb_ctx cb = q → cb_ctx cb' = q → cb ≠ cb' → refs (hw q) c cb = Some e →
  refs (hw q) c cb' ≠ Some e.
Proof.
  intros I Hq Hc Hc' Hn Hr Hr'. destruct (i_refs s I q c cb e Hq Hc Hr) as (x & Hx & Ex).
  by rewrite (refs_cb s q c cb' e x) in Ex.
Qed.

Lemma wpq_qc_free q s c :
  qinv s → k_ctx s !! q = Some c → no_work q (k_ev s) → idle_hs q (k_ev s) →
  wpq (qc_free q) (λ _ s', qinv s' ∧ only q s s' ∧ k_ctx s' !! q = None) s.
Proof.
  intros I Hq W Hid. apply wpq_bind, wpq_mod.
  set (s1 := if bool_decide (k_g s = Some q) then set_k_g None s else s).
  assert (I1 : qinv s1) by (unfold s1; case_bool_decide; [by apply inv_unset_g|done]).
  assert (k_g s1 ≠ Some q ∧ k_ctx s1 = k_ctx s ∧ k_ev s1 = k_ev s) as (G1 & C1 & V1) by (unfold s1; by case_bool_decide).
  clearbody s1. rewrite <- C1 in Hq. rewrite <- V1 in W, Hid.
  apply wpq_bind. eapply wpq_ctx; [done|].
  apply wpq_bind, wpq_opt_free_ev; [intros e E; by apply (refs_live s1 q c (QUdp q))|].
  apply wpq_bind, wpq_opt_free_ev.
  { intros e E. destruct (refs_live s1 q c (QTimer q) e I1 Hq eq_refl E) as [x Hx]. exists x. cbn. apply del_opt_Some. split; [|done].
    by apply (del_other s1 q c (QTimer q) (QUdp q)). }
  apply wpq_bind, wpq_opt_free_ev.
  { intros e E. destruct (refs_live s1 q c (QSp q) e I1 Hq eq_refl E) as [x Hx]. exists x. cbn. apply del_opt_Some.
    split; [by apply (del_other s1 q c (QSp q) (QTimer q))|]. apply del_opt_Some. split; [|done]. by apply (del_other s1 q c (QSp q) (QUdp q)). }
  apply wpq_bind, wpq_opt_free_buf; [intros p E; by apply (i_bufs s1 I1 q c None)|]. cbn.
  set (s2 := mkQW (delete q (k_ctx s1)) (free_events c (k_ev s1)) (del_opt (q_out c) (k_buf s1)) (k_bev s1) (k_fds s1) (k_g s1) (k_next s1) (k_tick s1) (k_log s1)).
  assert (I2 : qinv s2).
  { pose proof (freed_ctx_ok s1 q c I1 Hq G1 W Hid) as J. destruct (q_out c) as [p|] eqn:Ep; [|exact J].
    apply (inv_del_buf _ p J). intros q0 c0 d. cbn. rewrite lookup_delete_Some. intros [Hn H0] B.
    by destruct (i_uniq s1 I1 q q0 c c0 None d p). }
  assert (O2 : only q s s2).
  { split; cbn; rewrite ?C1, ?V1; [intros q' Hn; by rewrite lookup_delete_ne| |].
    - intros e x Hx Hc. apply free_events_Some. rewrite <- V1 in Hx. split_and!; [congruence|..]; intros E; apply Hc.
      + by rewrite (refs_cb s1 q c (QUdp q) e x).
      + by rewrite (refs_cb s1 q c (QTimer q) e x).
      + by rewrite (refs_cb s1 q c (QSp q) e x).
    - intros e x (Hx & _)%free_events_Some _. done. }
  assert (D2 : k_ctx s2 !! q = None) by apply lookup_delete_eq.
  assert (Fin : ∀ v, qinv (set_k_fds v s2) ∧ only q s (set_k_fds v s2) ∧ k_ctx (set_k_fds v s2) !! q = None).
  { intros v. split_and!; [by apply inv_fds|destruct O2; by split|done]. }
  unfold qwhen, close. destruct (0 <=? q_udp_fd c), (0 <=? q_sp_fd c);
    (apply wpq_bind; first [apply wpq_mod|apply wpq_ret]; apply wpq_bind; first [apply wpq_mod|apply wpq_ret]; apply wpq_mod; apply Fin).
Qed.

End Invariant.
#[export] Hint Resolve narrows_refl narrows_draining narrows_done narrows_confirmed narrows_cb narrows_tls narrows_udp_fd narrows_pair
  op_ok_ret op_ok_ask op_ok_log_stream : quic.

Lemma qinv_init : qinv (λ _, 0%nat) quic_init.
Proof.
  split; unfold quic_init; cbn; intros; try (by rewrite lookup_empty in *); try done; unfold delivered; cbn; try lia.
Qed.

