(* ===== verification/QuicRun.v ===== *)
(** * The handlers of the QUIC transport

    Every event handler and every call of [Quic] keeps the invariant of
    [QuicSafe] and never uses freed memory, whatever the order in which they
    happen. *)

From S2P Require Import Prelude Quic QuicSafe.

(** The invariant, for some history of the slots. *)
Definition okq (s : qworld) : Prop := ∃ hw, qinv hw s.

Lemma wpq_okq {A} hw (m : Q A) P s : wpq m (λ _ s', qinv hw s' ∧ P s') s → wpq m (λ _ s', okq s') s.
Proof. intros H. eapply wpq_mono; [done|]. intros a s' [I _]. by exists hw. Qed.

(** ** The completion callback *)

(** What the caller's code must leave: contexts stay, and it opens no work
    stream on them and arms no handshake timer of theirs. *)
Definition calm (s s' : qworld) : Prop :=
  ∀ q c, k_ctx s !! q = Some c →
  is_Some (k_ctx s' !! q) ∧ (no_work q (k_ev s) → no_work q (k_ev s')) ∧ (idle_hs q (k_ev s) → idle_hs q (k_ev s')).

Definition hs_cb_ok (hs_cb : option positive → Q ()) : Prop :=
  ∀ r hw s, qinv hw s → wpq (hs_cb r) (λ _ s', okq s' ∧ (r = None → calm s s')) s.

(** What is documented of ngtcp2: streams have non-negative numbers; and there
    is memory for buffers. *)
Definition outside_ok (o : qoutside) : Prop :=
  (∀ t sid, o_open_stream o t = Some sid → 0 ≤ sid) ∧ (∀ t, o_buf_alloc o t = true).

Section Handlers.
Context (o : qoutside) (hs_cb : option positive → Q ()) (Ho : outside_ok o) (Cb : hs_cb_ok hs_cb).

Lemma wpq_call_none hw q s c :
  qinv hw s → k_ctx s !! q = Some c → wpq (call_hs_cb hs_cb q None) (λ _ s', okq s' ∧ calm s s') s.
Proof.
  intros I Hq. apply wpq_bind. eapply wpq_ctx; [done|]. unfold qwhen. destruct (q_cb c).
  2: { apply wpq_ret. split; [by exists hw|]. intros q' c' H'. eauto. }
  apply wpq_bind, wpq_log. eapply wpq_mono; [apply (Cb None hw)|].
  - apply inv_log; [done|done|done].
  - intros [] s' [I' K]. split; [done|]. intros q' c' H'. by apply (K eq_refl q' c').
Qed.

Lemma wpq_call_some hw q s c b :
  qinv hw s → k_ctx s !! q = Some c → q_hs_ev c = None → delivered q (k_log s) = 0%nat →
  wpq (call_hs_cb hs_cb q (Some b)) (λ _ s', okq s') s.
Proof.
  intros I Hq Hh D. apply wpq_bind. eapply wpq_ctx; [done|]. unfold qwhen. destruct (q_cb c); [|apply wpq_ret; by eexists].
  apply wpq_bind, wpq_log. eapply wpq_mono; [apply (Cb (Some b) hw)|by intros [] s' [I' _]].
  apply inv_log; [done|done|]. intros q' E. cbn in E. apply bool_decide_eq_true in E as <-. eauto.
Qed.

(** The caller is told of a failure and the context goes. *)
Lemma wpq_give_up hw q s c :
  qinv hw s → k_ctx s !! q = Some c → no_work q (k_ev s) → idle_hs q (k_ev s) →
  wpq (call_hs_cb hs_cb q None ;~ qc_free q) (λ _ s', okq s') s.
Proof.
  intros I Hq W Hid. eapply wpq_seq; [by eapply wpq_call_none|]. intros [] s1 [[hw1 I1] K].
  destruct (K q c Hq) as ([c1 Hq1] & W1 & H1). eapply wpq_mono; [eapply wpq_qc_free; eauto|]. intros _ s2 (I2 & _). by exists hw1.
Qed.

Lemma wpq_fail_connection hw q s c :
  qinv hw s → k_ctx s !! q = Some c → ready c → wpq (fail_connection hs_cb q) (λ _ s', okq s') s.
Proof.
  intros I Hq R. eapply wpq_seq; [eapply (op_ok_upd hw false q); eauto with quic; done|]. intros [] s1 [I1 L1].
  destruct (op_ok_next hw false q s c s1 Hq R ltac:(done) L1) as (c1 & Hq1 & R1 & _).
  apply wpq_bind. eapply wpq_ctx; [done|]. eapply wpq_seq; [by eapply (wpq_opt_del hw q s1 c1 (QUdp q))|]. intros [] s2 [I2 L2].
  destruct (op_ok_next hw false q s1 c1 s2 Hq1 R1 ltac:(done) L2) as (c2 & Hq2 & R2 & _).
  apply wpq_bind. eapply wpq_ctx; [done|]. unfold qwhen. case_if; [|apply wpq_ret; by eexists].
  eapply wpq_mono; [by eapply wpq_call_none|]. by intros [] s3 [I3 _].
Qed.

(** An operation that is then followed by nothing. *)
Lemma op_ok_safe {A} hw est q (m : Q A) s c :
  op_ok hw est q m → qinv hw s → k_ctx s !! q = Some c → ready c → (est = true → established c) → wpq m (λ _ s', okq s') s.
Proof. intros H I Hq R E. by eapply wpq_okq, H. Qed.

Lemma op_flush_write hw est q : op_ok hw est q (qc_flush_sp o q ;~ qc_write_udp o q ;~ qret ()).
Proof. apply op_ok_bind; [apply op_flush_sp|]. intros _. apply op_ok_bind; [apply op_write_udp|]. intros _. apply op_ok_ret. Qed.

Lemma wpq_udp_read hw q s c :
  qinv hw s → k_ctx s !! q = Some c → ready c → wpq (qc_udp_read_cb o hs_cb q) (λ _ s', okq s') s.
Proof.
  intros I Hq R. apply wpq_bind, wpq_ask. set (s1 := set_k_tick _ s). assert (I1 : qinv hw s1) by by apply inv_tick.
  destruct (o_recvfrom o _) as [pkt|]; [|apply wpq_ret; by eexists]. case_if; [apply wpq_ret; by eexists|].
  eapply wpq_seq; [by eapply (op_ok_ask hw false q)|]. intros a s2 [I2 L2].
  destruct (op_ok_next hw false q s1 c s2 Hq R ltac:(done) L2) as (c2 & Hq2 & R2 & _).
  eapply wpq_seq; [by eapply (op_ng_call hw o false q)|]. intros rv s3 [I3 L3].
  destruct (op_ok_next hw false q s2 c2 s3 Hq2 R2 ltac:(done) L3) as (c3 & Hq3 & R3 & _).
  destruct rv as [e|]; [destruct (o_fatal o e)|]; [by eapply wpq_fail_connection|by eapply op_ok_safe; [apply (op_flush_write hw false)|..]..].
Qed.

Lemma wpq_timer hw q s c :
  qinv hw s → k_ctx s !! q = Some c → ready c → wpq (qc_timer_cb o hs_cb q) (λ _ s', okq s') s.
Proof.
  intros I Hq R. apply wpq_bind. eapply wpq_ctx; [done|]. destruct (q_draining c); [apply wpq_ret; by eexists|].
  eapply wpq_seq; [by eapply (op_ok_ask hw false q)|]. intros a s2 [I2 L2].
  destruct (op_ok_next hw false q s c s2 Hq R ltac:(done) L2) as (c2 & Hq2 & R2 & _).
  eapply wpq_seq; [by eapply (op_ng_call hw o false q)|]. intros rv s3 [I3 L3].
  destruct (op_ok_next hw false q s2 c2 s3 Hq2 R2 ltac:(done) L3) as (c3 & Hq3 & R3 & _).
  apply wpq_bind. eapply wpq_ctx; [done|].
  assert (K : wpq (qc_write_udp o q ;~ qret ()) (λ _ s', okq s') s3).
  { eapply (op_ok_safe hw false q); eauto; [|done]. apply op_ok_bind; [apply op_write_udp|auto with quic]. }
  destruct rv as [e|]; [case_if|]; [by eapply wpq_fail_connection|done..].
Qed.

Lemma wpq_sp_read hw fd q s c :
  qinv hw s → k_ctx s !! q = Some c → ready c → established c → wpq (qc_sp_read_cb o fd q) (λ _ s', okq s') s.
Proof.
  intros I Hq R E. apply wpq_bind. eapply wpq_ctx; [done|]. destruct (q_draining c); [apply wpq_ret; by eexists|].
  eapply wpq_seq; [by eapply (op_ok_ask hw true q)|]. intros x s1 [I1 L1].
  destruct (op_ok_next hw true q s c s1 Hq R ltac:(done) L1) as (c1 & Hq1 & R1 & E1 & _).
  destruct x as [[|b d]|]; [apply wpq_ret; by eexists| |apply wpq_ret; by eexists].
  eapply wpq_seq; [by eapply op_writev|]. intros [w n] s2 [I2 L2].
  destruct (op_ok_next hw true q s1 c1 s2 Hq1 R1 E1 L2) as (c2 & Hq2 & R2 & E2 & _).
  assert (K : wpq (send_packet o q w ;~ qc_write_udp o q ;~ qret ()) (λ _ s', okq s') s2).
  { eapply (op_ok_safe hw true q); eauto. apply op_ok_bind; [apply op_send_packet|]. intros _. apply op_ok_bind; [apply op_write_udp|auto with quic]. }
  destruct w as [p| |[]]; try done; try (apply wpq_ret; by eexists).
  eapply wpq_seq; [eapply (op_ok_upd hw false q (set_draining true)); eauto with quic; done|]. intros [] s3 [I3 L3].
  destruct (op_ok_next hw false q s2 c2 s3 Hq2 R2 ltac:(done) L3) as (c3 & Hq3 & R3 & _).
  apply wpq_bind. eapply wpq_ctx; [done|]. eapply wpq_seq; [by eapply (wpq_opt_del hw q s3 c3 (QUdp q))|]. intros [] s4 [I4 L4].
  destruct (op_ok_next hw false q s3 c3 s4 Hq3 R3 ltac:(done) L4) as (c4 & Hq4 & R4 & _ & N4 & _).
  pose proof (n_keep _ _ _ N4 (QSp q) eq_refl) as K4. change (q_sp_ev c3) with (refs (hw q) c3 (QSp q)). rewrite <- K4.
  by eapply wpq_okq, (wpq_opt_del hw q s4 c4 (QSp q)).
Qed.

(** *** The handshake timer *)

Lemma wpq_rearm hw q s c :
  qinv hw s → k_ctx s !! q = Some c → is_Some (q_hs_ev c) → wpq (rearm_hs_timer q) (λ _ s', okq s') s.
Proof.
  intros I Hq Hh. destruct (i_hs hw s I q c Hq Hh) as (R & _). destruct Hh as [e Hh].
  destruct (i_refs hw s I q c (QHs q) e Hq eq_refl Hh) as (x & Hx & Ex).
  apply wpq_bind. eapply wpq_ctx; [done|]. rewrite Hh. apply wpq_bind, wpq_ret. apply wpq_bind. eapply wpq_ev; [done|].
  apply wpq_mod. exists hw. eapply inv_ev_put; eauto. intros _. right. rewrite Ex. exists c. by split_and!.
Qed.

Lemma wpq_clear_hs hw q s c e (P : () → qworld → Prop) :
  qinv hw s → k_ctx s !! q = Some c → q_hs_ev c = Some e → idle_hs q (k_ev s) →
  (let s' := set_k_ctx (<[q := set_hs_ev None c]> (k_ctx s)) (set_k_ev (delete e (k_ev s)) s) in qinv hw s' → P () s') →
  wpq (event_del e ;~ event_free e ;~ qupd q (set_hs_ev None)) P s.
Proof.
  intros I Hq Hh Hid HP. destruct (i_refs hw s I q c (QHs q) e Hq eq_refl Hh) as (x & Hx & Ex).
  apply wpq_bind. apply wpq_bind. eapply wpq_ev; [done|]. apply wpq_mod.
  apply wpq_bind. apply wpq_bind. eapply wpq_ev; [apply lookup_insert_eq|]. apply wpq_mod. cbn. rewrite delete_insert_eq.
  eapply wpq_upd; [done|]. apply HP. pose proof (inv_clear_hs hw s q c I Hq Hid) as I1.
  eapply (inv_drop_ev hw _ q (set_hs_ev None c) (QHs q) e x I1); [apply lookup_insert_eq|done..].
Qed.

(** A new bufferevent. *)
Record grows (s s' : qworld) : Prop := {
  g_ctx : k_ctx s' = k_ctx s; g_ev : k_ev s' = k_ev s; g_g : k_g s' = k_g s; g_log : k_log s' = k_log s;
  g_buf : k_buf s' = k_buf s }.
Lemma wpq_new_bev hw fd s : qinv hw s → wpq (bufferevent_socket_new o fd) (λ _ s', qinv hw s' ∧ grows s s') s.
Proof.
  intros I. apply wpq_bind, wpq_ask. destruct (o_alloc o _); cbn [negb]; [|apply wpq_ret; split; [by apply inv_tick|by split]].
  apply wpq_bind. eexists _, _. split; [done|]. apply wpq_bind, wpq_mod, wpq_ret. split; [|by split].
  apply inv_bev, inv_next; [by apply inv_tick|cbn; lia].
Qed.

Lemma wpq_finish hw q s c :
  qinv hw s → k_ctx s !! q = Some c → ready c → established c → q_hs_ev c = None →
  no_work q (k_ev s) → idle_hs q (k_ev s) → delivered q (k_log s) = 0%nat → hw q = q_count c →
  wpq (finish_handshake o hs_cb q) (λ _ s', okq s') s.
Proof.
  intros I Hq R E Hh W Hid D Hc.
  eapply wpq_seq; [eapply (op_ok_upd hw true q (set_draining false)); eauto with quic|]. intros [] s1 [I1 L1].
  destruct (op_ok_next hw true q s c s1 Hq R ltac:(done) L1) as (c1 & Hq1 & R1 & E1 & N1 & _).
  apply wpq_bind, wpq_mod. set (s2 := set_k_g (Some q) s1).
  assert (W2 : no_work q (k_ev s2)) by by eapply (local_no_work hw q s s1).
  assert (H2 : idle_hs q (k_ev s2)) by by eapply (local_idle_hs hw q s s1).
  assert (D2 : delivered q (k_log s2) = 0%nat) by by rewrite <- D; apply (l_delivered _ _ _ _ L1).
  assert (Hh1 : q_hs_ev c1 = None) by by rewrite (narrows_hs _ _ _ N1).
  assert (I2 : qinv hw s2) by (eapply inv_set_g; eauto; by destruct (n_shape _ _ _ N1) as [_ ->]).
  apply wpq_bind. eapply wpq_ctx; [done|]. destruct (R1) as (_ & _ & [e Re] & _). rewrite Re. apply wpq_bind, wpq_ret.
  eapply wpq_seq; [eapply (wpq_event_add hw q s2 c1 (QSp q) e); eauto|]. intros [] s3 [I3 L3].
  destruct (op_ok_next hw true q s2 c1 s3 Hq1 R1 E1 L3) as (c3 & Hq3 & R3 & E3 & N3 & _).
  apply (local_no_work hw _ _ _ L3) in W2. apply (local_idle_hs hw _ _ _ L3) in H2. rewrite <- (l_delivered _ _ _ _ L3) in D2.
  eapply wpq_seq; [by apply wpq_new_bev|]. intros bev s4 [I4 [G1 G2 G3 G4 _]].
  rewrite <- G1 in Hq3. rewrite <- G2 in W2, H2. rewrite <- G4 in D2.
  destruct bev as [b|]; [|by eapply wpq_give_up].
  apply wpq_bind. eapply wpq_upd; [done|]. eapply wpq_call_some; [|apply lookup_insert_eq| |done].
  - eapply inv_ctx_put; eauto with quic.
  - cbn. by rewrite (narrows_hs _ _ _ N3).
Qed.

Lemma wpq_hs_timer hw q s c :
  qinv hw s → k_ctx s !! q = Some c → is_Some (q_hs_ev c) → idle_hs q (k_ev s) →
  wpq (qc_handshake_timer_cb o hs_cb q) (λ _ s', okq s') s.
Proof.
  intros I Hq Hh Hid. destruct (i_hs hw s I q c Hq Hh) as (R & _).
  apply wpq_bind. eapply wpq_ctx; [done|]. eapply wpq_seq; [by eapply (op_write_udp hw o false q)|]. intros _ s1 [I1 L1].
  destruct (op_ok_next hw false q s c s1 Hq R ltac:(done) L1) as (c1 & Hq1 & R1 & _ & N1 & _).
  rewrite <- (narrows_hs _ _ _ N1) in Hh. apply (local_idle_hs hw _ _ _ L1) in Hid. clear dependent s c.
  destruct (i_hs hw s1 I1 q c1 Hq1 Hh) as (_ & G & W & D & C). destruct (i_shape hw s1 I1 q c1 Hq1) as [_ [Cn _]].
  apply wpq_bind. eapply wpq_ctx; [done|].
  assert (Re : wpq (rearm_hs_timer q) (λ _ s', okq s') s1) by by eapply wpq_rearm.
  case_if; [case_if|].
  - by eapply wpq_give_up.
  - eapply wpq_seq; [eapply (op_ok_upd hw false q (set_draining false)); eauto with quic; done|]. intros [] s2 [I2 L2].
    destruct (op_ok_next hw false q s1 c1 s2 Hq1 R1 ltac:(done) L2) as (c2 & Hq2 & R2 & _ & N2 & _).
    eapply wpq_rearm; eauto. by rewrite (narrows_hs _ _ _ N2).
  - case_if; [done|]. case_if; [done|]. destruct Hh as [e Hh]. rewrite Hh. cbn [qopt]. apply wpq_bind.
    eapply wpq_clear_hs; eauto. cbv zeta. set (s2 := set_k_ctx _ _). intros I2.
    assert (Hq2 : k_ctx s2 !! q = Some (set_hs_ev None c1)) by apply lookup_insert_eq.
    assert (W2 : no_work q (k_ev s2)) by (intros e' x i; cbn; rewrite lookup_delete_Some; intros [_ ?]; by eapply W).
    assert (H2 : idle_hs q (k_ev s2)) by (intros e' x; cbn; rewrite lookup_delete_Some; intros [_ ?]; by eapply Hid).
    assert (Hcf : q_confirmed c1 = true) by by destruct (q_confirmed c1).
    case_if; [|eapply wpq_finish; eauto; [by split|cbn; lia]].
    apply wpq_bind, wpq_ask. destruct (o_open_stream o _) as [sid|] eqn:Eo; [|eapply wpq_give_up; eauto; by apply inv_tick].
    apply (proj1 Ho) in Eo. apply wpq_bind. eapply wpq_upd; [done|].
    eapply (wpq_finish hw); [|apply lookup_insert_eq|..]; auto; [|by split|cbn; lia].
    eapply inv_ctx_put; [by apply inv_tick|done|by apply narrows_stream].
Qed.

(** *** Work streams *)

(** The relay of a slot that was given to a stream. *)
Lemma slot_exists hw s q c i :
  qinv hw s → k_ctx s !! q = Some c → (i < hw q)%nat → ∃ r, q_slots c !! i = Some r.
Proof.
  intros I Hq Hi. destruct (i_shape hw s I q c Hq) as [L1 [_ L2]]. destruct (lookup_lt_is_Some_2 (q_slots c) i) as [r Hr]; [lia|]. by exists r.
Qed.

Lemma wpq_active hw s q c i r :
  qinv hw s → k_ctx s !! q = Some c → q_slots c !! i = Some r → (i < hw q)%nat →
  wpq (qopt (r_ev r) event_active) (λ _ s', okq s') s.
Proof.
  intros I Hq Hr Hi. destruct (r_ev r) as [e|] eqn:Ee; cbn; [|apply wpq_ret; by exists hw].
  destruct (i_refs hw s I q c (QWork q i) e Hq eq_refl) as (x & Hx & Ex); [by rewrite (refs_work (hw q) c q i r)|].
  apply wpq_bind. eapply wpq_ev; [done|]. apply wpq_mod. exists hw. eapply inv_ev_put; eauto.
  intros _. right. rewrite Ex. by exists c.
Qed.

(** A new buffer. *)
Lemma wpq_new_buf hw s (P : option positive → qworld → Prop) :
  qinv hw s →
  (∀ t, let s' := set_k_buf (<[k_next s := []]> (k_buf s)) (set_k_next (Pos.succ (k_next s)) (set_k_tick t s)) in
        qinv hw s' → P (Some (k_next s)) s') →
  wpq (evbuffer_new o) P s.
Proof.
  intros I H. apply wpq_bind, wpq_ask. rewrite (proj2 Ho). cbn [negb]. apply wpq_bind. eexists _, _. split; [done|].
  apply wpq_bind, wpq_mod, wpq_ret. apply H. by apply (inv_new_buf hw (set_k_tick _ s)), inv_tick.
Qed.

(** A slot without a buffer gets a new one. *)
Lemma inv_gain_buf hw s q c i r p d :
  qinv hw s → k_ctx s !! q = Some c → q_slots c !! i = Some r → (i < hw q)%nat →
  k_buf s !! p = Some d → (∀ q0 c0 d0, k_ctx s !! q0 = Some c0 → bufs (hw q0) c0 d0 ≠ Some p) →
  qinv hw (set_k_ctx (<[q := set_slots (<[i := mkRelay (r_sid r) (r_fd r) (Some p) (r_ev r)]> (q_slots c)) c]> (k_ctx s)) s).
Proof.
  intros I Hq Hr Hi Hp Hu. assert (Hl : (i < length (q_slots c))%nat) by by eapply lookup_lt_Some.
  set (r' := mkRelay _ _ (Some p) _). set (c' := set_slots _ c).
  assert (Hrefs : ∀ cb, refs (hw q) c' cb = refs (hw q) c cb).
  { intros [| | | |q' j]; try done. unfold refs, c'. cbn [q_slots set_slots]. destruct (decide (i = j)) as [<-|].
    - by rewrite list_lookup_insert_eq, Hr.
    - by rewrite list_lookup_insert_ne. }
  assert (Hbi : bufs (hw q) c' (Some i) = Some p) by (rewrite (bufs_work _ c' i r'); [done|by apply list_lookup_insert_eq|done]).
  assert (Hbo : ∀ d, d ≠ Some i → bufs (hw q) c' d = bufs (hw q) c d).
  { intros [j|] Hn; [|done]. unfold bufs, c'. cbn [q_slots set_slots]. rewrite list_lookup_insert_ne; [done|congruence]. }
  eapply inv_ctx_any; eauto.
  - unfold c'. cbn. rewrite length_insert. exact (i_shape hw s I q c Hq).
  - intros cb e Hc. rewrite Hrefs. by apply (i_refs hw s I q c).
  - intros d0 p0 B. destruct (decide (d0 = Some i)) as [->|Hn]; [right|left; by rewrite <- Hbo].
    assert (p0 = p) as -> by congruence. split; [by exists d|done].
  - intros d1 d2 p0 B1 B2. destruct (decide (d1 = Some i)) as [->|N1], (decide (d2 = Some i)) as [->|N2]; [done|..].
    + rewrite Hbo in B2 by done. exfalso. eapply (Hu q c d2); [done|congruence].
    + rewrite Hbo in B1 by done. exfalso. eapply (Hu q c d1); [done|congruence].
    + rewrite Hbo in B1, B2 by done. by apply (i_uniq hw s I q q c c d1 d2 p0).
  - intros e x Hx Hpx Hc. destruct (i_pend hw s I e x Hx Hpx) as (c0 & H0 & K). rewrite Hc in H0. assert (c0 = c) as -> by congruence.
    exists c'. rewrite Hc, lookup_insert_eq. split; [done|]. destruct (e_cb x); cbn [cb_ctx] in Hc, K |- *; subst; try done; by rewrite Hrefs.
  - exact (i_hs hw s I q c Hq).
  - intros G. destruct (i_g hw s I q G) as (c0 & H0 & K). by simplify_eq.
  - intros. by apply (i_gate hw s I q c).
Qed.

Lemma wpq_work_consumed hw s q c i d n :
  qinv hw s → k_ctx s !! q = Some c → (i < hw q)%nat → wpq (work_consumed o q i d n) (λ _ s', okq s') s.
Proof.
  intros I Hq Hi. destruct (slot_exists hw s q c i I Hq Hi) as [r Hr].
  apply wpq_bind. eapply wpq_slot; [done..|].
  destruct (r_buf r) as [p|] eqn:Ep; cbn [pending].
  - assert (Hb : bufs (hw q) c (Some i) = Some p) by by rewrite (bufs_work (hw q) c i r).
    destruct (i_bufs hw s I q c (Some i) p Hq Hb) as [b Eb]. apply wpq_bind. eapply wpq_buf; [done|].
    destruct b as [|x b].
    + destruct (n <? zlen d); [|apply wpq_ret; by exists hw]. apply wpq_bind, wpq_ret.
      apply wpq_bind. apply wpq_bind. eapply wpq_buf; [done|].
      eapply wpq_mono; [by eapply (wpq_put_buf hw q s c (Some i))|]. intros [] s1 (I1 & _ & C1).
      eapply wpq_active; eauto. by rewrite C1.
    + apply wpq_bind. apply wpq_bind. eapply wpq_buf; [done|].
      eapply wpq_mono; [by eapply (wpq_put_buf hw q s c (Some i))|]. intros [] s1 (I1 & _ & C1). rewrite <- C1 in Hq.
      destruct (i_bufs hw s1 I1 q c (Some i) p Hq Hb) as [b1 Eb1]. apply wpq_bind. eapply wpq_buf; [done|].
      unfold qwhen. case_if; [by eapply wpq_active|apply wpq_ret; by exists hw].
  - apply wpq_bind, wpq_ret. destruct (n <? zlen d); [|apply wpq_ret; by exists hw].
    apply wpq_bind. apply wpq_bind. eapply wpq_new_buf; [done|]. cbv zeta. intros t I1. set (s1 := set_k_buf _ _) in *.
    apply wpq_bind. eapply (wpq_put_slot q s1 c); [done..|]. apply wpq_ret.
    assert (I2 := inv_gain_buf hw s1 q c i r (k_next s) [] I1 Hq Hr Hi (lookup_insert_eq _ _ _) (λ q0 c0 d0 H0, new_buf_unowned hw s q0 c0 d0 I H0)).
    set (s2 := set_k_ctx _ _) in *. apply wpq_bind. apply wpq_bind. eapply wpq_buf; [apply lookup_insert_eq|].
    apply wpq_mod. set (r' := mkRelay (r_sid r) (r_fd r) (Some (k_next s)) (r_ev r)). set (s3 := set_k_buf _ s2).
    assert (I3 : qinv hw s3) by by eapply inv_buf_put; [|apply lookup_insert_eq].
    change (r_ev r) with (r_ev r'). eapply (wpq_active hw s3 q _ i r'); [done|apply lookup_insert_eq| |done].
    cbn. apply list_lookup_insert_eq. by eapply lookup_lt_Some.
Qed.

(** The work of one connection [q] leaves the other contexts in place. *)
Lemma local_live hw q s s' q' c : local hw q s s' → k_ctx s !! q' = Some c → ∃ c', k_ctx s' !! q' = Some c'.
Proof.
  intros L H. destruct (decide (q' = q)) as [->|Hn].
  - destruct (l_ctx _ _ _ _ L) as (c0 & c' & _ & H' & _). by exists c'.
  - exists c. by rewrite (on_ctx _ _ _ (l_only _ _ _ _ L)).
Qed.

Lemma wpq_work_send hw s q c q' c' i sid d :
  qinv hw s → k_ctx s !! q = Some c → ready c → established c → k_ctx s !! q' = Some c' → (i < hw q')%nat →
  wpq (work_send o q q' i sid d) (λ _ s', okq s') s.
Proof.
  intros I Hq R E Hq' Hi. eapply wpq_seq; [by eapply op_writev|]. intros [w n] s1 [I1 L1].
  destruct (op_ok_next hw true q s c s1 Hq R ltac:(done) L1) as (c1 & Hq1 & R1 & E1 & _).
  destruct (local_live _ _ _ _ _ _ L1 Hq') as [c1' Hq1'].
  assert (K : wpq (send_packet o q w ;~ qc_write_udp o q ;~ work_consumed o q' i d (if 0 <=? n then n else zlen d)) (λ _ s', okq s') s1).
  { eapply wpq_seq; [by eapply (op_send_packet hw o true q)|]. intros [] s2 [I2 L2].
    destruct (op_ok_next hw true q s1 c1 s2 Hq1 R1 E1 L2) as (c2 & Hq2 & R2 & E2 & _).
    destruct (local_live _ _ _ _ _ _ L2 Hq1') as [c2' Hq2'].
    eapply wpq_seq; [by eapply (op_write_udp hw o true q)|]. intros _ s3 [I3 L3].
    destruct (local_live _ _ _ _ _ _ L3 Hq2') as [c3' Hq3']. by eapply wpq_work_consumed. }
  destruct w as [p| |[]]; try done; try (apply wpq_ret; by exists hw).
  eapply wpq_okq, (op_ok_upd hw false q (set_draining true)); eauto with quic; done.
Qed.

Lemma wpq_work_read hw fd s q c i :
  qinv hw s → k_ctx s !! q = Some c → (i < hw q)%nat → wpq (qc_work_sp_read_cb o fd q i) (λ _ s', okq s') s.
Proof.
  intros I Hq Hi. apply wpq_bind, wpq_get. destruct (k_g s) as [g|] eqn:Eg; [|apply wpq_ret; by exists hw].
  destruct (i_g hw s I g Eg) as (cg & Hg & R & E & _). apply wpq_bind. eapply wpq_ctx; [done|].
  destruct (q_draining cg); [apply wpq_ret; by exists hw|].
  destruct (slot_exists hw s q c i I Hq Hi) as [r Hr]. apply wpq_bind. eapply wpq_slot; [done..|].
  assert (Fresh : wpq (x <~ qask (λ t, o_read o t fd) ;; match x with None | Some [] => qret () | Some d => work_send o g q i (r_sid r) (ztake QC_RELAY_BUF_SIZE d) end) (λ _ s', okq s') s).
  { apply wpq_bind, wpq_ask. assert (I1 : qinv hw (set_k_tick (S (k_tick s)) s)) by by apply inv_tick.
    destruct (o_read o _ fd) as [[|b d]|]; try (apply wpq_ret; by exists hw). by eapply wpq_work_send. }
  destruct (r_buf r) as [p|] eqn:Ep; cbn [pending]; [|by apply wpq_bind, wpq_ret].
  assert (Hb : bufs (hw q) c (Some i) = Some p) by by rewrite (bufs_work (hw q) c i r).
  destruct (i_bufs hw s I q c (Some i) p Hq Hb) as [b Eb]. apply wpq_bind. eapply wpq_buf; [done|].
  destruct b as [|b0 b]; [done|]. apply wpq_bind, wpq_ask.
  set (s1 := set_k_tick _ s). assert (I1 : qinv hw s1) by by apply inv_tick.
  eapply wpq_seq with (R := λ _ s', qinv hw s' ∧ k_ctx s' = k_ctx s).
  { destruct (o_read o _ fd) as [[|b1 d]|]; try (by apply wpq_ret). apply wpq_bind. eapply wpq_buf; [done|].
    eapply wpq_mono; [by eapply (wpq_put_buf hw q s1 c (Some i))|]. by intros [] s2 (I2 & _ & C2). }
  intros [] s2 [I2 C2]. rewrite <- C2 in Hq, Hg. destruct (i_bufs hw s2 I2 q c (Some i) p Hq Hb) as [all Ea].
  apply wpq_bind. eapply wpq_buf; [done|]. by eapply wpq_work_send.
Qed.

Lemma wpq_send_initial hw s d : qinv hw s → wpq (quic_work_stream_send_initial o d) (λ _ s', okq s') s.
Proof.
  intros I. apply wpq_bind, wpq_get. destruct (k_g s) as [q|] eqn:Eg; [|apply wpq_ret; by exists hw].
  destruct d as [d|]; [|apply wpq_ret; by exists hw].
  destruct (i_g hw s I q Eg) as (c & Hq & R & E & _ & Hhw). apply wpq_bind. eapply wpq_ctx; [done|].
  case_if; [apply wpq_ret; by exists hw|]. destruct (q_count c) as [|i] eqn:Ec; [apply wpq_ret; by exists hw|].
  destruct (slot_exists hw s q c i I Hq) as [r Hr]; [lia|]. apply wpq_bind. eapply wpq_slot; [done..|].
  eapply wpq_seq; [by eapply op_writev|]. intros [w n] s1 [I1 L1].
  destruct (op_ok_next hw true q s c s1 Hq R ltac:(done) L1) as (c1 & Hq1 & R1 & E1 & _).
  destruct w as [p| |]; try (apply wpq_ret; by exists hw).
  eapply wpq_seq; [by eapply (op_ok_ask hw true q)|]. intros sent s2 [I2 L2].
  destruct (op_ok_next hw true q s1 c1 s2 Hq1 R1 E1 L2) as (c2 & Hq2 & R2 & E2 & _).
  destruct (negb sent); [apply wpq_ret; by exists hw|].
  eapply (op_ok_safe hw true q); eauto. apply op_ok_bind; [by apply op_ok_log|]. intros _. apply op_ok_bind; [apply op_write_udp|auto with quic].
Qed.

(** *** Reset *)

Lemma local_calm hw q s s' : local hw q s s' → calm s s'.
Proof.
  intros L q' c H. destruct (local_live _ _ _ _ _ _ L H) as [c' H']. split_and!; [by exists c'|..].
  - intros W e x i Hx. destruct (l_evs _ _ _ _ L e x Hx) as (y & Hy & -> & _). by eapply W.
  - intros Hid e x Hx Ex. destruct (l_evs _ _ _ _ L e x Hx) as (y & Hy & Ey & K). destruct (decide (q' = q)) as [->|Hn].
    + rewrite K by congruence. apply (Hid e y); congruence.
    + apply (Hid e x); [|done]. apply (on_ev' _ _ _ (l_only _ _ _ _ L)); [done|]. by rewrite Ex.
Qed.
Lemma qcalm_refl s : calm s s.
Proof. intros q c H. eauto. Qed.
Lemma qcalm_trans s1 s2 s3 : calm s1 s2 → calm s2 s3 → calm s1 s3.
Proof.
  intros A B q c H. destruct (A q c H) as ([c2 H2] & W2 & I2). destruct (B q c2 H2) as (H3 & W3 & I3). split_and!; auto.
Qed.
Lemma calm_same s s' : k_ctx s' = k_ctx s → k_ev s' = k_ev s → calm s s'.
Proof. intros E1 E2 q c H. rewrite E1, E2. split_and!; eauto. Qed.

Lemma inv_set_count hw s q c n :
  qinv hw s → k_ctx s !! q = Some c → k_g s ≠ Some q → (n ≤ hw q)%nat → qinv hw (set_k_ctx (<[q := set_count n c]> (k_ctx s)) s).
Proof.
  intros I Hq G Hn. eapply inv_ctx_any; eauto.
  - destruct (i_shape hw s I q c Hq) as [L1 L2]. split; [done|cbn; lia].
  - intros cb e Hc. by apply (i_refs hw s I q c).
  - intros d d' p B B'. by apply (i_uniq hw s I q q c c d d' p).
  - intros e x Hx Hp Hc. destruct (i_pend hw s I e x Hx Hp) as (c0 & H0 & K). rewrite Hc in H0. assert (c0 = c) as -> by congruence.
    exists (set_count n c). rewrite Hc, lookup_insert_eq. split; [done|]. by destruct (e_cb x); cbn [cb_ctx] in Hc, K |- *; subst.
  - exact (i_hs hw s I q c Hq).
  - done.
  - intros. by apply (i_gate hw s I q c).
Qed.

Lemma wpq_reset_relay hw s q c i :
  qinv hw s → k_ctx s !! q = Some c → (i < hw q)%nat → wpq (reset_relay q i) (λ _ s', qinv hw s' ∧ local hw q s s') s.
Proof.
  intros I Hq Hi. destruct (slot_exists hw s q c i I Hq Hi) as [r Hr].
  assert (Hl : (i < length (q_slots c))%nat) by by eapply lookup_lt_Some.
  apply wpq_bind. eapply wpq_slot; [done..|].
  apply wpq_bind. apply wpq_mono with (P := λ _ s', s' = set_k_fds (if 0 <=? r_fd r then k_fds s ∖ {[r_fd r]} else k_fds s) s).
  { unfold qwhen. destruct (0 <=? r_fd r); [by apply wpq_mod|apply wpq_ret; by destruct s]. }
  intros [] s1 ->. apply wpq_bind. eapply wpq_put_slot; [done..|]. cbn. apply wpq_bind, wpq_opt_free_buf.
  { intros p Ep. apply (i_bufs hw s I q c (Some i) p Hq). by rewrite (bufs_work (hw q) c i r). }
  eapply wpq_reput_slot; [done..|].
  exact (release_slot hw s q c i r (if 0 <=? r_fd r then -1 else r_fd r) (if 0 <=? r_fd r then k_fds s ∖ {[r_fd r]} else k_fds s) None I Hq Hr Hi (or_introl eq_refl)).
Qed.

Lemma wpq_reset_relays hw q l s c :
  qinv hw s → k_ctx s !! q = Some c → Forall (λ i, (i < hw q)%nat) l →
  wpq (qfor (reset_relay q) l) (λ _ s', qinv hw s' ∧ local hw q s s') s.
Proof.
  revert s c. induction l as [|i l IH]; intros s c I Hq Hl; cbn; [apply wpq_ret; eauto using local_refl|].
  apply Forall_cons in Hl as [Hi Hl]. eapply wpq_seq; [by eapply wpq_reset_relay|]. intros [] s1 [I1 L1].
  destruct (local_live _ _ _ _ _ _ L1 Hq) as [c1 Hq1]. eapply wpq_mono; [by eapply IH|]. intros [] s2 [I2 L2]. eauto using local_trans.
Qed.

Lemma wpq_reset hw s : qinv hw s → wpq quic_transport_reset (λ _ s', qinv hw s' ∧ calm s s' ∧ k_g s' = None) s.
Proof.
  intros I. apply wpq_bind, wpq_get. destruct (k_g s) as [q|] eqn:Eg; [|apply wpq_ret; eauto using qcalm_refl].
  destruct (i_g hw s I q Eg) as (c & Hq & R & E & Hh & Hhw). apply wpq_bind, wpq_mod. set (s1 := set_k_g None s).
  assert (I1 : qinv hw s1) by by apply inv_unset_g.
  eapply wpq_seq; [eapply (op_ok_upd hw false q (set_draining true)); eauto with quic; done|]. intros [] s2 [I2 L2].
  destruct (op_ok_next hw false q s1 c s2 Hq R ltac:(done) L2) as (c2 & Hq2 & R2 & _ & N2 & C2 & _).
  apply wpq_bind. eapply wpq_ctx; [done|].
  eapply wpq_seq; [by eapply (wpq_opt_del hw q s2 c2 (QUdp q))|]. intros [] s3 [I3 L3].
  destruct (op_ok_next hw false q s2 c2 s3 Hq2 R2 ltac:(done) L3) as (c3 & Hq3 & R3 & _ & N3 & C3 & _).
  pose proof (n_keep _ _ _ N3 (QSp q) eq_refl) as K3. change (q_sp_ev c2) with (refs (hw q) c2 (QSp q)). rewrite <- K3.
  eapply wpq_seq; [by eapply (wpq_opt_del hw q s3 c3 (QSp q))|]. intros [] s4 [I4 L4].
  destruct (local_live _ _ _ _ _ _ L4 Hq3) as [c4 Hq4].
  rewrite (narrows_hs _ _ _ N2), Hh. apply wpq_bind, wpq_ret.
  eapply wpq_seq; [eapply wpq_reset_relays; eauto; apply Forall_seq; intros; lia|]. intros [] s5 [I5 L5].
  destruct (local_live _ _ _ _ _ _ L5 Hq4) as [c5 Hq5]. eapply wpq_upd; [done|].
  assert (L : local hw q s1 s5) by eauto using local_trans. assert (G5 : k_g s5 = None) by exact (l_g _ _ _ _ L).
  split_and!; [eapply inv_set_count; eauto; [congruence|lia]| |done].
  apply qcalm_trans with s1; [by apply calm_same|]. apply qcalm_trans with s5; [by eapply local_calm|].
  intros q' c' H'. cbn. split_and!; auto. destruct (decide (q = q')) as [<-|]; [by rewrite lookup_insert_eq|by rewrite lookup_insert_ne].
Qed.

(** *** Opening a work stream *)

Definition hw_set (hw : positive → nat) (q : positive) (n : nat) : positive → nat := λ q', if bool_decide (q' = q) then n else hw q'.
Lemma hw_set_eq hw q n : hw_set hw q n q = n.
Proof. unfold hw_set. by rewrite bool_decide_eq_true_2. Qed.
Lemma hw_set_ne hw q n q' : q' ≠ q → hw_set hw q n q' = hw q'.
Proof. intros. unfold hw_set. by rewrite bool_decide_eq_false_2. Qed.

(** Writing a slot that no stream was given. *)
Lemma narrows_free_slot n c i r : (n ≤ i)%nat → narrows n c (set_slots (<[i := r]> (q_slots c)) c).
Proof.
  intros Hi. assert (Hr : ∀ cb, refs n (set_slots (<[i := r]> (q_slots c)) c) cb = refs n c cb).
  { intros [| | | |q j]; try done. unfold refs. cbn [q_slots set_slots]. destruct (j <? n)%nat eqn:E; [|done]. apply Nat.ltb_lt in E.
    by rewrite list_lookup_insert_ne by lia. }
  assert (Hb : ∀ d, bufs n (set_slots (<[i := r]> (q_slots c)) c) d = bufs n c d).
  { intros [j|]; [|done]. unfold bufs. cbn [q_slots set_slots]. destruct (j <? n)%nat eqn:E; [|done]. apply Nat.ltb_lt in E.
    by rewrite list_lookup_insert_ne by lia. }
  split; auto.
  - intros cb e. by rewrite Hr.
  - intros d p. by rewrite Hb.
  - split; [apply length_insert|done].
Qed.

(** The next slot of the global connection is taken. *)
Lemma inv_take_slot hw s q c sid fd p e x :
  qinv hw s → k_g s = Some q → k_ctx s !! q = Some c → (q_count c < QC_MAX_WORK_STREAMS)%nat →
  k_ev s !! e = Some x → e_cb x = QWork q (q_count c) →
  is_Some (k_buf s !! p) → (∀ q0 c0 d0, k_ctx s !! q0 = Some c0 → bufs (hw q0) c0 d0 ≠ Some p) →
  qinv (hw_set hw q (S (q_count c)))
    (set_k_ctx (<[q := set_slots (<[q_count c := mkRelay sid fd (Some p) (Some e)]> (q_slots c)) (set_count (S (q_count c)) c)]> (k_ctx s)) s).
Proof.
  intros I G Hq Hlt Hx Ex Hp Hu. destruct (i_g hw s I q G) as (c0 & H0 & R & E & Hh & Hhw). simplify_eq.
  destruct (i_shape hw s I q c Hq) as [Hlen _]. set (i := q_count c) in *. set (r := mkRelay _ _ _ _). set (c' := set_slots _ _).
  assert (Hi : q_slots c' !! i = Some r) by (apply list_lookup_insert_eq; lia).
  assert (Ho' : ∀ j, (j < i)%nat → q_slots c' !! j = q_slots c !! j) by (intros j Hj; apply list_lookup_insert_ne; lia).
  assert (Hrefs : ∀ cb, cb_ctx cb = q → cb ≠ QWork q i → refs (S i) c' cb = refs (hw q) c cb).
  { intros [| | | |q' j] Hc Hn; try done. unfold refs. cbn in Hc. subst q'. rewrite Hhw.
    destruct (Nat.lt_trichotomy j i) as [Hj|[->|Hj]]; [|done|].
    - apply Nat.ltb_lt in Hj as Hj'. rewrite Hj'. rewrite (proj2 (Nat.ltb_lt j (S i))) by lia. by rewrite Ho'.
    - rewrite !(proj2 (Nat.ltb_ge _ _)) by lia. done. }
  assert (Hbufs : ∀ d, d ≠ Some i → bufs (S i) c' d = bufs (hw q) c d).
  { intros [j|] Hn; [|done]. unfold bufs. rewrite Hhw. destruct (Nat.lt_trichotomy j i) as [Hj|[->|Hj]]; [|done|].
    - apply Nat.ltb_lt in Hj as Hj'. rewrite Hj'. rewrite (proj2 (Nat.ltb_lt j (S i))) by lia. by rewrite Ho'.
    - rewrite !(proj2 (Nat.ltb_ge _ _)) by lia. done. }
  assert (Hbi : bufs (S i) c' (Some i) = Some p) by (rewrite (bufs_work _ c' i r); [done|done|lia]).
  assert (Hri : refs (S i) c' (QWork q i) = Some e) by (rewrite (refs_work _ c' q i r); [done|done|lia]).
  destruct I as [A1 A2 A3 A4 A4' A5 A6 A7 A8 A9 A10 A11 A12 A13 A14]. split; cbn; auto.
  - intros q' y. rewrite lookup_insert_Some. intros [[<- _]|[_ ?]]; [by apply (A1 q c)|by apply (A1 q' y)].
  - intros q' y. rewrite lookup_insert_Some. intros [[<- <-]|[Hn ?]].
    + rewrite hw_set_eq. unfold c'. cbn. rewrite length_insert. lia.
    + rewrite hw_set_ne by done. by apply (A4 q' y).
  - intros q' Hn. rewrite hw_set_ne; [by apply A4'|]. intros ->. apply A1 in Hq. lia.
  - intros q' y cb e'. rewrite lookup_insert_Some. intros [[<- <-]|[Hn ?]] Hc.
    + rewrite hw_set_eq. destruct (decide (cb = QWork q i)) as [->|Hncb]; [rewrite Hri; intros [= <-]; eauto|].
      rewrite Hrefs by done. by apply (A5 q c).
    + rewrite hw_set_ne by done. by apply (A5 q' y).
  - intros q' y d p'. rewrite lookup_insert_Some. intros [[<- <-]|[Hn ?]].
    + rewrite hw_set_eq. destruct (decide (d = Some i)) as [->|Hd]; [rewrite Hbi; by intros [= <-]|]. rewrite Hbufs by done. by apply (A6 q c).
    + rewrite hw_set_ne by done. by apply (A6 q' y).
  - intros q1 q2 c1 c2 d1 d2 p'. rewrite !lookup_insert_Some.
    intros [[<- <-]|[N1 H1]] [[<- <-]|[N2 H2]]; rewrite ?hw_set_eq, ?hw_set_ne by done.
    + destruct (decide (d1 = Some i)) as [->|D1], (decide (d2 = Some i)) as [->|D2]; rewrite ?Hbi, ?Hbufs by done; intros B1 B2; [done|..].
      * exfalso. eapply Hu; [exact Hq|]. by rewrite B2.
      * exfalso. eapply Hu; [exact Hq|]. by rewrite B1.
      * by eapply A7.
    + destruct (decide (d1 = Some i)) as [->|D1]; rewrite ?Hbi, ?Hbufs by done; intros B1 B2; [|by eapply A7].
      exfalso. eapply Hu; [exact H2|]. by rewrite B2.
    + destruct (decide (d2 = Some i)) as [->|D2]; rewrite ?Hbi, ?Hbufs by done; intros B1 B2; [|by eapply A7].
      exfalso. eapply Hu; [exact H1|]. by rewrite B1.
    + intros B1 B2. by eapply A7.
  - intros e' y Hy Hpy. destruct (A8 e' y Hy Hpy) as (c1 & H1 & K). destruct (decide (cb_ctx (e_cb y) = q)) as [Hc|Hc].
    + rewrite Hc in H1. simplify_eq. exists c'. rewrite lookup_insert_eq. split; [done|]. rewrite hw_set_eq.
      destruct (e_cb y); cbn [cb_ctx] in *; try (by rewrite Hrefs). rewrite hw_set_eq. lia.
    + exists c1. rewrite lookup_insert_ne by done. split; [done|].
      destruct (e_cb y); cbn [cb_ctx] in *; by rewrite hw_set_ne.
  - intros q' y. rewrite lookup_insert_Some. intros [[<- <-]|[Hn ?]] Hs; [by destruct Hs; unfold c' in *; cbn in *; congruence|].
    rewrite hw_set_ne by done. by apply (A9 q' y).
  - intros q' G'. assert (q' = q) as -> by congruence. exists c'. rewrite lookup_insert_eq, hw_set_eq. by split_and!.
  - intros q' y. rewrite lookup_insert_Some. intros [[<- <-]|[_ ?]]; [by apply (A13 q c)|by apply (A13 q' y)].
Qed.

(** A new event, that is not yet added. *)
Lemma wpq_new_ev hw s fd pers cb (P : option positive → qworld → Prop) :
  qinv hw s → (cb_ctx cb < k_next s)%positive →
  (∀ q i c, cb = QWork q i → k_ctx s !! q = Some c → q_hs_ev c = None) → (∀ q, cb = QHs q → pers = false) →
  (∀ t, P None (set_k_tick t s)) →
  (∀ t, let s' := set_k_ev (<[k_next s := mkQEv fd cb pers false false 0]> (k_ev s)) (set_k_next (Pos.succ (k_next s)) (set_k_tick t s)) in
        qinv hw s' → P (Some (k_next s)) s') →
  wpq (event_new o fd pers cb) P s.
Proof.
  intros I Hc Hw Hps Hn Hs. apply wpq_bind, wpq_ask. destruct (o_alloc o _); cbn [negb]; [|by apply wpq_ret].
  apply wpq_bind. eexists _, _. split; [done|]. apply wpq_bind, wpq_mod, wpq_ret. apply Hs.
  by apply (inv_new_ev hw (set_k_tick _ s)); [apply inv_tick|..].
Qed.

Lemma wpq_socketpair hw s (P : option (Z * Z) → qworld → Prop) :
  qinv hw s →
  (∀ r t fds, let s' := set_k_fds fds (set_k_tick t s) in qinv hw s' → P r s') →
  wpq (socketpair o) P s.
Proof.
  intros I H. apply wpq_bind, wpq_ask. assert (I1 : qinv hw (set_k_tick (S (k_tick s)) s)) by by apply inv_tick.
  destruct (o_socketpair o _) as [[a b]|].
  - apply wpq_bind, wpq_mod. apply wpq_bind, wpq_mod. apply wpq_ret.
    exact (H (Some (a, b)) (S (k_tick s)) ({[b]} ∪ ({[a]} ∪ k_fds s)) (inv_fds hw _ _ I1)).
  - apply wpq_ret. specialize (H None (S (k_tick s)) (k_fds s) (inv_fds hw _ _ I1)). by destruct s.
Qed.

(** The two failures after the slot was written. *)
Lemma inv_open_failed hw s q c r n fds bev t :
  qinv hw s → k_g s = Some q → k_ctx s !! q = Some c → (k_next s ≤ n)%positive →
  qinv hw (mkQW (<[q := set_slots (<[q_count c := r]> (q_slots c)) c]> (k_ctx s)) (k_ev s) (k_buf s) bev fds (k_g s) n t (k_log s)).
Proof.
  intros I G Hq Hn. destruct (i_g hw s I q G) as (c0 & H0 & _ & _ & _ & Hhw). simplify_eq.
  assert (I1 := inv_tick hw _ t (inv_fds hw _ fds (inv_bev hw _ bev (inv_next hw s n I Hn)))).
  eapply (inv_ctx_put hw _ q c _ I1); [done|]. apply narrows_free_slot. lia.
Qed.

(** The slot, its buffer and its event, all new. *)
Lemma inv_opened hw s q c sid fd n fds bev t :
  qinv hw s → k_g s = Some q → k_ctx s !! q = Some c → (q_count c < QC_MAX_WORK_STREAMS)%nat → (Pos.succ (Pos.succ (k_next s)) ≤ n)%positive →
  let p := k_next s in let e := Pos.succ (k_next s) in
  qinv (hw_set hw q (S (q_count c)))
    (mkQW (<[q := set_slots (<[q_count c := mkRelay sid fd (Some p) (Some e)]> (q_slots c)) (set_count (S (q_count c)) c)]> (k_ctx s))
          (<[e := mkQEv fd (QWork q (q_count c)) true true false 0]> (k_ev s)) (<[p := []]> (k_buf s)) bev fds (k_g s) n t (k_log s)).
Proof.
  intros I G Hq Ecap Hn p e. destruct (i_g hw s I q G) as (c0 & H0 & _ & _ & Hh & _). simplify_eq.
  set (x := mkQEv fd (QWork q (q_count c)) true false false 0).
  pose proof (inv_new_buf hw s [] I) as J1. set (s1 := set_k_buf _ _) in J1.
  assert (J2 : qinv hw (set_k_ev (<[e := x]> (k_ev s)) (set_k_next (Pos.succ e) s1))).
  { apply (inv_new_ev hw s1 fd (QWork q (q_count c)) true J1).
    - cbn. apply (i_ctx_next hw s I) in Hq. lia.
    - intros q' i' c' [= <- <-] H'. cbn in H'. congruence.
    - done. }
  set (s2 := set_k_ev _ _) in J2.
  assert (He : k_ev s2 !! e = Some x) by apply lookup_insert_eq.
  pose proof (inv_take_slot hw s2 q c sid fd p e x J2 G Hq Ecap He eq_refl) as J3.
  assert (J4 : is_Some (k_buf s2 !! p)) by (exists []; apply lookup_insert_eq).
  specialize (J3 J4 (λ q0 c0 d0 H0, new_buf_unowned hw s q0 c0 d0 I H0)). set (s3 := set_k_ctx _ s2) in J3.
  assert (J5 : qinv (hw_set hw q (S (q_count c))) (set_k_ev (<[e := mkQEv fd (QWork q (q_count c)) true true false 0]> (k_ev s3)) s3)).
  { apply (inv_ev_put _ s3 e x); [done|exact He|done|done|]. intros _. right. eexists. split; [apply lookup_insert_eq|].
    cbn [e_cb x]. rewrite hw_set_eq. lia. }
  set (s4 := set_k_ev _ s3) in J5.
  assert (E4 : k_ev s4 = <[e := mkQEv fd (QWork q (q_count c)) true true false 0]> (k_ev s)) by (cbn; apply insert_insert_eq).
  assert (J6 := inv_tick _ _ t (inv_fds _ _ fds (inv_bev _ _ bev (inv_next _ s4 n J5 Hn)))).
  unfold set_k_tick, set_k_fds, set_k_bev, set_k_next in J6. cbn [k_ctx k_ev k_buf k_bev k_fds k_g k_next k_tick k_log] in J6.
  rewrite E4 in J6. exact J6.
Qed.

(** The state as a record. *)
Ltac qst := unfold set_k_ctx, set_k_ev, set_k_buf, set_k_bev, set_k_fds, set_k_g, set_k_next, set_k_tick, set_k_log;
            cbn [k_ctx k_ev k_buf k_bev k_fds k_g k_next k_tick k_log].

Lemma uncount c l n : set_count (q_count c) (set_slots l (set_count n c)) = set_slots l c.
Proof. by destruct c. Qed.

Lemma set_slots_again c l l' : set_slots l (set_slots l' c) = set_slots l c.
Proof. by destruct c. Qed.

Lemma wpq_open hw s base : qinv hw s → wpq (quic_open_work_stream o base) (λ _ s', okq s') s.
Proof.
  intros I. apply wpq_bind, wpq_get. destruct (k_g s) as [q|] eqn:G; [|apply wpq_ret; by exists hw].
  destruct (i_g hw s I q G) as (c & Hq & R & E & Hh & Hhw). apply wpq_bind. eapply wpq_ctx; [done|].
  case_if; [apply wpq_ret; by exists hw|]. apply wpq_bind, wpq_ask; qst.
  assert (I1 : qinv hw (set_k_tick (S (k_tick s)) s)) by by apply inv_tick.
  destruct (o_open_stream o _) as [sid|]; [|apply wpq_ret; by exists hw].
  apply wpq_bind. eapply wpq_socketpair; [done|]. cbv zeta. intros sp t fds I2.
  destruct sp as [[a b]|]; [|apply wpq_ret; by exists hw].
  destruct (QC_MAX_WORK_STREAMS <=? q_count c)%nat eqn:Ecap.
  { apply wpq_bind, wpq_mod. apply wpq_bind, wpq_mod. apply wpq_ret. exists hw. by apply inv_fds, inv_fds. }
  apply Nat.leb_gt in Ecap. destruct (i_shape hw s I q c Hq) as [Hlen _].
  destruct (lookup_lt_is_Some_2 (q_slots c) (q_count c)) as [old Hold]; [lia|].
  apply wpq_bind. eapply wpq_upd; [done|]. qst.
  apply wpq_bind. eapply wpq_slot; [apply lookup_insert_eq|exact Hold|].
  apply wpq_bind. apply wpq_bind, wpq_ask; qst. rewrite (proj2 Ho). cbn [negb]. apply wpq_bind. eexists _, _. split; [done|]; qst.
  apply wpq_bind, wpq_mod, wpq_ret; qst. apply wpq_bind. eapply wpq_put_slot; [apply lookup_insert_eq|exact Hold|]. qst.
  rewrite insert_insert_eq. set (p := k_next s). assert (Fp : k_buf s !! p = None) by (apply qfresh_none; apply (i_buf_next hw s I)).
  assert (Fe : k_ev s !! Pos.succ p = None).
  { apply qfresh_none. intros e x He. apply (i_ev_next hw s I) in He. unfold p. lia. }
  apply wpq_bind. apply wpq_bind, wpq_ask; qst. destruct (o_alloc o _); cbn [negb].
  2: { apply wpq_ret. apply wpq_bind, wpq_mod; qst. apply wpq_bind, wpq_mod; qst. apply wpq_bind, wpq_ret.
       apply wpq_bind. apply wpq_bind. eapply wpq_buf; [apply lookup_insert_eq|]. apply wpq_mod; qst.
       apply wpq_bind. eapply wpq_upd; [apply lookup_insert_eq|]. apply wpq_ret. exists hw. qst. rewrite insert_insert_eq, delete_insert_id, uncount by done.
       eapply (inv_open_failed hw s q c); [done..|unfold p; lia]. }
  apply wpq_bind. eexists _, _. split; [done|]; qst. apply wpq_bind, wpq_mod, wpq_ret; qst.
  apply wpq_bind. eapply wpq_put_slot; [apply lookup_insert_eq|cbn; apply list_lookup_insert_eq; lia|]. qst.
  rewrite insert_insert_eq. cbn [q_slots set_slots]. rewrite list_insert_insert_eq, set_slots_again.
  apply wpq_bind. apply wpq_bind. eapply wpq_ev; [apply lookup_insert_eq|]. apply wpq_mod; qst. rewrite insert_insert_eq.
  apply wpq_bind. apply wpq_bind, wpq_ask; qst. destruct (o_alloc o _); cbn [negb].
  2: { apply wpq_ret. apply wpq_bind. apply wpq_bind. eapply wpq_ev; [apply lookup_insert_eq|]. apply wpq_mod; qst. rewrite delete_insert_id by done.
       apply wpq_bind, wpq_ret. apply wpq_bind. apply wpq_bind. eapply wpq_buf; [apply lookup_insert_eq|]. apply wpq_mod; qst.
       apply wpq_bind, wpq_mod; qst. apply wpq_bind, wpq_mod; qst.
       apply wpq_bind. eapply wpq_upd; [apply lookup_insert_eq|]. apply wpq_ret. exists hw. qst. rewrite insert_insert_eq, delete_insert_id, uncount by done.
       eapply (inv_open_failed hw s q c); [done..|unfold p; lia]. }
  apply wpq_bind. eexists _, _. split; [done|]; qst. apply wpq_bind, wpq_mod, wpq_ret; qst. apply wpq_ret.
  exists (hw_set hw q (S (q_count c))). eapply (inv_opened hw s q c); [done..|cbn; lia].
Qed.

(** *** Connecting *)

(** A context under construction. *)
Record making (hw : positive → nat) (s : qworld) (q : positive) (c : qctx) : Prop := {
  m_inv : qinv hw s;
  m_ctx : k_ctx s !! q = Some c;
  m_g : k_g s ≠ Some q;
  m_work : no_work q (k_ev s);
  m_hs : ∀ e x, k_ev s !! e = Some x → e_cb x ≠ QHs q;
  m_hs_ev : q_hs_ev c = None;
  m_delivered : delivered q (k_log s) = 0%nat;
  m_hw : hw q = 0%nat;
}.
(** None of its events is pending. *)
Definition quiet (s : qworld) (q : positive) : Prop := ∀ e x, k_ev s !! e = Some x → cb_ctx (e_cb x) = q → ev_pending x = false.

Lemma only_calm q s s' : only q s s' → k_ctx s !! q = None → calm s s'.
Proof.
  intros [A1 A2 A3] Hn q' c H. assert (Hq : q' ≠ q) by congruence. rewrite A1 by done. split_and!; [by exists c|..].
  - intros W e x i Hx E. eapply W; [|exact E]. apply A3; [done|]. by rewrite E.
  - intros W e x Hx E. eapply W; [|exact E]. apply A3; [done|]. by rewrite E.
Qed.

Lemma making_local hw s s' q c : making hw s q c → qinv hw s' → local hw q s s' → ∃ c', making hw s' q c' ∧ narrows (hw q) c c'.
Proof.
  intros [M1 M2 M3 M4 M5 M5' M6 M7] I L. destruct (l_ctx _ _ _ _ L) as (c0 & c' & H0 & H' & N & _). simplify_eq.
  exists c'. split; [|done]. split; auto.
  - by rewrite (l_g _ _ _ _ L).
  - by eapply local_no_work.
  - intros e x Hx E. destruct (l_evs _ _ _ _ L e x Hx) as (y & Hy & Ey & _). by apply (M5 e y Hy); congruence.
  - by rewrite (narrows_hs _ _ _ N).
  - by rewrite (l_delivered _ _ _ _ L).
Qed.

Lemma making_idle hw s q c : making hw s q c → idle_hs q (k_ev s).
Proof. intros M e x Hx E. by destruct (m_hs _ _ _ _ M e x Hx). Qed.

Definition connected (hw : positive → nat) (q : positive) (s s' : qworld) : Prop := qinv hw s' ∧ only q s s'.

Lemma wpq_connect_failed hw s q c :
  making hw s q c → wpq (connect_failed q) (λ _ s', connected hw q s s') s.
Proof.
  intros M. apply wpq_bind. eapply wpq_ctx; [by apply (m_ctx _ _ _ _ M)|].
  assert (K : ∀ v, wpq (qc_free q ;~ qret (-1)) (λ _ s', connected hw q s s') (set_k_fds v s)).
  { intros v. eapply wpq_seq; [eapply (wpq_qc_free hw q (set_k_fds v s) c)|].
    - apply inv_fds, (m_inv _ _ _ _ M).
    - apply (m_ctx _ _ _ _ M).
    - apply (m_work _ _ _ _ M).
    - by apply (making_idle hw s q c).
    - intros _ s' (I' & [O1 O2 O3] & _). apply wpq_ret. split; [done|by split]. }
  unfold qwhen, close. case_if; [by apply wpq_bind, wpq_mod|apply wpq_bind, wpq_ret]. specialize (K (k_fds s)). by destruct s.
Qed.

(** An update that changes nothing the invariant looks at. *)
Lemma wpq_making_upd hw s q c f (P : () → qworld → Prop) :
  making hw s q c → narrows (hw q) c (f c) → q_hs_ev (f c) = None →
  (∀ s', making hw s' q (f c) → only q s s' → k_ev s' = k_ev s → k_next s' = k_next s → P () s') → wpq (qupd q f) P s.
Proof.
  intros [M1 M2 M3 M4 M5 M5' M6 M7] N Hh HP. eapply wpq_upd; [done|]. apply HP; [|by split; cbn; auto; intros; rewrite lookup_insert_ne|done|done].
  split; auto; [by eapply inv_ctx_put|apply lookup_insert_eq].
Qed.
Lemma making_tick hw s q c t : making hw s q c → making hw (set_k_tick t s) q c.
Proof. intros []. split; auto. by apply inv_tick. Qed.
Lemma making_fds hw s q c t : making hw s q c → making hw (set_k_fds t s) q c.
Proof. intros []. split; auto. by apply inv_fds. Qed.

(** A field for an event or a buffer, empty so far, gets its value. *)
Lemma inv_making_gain hw s q c c' :
  making hw s q c → quiet s q →
  q_slots c' = q_slots c → q_count c' = q_count c → q_hs_ev c' = None → q_confirmed c' = q_confirmed c →
  (∀ cb e, cb_ctx cb = q → refs 0 c' cb = Some e → refs 0 c cb = Some e ∨ ∃ x, k_ev s !! e = Some x ∧ e_cb x = cb) →
  (∀ p, q_out c' = Some p → q_out c = Some p ∨ (is_Some (k_buf s !! p) ∧ ∀ q0 c0 d0, k_ctx s !! q0 = Some c0 → bufs (hw q0) c0 d0 ≠ Some p)) →
  qinv hw (set_k_ctx (<[q := c']> (k_ctx s)) s).
Proof.
  intros [M1 M2 M3 M4 M5 M5' M6 M7] Hqu Hs Hc Hh Hcf Hr Hb. assert (B0 : ∀ y i, bufs (hw q) y (Some i) = None) by (intros; by rewrite M7).
  eapply inv_ctx_any; eauto; rewrite ?M7 in *.
  - rewrite Hs, Hc. destruct (i_shape hw s M1 q c M2) as [K1 K2]. rewrite M7 in K2. done.
  - intros cb e Hcb Hre. destruct (Hr cb e Hcb Hre) as [?|?]; [|done]. apply (i_refs hw s M1 q c); auto. by rewrite M7.
  - intros [i|] p B; [by rewrite B0 in B|]. cbn in B. by apply Hb.
  - intros [i|] [j|] p B B'; rewrite ?B0 in *; done.
  - intros e x Hx Hp Hcb. by rewrite (Hqu e x Hx Hcb) in Hp.
  - intros [? ?]. congruence.
  - done.
  - rewrite Hcf. by apply (i_gate hw s M1 q c).
Qed.

(** One of the three events is made and its field set. *)
Lemma wpq_make_event hw s q c fd pers cb (f : option positive → qctx → qctx) (P : option positive → qworld → Prop) :
  making hw s q c → quiet s q → cb_ctx cb = q → is_work cb = false → cb ≠ QHs q →
  (∀ v, refs 0 (f v c) cb = v) → (∀ v cb', cb_ctx cb' = q → cb' ≠ cb → refs 0 (f v c) cb' = refs 0 c cb') →
  (∀ v, q_slots (f v c) = q_slots c ∧ q_count (f v c) = q_count c ∧ q_hs_ev (f v c) = None ∧ q_confirmed (f v c) = q_confirmed c ∧ q_out (f v c) = q_out c) →
  (∀ v s', making hw s' q (f v c) → quiet s' q → only q s s' → P v s') →
  wpq (event_new o fd pers cb) (λ v s', wpq (qupd q (f v)) (λ _ s'', P v s'') s') s.
Proof.
  intros M Hqu Hcb Hw Hn Hf Hf' Hrest HP. pose proof M as [M1 M2 M3 M4 M5 M5' M6 M7].
  assert (Upd : ∀ v s1, making hw s1 q c → quiet s1 q → only q s s1 →
            (∀ e, v = Some e → ∃ x, k_ev s1 !! e = Some x ∧ e_cb x = cb) → wpq (qupd q (f v)) (λ _ s'', P v s'') s1).
  { intros v s1 K Kq Ko Kv. destruct (Hrest v) as (R1 & R2 & R3 & R4 & R5). eapply wpq_upd; [by apply (m_ctx _ _ _ _ K)|].
    assert (I' : qinv hw (set_k_ctx (<[q := f v c]> (k_ctx s1)) s1)).
    { apply (inv_making_gain hw s1 q c); auto.
      - intros cb' e Hc' Hr. destruct (decide (cb' = cb)) as [->|Hne]; [right; rewrite Hf in Hr; by apply Kv|left; by rewrite <- (Hf' v cb' Hc' Hne)].
      - rewrite R5. auto. }
    destruct K as [K1 K2 K3 K4 K5 K5' K6 K7]. apply HP; [|done|].
    - split; auto. apply lookup_insert_eq.
    - destruct Ko as [O1 O2 O3]. split; cbn; auto. intros q' Hq'. by rewrite lookup_insert_ne, O1. }
  eapply wpq_new_ev; [done| | | | |].
  - rewrite Hcb. by apply (i_ctx_next hw s M1 q c).
  - by intros q' i c' ->.
  - intros q' ->. cbn in Hcb. congruence.
  - intros t. apply Upd; [by apply making_tick|done|by split|done].
  - cbv zeta. intros t I1. assert (F : k_ev s !! k_next s = None) by (apply qfresh_none; intros p x H; by apply (i_ev_next hw s M1 p x)).
    apply Upd.
    + split; auto; cbn; intros e x; [intros i|]; rewrite lookup_insert_Some; intros [[<- <-]|[_ ?]]; [cbn; intros Ew; by rewrite Ew in Hw|by eapply M4|done|by eapply M5].
    + intros e x. cbn. rewrite lookup_insert_Some. intros [[<- <-]|[_ ?]]; [done|by apply (Hqu e)].
    + split; cbn; auto; intros e x.
      * intros Hx _. rewrite lookup_insert_ne; [done|]. intros <-. congruence.
      * rewrite lookup_insert_Some. intros [[<- <-]|[_ ?]]; [done|done].
    + intros e [= <-]. eexists. split; [apply lookup_insert_eq|done].
Qed.

Lemma connected_trans hw q s1 s2 s3 : only q s1 s2 → connected hw q s2 s3 → connected hw q s1 s3.
Proof. intros O1 [I O2]. split; [done|by eapply only_trans]. Qed.

(** The last part: the handshake timer. *)
Lemma wpq_arm_handshake hw s q c :
  making hw s q c → ready c →
  wpq (h <~ event_new o (-1) false (QHs q) ;; qupd q (set_hs_ev h) ;~
       match h with None => connect_failed q | Some h => event_add h QC_HS_INTERVAL ;~ qret 0 end)
    (λ _ s', connected hw q s s') s.
Proof.
  intros M R. pose proof M as [M1 M2 M3 M4 M5 M5' M6 M7]. apply wpq_bind. eapply wpq_new_ev; [done| |done|done| |].
  - cbn. by apply (i_ctx_next hw s M1 q c).
  - intros t. apply wpq_bind. eapply (wpq_making_upd hw _ q c); [by apply making_tick|by apply narrows_flag; try (by intros [])|done|].
    intros s1 K1 O1 _ _. eapply wpq_mono; [by eapply wpq_connect_failed|]. intros a s2 K2. apply (connected_trans hw q s s1 s2); [|done].
    destruct O1 as [A1 A2 A3]. by split.
  - cbv zeta. intros t I1. set (s1 := set_k_ev _ _) in *. set (e := k_next s) in *. set (x := mkQEv _ _ _ _ _ _) in *.
    assert (F : k_ev s !! e = None) by (apply qfresh_none; intros p y H; by apply (i_ev_next hw s M1 p y)).
    assert (He : k_ev s1 !! e = Some x) by apply lookup_insert_eq.
    assert (Ev : ∀ e' y, k_ev s1 !! e' = Some y → y = x ∨ k_ev s !! e' = Some y).
    { intros e' y. cbn. rewrite lookup_insert_Some. intros [[_ <-]|[_ ?]]; auto. }
    assert (I2 : qinv hw (set_k_ctx (<[q := set_hs_ev (Some e) c]> (k_ctx s1)) s1)).
    { eapply (inv_set_hs hw s1 q c e x); auto.
      - intros e' y i [->|Hy]%Ev; [done|by eapply M4].
      - intros e' y [->|Hy]%Ev Ey; [done|]. by destruct (M5 e' y Hy). }
    apply wpq_bind. eapply wpq_upd; [done|]. set (s2 := set_k_ctx _ s1) in *.
    apply wpq_bind. apply wpq_bind. eapply wpq_ev; [exact He|]. apply wpq_mod. apply wpq_ret. split.
    + eapply inv_ev_put; [done|exact He|done|done|]. intros _. right. exists (set_hs_ev (Some e) c). split; [apply lookup_insert_eq|]. by split_and!.
    + split; cbn.
      * intros q' Hq'. by rewrite lookup_insert_ne.
      * intros e' y Hy _. assert (e ≠ e') by congruence. by rewrite !lookup_insert_ne.
      * intros e' y. rewrite lookup_insert_Some. intros [[<- <-]|[Hne Hy]]; [done|]. rewrite lookup_insert_Some in Hy.
        by destruct Hy as [[]|[_ ?]].
Qed.

Lemma wpq_connected_mono hw q s1 s2 {A} (m : Q A) :
  only q s1 s2 → wpq m (λ _ s', connected hw q s2 s') s2 → wpq m (λ _ s', connected hw q s1 s') s2.
Proof. intros O H. eapply wpq_mono; [exact H|]. intros a s' K. by eapply connected_trans. Qed.

(** The events exist: the first packet, then the handshake timer. *)
Lemma wpq_start_handshake hw s q c u cb :
  making hw s q c → ready c → q_udp_ev c = Some u →
  wpq (qc_write_udp o q ;~ event_add u 0 ;~ qupd q (set_cb cb) ;~
       h <~ event_new o (-1) false (QHs q) ;; qupd q (set_hs_ev h) ;~
       match h with None => connect_failed q | Some h => event_add h QC_HS_INTERVAL ;~ qret 0 end)
    (λ _ s', connected hw q s s') s.
Proof.
  intros M R Hu. eapply wpq_seq; [eapply (op_write_udp hw o false q); [apply (m_inv _ _ _ _ M)|apply (m_ctx _ _ _ _ M)|done|done]|].
  intros ok s1 [I1 L1]. destruct (making_local hw s s1 q c M I1 L1) as (c1 & M1 & N1). pose proof (narrows_ready _ _ _ N1 R) as R1.
  assert (Hu1 : q_udp_ev c1 = Some u) by (rewrite <- Hu; exact (n_keep _ _ _ N1 (QUdp q) eq_refl)).
  eapply wpq_connected_mono; [exact (l_only _ _ _ _ L1)|].
  eapply wpq_seq; [eapply (wpq_event_add hw q s1 c1 (QUdp q) u); [done|apply (m_ctx _ _ _ _ M1)|done..]|]. intros [] s2 [I2 L2].
  destruct (making_local hw s1 s2 q c1 M1 I2 L2) as (c2 & M2 & N2). pose proof (narrows_ready _ _ _ N2 R1) as R2.
  eapply wpq_connected_mono; [exact (l_only _ _ _ _ L2)|].
  apply wpq_bind. eapply (wpq_making_upd hw s2 q c2); [done|auto with quic|apply (m_hs_ev _ _ _ _ M2)|]. intros s3 M3 O3 _ _.
  eapply wpq_connected_mono; [exact O3|]. by eapply wpq_arm_handshake.
Qed.

(** Making an event, storing it and going on. *)
Lemma wpq_make_event_then hw s q c fd pers cb (f : option positive → qctx → qctx) {A} (k : option positive → Q A) :
  making hw s q c → quiet s q → cb_ctx cb = q → is_work cb = false → cb ≠ QHs q →
  (∀ v, refs 0 (f v c) cb = v) → (∀ v cb', cb_ctx cb' = q → cb' ≠ cb → refs 0 (f v c) cb' = refs 0 c cb') →
  (∀ v, q_slots (f v c) = q_slots c ∧ q_count (f v c) = q_count c ∧ q_hs_ev (f v c) = None ∧ q_confirmed (f v c) = q_confirmed c ∧ q_out (f v c) = q_out c) →
  (∀ v s', making hw s' q (f v c) → quiet s' q → wpq (k v) (λ _ s'', connected hw q s' s'') s') →
  wpq (v <~ event_new o fd pers cb ;; qupd q (f v) ;~ k v) (λ _ s', connected hw q s s') s.
Proof.
  intros M Hqu H1 H2 H3 H4 H5 H6 Hk. apply wpq_bind.
  eapply wpq_mono; [eapply (wpq_make_event hw s q c fd pers cb f (λ v s', wpq (k v) (λ _ s'', connected hw q s s'') s')); eauto|].
  - intros v s' M' Q' O'. eapply wpq_connected_mono; eauto.
  - intros v s' H. by apply wpq_bind.
Qed.

Lemma wpq_make_buffer hw s q c {A} (k : option positive → Q A) :
  making hw s q c → quiet s q →
  (∀ v s', making hw s' q (set_out v c) → quiet s' q → wpq (k v) (λ _ s'', connected hw q s' s'') s') →
  wpq (v <~ evbuffer_new o ;; qupd q (set_out v) ;~ k v) (λ _ s', connected hw q s s') s.
Proof.
  intros M Hqu Hk. pose proof M as [M1 M2 M3 M4 M5 M5' M6 M7]. apply wpq_bind. eapply wpq_new_buf; [done|]. cbv zeta. intros t I1.
  set (s1 := set_k_buf _ _) in *. apply wpq_bind. eapply wpq_upd; [exact M2|].
  assert (K1 : making hw s1 q c) by by split.
  assert (I2 : qinv hw (set_k_ctx (<[q := set_out (Some (k_next s)) c]> (k_ctx s1)) s1)).
  { apply (inv_making_gain hw s1 q c); auto.
    intros p [= <-]. right. split; [exists []; apply lookup_insert_eq|]. intros q0 c0 d0 H0. by apply (new_buf_unowned hw s). }
  set (s2 := set_k_ctx _ s1) in *. eapply (wpq_connected_mono hw q s s2).
  { split; cbn; auto. intros q' Hq'. by rewrite lookup_insert_ne. }
  apply Hk; [|done]. split; auto. apply lookup_insert_eq.
Qed.

Lemma wpq_connect_events hw s q c cb :
  making hw s q c → quiet s q → wpq (connect_events o q cb) (λ _ s', connected hw q s s') s.
Proof.
  intros M Hq0. apply wpq_bind. eapply wpq_ctx; [apply (m_ctx _ _ _ _ M)|]. pose proof (m_hs_ev _ _ _ _ M) as Hh.
  eapply (wpq_make_event_then hw s q c); auto; [intros v [] E Hn; cbn [cb_ctx] in E; subst; done|]. intros u s1 M1 Q1.
  eapply (wpq_make_event_then hw s1 q (set_udp_ev u c)); auto; [intros v [] E Hn; cbn [cb_ctx] in E; subst; done|]. intros t s2 M2 Q2.
  eapply (wpq_make_event_then hw s2 q (set_timer_ev t (set_udp_ev u c))); auto; [intros v [] E Hn; cbn [cb_ctx] in E; subst; done|]. intros p s3 M3 Q3.
  eapply (wpq_make_buffer hw s3 q); [done..|]. intros b s4 M4 Q4.
  destruct u as [u|]; [|by eapply wpq_connect_failed]. destruct t as [t|]; [|by eapply wpq_connect_failed].
  destruct p as [p|]; [|by eapply wpq_connect_failed]. destruct b as [b|]; [|by eapply wpq_connect_failed].
  eapply wpq_start_handshake; [exact M4| |done]. split_and!; cbn; eauto.
Qed.

(** A step of the set-up that may fail. *)
Lemma wpq_make_step hw s q c (f : nat → bool) (k : Q Z) :
  making hw s q c → quiet s q →
  (∀ s', making hw s' q c → quiet s' q → wpq k (λ _ s'', connected hw q s' s'') s') →
  wpq (ok <~ qask f ;; if negb ok then connect_failed q else k) (λ _ s', connected hw q s s') s.
Proof.
  intros M Q Hk. apply wpq_bind, wpq_ask. assert (M1 : making hw (set_k_tick (S (k_tick s)) s) q c) by by apply making_tick.
  eapply wpq_connected_mono; [by split|]. destruct (f _); cbn [negb]; [by apply Hk|by eapply wpq_connect_failed].
Qed.

Lemma wpq_load_file hw s q c file (P : bool → qworld → Prop) :
  making hw s q c → quiet s q →
  (∀ v t, let s' := set_k_tick t s in making hw s' q c → quiet s' q → P v s') → wpq (load_file o file) P s.
Proof.
  intros M Q H. destruct file; cbn; [apply wpq_ask; apply H; [by apply making_tick|done]|].
  apply wpq_ret. specialize (H false (k_tick s)). destruct s. by apply H.
Qed.

Lemma wpq_connect_tls hw s q c ca cert key cb :
  making hw s q c → quiet s q → wpq (connect_tls o ca cert key q cb) (λ _ s', connected hw q s s') s.
Proof.
  intros M Q. eapply wpq_make_step; [done..|]. intros s1 M1 Q1.
  apply wpq_bind. eapply wpq_load_file; [done..|]. cbv zeta. intros v t2 M2 Q2.
  apply wpq_bind. eapply wpq_load_file; [done..|]. cbv zeta. intros x t3 M3 Q3.
  apply wpq_bind. eapply wpq_load_file; [done..|]. cbv zeta. intros k t4 M4 Q4.
  apply wpq_bind. eapply (wpq_making_upd hw _ q c); [done|auto with quic|apply (m_hs_ev _ _ _ _ M)|]. intros s5 M5 O5 E5 _.
  eapply (wpq_connected_mono hw q s1 s5); [destruct O5; by split|].
  assert (Q5 : quiet s5 q) by (unfold quiet; by rewrite E5).
  eapply wpq_make_step; [done..|]. intros s6 M6 Q6. eapply wpq_make_step; [done..|]. intros s7 M7 Q7. by eapply wpq_connect_events.
Qed.

Lemma wpq_connect hw s ca cert key base addr port cb :
  qinv hw s → wpq (quic_connect_to_server o ca cert key base addr port cb) (λ _ s', qinv hw s' ∧ calm s s') s.
Proof.
  intros I. assert (Skip : ∀ t, qinv hw (set_k_tick t s) ∧ calm s (set_k_tick t s)).
  { intros t. split; [by apply inv_tick|by apply calm_same]. }
  unfold quic_connect_to_server.
  destruct base, addr; try (apply wpq_ret; eauto using qcalm_refl). case_if; [apply wpq_ret; eauto using qcalm_refl|].
  apply wpq_bind, wpq_ask. destruct (o_alloc o _); cbn [negb]; [|by apply wpq_ret].
  set (s1 := set_k_tick _ s). set (q := k_next s1). apply wpq_bind. eexists q, _. split; [done|]. apply wpq_bind, wpq_mod.
  assert (Fq : k_ctx s !! q = None) by (apply qfresh_none; apply (i_ctx_next hw s I)).
  assert (I1 : qinv hw s1) by by apply inv_tick. pose proof (inv_new_ctx hw s1 I1) as I2. set (s2 := set_k_ctx _ _) in *.
  assert (O2 : only q s s2) by (split; cbn; auto; intros q' Hn; by rewrite lookup_insert_ne).
  assert (Ev : ∀ e x, k_ev s2 !! e = Some x → cb_ctx (e_cb x) ≠ q).
  { intros e x Hx. apply (i_ev_next hw s I) in Hx. unfold q. cbn. lia. }
  assert (M2 : making hw s2 q fresh_ctx).
  { split; auto.
    - apply lookup_insert_eq.
    - intros G. destruct (i_g hw s I q G) as (c & K & _). congruence.
    - intros e x i Hx E. apply (Ev e x Hx). by rewrite E.
    - intros e x Hx E. apply (Ev e x Hx). by rewrite E.
    - apply (i_log_next hw s I). unfold q. cbn. lia.
    - apply (i_hw_next hw s I). unfold q. cbn. lia. }
  assert (Q2 : quiet s2 q) by (intros e x Hx E; by destruct (Ev e x Hx)).
  apply wpq_mono with (P := λ _ s', connected hw q s s'); [|intros a s' [I' O']; split; [done|by eapply only_calm]].
  apply (wpq_connected_mono hw q s s2); [done|].
  apply wpq_bind. eapply wpq_socketpair; [done|]. cbv zeta. intros sp t fds I3. set (s3 := set_k_fds _ _) in *.
  assert (M3 : making hw s3 q fresh_ctx) by by apply making_fds, making_tick.
  apply (wpq_connected_mono hw q s2 s3); [by split|].
  destruct sp as [[a b]|].
  2: { apply wpq_bind, wpq_mod, wpq_ret. split.
       - apply (inv_del_ctx hw s3 q (k_ev s3)); [done|apply (m_g _ _ _ _ M3)|..]; intros e x Hx; [split; [done|by apply (Q2 e)]|done].
       - split; cbn; auto. intros q' Hn. by rewrite lookup_delete_ne. }
  apply wpq_bind. eapply (wpq_making_upd hw s3 q); [done|auto with quic|done|]. intros s4 M4 O4 E4 _.
  assert (Q4 : quiet s4 q) by (unfold quiet; by rewrite E4). apply (wpq_connected_mono hw q s3 s4); [done|].
  apply wpq_bind, wpq_ask. set (fd := o_socket o _). apply (making_tick _ _ _ _ (S (k_tick s4))) in M4. set (s5 := set_k_tick _ s4) in *.
  apply wpq_bind. apply wpq_mono with (P := λ _ s', ∃ v, s' = set_k_fds v s5).
  { unfold qwhen, opened. case_if; [apply wpq_mod; by eexists|apply wpq_ret; exists (k_fds s5); by destruct s5]. }
  intros [] s6 [v ->]. apply (making_fds _ _ _ _ v) in M4. set (s6 := set_k_fds v s5) in *.
  apply (wpq_connected_mono hw q s4 s6); [by split|].
  apply wpq_bind. eapply (wpq_making_upd hw s6 q); [done|auto with quic|done|]. intros s7 M7 O7 E7 _.
  assert (Q7 : quiet s7 q) by (unfold quiet; by rewrite E7). apply (wpq_connected_mono hw q s6 s7); [done|].
  case_if; [by eapply wpq_connect_failed|].
  eapply wpq_make_step; [done..|]. intros s8 M8 Q8. eapply wpq_make_step; [done..|]. intros s9 M9 Q9. by eapply wpq_connect_tls.
Qed.

(** *** Everything that can happen *)

Lemma wpq_fire hw s e : qinv hw s → wpq (fire o hs_cb e) (λ _ s', okq s') s.
Proof.
  intros I. apply wpq_bind, wpq_get. destruct (k_ev s !! e) as [x|] eqn:Hx; [|apply wpq_ret; by exists hw].
  destruct (e_added x || e_active x) eqn:Hp; cbn [negb]; [|apply wpq_ret; by exists hw].
  destruct (i_pend hw s I e x Hx Hp) as (c & Hc & K). apply wpq_bind, wpq_mod. set (x' := mkQEv _ _ _ _ _ _). set (s1 := set_k_ev _ s).
  assert (I1 : qinv hw s1) by (eapply inv_ev_put; eauto). destruct (e_cb x) as [q|q|q|q|q i] eqn:Ex; cbn [cb_ctx] in Hc, K.
  - destruct K as (_ & R & _). by eapply wpq_udp_read.
  - destruct K as (_ & R & _). by eapply wpq_timer.
  - destruct K as (Hr & _ & _). eapply wpq_hs_timer; [done|done|by exists e|].
    intros e' y Hy Ey. cbn in Hy. rewrite lookup_insert_Some in Hy. destruct Hy as [[<- <-]|[Hn Hy]].
    + unfold ev_pending, x'. cbn. by rewrite (i_persist hw s I e x q Hx Ex), andb_false_r.
    + apply not_true_iff_false. intros Hpy. destruct (i_pend hw s I e' y Hy Hpy) as (c' & Hc' & K'). rewrite Ey in Hc', K'. cbn in Hc', K'.
      destruct K' as (Hr' & _). simplify_eq. cbn in Hr. congruence.
  - destruct K as (_ & R & E). eapply wpq_sp_read; eauto.
  - by eapply wpq_work_read.
Qed.

Lemma wpq_run_qop hw s op : qinv hw s → wpq (run_qop o hs_cb op) (λ _ s', okq s') s.
Proof.
  intros I. destruct op; cbn.
  - by eapply wpq_fire.
  - eapply wpq_seq; [by apply (wpq_connect hw)|]. intros r s' [I' _]. apply wpq_ret. by exists hw.
  - eapply wpq_seq; [by apply (wpq_open hw)|]. intros r s' H. by apply wpq_ret.
  - eapply wpq_seq; [by apply (wpq_send_initial hw)|]. intros r s' H. by apply wpq_ret.
  - eapply wpq_mono; [by apply (wpq_reset hw)|]. intros [] s' [I' _]. by exists hw.
Qed.

Lemma wpq_run_qops ops s : okq s → wpq (run_qops o hs_cb ops) (λ _ s', okq s') s.
Proof.
  revert s. induction ops as [|op ops IH]; intros s [hw I]; cbn; [apply wpq_ret; by exists hw|].
  eapply wpq_seq; [by apply (wpq_run_qop hw)|]. intros [] s' H. by apply IH.
Qed.

End Handlers.

(** ** A completion callback

    On a failure the program resets the transport and connects again, as the
    reconnection of [src/src/control.c] does; on success it keeps the
    bufferevent. *)
Definition reconnect_cb (o : qoutside) (ca cert key : option string) (addr : string) (port : Z) (r : option positive) : Q () :=
  match r with
  | None => quic_transport_reset ;~ quic_connect_to_server o ca cert key true (Some addr) port true ;~ qret ()
  | Some _ => qret ()
  end.

Lemma reconnect_cb_ok o ca cert key addr port : outside_ok o → hs_cb_ok (reconnect_cb o ca cert key addr port).
Proof.
  intros Ho [b|] hw s I; cbn [reconnect_cb]; [apply wpq_ret; split; [by exists hw|done]|].
  eapply wpq_seq; [by apply (wpq_reset hw)|]. intros [] s1 (I1 & K1 & _).
  eapply wpq_seq; [by apply (wpq_connect o Ho hw)|]. intros r s2 [I2 K2]. apply wpq_ret. split; [by exists hw|].
  intros _. by eapply qcalm_trans.
Qed.

(** ** The theorem *)

(** What the invariant says of a state: no connection whose handshake is not
    confirmed was given application data, no connection was handed to the caller
    twice, and every connection has at most 64 relays. *)
Definition quic_state_ok (s : qworld) : Prop :=
  (∀ q c, k_ctx s !! q = Some c → q_confirmed c = false → Forall (λ x, ¬ gave_data q x) (k_log s)) ∧
  (∀ q, (delivered q (k_log s) ≤ 1)%nat) ∧
  (∀ q c, k_ctx s !! q = Some c → (q_count c ≤ QC_MAX_WORK_STREAMS)%nat) ∧
  (∀ q, k_g s = Some q → ∃ c, k_ctx s !! q = Some c ∧ q_confirmed c = true ∧ 0 ≤ q_stream c).

Lemma okq_state_ok s : okq s → quic_state_ok s.
Proof.
  intros [hw I]. split_and!.
  - apply (i_gate hw s I).
  - apply (i_once hw s I).
  - intros q c Hq. destruct (i_shape hw s I q c Hq) as [_ [? ?]]. lia.
  - intros q G. destruct (i_g hw s I q G) as (c & Hq & _ & [E1 E2] & _). eauto.
Qed.

