(* ===== verification/QuicThm.v ===== *)
(** * What the QUIC transport does with the bytes

    Bytes of every stream reach the socketpair of that stream in order, and the
    way back for a relay whose buffer holds only what it could not send; then
    the places where the transport loses or misdirects bytes. *)

From S2P Require Import Prelude Quic QuicSafe QuicRun.

Lemma wpq_and {A} (m : Q A) P R s : wpq m P s → wpq m R s → wpq m (λ a s', P a s' ∧ R a s') s.
Proof. intros (a & s' & E & H) (b & s'' & E' & H'). exists a, s'. rewrite E in E'. by simplify_eq. Qed.

Lemma wpq_bind_inv {A B} (m : Q A) (f : A → Q B) P s : wpq (qbind m f) P s → wpq m (λ a s', wpq (f a) P s') s.
Proof. intros (b & s'' & E & H). unfold qbind in E. destruct (m s) as [[a s']|] eqn:Em; [|done]. exists a, s'. split; [done|]. by exists b, s''. Qed.

(** ** From the server *)

(** The bytes written to a socketpair. *)
Definition down1 (q : positive) (d : option nat) (x : qout) : bytes :=
  match x with ODown q' d' b => if bool_decide (q' = q ∧ d' = d) then b else [] | _ => [] end.
Definition down (q : positive) (d : option nat) (l : list qout) : bytes := concat (down1 q d <$> l).
#[global] Arguments down : simpl never.

Lemma down_app q d l k : down q d (l ++ k) = down q d l ++ down q d k.
Proof. unfold down. by rewrite fmap_app, concat_app. Qed.
Lemma down_one q d x : down q d [x] = down1 q d x.
Proof. unfold down. cbn. by rewrite app_nil_r. Qed.

(** The bytes ngtcp2 delivers for a stream. *)
Definition data1 (sid : Z) (e : ng_event) : bytes := match e with NgData _ sid' d => if sid' =? sid then d else [] | _ => [] end.
Definition data_on (sid : Z) (evs : list ng_event) : bytes := concat (data1 sid <$> evs).

(** The event does not end the stream, and is no failure of the crypto layer. *)
Definition continues (sid : Z) (e : ng_event) : bool :=
  match e with
  | NgHs (HsCrypto rv _) => rv =? 0
  | NgData true sid' [] => negb (sid' =? sid)
  | NgClosed sid' => negb (sid' =? sid)
  | _ => true
  end.

(** A stream is bridged: the control stream of the context, or that of a relay
    in use, which is the only one with its number. *)
Definition bridged (s : qworld) (q : positive) (d : option nat) (sid : Z) (p : positive) : Prop :=
  ∃ c, k_ctx s !! q = Some c ∧ ready c ∧
  match d with
  | None => q_stream c = sid ∧ q_out c = Some p
  | Some i => ∃ r, q_slots c !! i = Some r ∧ (i < q_count c)%nat ∧ r_sid r = sid ∧ 0 ≤ r_fd r ∧ r_buf r = Some p ∧ sid ≠ q_stream c ∧
              ∀ j r', q_slots c !! j = Some r' → (j < q_count c)%nat → r_sid r' = sid → j = i
  end.

(** [x] came in for the bridge: what was written and what waits is longer by it. *)
Definition flows (q : positive) (d : option nat) (p : positive) (x : bytes) (s s' : qworld) : Prop :=
  ∃ b b', k_buf s !! p = Some b ∧ k_buf s' !! p = Some b' ∧ down q d (k_log s') ++ b' = down q d (k_log s) ++ b ++ x.

Lemma flows_refl q d p s b : k_buf s !! p = Some b → flows q d p [] s s.
Proof. intros H. exists b, b. by rewrite app_nil_r. Qed.
Lemma flows_same q d p s s' b :
  k_buf s !! p = Some b → k_buf s' !! p = k_buf s !! p → down q d (k_log s') = down q d (k_log s) → flows q d p [] s s'.
Proof. intros H E1 E2. exists b, b. by rewrite E1, E2, app_nil_r. Qed.
Lemma flows_trans q d p x y s1 s2 s3 : flows q d p x s1 s2 → flows q d p y s2 s3 → flows q d p (x ++ y) s1 s3.
Proof.
  intros (b & b' & H1 & H2 & E) (c & c' & H3 & H4 & E'). exists b, c'. rewrite H2 in H3. injection H3 as <-. split_and!; [done..|].
  rewrite E', app_assoc, E. by rewrite <- !app_assoc.
Qed.

Section Down.
Context (o : qoutside) (hw : positive → nat).

(** [evbuffer_write] takes a prefix. *)
Lemma wpq_write_exact q dst p b s :
  k_buf s !! p = Some b →
  wpq (evbuffer_write o q dst p) (λ _ s', k_ctx s' = k_ctx s ∧ ∃ w b', b = w ++ b' ∧ k_buf s' = <[p := b']> (k_buf s) ∧
     ∀ q' d, down q' d (k_log s') = down q' d (k_log s) ++ (if bool_decide (q = q' ∧ dst = d) then w else [])) s.
Proof.
  intros Hb. apply wpq_bind. eapply wpq_buf; [done|]. apply wpq_bind, wpq_ask. unfold qwhen. case_if.
  - apply wpq_bind, wpq_mod, wpq_log. split; [done|]. eexists _, _. split; [symmetry; apply ztake_zdrop|]. split; [done|].
    intros q' d. cbn. by rewrite down_app, down_one.
  - apply wpq_ret. split; [done|]. exists [], b. cbn. rewrite insert_id by done. split_and!; [done..|]. intros q' d.
    by case_bool_decide; rewrite app_nil_r.
Qed.

(** Bytes added to the bridge's own buffer and written. *)
Lemma wpq_bridge_in q d p b x s :
  k_buf s !! p = Some b →
  wpq (evbuffer_add p x ;~ evbuffer_write o q d p) (λ _ s', k_ctx s' = k_ctx s ∧ flows q d p x s s') s.
Proof.
  intros Hb. apply wpq_bind. apply wpq_bind. eapply wpq_buf; [done|]. apply wpq_mod.
  eapply wpq_mono; [eapply (wpq_write_exact q d p (b ++ x)); apply lookup_insert_eq|].
  intros [] s' (C & w & b' & E & Hb' & Hd). split; [done|]. exists b, b'. split_and!; [done|by rewrite Hb', lookup_insert_eq|].
  rewrite Hd. cbn. rewrite bool_decide_eq_true_2 by done. by rewrite <- app_assoc, <- E.
Qed.

(** Bytes for another destination. *)
Lemma wpq_bridge_other q d d' p p' b b' x s :
  k_buf s !! p = Some b → k_buf s !! p' = Some b' → p ≠ p' → d ≠ d' →
  wpq (evbuffer_add p' x ;~ evbuffer_write o q d' p') (λ _ s', k_ctx s' = k_ctx s ∧ flows q d p [] s s') s.
Proof.
  intros Hb Hb' Hp Hd. apply wpq_bind. apply wpq_bind. eapply wpq_buf; [done|]. apply wpq_mod.
  eapply wpq_mono; [eapply (wpq_write_exact q d' p' (b' ++ x)); apply lookup_insert_eq|].
  intros [] s' (C & w & b1 & E & Hb1 & Hl). split; [done|]. eapply flows_same; [done| |].
  - rewrite Hb1. cbn. by rewrite !lookup_insert_ne by done.
  - rewrite Hl. rewrite bool_decide_eq_false_2 by naive_solver. by rewrite app_nil_r.
Qed.

(** Another stream ends. *)
Lemma wpq_close_other q d sid sid' p b s :
  qinv hw s → bridged s q d sid p → k_buf s !! p = Some b → sid' ≠ sid →
  wpq (close_relay q sid') (λ _ s', bridged s' q d sid p ∧ flows q d p [] s s') s.
Proof.
  intros I (c & Hq & R & B) Hb Hn. pose proof (i_shape hw s I q c Hq) as [_ [Hcnt _]]. apply wpq_bind. eapply wpq_ctx; [done|].
  destruct (find_slot _ c) as [[j r]|] eqn:F.
  2: { apply wpq_ret. split; [by exists c|by eapply flows_refl]. }
  apply find_slot_some in F as (Hr & Hj & Hs). b2p. assert (Hl : (j < length (q_slots c))%nat) by by eapply lookup_lt_Some.
  assert (Hp : ∀ p', r_buf r = Some p' → p' ≠ p).
  { intros p' Ep ->. assert (K : bufs (hw q) c (Some j) = Some p) by (rewrite (bufs_work (hw q) c j r); [done|done|lia]).
    destruct d as [i|].
    - destruct B as (r0 & Hr0 & Hi & Hs0 & _ & Hb0 & _).
      destruct (i_uniq hw s I q q c c (Some j) (Some i) p Hq Hq K) as [_ [= ->]]; [rewrite (bufs_work (hw q) c i r0); [done|done|lia]|]. congruence.
    - destruct B as [_ B]. by destruct (i_uniq hw s I q q c c (Some j) None p Hq Hq K B). }
  apply wpq_bind. eapply wpq_slot; [done..|]. apply wpq_bind, wpq_opt_free_ev.
  { intros e Ee. destruct (i_refs hw s I q c (QWork q j) e Hq eq_refl) as (x & Hx & _); [rewrite (refs_work (hw q) c q j r); [done|done|lia]|by exists x]. }
  apply wpq_bind. eapply wpq_put_slot; [done..|]. apply wpq_bind.
  apply wpq_mono with (P := λ _ s', k_ctx s' = <[q := set_slots (<[j := mkRelay (r_sid r) (r_fd r) (r_buf r) None]> (q_slots c)) c]> (k_ctx s) ∧
    k_buf s' = k_buf s ∧ k_log s' = k_log s).
  { unfold qwhen. case_if; [by apply wpq_mod|by apply wpq_ret]. }
  intros [] s1 (C1 & B1 & L1). apply wpq_bind. eapply wpq_reput_slot; [done..|]. apply wpq_bind, wpq_opt_free_buf.
  { intros p' Ep. cbn. rewrite B1. apply (i_bufs hw s I q c (Some j) p' Hq). rewrite (bufs_work (hw q) c j r); [done|done|lia]. }
  eapply wpq_reput_slot; [done..|]. split.
  - eexists. split; [apply lookup_insert_eq|]. split; [done|]. destruct d as [i|]; [|done].
    destruct B as (r0 & Hr0 & Hi & Hs0 & Hf & Hb0 & Hne & Huni). exists r0. cbn. assert (j ≠ i) by congruence.
    rewrite list_lookup_insert_ne by done. split_and!; auto. intros k r' Hk Hkc Hks.
    destruct (decide (k = j)) as [->|]; [|rewrite list_lookup_insert_ne in Hk by done; by eapply Huni].
    rewrite list_lookup_insert_eq in Hk by done. simplify_eq.
  - eapply flows_same; [done| |cbn; by rewrite L1]. cbn. rewrite B1. destruct (r_buf r) as [p'|]; [|done]. cbn. rewrite lookup_delete_ne; [done|].
    by apply Hp.
Qed.

(** A bridge does not notice the handshake. *)
Lemma bridged_upd s q d sid p c c' s' :
  bridged s q d sid p → k_ctx s !! q = Some c → k_ctx s' !! q = Some c' →
  q_stream c' = q_stream c → q_out c' = q_out c → q_slots c' = q_slots c → q_count c' = q_count c → (ready c → ready c') →
  bridged s' q d sid p.
Proof.
  intros (c0 & H0 & R & B) Hq Hq' E1 E2 E3 E4 E5. simplify_eq. exists c'. rewrite E1, E2, E3, E4. split_and!; auto.
Qed.

Lemma wpq_bridge_hs q d sid p b h s :
  qinv hw s → bridged s q d sid p → k_buf s !! p = Some b → continues sid (NgHs h) = true →
  wpq (run_hs_event q h) (λ ok s', ok = true ∧ bridged s' q d sid p ∧ flows q d p [] s s') s.
Proof.
  intros I B Hb Hc. pose proof B as (c & Hq & _).
  assert (Flag : ∀ f, (∀ x, q_stream (f x) = q_stream x ∧ q_out (f x) = q_out x ∧ q_slots (f x) = q_slots x ∧ q_count (f x) = q_count x ∧ (ready x → ready (f x))) →
            let s' := set_k_ctx (<[q := f c]> (k_ctx s)) s in bridged s' q d sid p ∧ flows q d p [] s s').
  { intros f Hf. destruct (Hf c) as (F1 & F2 & F3 & F4 & F5). split; [eapply bridged_upd; eauto; apply lookup_insert_eq|by eapply flows_same]. }
  destruct h as [rv completed| |]; cbn in Hc |- *.
  - b2p. unfold qc_recv_crypto. rewrite Hc. cbn. apply wpq_bind. eapply wpq_ctx; [done|].
    apply wpq_bind. apply wpq_mono with (P := λ _ s', ∃ c', k_ctx s' !! q = Some c' ∧ bridged s' q d sid p ∧ flows q d p [] s s').
    { unfold qwhen. case_if; [apply wpq_mod|apply wpq_ret; eauto using flows_refl].
      exists (set_done true c). split; [apply lookup_insert_eq|]. by apply (Flag (set_done true)). }
    intros [] s1 (c1 & Hq1 & B1 & F1). apply wpq_bind. eapply wpq_ctx; [done|]. apply wpq_bind. unfold qwhen. case_if.
    + apply wpq_log, wpq_ret. split_and!; [done|eapply bridged_upd; eauto|].
      destruct F1 as (b0 & b1 & K1 & K2 & K3). exists b0, b1. split_and!; [done..|]. cbn. by rewrite down_app, down_one, app_nil_r.
    + apply wpq_ret, wpq_ret. by split_and!.
  - apply wpq_bind. eapply wpq_upd; [done|]. apply wpq_ret. split; [done|]. by apply (Flag (set_done true)).
  - apply wpq_bind. eapply wpq_upd; [done|]. apply wpq_ret. split; [done|]. by apply (Flag (set_confirmed true)).
Qed.

(** The control stream's buffer is written when it is not empty. *)
Lemma wpq_flush_as_write q c p b x P s :
  k_ctx s !! q = Some c → q_out c = Some p → k_buf s !! p = Some b → 0 < zlen x →
  wpq (evbuffer_add p x ;~ evbuffer_write o q None p) P s → wpq (evbuffer_add p x ;~ qc_flush_sp o q) P s.
Proof.
  intros Hq Ho Hb Hx H%wpq_bind_inv. apply wpq_bind. eapply wpq_mono.
  - apply (wpq_and _ _ (λ _ s', k_ctx s' = k_ctx s ∧ k_buf s' !! p = Some (b ++ x)) _ H).
    apply wpq_bind. eapply wpq_buf; [done|]. apply wpq_mod. split; [done|]. apply lookup_insert_eq.
  - intros [] s1 [K [C1 B1]]. apply wpq_bind. eapply wpq_ctx; [by rewrite C1|]. rewrite Ho. cbn.
    apply wpq_bind. eapply wpq_buf; [done|]. unfold qwhen. by rewrite (proj2 (Z.eqb_neq _ _)) by lens.
Qed.

Lemma bridged_same s s' q d sid p : bridged s q d sid p → k_ctx s' = k_ctx s → bridged s' q d sid p.
Proof. intros (c & B) E. exists c. by rewrite E. Qed.

Lemma bridged_buf s q d sid p c : bridged s q d sid p → qinv hw s → k_ctx s !! q = Some c → bufs (hw q) c d = Some p.
Proof.
  intros (c0 & H0 & _ & B) I Hq. assert (c0 = c) as -> by congruence. pose proof (i_shape hw s I q c Hq) as [_ [Hcnt _]]. destruct d as [i|]; [|by destruct B].
  destruct B as (r & Hr & Hi & _ & _ & Hb & _). rewrite (bufs_work (hw q) c i r); [done|done|lia].
Qed.

Lemma wpq_bridge_data q d sid p b fin sid' x s :
  qinv hw s → bridged s q d sid p → k_buf s !! p = Some b → 0 < zlen x →
  wpq (qc_recv_stream o q fin sid' x) (λ ok s', ok = true ∧ bridged s' q d sid p ∧ flows q d p (if sid' =? sid then x else []) s s') s.
Proof.
  intros I B Hb Hx. pose proof B as (c & Hq & R & B0). pose proof (i_shape hw s I q c Hq) as [_ [Hcnt _]].
  pose proof (bridged_buf s q d sid p c B I Hq) as Hp.
  apply wpq_bind. eapply wpq_ctx; [done|]. rewrite (proj2 (Z.eqb_neq (zlen x) 0)) by lia. rewrite (proj2 (Z.leb_gt (zlen x) 0)) by lia. cbn [andb].
  apply wpq_bind. apply wpq_mono with (P := λ _ s', k_ctx s' = k_ctx s ∧ flows q d p (if sid' =? sid then x else []) s s').
  2: { intros [] s' [C F]. apply wpq_ret. split_and!; [done|by eapply bridged_same|done]. }
  assert (Other : ∀ d' p', bufs (hw q) c d' = Some p' → d ≠ d' →
     wpq (evbuffer_add p' x ;~ evbuffer_write o q d' p') (λ _ s', k_ctx s' = k_ctx s ∧ flows q d p [] s s') s).
  { intros d' p' Hp' Hd. destruct (i_bufs hw s I q c d' p' Hq Hp') as [b' Hb'].
    eapply wpq_bridge_other; [done..| |done]. intros ->. by destruct (i_uniq hw s I q q c c d d' p' Hq Hq Hp Hp'). }
  destruct (sid' =? q_stream c) eqn:Es; cbn [negb].
  - b2p. subst sid'. destruct (R) as (_ & _ & _ & [p' Hp']). rewrite Hp'. apply wpq_bind, wpq_ret.
    destruct (i_bufs hw s I q c None p' Hq Hp') as [b' Hb']. eapply wpq_flush_as_write; [done..|].
    destruct d as [i|].
    + destruct B0 as (r & _ & _ & _ & _ & _ & Hne & _). rewrite (proj2 (Z.eqb_neq _ _)) by congruence. by apply Other.
    + destruct B0 as [<- B0]. simplify_eq. rewrite Z.eqb_refl. by eapply wpq_bridge_in.
  - b2p. destruct (find_slot _ c) as [[j r]|] eqn:F.
    + apply find_slot_some in F as (Hr & Hj & Ht). apply andb_true_iff in Ht as [Hs%Z.eqb_eq Hf]. subst sid'.
      destruct (decide (d = Some j)) as [->|Hd].
      * destruct B0 as (r0 & Hr0 & _ & Hs0 & _ & Hb0 & _). simplify_eq. rewrite Z.eqb_refl, Hb0. by eapply wpq_bridge_in.
      * rewrite (proj2 (Z.eqb_neq _ _)).
        2: { intros E. destruct d as [i|]; [|by destruct B0; congruence]. destruct B0 as (r0 & Hr0 & _ & _ & _ & _ & _ & Hu). apply Hd. f_equal. symmetry. by eapply Hu. }
        destruct (r_buf r) as [p'|] eqn:Ep; cbn; [|apply wpq_ret; eauto using flows_refl].
        apply Other; [|done]. rewrite (bufs_work (hw q) c j r); [done|done|lia].
    + apply wpq_ret. split; [done|]. rewrite (proj2 (Z.eqb_neq _ _)); [by eapply flows_refl|]. intros ->.
      destruct d as [i|]; [|by destruct B0]. destruct B0 as (r0 & Hr0 & Hi & Hs0 & Hf & _).
      unfold find_slot in F. rewrite list_find_None in F. rewrite Forall_lookup in F.
      apply (F i r0); [by apply lookup_take_Some|]. apply andb_true_iff. split; [by apply Z.eqb_eq|by apply Z.leb_le].
Qed.

Lemma wpq_bridge_event q d sid p b e s :
  qinv hw s → bridged s q d sid p → k_buf s !! p = Some b → continues sid e = true →
  wpq (run_ng_event o q e) (λ ok s', ok = true ∧ bridged s' q d sid p ∧ flows q d p (data1 sid e) s s') s.
Proof.
  intros I B Hb Hc. pose proof B as (c & Hq & R & B0).
  assert (Shut : bridged (set_k_log (k_log s ++ [OShut q]) s) q d sid p ∧ flows q d p [] s (set_k_log (k_log s ++ [OShut q]) s)).
  { split; [by eapply bridged_same|]. eapply flows_same; [done|done|]. cbn. by rewrite down_app, down_one, app_nil_r. }
  destruct e as [h|fin sid' x|sid'|sid'|sid']; cbn [run_ng_event data1].
  - by eapply wpq_bridge_hs.
  - destruct (decide (0 < zlen x)) as [Hx|Hx]; [by eapply wpq_bridge_data|].
    assert (x = []) as -> by (apply zlen_0_inv; lens).
    replace (if sid' =? sid then [] else []) with (@nil Z) by (by destruct (sid' =? sid)).
    apply wpq_bind. eapply wpq_ctx; [done|]. apply wpq_bind.
    apply wpq_mono with (P := λ _ s', bridged s' q d sid p ∧ flows q d p [] s s'); [|intros [] s' H; by apply wpq_ret].
    change (zlen (@nil Z) =? 0) with true. change (zlen (@nil Z) <=? 0) with true. destruct fin; cbn [andb]; [|apply wpq_ret; eauto using flows_refl].
    cbn in Hc. b2p. destruct (_ && _); [by apply wpq_log|]. by eapply wpq_close_other.
  - apply wpq_bind. eapply wpq_ctx; [done|]. apply wpq_bind. cbn in Hc. b2p.
    apply wpq_mono with (P := λ _ s', bridged s' q d sid p ∧ flows q d p [] s s'); [|intros [] s' H; by apply wpq_ret].
    case_if; [|by eapply wpq_close_other]. unfold qwhen. case_if; [by apply wpq_log|apply wpq_ret; eauto using flows_refl].
  - apply wpq_ret. eauto using flows_refl.
  - apply wpq_ret. eauto using flows_refl.
Qed.

Lemma wpq_bridge_events q d sid p b evs s :
  qinv hw s → bridged s q d sid p → k_buf s !! p = Some b → forallb (continues sid) evs = true →
  wpq (run_calls (run_ng_event o q) evs) (λ ok s', ok = true ∧ qinv hw s' ∧ bridged s' q d sid p ∧ flows q d p (data_on sid evs) s s') s.
Proof.
  revert b s. induction evs as [|e evs IH]; intros b s I B Hb Hc; cbn [run_calls].
  - apply wpq_ret. split_and!; [done..|]. by eapply flows_refl.
  - cbn in Hc. apply andb_true_iff in Hc as [Hc1 Hc2]. pose proof B as (c & Hq & R & _).
    eapply wpq_seq; [apply wpq_and; [by eapply wpq_bridge_event|by eapply (op_run_ng hw o false q)]|].
    intros ok s1 [(-> & B1 & F1) [I1 _]]. pose proof F1 as (_ & b1 & _ & Hb1 & _).
    eapply wpq_mono; [by eapply IH|]. intros ok s2 (-> & I2 & B2 & F2). split_and!; [done..|].
    unfold data_on. cbn. by eapply flows_trans.
Qed.

End Down.

