(* ===== verification/QuicUp.v ===== *)
(** * From the local service to the server over QUIC

    What a relay sends: the exact bytes one run of its handler gives to ngtcp2,
    and where the transport loses bytes, sends them to the wrong side or never
    ends. *)

From S2P Require Import Prelude Quic QuicSafe QuicRun QuicThm.

(** The bytes ngtcp2 took for a stream. *)
Definition up1 (q : positive) (sid : Z) (x : qout) : bytes :=
  match x with OStream q' sid' d => if bool_decide (q' = q ∧ sid' = sid) then d else [] | _ => [] end.
Definition up (q : positive) (sid : Z) (l : list qout) : bytes := concat (up1 q sid <$> l).
#[global] Arguments up : simpl never.
Lemma up_app q sid l k : up q sid (l ++ k) = up q sid l ++ up q sid k.
Proof. unfold up. by rewrite fmap_app, concat_app. Qed.
Lemma up_one q sid x : up q sid [x] = up1 q sid x.
Proof. unfold up. cbn. by rewrite app_nil_r. Qed.

(** ** The timer of the connection *)

(** The delay is never 0; it does not exceed the time that is left, or is one
    millisecond when less than a microsecond is left; it falls short of it by
    less than a microsecond. *)
Lemma expiry_delay_bounds exp now :
  let d := expiry_delay exp now in
  0 < d ∧ (exp - now < 1000 → d = 1000) ∧ (1000 ≤ exp - now → d * 1000 ≤ exp - now < (d + 1) * 1000).
Proof.
  cbv zeta. unfold expiry_delay, NGTCP2_SECONDS. destruct (now <? exp) eqn:E; b2p.
  2: { repeat match goal with |- context [if ?b then 1000 else ?y] => change (if b then 1000 else y) with 1000 end. lia. }
  set (x := exp - now) in *. pose proof (Z.div_mod x 1000000000 ltac:(lia)). pose proof (Z.mod_pos_bound x 1000000000 ltac:(lia)).
  pose proof (Z.div_mod (x mod 1000000000) 1000 ltac:(lia)). pose proof (Z.mod_pos_bound (x mod 1000000000) 1000 ltac:(lia)).
  assert (0 ≤ x / 1000000000) by (apply Z.div_pos; lia). assert (0 ≤ x mod 1000000000 / 1000) by (apply Z.div_pos; lia).
  destruct ((x / 1000000000 =? 0) && (x mod 1000000000 / 1000 =? 0)) eqn:K; [apply andb_true_iff in K as [K1%Z.eqb_eq K2%Z.eqb_eq]; lia|].
  apply andb_false_iff in K. assert (x / 1000000000 ≠ 0 ∨ x mod 1000000000 / 1000 ≠ 0) by (destruct K as [K|K]; apply Z.eqb_neq in K; auto). lia.
Qed.

(** ** What the sending of packets leaves alone *)

Record steady (s s' : qworld) : Prop := {
  y_buf : k_buf s' = k_buf s;
  y_g : k_g s' = k_g s;
  y_ctx : ∀ q c, k_ctx s !! q = Some c → ∃ c', k_ctx s' !! q = Some c' ∧ q_slots c' = q_slots c ∧ q_count c' = q_count c ∧ q_stream c' = q_stream c;
  y_up : ∀ q sid, up q sid (k_log s') = up q sid (k_log s);
  y_down : ∀ q d, down q d (k_log s') = down q d (k_log s);
}.
Lemma steady_refl s : steady s s.
Proof. split; auto. intros q c H. eauto. Qed.
Lemma steady_trans s1 s2 s3 : steady s1 s2 → steady s2 s3 → steady s1 s3.
Proof.
  intros [A1 A2 A3 A4 A5] [B1 B2 B3 B4 B5]. split; try congruence.
  intros q c H. destruct (A3 q c H) as (c1 & H1 & K1 & K2 & K3). destruct (B3 q c1 H1) as (c2 & H2 & L1 & L2 & L3).
    exists c2. split_and!; congruence.
Qed.

(** Every result of the operation is related to its start. *)
Definition always {A} (R : qworld → qworld → Prop) (m : Q A) : Prop := ∀ s a s', m s = Some (a, s') → R s s'.

Lemma always_bind {A B} (m : Q A) (f : A → Q B) : always steady m → (∀ a, always steady (f a)) → always steady (qbind m f).
Proof.
  intros Hm Hf s b s'. unfold qbind. destruct (m s) as [[a s1]|] eqn:E; [|done]. intros E'.
  eapply steady_trans; [by eapply Hm|by eapply Hf].
Qed.
Lemma always_ret {A} (a : A) : always steady (qret a).
Proof. intros s b s' [= <- <-]. apply steady_refl. Qed.
Lemma always_when b m : always steady m → always steady (qwhen b m).
Proof. intros H. destruct b; [done|apply always_ret]. Qed.
Lemma always_ask {A} (f : nat → A) : always steady (qask f).
Proof. intros s a s' [= <- <-]. split; auto. intros q c H. eauto. Qed.
Lemma always_ctx q : always steady (qctx_of q).
Proof. intros s a s'. unfold qctx_of. destruct (k_ctx s !! q); [|done]. intros [= <- <-]. apply steady_refl. Qed.
Lemma always_ptr p : always steady (qptr p).
Proof. destruct p; [apply always_ret|done]. Qed.
Lemma always_log x : neutral x = true → (∀ q d, down1 q d x = []) → always steady (qlog x).
Proof.
  intros Hn Hd s a s' [= <- <-]. split; cbn; auto; [by intros q c H; eauto|..].
  - intros q sid. rewrite up_app, up_one. destruct x; try done; by rewrite app_nil_r.
  - intros q d. by rewrite down_app, down_one, Hd, app_nil_r.
Qed.
Lemma always_upd q f :
  (∀ c, q_slots (f c) = q_slots c ∧ q_count (f c) = q_count c ∧ q_stream (f c) = q_stream c) → always steady (qupd q f).
Proof.
  intros Hf s a s'. unfold qupd, qbind, qctx_of. destruct (k_ctx s !! q) as [c|] eqn:E; [|done]. cbn. intros [= <- <-].
  split; cbn; auto. intros q' c' H'. destruct (decide (q = q')) as [<-|].
  - simplify_eq. rewrite lookup_insert_eq. eauto.
  - rewrite lookup_insert_ne by done. eauto.
Qed.
Lemma always_add e d : always steady (event_add e d).
Proof.
  intros s a s'. unfold event_add, qbind, qev_of. destruct (k_ev s !! e) as [x|]; [|done]. cbn. intros [= <- <-]. split; cbn; auto.
  intros q c H. eauto.
Qed.
Create HintDb steady.
#[export] Hint Resolve always_ret always_ask always_ctx always_ptr always_add always_when : steady.

Section Up.
Context (o : qoutside).

Lemma always_hs q h : always steady (run_hs_event q h).
Proof.
  destruct h as [rv completed| |]; cbn.
  - unfold qc_recv_crypto. destruct (negb _); [apply always_ret|]. intros s ok s'.
    unfold qbind at 1, qctx_of at 1. destruct (k_ctx s !! q) as [c|] eqn:Hq; [|done]. cbn.
    assert (W : always steady (c <~ qctx_of q ;; qwhen (completed && negb (q_done c)) (qlog (OTlsDone q)) ;~ qret true)).
    { apply always_bind; [auto with steady|]. intros c1. apply always_bind; [apply always_when, always_log; by try intros|auto with steady]. }
    unfold qbind at 1. unfold qwhen at 1. destruct (negb (q_done c) && completed); cbn; intros E; [|by eapply W].
    apply W in E. eapply steady_trans; [|exact E]. split; cbn; auto. intros q' c' H'. destruct (decide (q = q')) as [<-|].
    + simplify_eq. rewrite lookup_insert_eq. eauto.
    + rewrite lookup_insert_ne by done. eauto.
  - apply always_bind; [by apply always_upd|auto with steady].
  - apply always_bind; [by apply always_upd|auto with steady].
Qed.

Lemma always_hs_calls q l : always steady (run_calls (run_hs_event q) l).
Proof.
  induction l as [|h l IH]; cbn; [apply always_ret|]. apply always_bind; [apply always_hs|]. intros []; [done|apply always_ret].
Qed.

Lemma always_write_loop q ws : always steady (write_loop o q ws).
Proof.
  induction ws as [|[hs r] ws IH]; cbn; [apply always_ret|]. apply always_bind; [apply always_hs_calls|]. intros ok.
  destruct (if ok then r else _) as [p| |[]]; auto with steady.
  apply always_bind; [auto with steady|]. intros []; [|apply always_ret]. apply always_bind; [by apply always_log|done].
Qed.

Lemma always_write_udp q : always steady (qc_write_udp o q).
Proof.
  unfold qc_write_udp. apply always_bind; [auto with steady|]. intros c. destruct (q_draining c); [auto with steady|].
  apply always_bind; [auto with steady|]. intros ws. apply always_bind; [apply always_write_loop|]. intros ok.
  destruct (negb ok); [auto with steady|]. apply always_bind; [auto with steady|]. intros exp. destruct (exp =? _); [auto with steady|].
  apply always_bind; [auto with steady|]. intros now. apply always_bind; [auto with steady|]. intros c'.
  apply always_bind; [auto with steady|]. intros e. apply always_bind; auto with steady.
Qed.

Lemma always_send_packet q w : always steady (send_packet o q w).
Proof.
  destruct w; cbn; auto with steady. apply always_bind; [auto with steady|]. intros sent. apply always_when. by apply always_log.
Qed.

(** ** One write with data *)

(** ngtcp2 takes the first bytes of what it is offered, and no callback fails. *)
Definition takes (sid : Z) (d : bytes) (n : Z) (a : list hs_event * (wres * Z)) : Prop :=
  forallb (λ h, continues sid (NgHs h)) (fst a) = true ∧ snd (snd a) = n ∧ 0 ≤ n ≤ zlen d ∧ match fst (snd a) with WErr _ => False | _ => True end.

Lemma qbind_inv {A B} (m : Q A) (f : A → Q B) s b s' :
  qbind m f s = Some (b, s') → ∃ a s1, m s = Some (a, s1) ∧ f a s1 = Some (b, s').
Proof. unfold qbind. destruct (m s) as [[a s1]|]; [|done]. eauto. Qed.

Lemma hs_calls_succeed q sid l s s' ok :
  forallb (λ h, continues sid (NgHs h)) l = true → run_calls (run_hs_event q) l s = Some (ok, s') → ok = true.
Proof.
  revert s. induction l as [|h l IH]; intros s Hl; cbn; [by intros [= <- _]|]. cbn in Hl. apply andb_true_iff in Hl as [Hh Hl].
  unfold qbind. destruct (run_hs_event q h s) as [[ok1 s1]|] eqn:E; [|done].
  assert (ok1 = true) as ->; [|by apply IH].
  destruct h as [rv completed| |]; cbn in Hh, E.
  - unfold qc_recv_crypto in E. rewrite Hh in E. cbn [negb] in E.
    apply qbind_inv in E as (c & s2 & _ & E). apply qbind_inv in E as ([] & s3 & _ & E).
    apply qbind_inv in E as (c' & s4 & _ & E). by apply qbind_inv in E as ([] & s5 & _ & [= <- _]).
  - by apply qbind_inv in E as ([] & s2 & _ & [= <- _]).
  - by apply qbind_inv in E as ([] & s2 & _ & [= <- _]).
Qed.

(** The state apart from the log and what packets change. *)
Record sent (q : positive) (sid : Z) (d : bytes) (s s' : qworld) : Prop := {
  z_buf : k_buf s' = k_buf s;
  z_g : k_g s' = k_g s;
  z_ctx : ∀ q c, k_ctx s !! q = Some c → ∃ c', k_ctx s' !! q = Some c' ∧ q_slots c' = q_slots c ∧ q_count c' = q_count c ∧ q_stream c' = q_stream c;
  z_up : up q sid (k_log s') = up q sid (k_log s) ++ d;
  z_down : ∀ q d, down q d (k_log s') = down q d (k_log s);
}.
Lemma sent_steady q sid d s1 s2 s3 : sent q sid d s1 s2 → steady s2 s3 → sent q sid d s1 s3.
Proof.
  intros [A1 A2 A3 A4 A5] [B1 B2 B3 B4 B5]. split; try congruence.
  intros q' c H. destruct (A3 q' c H) as (c1 & H1 & K1 & K2 & K3). destruct (B3 q' c1 H1) as (c2 & H2 & L1 & L2 & L3).
  exists c2. split_and!; congruence.
Qed.
Lemma steady_sent q sid d s1 s2 s3 : steady s1 s2 → sent q sid d s2 s3 → sent q sid d s1 s3.
Proof.
  intros [A1 A2 A3 A4 A5] [B1 B2 B3 B4 B5]. split; try congruence.
  intros q' c H. destruct (A3 q' c H) as (c1 & H1 & K1 & K2 & K3). destruct (B3 q' c1 H1) as (c2 & H2 & L1 & L2 & L3).
  exists c2. split_and!; congruence.
Qed.

Lemma writev_result q sid d n s w n' s' :
  takes sid d n (o_writev o (k_tick s) sid d) → ng_writev o q sid d s = Some ((w, n'), s') →
  n' = n ∧ (match w with WErr _ => False | _ => True end) ∧ sent q sid (ztake n d) s s'.
Proof.
  unfold takes, ng_writev, qbind at 1, qask. destruct (o_writev o (k_tick s) sid d) as [hs [w0 n0]]. cbn. intros (Hh & -> & Hn & Hw).
  unfold qbind at 1. destruct (run_calls _ hs _) as [[ok s1]|] eqn:E; [|done]. pose proof (hs_calls_succeed q sid hs _ _ _ Hh E) as ->.
  apply always_hs_calls in E. cbn [negb].
  assert (S1 : steady s s1) by (eapply steady_trans; [apply (always_ask (λ _, 0) s 0); reflexivity|exact E]).
  assert (L : sent q sid (ztake n d) s (set_k_log (k_log s1 ++ [OStream q sid (ztake n d)]) s1)).
  { eapply steady_sent; [exact S1|]. split; cbn; auto; [by intros q' c H; eauto|..].
    - rewrite up_app, up_one. cbn. by rewrite bool_decide_eq_true_2.
    - intros q' d'. by rewrite down_app, down_one, app_nil_r. }
  destruct w0; [..|done]; cbn; intros [= <- <- <-]; split_and!; auto.
Qed.

Lemma wpq_also {A} (m : Q A) (P R : A → qworld → Prop) s :
  wpq m P s → (∀ a s', m s = Some (a, s') → R a s') → wpq m (λ a s', P a s' ∧ R a s') s.
Proof. intros (a & s' & E & H) K. exists a, s'. auto. Qed.

(** The event of a relay is queued again. *)
Definition retries (s : qworld) (r : relay) : Prop := ∀ e, r_ev r = Some e → ∃ x, k_ev s !! e = Some x ∧ e_active x = true.

Lemma wpq_retry hw s q c i r :
  qinv hw s → k_ctx s !! q = Some c → q_slots c !! i = Some r → (i < hw q)%nat →
  wpq (qopt (r_ev r) event_active) (λ _ s', k_buf s' = k_buf s ∧ k_log s' = k_log s ∧ retries s' r) s.
Proof.
  intros I Hq Hr Hi. unfold retries. destruct (r_ev r) as [e|] eqn:Ee; cbn; [|apply wpq_ret; by split_and!].
  destruct (i_refs hw s I q c (QWork q i) e Hq eq_refl) as (x & Hx & Ex); [by rewrite (refs_work (hw q) c q i r)|].
  apply wpq_bind. eapply wpq_ev; [done|]. apply wpq_mod. split_and!; [done..|]. intros e' [= <-]. eexists. split; [apply lookup_insert_eq|done].
Qed.

(** After [n] of the offered bytes were taken. *)
Lemma wpq_consumed_exact hw s q c i r p d n b :
  qinv hw s → k_ctx s !! q = Some c → q_slots c !! i = Some r → (i < hw q)%nat → r_buf r = Some p → k_buf s !! p = Some b →
  0 ≤ n ≤ zlen d → b = d ∧ d ≠ [] ∨ b = [] →
  wpq (work_consumed o q i d n) (λ _ s', k_buf s' !! p = Some (zdrop n d) ∧ k_log s' = k_log s ∧ (zdrop n d ≠ [] → retries s' r)) s.
Proof.
  intros I Hq Hr Hi Hp Hb Hn Hd. apply wpq_bind. eapply wpq_slot; [done..|]. rewrite Hp. cbn [pending].
  assert (Hbp : bufs (hw q) c (Some i) = Some p) by by rewrite (bufs_work (hw q) c i r).
  apply wpq_bind. eapply wpq_buf; [done|]. destruct Hd as [[-> Hne]| ->].
  - destruct d as [|x d]; [done|]. apply wpq_bind. apply wpq_bind. eapply wpq_buf; [done|]. apply wpq_mod.
    set (s1 := set_k_buf _ s). assert (I1 : qinv hw s1) by by eapply inv_buf_put.
    apply wpq_bind. eapply wpq_buf; [apply lookup_insert_eq|]. unfold qwhen. case_if.
    + eapply wpq_mono; [by eapply (wpq_retry hw s1)|]. intros [] s2 (K1 & K2 & K3). split_and!; [rewrite K1; apply lookup_insert_eq|done|done].
    + apply wpq_ret. split_and!; [apply lookup_insert_eq|done|]. intros Hz. exfalso. apply Hz, zlen_0_inv. pose_lens. lia.
  - case_if.
    + apply wpq_bind, wpq_ret. apply wpq_bind. apply wpq_bind. eapply wpq_buf; [done|]. apply wpq_mod.
      set (s1 := set_k_buf _ s). assert (I1 : qinv hw s1) by by eapply inv_buf_put.
      eapply wpq_mono; [by eapply (wpq_retry hw s1)|]. intros [] s2 (K1 & K2 & K3). split_and!; [rewrite K1; apply lookup_insert_eq|done|done].
    + apply wpq_ret. rewrite zdrop_ge by lia. split_and!; done.
Qed.

(** What one run of the relay's handler reads. *)
Definition got (t : nat) (fd : Z) : bytes := match o_read o t fd with Some d => ztake QC_RELAY_BUF_SIZE d | None => [] end.

Lemma wpq_work_send_exact hw s q c i r p d n b :
  qinv hw s → k_ctx s !! q = Some c → ready c → established c → q_slots c !! i = Some r → (i < hw q)%nat →
  r_buf r = Some p → k_buf s !! p = Some b → b = d ∧ d ≠ [] ∨ b = [] → takes (r_sid r) d n (o_writev o (k_tick s) (r_sid r) d) →
  wpq (work_send o q q i (r_sid r) d) (λ _ s', k_buf s' !! p = Some (zdrop n d) ∧ (zdrop n d ≠ [] → retries s' r) ∧
     up q (r_sid r) (k_log s') = up q (r_sid r) (k_log s) ++ ztake n d ∧ ∀ d0, down q d0 (k_log s') = down q d0 (k_log s)) s.
Proof.
  intros I Hq R E Hr Hi Hp Hb Hd Ht. pose proof Ht as (_ & _ & Hn & _).
  eapply wpq_seq.
  { eapply (wpq_also _ _ (λ a s', snd a = n ∧ (match fst a with WErr _ => False | _ => True end) ∧ sent q (r_sid r) (ztake n d) s s')).
    - by eapply (op_writev hw o q).
    - intros [w n'] s' Ew. by eapply writev_result. }
  intros [w n'] s1 [[I1 L1] (En & Hw & S1)]. cbn in En, Hw. subst n'.
  destruct (op_ok_next hw true q s c s1 Hq R ltac:(done) L1) as (c1 & Hq1 & R1 & E1 & _).
  assert (K : wpq (send_packet o q w ;~ qc_write_udp o q ;~ work_consumed o q i d (if 0 <=? n then n else zlen d))
     (λ _ s', k_buf s' !! p = Some (zdrop n d) ∧ (zdrop n d ≠ [] → retries s' r) ∧
        up q (r_sid r) (k_log s') = up q (r_sid r) (k_log s) ++ ztake n d ∧ ∀ d0, down q d0 (k_log s') = down q d0 (k_log s)) s1).
  { eapply wpq_seq; [eapply (wpq_also _ _ (λ _ s', steady s1 s')); [by eapply (op_send_packet hw o true q)|intros a s' Ea; by eapply always_send_packet]|].
    intros [] s2 [[I2 L2] Y2]. destruct (op_ok_next hw true q s1 c1 s2 Hq1 R1 E1 L2) as (c2 & Hq2 & R2 & E2 & _).
    eapply wpq_seq; [eapply (wpq_also _ _ (λ _ s', steady s2 s')); [by eapply (op_write_udp hw o true q)|intros a s' Ea; by eapply always_write_udp]|].
    intros ok s3 [[I3 L3] Y3]. destruct (sent_steady _ _ _ _ _ _ (sent_steady _ _ _ _ _ _ S1 Y2) Y3) as [Z1 Z2 Z3 Z4 Z5].
    destruct (Z3 q c Hq) as (c3 & Hq3 & Zs & _). rewrite (proj2 (Z.leb_le 0 n)) by lia.
    eapply wpq_mono; [eapply (wpq_consumed_exact hw s3 q c3 i r p d n b); eauto; [by rewrite Zs|by rewrite Z1]|].
    intros [] s4 (K1 & K2 & K3). split_and!; [done|done|by rewrite K2|]. intros d0. by rewrite K2. }
  by destruct w as [x| |].
Qed.

Lemma wpq_relay_exact hw fd s q c i r p b n :
  qinv hw s → k_g s = Some q → k_ctx s !! q = Some c → q_draining c = false → q_slots c !! i = Some r → (i < hw q)%nat →
  r_buf r = Some p → k_buf s !! p = Some b → b ++ got (k_tick s) fd ≠ [] →
  takes (r_sid r) (b ++ got (k_tick s) fd) n (o_writev o (S (k_tick s)) (r_sid r) (b ++ got (k_tick s) fd)) →
  wpq (qc_work_sp_read_cb o fd q i) (λ _ s', ∃ b', k_buf s' !! p = Some b' ∧ b' = zdrop n (b ++ got (k_tick s) fd) ∧ (b' ≠ [] → retries s' r) ∧
     up q (r_sid r) (k_log s') = up q (r_sid r) (k_log s) ++ ztake n (b ++ got (k_tick s) fd) ∧ ∀ d0, down q d0 (k_log s') = down q d0 (k_log s)) s.
Proof.
  intros I G Hq Hdr Hr Hi Hp Hb Hne Ht. destruct (i_g hw s I q G) as (c0 & H0 & R & E & _). simplify_eq.
  apply wpq_bind, wpq_get. rewrite G. apply wpq_bind. eapply wpq_ctx; [done|]. rewrite Hdr.
  apply wpq_bind. eapply wpq_slot; [done..|]. rewrite Hp. cbn [pending]. apply wpq_bind. eapply wpq_buf; [done|].
  assert (Hbp : bufs (hw q) c (Some i) = Some p) by by rewrite (bufs_work (hw q) c i r).
  destruct b as [|x b].
  - apply wpq_bind, wpq_ask. cbn [app] in *. unfold got in *.
    destruct (o_read o (k_tick s) fd) as [[|y d]|]; [done| |done].
    eapply wpq_mono; [eapply (wpq_work_send_exact hw (set_k_tick (S (k_tick s)) s) q c i r p); eauto; by apply inv_tick|].
    intros [] s' (K1 & K2 & K3 & K4). eauto 10.
  - apply wpq_bind, wpq_ask. set (s1 := set_k_tick _ s). assert (I1 : qinv hw s1) by by apply inv_tick.
    apply wpq_bind. apply wpq_mono with (P := λ _ s', qinv hw s' ∧ k_ctx s' = k_ctx s ∧ k_tick s' = S (k_tick s) ∧ k_log s' = k_log s ∧
      k_buf s' !! p = Some ((x :: b) ++ got (k_tick s) fd)).
    { unfold got. destruct (o_read o (k_tick s) fd) as [[|y d]|].
      - apply wpq_ret. split_and!; auto. by rewrite app_nil_r.
      - apply wpq_bind. eapply wpq_buf; [done|]. apply wpq_mod. split_and!; auto; [by eapply inv_buf_put|apply lookup_insert_eq].
      - apply wpq_ret. split_and!; auto. by rewrite app_nil_r. }
    intros [] s2 (I2 & C2 & T2 & L2 & B2). apply wpq_bind. eapply wpq_buf; [done|].
    eapply wpq_mono; [eapply (wpq_work_send_exact hw s2 q c i r p); eauto; [by rewrite C2|by rewrite T2]|].
    intros [] s' (K1 & K2 & K3 & K4). rewrite L2 in K3. rewrite L2 in K4. eauto 10.
Qed.

End Up.


(** C40: the relay keeps what waits for the local service in the same buffer as
    what waits for the server.  When bytes the server sent still wait for the
    local service, the next run of the relay's handler gives them back to the
    server, and they never reach the service. *)
Theorem quic_relay_echoes (o : qoutside) (s : qworld) (q : positive) (c : qctx) (i : nat) (r : relay) (p : positive) (x : Z) (b : bytes) (n fd : Z)
    (Hs : okq s) (Hg : k_g s = Some q) (Hq : k_ctx s !! q = Some c) (Hd : q_draining c = false)
    (Hr : q_slots c !! i = Some r) (Hi : (i < q_count c)%nat) (Hp : r_buf r = Some p) (Hb : k_buf s !! p = Some (x :: b))
    (Ht : takes (r_sid r) ((x :: b) ++ got o (k_tick s) fd) n (o_writev o (S (k_tick s)) (r_sid r) ((x :: b) ++ got o (k_tick s) fd)))
    (Hn : zlen (x :: b) ≤ n) :
  ∃ s' w b', qc_work_sp_read_cb o fd q i s = Some ((), s') ∧
    up q (r_sid r) (k_log s') = up q (r_sid r) (k_log s) ++ (x :: b) ++ w ∧
    k_buf s' !! p = Some b' ∧ got o (k_tick s) fd = w ++ b' ∧
    (∀ d, down q d (k_log s') = down q d (k_log s)).
Proof.
  destruct Hs as [hw I]. destruct (i_g hw s I q Hg) as (c0 & H0 & _ & _ & _ & Hhw). simplify_eq.
  destruct (wpq_relay_exact o hw fd s q c i r p (x :: b) n I Hg Hq Hd Hr ltac:(lia) Hp Hb ltac:(done) Ht) as ([] & s' & E & b' & K1 & -> & K3 & K4 & K5).
  rewrite ztake_app_ge in K4 by done. rewrite zdrop_app_ge in K1 by done.
  eexists s', _, _. split_and!; [done|exact K4|exact K1|symmetry; apply ztake_zdrop|done].
Qed.
