(* ===== verification/QuicDemo.v ===== *)
(** * The QUIC transport on concrete inputs

    A run of the transport, the witnesses of the theorems of [QuicRun],
    [QuicThm] and [QuicUp], and what else the code does with bytes, slots and
    events that should be gone. *)

From S2P Require Import Prelude Quic QuicSafe QuicRun QuicThm QuicUp.

(** The first packets end the handshake, later ones carry data; a socketpair
    takes one byte at a time; the local side always has a byte to send; the
    control stream is 0 and the work stream 4. *)
Definition demo : qoutside := {|
  o_now := λ _, (0, 0);
  o_expiry := λ _, UINT64_MAX;
  o_flush := λ _, [];
  o_writev := λ _ _ d, ([], (WPkt [0], zlen d));
  o_read_pkt := λ _ pkt, if bool_decide (pkt = [1]) then ([NgHs HsDone; NgHs HsConfirmed], None) else ([NgData false 4 [7; 8; 9]; NgData false 0 [5]], None);
  o_handle_expiry := λ _, ([], None);
  o_fatal := λ _, true;
  o_open_stream := λ t, Some (if (t <? 23)%nat then 0 else 4);
  o_send := λ _, true;
  o_recvfrom := λ t, Some [if (t <? 20)%nat then 1 else 2];
  o_read := λ _ _, Some [1];
  o_write := λ _ _, 1;
  o_socketpair := λ t, Some (Z.of_nat (2 * t), Z.of_nat (2 * t + 1));
  o_socket := λ _, 100;
  o_step := λ _, true;
  o_load := λ _, true;
  o_alloc := λ _, true;
  o_buf_alloc := λ _, true;
|}.

Lemma demo_outside_ok : outside_ok demo.
Proof. split; [|done]. intros t sid [= <-]. by case_match. Qed.

(** The program connects again after a failure. *)
Definition demo_cb : option positive → Q () := reconnect_cb demo None None None "frps" 7000.
Lemma demo_cb_ok : hs_cb_ok demo_cb.
Proof. apply reconnect_cb_ok, demo_outside_ok. Qed.

(** Connect (context 1, events 2, 3, 4 and 6), a packet, the handshake timer, a
    work stream (event 9), a packet with data. *)
Definition demo_ops : list qop := [OpConnect None None None true (Some "frps"%string) 7000 true; OpFire 2; OpFire 6; OpOpen true; OpFire 2].

Definition demo_state (ops : list qop) : qworld := match run_qops demo demo_cb ops quic_init with Some (_, s) => s | None => quic_init end.

Lemma demo_run ops s : run_qops demo demo_cb ops quic_init = Some ((), s) → okq s.
Proof.
  intros E. destruct (wpq_run_qops demo demo_cb demo_outside_ok demo_cb_ok ops quic_init) as ([] & s' & E' & H).
  - eexists. apply qinv_init.
  - congruence.
Qed.

(** The handshake ends, the caller gets a bufferevent, the work stream's first
    byte and the control stream's byte are delivered, two bytes wait. *)
Example demo_log :
  k_log (demo_state demo_ops) = [OCall 1 (Some 7%positive); ODown 1 (Some 0%nat) [7]; ODown 1 None [5]] ∧
  k_buf (demo_state demo_ops) !! 8%positive = Some [8; 9].
Proof. by vm_compute. Qed.

(** ** Witnesses *)


Definition demo_open : list qop := take 4 demo_ops.
Definition demo_events : list ng_event := [NgData false 0 [5]; NgData false 4 [7; 8; 9]; NgClosed 8; NgData false 4 [10]].

Lemma demo_bridged : bridged (demo_state demo_open) 1 (Some 0%nat) 4 8.
Proof.
  eexists. split; [by vm_compute|]. split; [split_and!; eexists; by vm_compute|].
  eexists. split; [by vm_compute|]. split_and!; try done; try (vm_compute; lia).
Qed.


(** The relay of the work stream, before and after data from the server came. *)
Definition demo_relay : relay := mkRelay 4 48 (Some 8%positive) (Some 9%positive).


Lemma quic_relay_echoes_witness :
  okq (demo_state demo_ops) ∧ k_buf (demo_state demo_ops) !! 8%positive = Some [8; 9] ∧
  ∃ s' w b', qc_work_sp_read_cb demo 48 1 0 (demo_state demo_ops) = Some ((), s') ∧
    up 1 4 (k_log s') = up 1 4 (k_log (demo_state demo_ops)) ++ [8; 9] ++ w ∧
    k_buf s' !! 8%positive = Some b' ∧ [1] = w ++ b' ∧ (∀ d, down 1 d (k_log s') = down 1 d (k_log (demo_state demo_ops))).
Proof.
  assert (Hok : okq (demo_state demo_ops)) by (apply (demo_run demo_ops); by vm_compute).
  split; [exact Hok|]. split; [by vm_compute|].
  refine (quic_relay_echoes demo (demo_state demo_ops) 1 (default fresh_ctx (k_ctx (demo_state demo_ops) !! 1%positive)) 0 demo_relay 8 8 [9] 3 48
           Hok _ _ _ _ _ _ _ _ _); by vm_compute.
Defined.

(** ** Bytes of the control stream that ngtcp2 does not take are gone *)

(** [qc_sp_read_cb] offers what it read once and does not ask how much was
    taken: only the taken part reaches the stream, and no buffer holds the rest. *)
Lemma quic_control_bytes_lost o hw s q c n fd d :
  qinv hw s → k_g s = Some q → k_ctx s !! q = Some c → q_draining c = false →
  o_read o (k_tick s) fd = Some d → d ≠ [] →
  takes (q_stream c) (ztake QC_RELAY_BUF_SIZE d) n (o_writev o (S (k_tick s)) (q_stream c) (ztake QC_RELAY_BUF_SIZE d)) →
  ∃ s', qc_sp_read_cb o fd q s = Some ((), s') ∧ k_buf s' = k_buf s ∧
    up q (q_stream c) (k_log s') = up q (q_stream c) (k_log s) ++ ztake n (ztake QC_RELAY_BUF_SIZE d).
Proof.
  intros I G Hq Hd Hr Hne Ht. destruct (i_g hw s I q G) as (c0 & H0 & R & E & _). simplify_eq.
  assert (K : wpq (qc_sp_read_cb o fd q) (λ _ s', sent q (q_stream c) (ztake n (ztake QC_RELAY_BUF_SIZE d)) s s') s).
  { apply wpq_bind. eapply wpq_ctx; [done|]. rewrite Hd. apply wpq_bind, wpq_ask. rewrite Hr. destruct d as [|x d]; [done|].
    set (s1 := set_k_tick _ s). eapply wpq_seq.
    { eapply (wpq_also _ _ (λ a s', snd a = n ∧ (match fst a with WErr _ => False | _ => True end) ∧ sent q (q_stream c) (ztake n (ztake QC_RELAY_BUF_SIZE (x :: d))) s1 s')).
      - eapply (op_writev hw o q); eauto. by apply inv_tick.
      - intros [w n'] s' Ew. by eapply writev_result. }
    intros [w n'] s2 [[I2 L2] (En & Hw & S2)]. cbn in En, Hw. subst n'.
    destruct (op_ok_next hw true q s1 c s2 Hq R ltac:(done) L2) as (c2 & Hq2 & R2 & E2 & _).
    assert (Y0 : steady s s1) by (eapply (always_ask (λ _, 0) s 0); reflexivity).
    assert (K2 : wpq (send_packet o q w ;~ qc_write_udp o q ;~ qret ()) (λ _ s', steady s2 s') s2).
    { eapply wpq_mono; [eapply (wpq_also _ _ (λ _ s', steady s2 s'))|by intros ? ? [_ ?]].
      - eapply (op_ok_bind hw true q); [apply op_send_packet|intros ?; apply op_ok_bind; [apply op_write_udp|intros ?; apply op_ok_ret]|eauto..].
      - intros a s' Ea. eapply (always_bind _ _); [apply (always_send_packet o q w)| |exact Ea]. intros ?. apply always_bind; [apply always_write_udp|auto with steady]. }
    destruct w; [..|done]; (eapply wpq_mono; [exact K2|]; intros ? s' Y; eapply steady_sent; [exact Y0|]; eapply sent_steady; eauto). }
  destruct K as ([] & s' & Es & [Z1 Z2 Z3 Z4 Z5]). eauto.
Qed.

(** ** A slot is never given back *)

(** With 64 work streams opened no other can be, however many have ended; the
    stream just opened at ngtcp2 is abandoned. *)
Lemma quic_slots_exhausted o hw s q c base :
  qinv hw s → k_g s = Some q → k_ctx s !! q = Some c → q_count c = QC_MAX_WORK_STREAMS →
  ∃ s', quic_open_work_stream o base s = Some (None, s') ∧ k_ctx s' = k_ctx s.
Proof.
  intros I G Hq Hc. assert (K : wpq (quic_open_work_stream o base) (λ a s', a = None ∧ k_ctx s' = k_ctx s) s).
  { apply wpq_bind, wpq_get. rewrite G. apply wpq_bind. eapply wpq_ctx; [done|]. destruct (_ || _); [by apply wpq_ret|].
    apply wpq_bind, wpq_ask. destruct (o_open_stream o _); [|by apply wpq_ret].
    apply wpq_bind. eapply (wpq_socketpair o hw); [by apply inv_tick|]. cbv zeta. intros [[a b]|] t fds _; [|by apply wpq_ret].
    rewrite Hc. cbn [Nat.leb QC_MAX_WORK_STREAMS]. apply wpq_bind, wpq_mod. apply wpq_bind, wpq_mod. by apply wpq_ret. }
  destruct K as (a & s' & E & -> & C). eauto.
Qed.

(** The end of a stream leaves the count as it is. *)
Lemma close_keeps_count hw q sid s c :
  qinv hw s → k_ctx s !! q = Some c → ready c →
  ∃ s' c', close_relay q sid s = Some ((), s') ∧ k_ctx s' !! q = Some c' ∧ q_count c' = q_count c.
Proof.
  intros I Hq R. destruct (op_close_relay hw false q sid s c I Hq R ltac:(done)) as ([] & s' & E & I' & L).
  destruct (l_ctx _ _ _ _ L) as (c0 & c' & H0 & H' & _ & K & _). simplify_eq. eauto.
Qed.

(** ** A handshake that failed is polled for ever *)

(** The handshake timer of a context is waiting, and the handshake not confirmed. *)
Definition polling (q e : positive) (s : qworld) : Prop :=
  ∃ c x, k_ctx s !! q = Some c ∧ q_hs_ev c = Some e ∧ q_confirmed c = false ∧ k_ev s !! e = Some x ∧ e_cb x = QHs q ∧ e_added x = true ∧ e_persist x = false.

Lemma polls_again o cb q e s :
  (∀ t, o_flush o t = []) → (∀ t, o_expiry o t = UINT64_MAX) → polling q e s →
  ∃ s', fire o cb e s = Some ((), s') ∧ polling q e s'.
Proof.
  intros Hf He (c & x & Hq & Hh & Hc & Hx & Ex & Ha & Hp).
  assert (K : wpq (fire o cb e) (λ _ s', polling q e s') s); [|destruct K as ([] & s' & E & H); eauto].
  apply wpq_bind, wpq_get. rewrite Hx, Ha. cbn [orb negb]. apply wpq_bind, wpq_mod. rewrite Ex. set (s1 := set_k_ev _ s).
  assert (Rearm : ∀ s2 c2, k_ctx s2 !! q = Some c2 → q_hs_ev c2 = Some e → q_confirmed c2 = false → k_ev s2 = k_ev s1 →
                  wpq (rearm_hs_timer q) (λ _ s', polling q e s') s2).
  { intros s2 c2 K1 K2 K3 K4. apply wpq_bind. eapply wpq_ctx; [done|]. rewrite K2. apply wpq_bind, wpq_ret. apply wpq_bind.
    eapply wpq_ev; [rewrite K4; apply lookup_insert_eq|]. apply wpq_mod. do 2 eexists. split_and!; [done..|apply lookup_insert_eq|done|done|done]. }
  apply wpq_bind. eapply wpq_ctx; [done|]. eapply wpq_seq with (R := λ _ s', k_ctx s' = k_ctx s ∧ k_ev s' = k_ev s1).
  { apply wpq_bind. eapply wpq_ctx; [done|]. destruct (q_draining c); [by apply wpq_ret|]. apply wpq_bind, wpq_ask. rewrite Hf. cbn [write_loop].
    apply wpq_bind, wpq_ret. cbn [negb]. apply wpq_bind, wpq_ask. rewrite He, Z.eqb_refl. by apply wpq_ret. }
  intros _ s2 [C2 V2]. rewrite <- C2 in Hq. apply wpq_bind. eapply wpq_ctx; [done|]. rewrite Hc. cbn [negb].
  destruct (q_draining c).
  - apply wpq_bind. eapply wpq_upd; [done|]. eapply Rearm; [apply lookup_insert_eq|done..].
  - destruct (negb (q_done c)); by eapply Rearm.
Qed.

(** ** An event that survives a reset *)

(** Both connections reach the end of their handshake. *)
Definition demo2 : qoutside := {|
  o_now := λ _, (0, 0); o_expiry := λ _, UINT64_MAX; o_flush := λ _, []; o_writev := o_writev demo;
  o_read_pkt := o_read_pkt demo; o_handle_expiry := λ _, ([], None); o_fatal := λ _, true;
  o_open_stream := λ t, Some (if (t =? 23)%nat then 4 else 0); o_send := λ _, true; o_recvfrom := λ _, Some [1];
  o_read := λ _ _, Some [1]; o_write := λ _ _, 1; o_socketpair := o_socketpair demo; o_socket := λ _, 100;
  o_step := λ _, true; o_load := λ _, true; o_alloc := λ _, true; o_buf_alloc := λ _, true |}.

(** The reset closes the descriptor of a relay but keeps its event.  After the
    program has connected again, the event of the old relay (9, stream 4 of
    connection 1) still runs: it reads the closed descriptor and gives the byte
    to stream 4 of the new connection (11), which has opened no such stream. *)
Definition stale_ops : list qop :=
  demo_open ++ [OpReset; OpConnect None None None true (Some "frps"%string) 7000 true; OpFire 12; OpFire 16].
Definition stale_state (ops : list qop) : qworld := match run_qops demo2 (reconnect_cb demo2 None None None "frps" 7000) ops quic_init with Some (_, s) => s | None => quic_init end.
Example quic_stale_relay :
  k_g (stale_state stale_ops) = Some 11%positive ∧ (q_count <$> k_ctx (stale_state stale_ops) !! 11%positive) = Some 0%nat ∧
  (e_fd <$> k_ev (stale_state stale_ops) !! 9%positive) = Some 48 ∧ bool_decide (48 ∈ k_fds (stale_state stale_ops)) = false ∧
  up 11 4 (k_log (stale_state (stale_ops ++ [OpFire 9]))) = [1].
Proof. by vm_compute. Qed.
