(* ===== verification/Life.v ===== *)
(** * The life of the client

    The task of [src/port/xfrpc_api.c] from its start to its end: [init_login]
    of [src/src/login.c], [xfrpc_loop] of [src/src/xfrpc.c], the start, the
    reconnection loop and the end of the control session in
    [src/src/control.c], [xfrpc_fatal] of [src/port/esp_platform.c] and
    stopping.  The event loop in between is a parameter.  [None] is undefined
    behaviour: a null control structure, or the stream table after the control
    structure that it points into was freed. *)

From S2P Require Import Prelude Endian Evp CryptoStream Coder Json World Mux MuxInv MuxSafe MuxThm ProxyTcp Frame Demux ProxySafe StartWork Msg Session Reconnect Ctext Ini Toml Config Tls.

(** ** State *)

(** [main_ctl]: the stop flag of its event base, and whether it has a resolver. *)
Record main_ctl := mkMain { m_stop : bool; m_dns : bool }.

Inductive report :=
  | XFRPC_STATE_INIT | XFRPC_STATE_CONNECTING | XFRPC_STATE_CONNECTED | XFRPC_STATE_LOGIN_OK
  | XFRPC_STATE_RECONNECTING | XFRPC_STATE_FATAL | XFRPC_STATE_STOPPED.

Section Life.
Context `{Mbedtls}.

(** The session, [main_ctl], TLS, the configuration, whether [c_login] exists,
    [g_api.running], and what was reported to the application. *)
Record life := mkLife {
  f_world : world;
  f_main : option main_ctl;
  f_tls : tls_global;
  f_cfg : config_state;
  f_login : bool;
  f_running : bool;
  f_reports : list report;
}.
Definition set_f_world v l := mkLife v (f_main l) (f_tls l) (f_cfg l) (f_login l) (f_running l) (f_reports l).
Definition set_f_main v l := mkLife (f_world l) v (f_tls l) (f_cfg l) (f_login l) (f_running l) (f_reports l).
Definition set_f_tls v l := mkLife (f_world l) (f_main l) v (f_cfg l) (f_login l) (f_running l) (f_reports l).
Definition set_f_cfg v l := mkLife (f_world l) (f_main l) (f_tls l) v (f_login l) (f_running l) (f_reports l).
Definition set_f_login v l := mkLife (f_world l) (f_main l) (f_tls l) (f_cfg l) v (f_running l) (f_reports l).
Definition set_f_running v l := mkLife (f_world l) (f_main l) (f_tls l) (f_cfg l) (f_login l) v (f_reports l).

Definition xfrpc_report_state (r : report) (l : life) : life :=
  mkLife (f_world l) (f_main l) (f_tls l) (f_cfg l) (f_login l) (f_running l) (f_reports l ++ [r]).

(** An operation of the session. *)
Definition on_world {A} (m : M A) (l : life) : option (A * life) :=
  '(a, w) ← m (f_world l); Some (a, set_f_world w l).
Definition on_ctl (f : session → session) (l : life) : life :=
  set_f_world (set_w_ctl (f (w_ctl (f_world l))) (f_world l)) l.

(** ** Stopping *)

Definition set_stop (l : life) : life := set_f_main ((λ m, mkMain true (m_dns m)) <$> f_main l) l.
Definition xfrpc_stop (l : life) : life := set_stop l.
Definition xfrpc_fatal (l : life) : life := set_stop (on_ctl (set_ss_fatal true) l).
Definition xfrpc_is_fatal (l : life) : bool := ss_fatal (w_ctl (f_world l)).
Definition xfrpc_fatal_reset (l : life) : life := on_ctl (set_ss_fatal false) l.

(** ** The login structure *)

(** [mac]: the run id made of the address of the radio, [None] when it cannot
    be read. *)
Definition init_login (mac : option string) (l : life) : option life :=
  '(ok, l) ← (if f_login l then Some (true, l) else on_world oracle l);
  if negb ok then Some (xfrpc_fatal l)
  else
    let l := set_f_login true l in
    match c_conf (f_cfg l) with
    | None => Some (xfrpc_fatal l)
    | Some c =>
        '(ok1, l) ← on_world oracle l;
        '(ok2, l) ← on_world oracle l;
        '(ok3, l) ← on_world oracle l;
        if negb (ok1 && ok2 && ok3) then Some (xfrpc_fatal l)
        else
          '(_, l) ← (if c_str c user then on_world oracle l else Some (true, l));
          let l := on_ctl (set_ss_logged false) l in
          match mac with
          | None => Some (xfrpc_fatal l)
          | Some mac =>
              '(ok, l) ← on_world oracle l;
              let l := on_ctl (set_ss_run_id (if (ok : bool) then Some mac else None)) l in
              Some (if (ok : bool) then l else xfrpc_fatal l)
          end
    end.

(** ** The control structure *)

Definition free_main_control (l : life) : life := set_f_main None l.

(** The stubs of the resolver need no release; the events of the base are
    those of the session. *)
Definition close_main_control (l : life) : option life :=
  match f_main l with
  | None => Some l
  | Some _ =>
      '(_, l) ← on_world clear_main_control (xfrpc_report_state XFRPC_STATE_RECONNECTING l);
      Some (free_main_control (set_f_tls (xfrpc_tls_cleanup (f_tls l)) l))
  end.

(** The stream table points into a control structure that is gone. *)
Definition table_dangles (w : world) : bool := bool_decide (SMain ∈ (map_to_list (w_all_stream w)).*2).

(** [env]: what TLS and the network library answer. *)
Definition init_main_control (env : tls_env) (l : life) : option life :=
  l ← close_main_control l;
  '(ok, l) ← on_world oracle l;
  if negb ok then Some (xfrpc_fatal l)
  else
    '(ok, l) ← on_world oracle l;
    if negb ok then Some (xfrpc_fatal l)
    else
      let l := set_f_main (Some (mkMain false false)) l in
      c ← c_conf (f_cfg l);
      l ← (if c_int c tcp_mux =? 0 then Some l
           else if table_dangles (f_world l) then None
           else '(_, l) ← on_world (id <- get_next_session_id ;; init_tmux_stream SMain id TMUX_INIT) l; Some l);
      let '(rc, g) := if c_int c tls_enable =? 0 then (0, f_tls l) else xfrpc_tls_init env (Some c) (f_tls l) in
      let l := set_f_tls g l in
      if negb (rc =? 0) then Some (xfrpc_fatal (set_f_main None l))
      else
        match c_str c server_addr with
        | Some a => if e_is_ip env a then Some l else Some (set_f_main (Some (mkMain false true)) l)
        | None => Some (set_f_main (Some (mkMain false true)) l)
        end.

(** ** Connecting *)

Definition is_quic (c : common_conf) : bool := bool_decide (c_str c protocol = Some "quic"%string).

(** [true] is the status 0.  The QUIC transport of this build refuses. *)
Definition init_server_connection (quic : bool) : M bool :=
  main <- gets w_connect_bev ;;
  match main with
  | None => ret ()
  | Some b => bufferevent_free b ;; modify (set_w_connect_bev None)
  end ;;
  if quic then ret false
  else
    cf <- gets (λ w, e_config (w_env w)) ;;
    b <- connect_server true (cf_server_addr cf) (cf_server_port cf) ;;
    modify (set_w_connect_bev b) ;;
    ret (match b with Some _ => true | None => false end).

Definition setup_server_callbacks : M bool :=
  main <- gets w_connect_bev ;;
  match main with
  | None => ret false
  | Some b => bufferevent_enable b true true ;; bufferevent_setcb b CbRecv EvConnect None ;; ret true
  end.

Definition start_base_connect (l : life) : option life :=
  match c_conf (f_cfg l) with
  | None => Some (xfrpc_fatal l)
  | Some c =>
      match f_main l with
      | None => None
      | Some _ =>
          '(ok, l) ← on_world (init_server_connection (is_quic c)) l;
          if negb ok then Some (xfrpc_fatal l)
          else
            '(ok, l) ← on_world setup_server_callbacks l;
            Some (if (ok : bool) then l else xfrpc_fatal l)
      end
  end.

(** [dispatch n]: the event loop in the round with [n] rounds left; [false]:
    still running after all rounds. *)
Fixpoint run_control (dispatch : nat → life → option life) (n : nat) (l : life) : option (bool * life) :=
  match n with
  | O => Some (false, l)
  | S n =>
      l ← start_base_connect (on_ctl (set_ss_reconnect false) l);
      l ← match f_main l with Some _ => dispatch n l | None => Some l end;
      if ss_reconnect (w_ctl (f_world l)) then run_control dispatch n l else Some (true, l)
  end.

(** ** The task *)

(** Local services of plugins are not part of the build. *)
Definition xfrpc_loop (env : tls_env) (dispatch : nat → life → option life) (n : nat) (l : life) : option (bool * life) :=
  l ← init_main_control env l;
  '(done, l) ← run_control dispatch n l;
  if negb done then Some (false, l)
  else
    l ← close_main_control l;
    Some (true, set_f_cfg (free_common_config (free_all_proxy_services (f_cfg l))) l).

Definition xfrpc_task (env : tls_env) (mac : option string) (dispatch : nat → life → option life) (n : nat) (l : life)
    : option (bool * life) :=
  l ← init_login mac (xfrpc_report_state XFRPC_STATE_CONNECTING l);
  '(done, l) ← xfrpc_loop env dispatch n l;
  if negb done then Some (false, l)
  else Some (true, set_f_running false (xfrpc_report_state (if xfrpc_is_fatal l then XFRPC_STATE_FATAL else XFRPC_STATE_STOPPED) l)).


(** ** Runs *)

Lemma on_oracle l : alloc_ok (f_world l) → on_world oracle l = Some (true, set_f_world (set_w_tick (S (w_tick (f_world l))) (f_world l)) l).
Proof. intros Hm. unfold on_world, oracle. cbn. by rewrite Hm. Qed.

(** The main stream is registered under the next id, when that is free. *)
Definition with_main (w : world) : world :=
  set_w_all_stream (<[w_session_id w := SMain]> (w_all_stream w))
    (set_w_main_stream (mkStream (w_session_id w) MAX_STREAM_WINDOW_SIZE (256 * 1024) TMUX_INIT false false [])
       (set_w_session_id (u32 (w_session_id w + 2)) w)).
Lemma run_init_main w :
  w_all_stream w !! w_session_id w = None →
  (id <- get_next_session_id ;; init_tmux_stream SMain id TMUX_INIT) w = Some ((), with_main w).
Proof.
  intros Hn. unfold get_next_session_id, init_tmux_stream, add_stream, bind, gets, modify, ret, upd_stream, get_stream. cbn. by rewrite Hn.
Qed.
Lemma init_main_runs w : ∃ w', (id <- get_next_session_id ;; init_tmux_stream SMain id TMUX_INIT) w = Some ((), w').
Proof.
  unfold get_next_session_id, init_tmux_stream, add_stream, bind, gets, modify, ret, upd_stream, get_stream. cbn.
  destruct (w_all_stream w !! w_session_id w); by eexists.
Qed.

(** ** A failed start *)

(** A failed start crashes the task: when TLS cannot be set up (an
    authority or a client certificate that does not parse, say), the control
    structure is released and the error recorded, but the task goes on and
    connects through the null pointer. *)
Lemma startup_failure_crashes env dispatch n c l :
  f_main l = None → alloc_ok (f_world l) → table_dangles (f_world l) = false →
  c_conf (f_cfg l) = Some c → c_int c tls_enable ≠ 0 → fst (xfrpc_tls_init env (Some c) (f_tls l)) ≠ 0 →
  xfrpc_loop env dispatch (S n) l = None.
Proof.
  intros Hm Hmem Hd Hc Htls Hfail.
  assert (∃ l', init_main_control env l = Some l' ∧ f_main l' = None ∧ f_cfg l' = f_cfg l) as (l' & E & Hm' & Hc').
  { unfold init_main_control, close_main_control. rewrite Hm. cbn [mbind option_bind]. rewrite on_oracle by done. cbn [mbind option_bind negb].
    rewrite on_oracle by done. cbn [mbind option_bind negb set_f_main set_f_world f_cfg]. rewrite Hc. cbn [mbind option_bind].
    rewrite (proj2 (Z.eqb_neq (c_int c tls_enable) 0)) by done.
    set (l1 := set_f_main (Some (mkMain false false)) _).
    assert (∃ l2, (if c_int c tcp_mux =? 0 then Some l1 else if table_dangles (f_world l1) then None
       else '(_, l) ← on_world (id <- get_next_session_id ;; init_tmux_stream SMain id TMUX_INIT) l1; Some l) = Some l2 ∧
       f_tls l2 = f_tls l ∧ f_cfg l2 = f_cfg l) as (l2 & E2 & Ht2 & Hc2).
    { case_if; [by exists l1|]. assert (table_dangles (f_world l1) = false) as -> by exact Hd.
      destruct (init_main_runs (f_world l1)) as [w' Ew]. exists (set_f_world w' l1). unfold on_world. by rewrite Ew. }
    rewrite E2. cbn [mbind option_bind]. rewrite Ht2. destruct (xfrpc_tls_init env (Some c) (f_tls l)) as [rc g]. cbn [fst] in Hfail.
    rewrite (proj2 (Z.eqb_neq rc 0)) by done. cbn [negb]. eexists. split; [done|]. by split. }
  unfold xfrpc_loop. rewrite E. cbn [mbind option_bind run_control]. unfold start_base_connect. cbn [on_ctl set_f_world f_cfg f_main].
  by rewrite Hc', Hc, Hm'.
Qed.

(** ** The end and another start *)

Lemma wp_clear_main_control w :
  mux_ok w → e_tcp_mux (w_env w) ≠ 0 →
  wp clear_main_control (λ _ w', w_all_stream w' = {[w_session_id w := SMain]} ∧ w_pcs w' = ∅ ∧ w_all_pc w' = ∅ ∧ w_connect_bev w' = None ∧
    w_env w' = w_env w ∧ w_ctl w' = set_ss_reconnect (ss_reconnect (w_ctl w)) (fresh_session (w_ctl w))) w.
Proof.
  intros Ok Hmux. unfold clear_main_control, upd_ctl, handle_tcp_mux_reset, set_cur_stream. wps. set (w1 := set_w_cur None _).
  assert (freeable (map snd (map_to_list (w_all_pc w1))) w1) as Hf by exact (all_pc_freeable w Ok).
  assert (∀ p x, w_pcs w1 !! p = Some x → w_all_pc w1 !! pc_stream_id x = Some p) as Hin.
  { intros p x. exact (all_pc_covered w p x Ok). }
  eapply wp_mono; [apply wp_pres; [apply (pres_clear_all settled)|by apply wp_clear_tables]|].
  intros u w2 [C (E2 & L2 & _)]. wps. cbn [w_connect_bev set_w_ctl]. rewrite (cl_connect _ _ C). change (w_connect_bev w1) with (w_connect_bev w).
  apply (wp_mono _ (λ _ w', w_connect_bev w' = None ∧ w_all_stream w' = ∅ ∧ w_pcs w' = ∅ ∧ w_all_pc w' = ∅ ∧ w_session_id w' = w_session_id w ∧
     w_env w' = w_env w ∧ w_ctl w' = set_ss_coders (free_crypto_resources (ss_coders (w_ctl w2))) (w_ctl w2))).
  { destruct (w_connect_bev w) as [b|] eqn:Eb; wps.
    - destruct (ok_connect _ Ok b Eb) as [x Ex]. assert (w_bevs w2 !! b = Some x) as Ex2 by by rewrite (cl_conn _ _ C b Eb).
      unfold bufferevent_free. wp_bev Ex2. destruct C. cbn. done.
    - destruct C as [? ? ? ? ? Hc]. cbn. split_and!; try done. rewrite Hc. exact Eb. }
  intros u3 w3 (Hc3 & Ha3 & Hp3 & Hpc3 & Hs3 & He3 & Hl3). unfold Session.tcp_mux. wps. rewrite He3, (proj2 (Z.eqb_neq _ 0) Hmux).
  unfold wp. rewrite run_init_main by (by rewrite Ha3). cbn. rewrite Ha3, Hs3, insert_empty, Hl3, L2. split_and!; try done.
Qed.

(** A client that was stopped cannot be started again: closing registers
    the main stream once more before its control structure is freed, so the
    next start with multiplexing walks a stream table that points into freed
    memory. *)
Lemma restart_use_after_free m l :
  f_main l = Some m → mux_ok (f_world l) → e_tcp_mux (w_env (f_world l)) ≠ 0 → alloc_ok (f_world l) →
  ∃ l', close_main_control l = Some l' ∧ f_main l' = None ∧
    ∀ env c ps, c_int c tcp_mux ≠ 0 → init_main_control env (set_f_cfg (mkCfg (Some c) ps) l') = None.
Proof.
  intros Hm Ok Hmux Hmem. unfold close_main_control. rewrite Hm.
  destruct (proj1 (wp_run _ _ _) (wp_clear_main_control (f_world l) Ok Hmux)) as (u & w' & E & Ha & _ & _ & _ & He & _). unfold on_world.
  cbn [xfrpc_report_state f_world]. rewrite E. eexists. split; [done|]. split; [done|]. intros env c ps Hc.
  unfold init_main_control, close_main_control. cbn [f_main set_f_cfg free_main_control set_f_main mbind option_bind].
  rewrite on_oracle by (unfold alloc_ok; cbn; by rewrite He). cbn [mbind option_bind negb]. rewrite on_oracle by (unfold alloc_ok; cbn; by rewrite He).
  cbn [mbind option_bind negb set_f_main set_f_world f_cfg set_f_cfg c_conf]. rewrite (proj2 (Z.eqb_neq (c_int c tcp_mux) 0)) by done.
  assert (table_dangles w' = true) as Hd.
  { unfold table_dangles. apply bool_decide_eq_true. rewrite Ha, map_to_list_singleton. by left. }
  cbn [f_world set_f_tls]. unfold table_dangles in *. cbn. cbn in Hd. by rewrite Hd.
Qed.

(** ** A whole life *)

#[local] Instance same_session_data : DataFrame same_session.
Proof. repeat split; try done; unfold same_session in *; intuition congruence. Qed.

Lemma wp_init_server_connection w :
  idle w → reachable_server w →
  wp (init_server_connection false) (λ ok w', ok = true ∧ mux_ok w' ∧ same_session w w' ∧ ∃ b, w_connect_bev w' = Some b ∧ is_Some (w_bevs w' !! b)) w.
Proof.
  intros (Ok & Hp & Hc) (He & _ & Ha & Hport). unfold init_server_connection. wps. rewrite Hc. wps.
  eapply wp_mono; [apply wp_pres; [apply (pres_connect_server same_session)|by apply wp_connect_server_alloc]|].
  intros o w1 [[Hn Hs] Hss]. destruct (Hs He eq_refl Ha Hport) as [b ->]. destruct Hn as ([Ok1 _] & P1 & U1).
  destruct (U1 b eq_refl) as [[[x Ex] _] _]. wps. pose proof (mux_ok_connect w1 b Ok1) as Ok2. rewrite P1 in Ok2. specialize (Ok2 Hp (ex_intro _ x Ex)).
  split; [done|]. split; [done|]. split; [exact Hss|]. exists b. split; [done|by exists x].
Qed.
Lemma wp_setup_callbacks w b :
  mux_ok w → w_connect_bev w = Some b → is_Some (w_bevs w !! b) →
  wp setup_server_callbacks (λ ok w', ok = true ∧ mux_ok w' ∧ same_session w w') w.
Proof.
  intros Ok Hb [x E2]. unfold setup_server_callbacks. wps. rewrite Hb. unfold bufferevent_enable, bufferevent_setcb. wp_bev E2.
  match goal with |- wp _ _ (set_w_bevs (<[b:=?y]> _) _) => set (y2 := y) end. pose proof (stays_bev w b x y2 E2) as S2. set (w3 := set_w_bevs _ w) in *.
  assert (w_bevs w3 !! b = Some y2) as E3 by apply lookup_insert_eq. wp_bev E3.
  split; [done|]. split; [|done]. eapply mux_ok_stays; [exact Ok|etransitivity; [exact S2|by eapply stays_bev]].
Qed.

(** What holds while the client runs: the control structure is there, the
    tables are sound, configuration and environment are those of the start. *)
Record living (e : environment) (cfg : config_state) (l : life) : Prop := {
  lv_main : is_Some (f_main l);
  lv_ok : mux_ok (f_world l);
  lv_env : w_env (f_world l) = e;
  lv_cfg : f_cfg l = cfg;
}.
(** Errors are not forgotten and reports not withdrawn. *)
Definition grows (l l' : life) : Prop :=
  (xfrpc_is_fatal l = true → xfrpc_is_fatal l' = true) ∧ f_reports l `prefix_of` f_reports l'.
Lemma grows_refl l : grows l l.
Proof. by split. Qed.
Lemma grows_trans l1 l2 l3 : grows l1 l2 → grows l2 l3 → grows l1 l3.
Proof. intros [F1 R1] [F2 R2]. split; [auto|by etransitivity]. Qed.

(** What is asked of the event loop: every round returns with the client
    alive; when it asks for a reconnection the session is cleared; the last
    round asks for none. *)
Definition dispatch_ok (dispatch : nat → life → option life) : Prop :=
  ∀ n e cfg l, living e cfg l → ∃ l', dispatch n l = Some l' ∧ living e cfg l' ∧ grows l l' ∧
    (ss_reconnect (w_ctl (f_world l')) = true → idle (f_world l')) ∧ (n = 0%nat → ss_reconnect (w_ctl (f_world l')) = false).

Lemma run_start_base_connect e cfg c l :
  living e cfg l → c_conf cfg = Some c → is_quic c = false → idle (f_world l) → reachable_server (f_world l) →
  ∃ l', start_base_connect l = Some l' ∧ living e cfg l' ∧ grows l l'.
Proof.
  intros [[m Hm] Ok He Hc] Hconf Hq Hi Hr. unfold start_base_connect. rewrite Hc, Hconf, Hm, Hq.
  destruct (proj1 (wp_run _ _ _) (wp_init_server_connection _ Hi Hr)) as (ok & w1 & E1 & -> & Ok1 & [Ee1 Ec1] & b & Hb & Lb). unfold on_world. rewrite E1.
  cbn [mbind option_bind negb].
  destruct (proj1 (wp_run _ _ _) (wp_setup_callbacks w1 b Ok1 Hb Lb)) as (ok & w2 & E2 & -> & Ok2 & [Ee2 Ec2]). cbn [f_world set_f_world]. rewrite E2.
  eexists. split; [done|]. split; [constructor; cbn; [by eexists|done|congruence|done]|]. split; [|done].
  unfold xfrpc_is_fatal. cbn. by rewrite Ec2, Ec1.
Qed.

Lemma idle_ctl w c : idle w → idle (set_w_ctl c w).
Proof. intros (Ok & Hp & Hc). split; [by apply mux_ok_ctl|done]. Qed.

Lemma run_control_ends dispatch e cfg c n l :
  dispatch_ok dispatch → living e cfg l → c_conf cfg = Some c → is_quic c = false → idle (f_world l) → reachable_server (f_world l) →
  ∃ l', run_control dispatch (S n) l = Some (true, l') ∧ living e cfg l' ∧ grows l l'.
Proof.
  intros Hd. revert l. induction n as [|n IH]; intros l Lv Hc Hq Hi Hr; cbn [run_control];
    set (l0 := on_ctl (set_ss_reconnect false) l);
    (assert (living e cfg l0) as Lv0 by (destruct Lv; constructor; cbn; try done; by apply mux_ok_ctl));
    (assert (grows l l0) as G0 by (by split));
    destruct (run_start_base_connect e cfg c l0 Lv0 Hc Hq (idle_ctl _ _ Hi) Hr) as (l1 & -> & Lv1 & G1); cbn [mbind option_bind];
    destruct (lv_main _ _ _ Lv1) as [m Hm]; rewrite Hm;
    [destruct (Hd 0%nat e cfg l1 Lv1) as (l2 & -> & Lv2 & G2 & Hidle & Hend)|destruct (Hd (S n) e cfg l1 Lv1) as (l2 & -> & Lv2 & G2 & Hidle & _)];
    cbn [mbind option_bind]; (assert (grows l l2) as G by (eapply grows_trans; [exact G0|by eapply grows_trans])).
  - rewrite (Hend eq_refl). by exists l2.
  - destruct (ss_reconnect (w_ctl (f_world l2))) eqn:Er; [|by exists l2].
    destruct (IH l2 Lv2 Hc Hq (Hidle eq_refl)) as (l3 & E3 & Lv3 & G3).
    { unfold reachable_server, alloc_ok in *. by rewrite (lv_env _ _ _ Lv2), <- (lv_env _ _ _ Lv). }
    exists l3. split_and!; [exact E3|done|by eapply grows_trans].
Qed.

Lemma with_main_ok w :
  mux_ok w → w_pcs w = ∅ → w_all_stream w = ∅ → w_session_id w + 2 < 2 ^ 32 → mux_ok (with_main w).
Proof.
  intros [Hpc Hinj Hall Hst Hmain Hconn Hf1 Hf2 [Hodd Hr]] Hp Hs Hid. unfold with_main. rewrite (u32_small (w_session_id w + 2)) by lia.
  constructor; cbn; rewrite ?Hp; try done.
  - intros id p E. destruct (Hall id p E) as [E1 _]. by rewrite Hs in E1.
  - intros id r. rewrite Hs, insert_empty. intros [<- <-]%lookup_singleton_Some. split; [lia|]. by left.
  - split; [|lia]. by rewrite Z.odd_add, Hodd.
Qed.

Lemma world_eta w n : set_w_ctl (w_ctl w) (set_w_tick n w) = set_w_tick n w.
Proof. by destruct w. Qed.
Lemma world_tick w : set_w_tick (w_tick w) w = w.
Proof. by destruct w. Qed.

(** Only the counter and the session's record changed. *)
Definition prepared (l l' : life) : Prop :=
  f_main l' = f_main l ∧ f_tls l' = f_tls l ∧ f_cfg l' = f_cfg l ∧ f_reports l' = f_reports l ∧
  ∃ n c, f_world l' = set_w_ctl c (set_w_tick n (f_world l)) ∧ ss_fatal c = ss_fatal (w_ctl (f_world l)).

Lemma prepared_refl l : prepared l l.
Proof. split_and!; try done. exists (w_tick (f_world l)), (w_ctl (f_world l)). split; [|done]. by rewrite world_eta, world_tick. Qed.
Lemma prepared_trans l1 l2 l3 : prepared l1 l2 → prepared l2 l3 → prepared l1 l3.
Proof.
  intros (M1 & T1 & C1 & R1 & n1 & c1 & W1 & F1) (M2 & T2 & C2 & R2 & n2 & c2 & W2 & F2). split_and!; try congruence.
  exists n2, c2. rewrite W2, W1. split; [done|]. rewrite F2, W1. exact F1.
Qed.
Lemma prepared_ctl f l : (∀ c, ss_fatal (f c) = ss_fatal c) → prepared l (on_ctl f l).
Proof.
  intros Hf. split_and!; try done. exists (w_tick (f_world l)), (f (w_ctl (f_world l))). split; [|apply Hf]. by rewrite world_tick.
Qed.
Lemma prepared_oracle l : alloc_ok (f_world l) → ∃ l', on_world oracle l = Some (true, l') ∧ prepared l l'.
Proof.
  intros Hm. eexists. split; [by apply on_oracle|]. split_and!; try done. eexists _, (w_ctl (f_world l)). split; [|done]. symmetry. apply world_eta.
Qed.
Lemma prepared_mem l l' : prepared l l' → alloc_ok (f_world l) → alloc_ok (f_world l').
Proof. intros (_ & _ & _ & _ & n & c & -> & _). done. Qed.

Lemma prepared_idle l l' : prepared l l' → idle (f_world l) → idle (f_world l').
Proof.
  intros (_ & _ & _ & _ & n & c & -> & _) (Ok & Hi). split; [|done]. apply mux_ok_ctl.
  destruct Ok as [Hpc ? ? ? ? ? ? ? ?]. constructor; try done. intros p pc E. destruct (Hpc p pc E). by constructor.
Qed.

Lemma run_init_login mac c l :
  alloc_ok (f_world l) → c_conf (f_cfg l) = Some c → ∃ l', init_login (Some mac) l = Some l' ∧ prepared l l'.
Proof.
  intros Hmem Hc. unfold init_login.
  assert (∃ l1, (if f_login l then Some (true, l) else on_world oracle l) = Some (true, l1) ∧ prepared l l1) as (l1 & -> & P1).
  { destruct (f_login l); [exists l; split; [done|apply prepared_refl]|by apply prepared_oracle]. }
  cbn [mbind option_bind negb]. assert (prepared l (set_f_login true l1)) as P2 by exact P1. cbn zeta. assert (c_conf (f_cfg (set_f_login true l1)) = Some c) as ->.
  { destruct P2 as (_ & _ & -> & _). done. }
  set (l2 := set_f_login true l1) in *. clearbody l2.
  destruct (prepared_oracle l2 (prepared_mem _ _ P2 Hmem)) as (l3 & -> & P3). cbn [mbind option_bind]. pose proof (prepared_trans _ _ _ P2 P3) as P3'.
  destruct (prepared_oracle l3 (prepared_mem _ _ P3' Hmem)) as (l4 & -> & P4). cbn [mbind option_bind]. pose proof (prepared_trans _ _ _ P3' P4) as P4'.
  destruct (prepared_oracle l4 (prepared_mem _ _ P4' Hmem)) as (l5 & -> & P5). cbn [mbind option_bind negb andb]. pose proof (prepared_trans _ _ _ P4' P5) as P5'.
  assert (∃ l6, (if c_str c user then on_world oracle l5 else Some (true, l5)) = Some (true, l6) ∧ prepared l l6) as (l6 & -> & P6).
  { destruct (c_str c user); [|by exists l5]. destruct (prepared_oracle l5 (prepared_mem _ _ P5' Hmem)) as (l6 & -> & P6). exists l6. split; [done|by eapply prepared_trans]. }
  cbn [mbind option_bind]. pose proof (prepared_trans _ _ _ P6 (prepared_ctl (set_ss_logged false) l6 ltac:(done))) as P7.
  destruct (prepared_oracle _ (prepared_mem _ _ P7 Hmem)) as (l8 & -> & P8). cbn [mbind option_bind]. eexists. split; [done|].
  eapply prepared_trans; [exact P7|]. eapply prepared_trans; [exact P8|]. by apply prepared_ctl.
Qed.

(** What a start needs: a fresh boot with memory and a reachable server. *)
Record startable (env : tls_env) (c : common_conf) (l : life) : Prop := {
  st_main : f_main l = None;
  st_conf : c_conf (f_cfg l) = Some c;
  st_mux : c_int c tcp_mux ≠ 0;
  st_quic : is_quic c = false;
  st_idle : idle (f_world l);
  st_table : w_all_stream (f_world l) = ∅;
  st_id : w_session_id (f_world l) + 2 < 2 ^ 32;
  st_server : reachable_server (f_world l);
  st_tls : c_int c tls_enable = 0 ∨ fst (xfrpc_tls_init env (Some c) (f_tls l)) = 0;
}.

Lemma run_init_main_control env c l :
  startable env c l → ∃ l', init_main_control env l = Some l' ∧ living (w_env (f_world l)) (f_cfg l) l' ∧ grows l l' ∧ idle (f_world l') ∧ f_reports l' = f_reports l.
Proof.
  intros [Hm Hc Hmux Hq Hi Ht Hid (Hmem & Hr) Htls]. unfold init_main_control, close_main_control. rewrite Hm. cbn [mbind option_bind].
  destruct (prepared_oracle l Hmem) as (l1 & -> & P1). cbn [mbind option_bind negb].
  destruct (prepared_oracle l1 (prepared_mem _ _ P1 Hmem)) as (l2 & -> & P2'). cbn [mbind option_bind negb]. pose proof (prepared_trans _ _ _ P1 P2') as P2. clear P1 P2' l1.
  pose proof (prepared_idle _ _ P2 Hi) as (Ok2 & Hp2 & Hcn2). destruct P2 as (_ & Ht2 & Hc2 & Hr2 & n & c2 & Hw2 & Hf2).
  set (l3 := set_f_main (Some (mkMain false false)) l2). assert (f_world l3 = f_world l2) as W3 by done. assert (f_cfg l3 = f_cfg l) as -> by exact Hc2.
  rewrite Hc. cbn [mbind option_bind]. rewrite (proj2 (Z.eqb_neq (c_int c tcp_mux) 0)) by done. rewrite W3.
  assert (w_all_stream (f_world l2) = ∅) as Ht3 by (rewrite Hw2; exact Ht). assert (table_dangles (f_world l2) = false) as ->.
  { apply bool_decide_eq_false. intros Hin. by rewrite Ht3, map_to_list_empty in Hin; apply not_elem_of_nil in Hin. }
  unfold on_world. rewrite W3, (run_init_main (f_world l2)) by (by rewrite Ht3). cbn [mbind option_bind].
  assert (mux_ok (with_main (f_world l2))) as Ok3 by (apply with_main_ok; [done|done|done|rewrite Hw2; exact Hid]).
  set (l4 := set_f_world _ l3). assert (f_tls l4 = f_tls l) as -> by exact Ht2.
  destruct (if c_int c tls_enable =? 0 then (0, f_tls l) else xfrpc_tls_init env (Some c) (f_tls l)) as [rc g] eqn:Eg.
  assert (rc = 0) as ->. { destruct (c_int c tls_enable =? 0) eqn:E0; [by injection Eg as <- _|]. b2p. destruct Htls as [?|Htls]; [done|]. by rewrite Eg in Htls. }
  cbn [Z.eqb negb].
  assert (∀ l5, f_world l5 = with_main (f_world l2) → is_Some (f_main l5) → f_cfg l5 = f_cfg l2 → f_reports l5 = f_reports l2 →
     living (w_env (f_world l)) (f_cfg l) l5 ∧ grows l l5 ∧ idle (f_world l5) ∧ f_reports l5 = f_reports l) as Hall.
  { intros l5 W5 M5 C5 R5. split_and!; [constructor; rewrite ?W5; try done; [cbn; by rewrite Hw2|congruence]|split; [|rewrite R5, Hr2; done]| |congruence].
    - unfold xfrpc_is_fatal. rewrite W5. cbn. by rewrite Hw2, <- Hf2.
    - rewrite W5. by split_and!. }
  destruct (c_str c server_addr) as [a|]; [destruct (e_is_ip env a)|]; (eexists; split; [done|]; apply Hall; [done|by eexists|done|done]).
Qed.

End Life.

(** ** Witnesses *)

#[local] Existing Instance Toy.mbedtls.

(** A board with memory and a server to reach; TLS asks for a client
    certificate whose key is missing. *)
Definition demo_board : world :=
  mkWorld (Demo.env 1) 0 1 ∅ ∅ ∅ ∅ None zero_stream 1 (-1) false false None zero_stream (replicate 12 0) 0 0 (zero_session None).
Lemma demo_board_ok : mux_ok demo_board.
Proof. by constructor. Qed.
Definition demo_conf : common_conf := set_c_int tcp_mux 1 (set_c_str server_addr "198.51.100.7" zero_conf).
Definition demo_life (c : common_conf) (m : option main_ctl) : life :=
  mkLife demo_board m zero_global (mkCfg (Some c) []) false true [].

Lemma startup_failure_crashes_witness :
  xfrpc_loop demo_tls_env (λ _ l, Some l) 1 (demo_life (set_c_int tls_enable 1 (set_c_str tls_cert_pem "pem" demo_conf)) None) = None.
Proof.
  apply (startup_failure_crashes demo_tls_env (λ _ l, Some l) 0 (set_c_int tls_enable 1 (set_c_str tls_cert_pem "pem" demo_conf)));
    [reflexivity|intros n; reflexivity|reflexivity|reflexivity|discriminate|vm_compute; discriminate].
Defined.

Lemma restart_use_after_free_witness :
  ∃ l', close_main_control (demo_life demo_conf (Some (mkMain true false))) = Some l' ∧
        init_main_control demo_tls_env (set_f_cfg (mkCfg (Some demo_conf) []) l') = None.
Proof.
  destruct (restart_use_after_free (mkMain true false) (demo_life demo_conf (Some (mkMain true false)))) as (l' & E & _ & H);
    [reflexivity|exact demo_board_ok|discriminate|intros n; reflexivity|]. exists l'. split; [exact E|]. apply H. discriminate.
Defined.

(** The event loop is told to stop at once. *)
Lemma demo_dispatch : dispatch_ok (λ _ l, Some (on_ctl (set_ss_reconnect false) l)).
Proof.
  intros n e cfg l [H1 H2 H3 H4]. eexists. split; [done|]. split_and!; [constructor; cbn; try done; by apply mux_ok_ctl|by split|done|done].
Qed.
Lemma demo_startable : startable demo_tls_env demo_conf (demo_life demo_conf None).
Proof.
  constructor; cbn [demo_life f_main f_cfg f_world f_tls c_conf].
  - reflexivity.
  - reflexivity.
  - vm_compute. discriminate.
  - reflexivity.
  - split; [exact demo_board_ok|]. split; reflexivity.
  - reflexivity.
  - vm_compute. reflexivity.
  - split; [intros n; reflexivity|]. split; [vm_compute; discriminate|]. split; [vm_compute; discriminate|]. vm_compute. reflexivity.
  - left. reflexivity.
Qed.
