(* ===== verification/V2Session.v ===== *)
(** * The session of wire protocol v2

    Models the v2 part of [src/src/control.c] and the hello messages of
    [src/src/wire_v2.c]: bytes of the server are cut into frames, the server's
    hello starts the AEAD stream, the login response switches the control
    connection to it, and every message is handed on in the v1 format.  The
    handlers of v1 messages, [json_tokener_parse], HMAC, SHA-256 and the
    allocator are parameters.  [None] means that a loop does not end. *)

From S2P Require Import Prelude Growth Endian Evp Aead WireV2 Json Msg.

(** ** The hello messages *)

Definition WIRE_V2_ALG_AES256GCM : string := "aes-256-gcm".

(** The object of the client's hello; [b64] is the random value in base 64. *)
Definition client_hello_object (transport : option string) (tls tcp_mux : bool) (b64 : string) : json :=
  let add := json_object_object_add in
  let bootstrap := add "transport" (Some (JString (default "tcp"%string transport))) [] in
  let bootstrap := if tls then add "tls" (Some (JBool true)) bootstrap else bootstrap in
  let bootstrap := if tcp_mux then add "tcpMux" (Some (JBool true)) bootstrap else bootstrap in
  let message := add "codecs" (Some (JArray [JString "json"])) [] in
  let crypto := add "clientRandom" (Some (JString b64))
                  (add "algorithms" (Some (JArray [JString WIRE_V2_ALG_AES256GCM])) []) in
  let caps := add "crypto" (Some (JObject crypto)) (add "message" (Some (JObject message)) []) in
  JObject (add "capabilities" (Some (JObject caps)) (add "bootstrap" (Some (JObject bootstrap)) [])).

(** [mbedtls_base64_encode] fails when the room it is told of is too small for
    the text and its terminator. *)
Definition EVP_EncodeBlock (base64 : bytes → string) (src : bytes) : option string :=
  let dlen := 4 * (zlen src + 2) `quot` 3 + 1 in
  if dlen <? Z.of_nat (String.length (base64 src)) + 1 then None else Some (base64 src).

(** [rnd] is what [RAND_bytes] answers. *)
Definition wire_v2_build_client_hello_json (alloc : Z → bool) (print : json → option bytes)
    (base64 : bytes → string) (rnd : option bytes) (transport : option string) (tls tcp_mux : bool)
    : option bytes :=
  rnd ← rnd;
  b64 ← EVP_EncodeBlock base64 rnd;
  s ← print (client_hello_object transport tls tcp_mux b64);
  if alloc (zlen s) then Some s else None.

(** The algorithm the server selected, or [None] for a hello that is refused. *)
Definition wire_v2_parse_server_hello_json (alloc : Z → bool) (parse : bytes → option json) (text : bytes)
    : option string :=
  if negb (alloc (zlen text + 1)) then None
  else
    root ← parse (c_string text);
    let refused := match json_object_object_get_ex root "error" ≫= json_object_get_string with
                   | Some (String _ _) => true
                   | _ => false
                   end in
    if (refused : bool) then None
    else
      sel ← json_object_object_get_ex root "selected";
      crypto ← json_object_object_get_ex sel "crypto";
      alg ← json_object_object_get_ex crypto "algorithm";
      a ← json_object_get_string alg;
      if bool_decide (a = WIRE_V2_ALG_AES256GCM) then Some a else None.

(** ** State

    What the code keeps per stream ([v2_rx], [v2_magic_seen]) and per session,
    with [is_login] and the state [v_host] of the message handlers. *)
Record v2_state (host : Type) := mkV2 {
  v_rx : membuf;
  v_magic_seen : bool;
  v_got_hello : bool;
  v_aead_ready : bool;
  v_ar : aead_reader;
  v_aw : option aead_writer;
  v_ch_json : bytes;
  v_login : bool;
  v_host : host;
}.
Arguments mkV2 {host}. Arguments v_rx {host}. Arguments v_magic_seen {host}. Arguments v_got_hello {host}.
Arguments v_aead_ready {host}. Arguments v_ar {host}. Arguments v_aw {host}. Arguments v_ch_json {host}.
Arguments v_login {host}. Arguments v_host {host}.

Section V2.
Context `{GcmProvider} {host : Type}.
Context (alloc : Z → bool) (hmac_sha256 : bytes → bytes → option bytes) (sha256 : bytes → bytes)
        (parse : bytes → option json) (token : option bytes) (rand : option bytes)
        (login_response : bytes → host → bool * host) (control_work : bytes → host → host).

Abbreviation V := (v2_state host).

Definition set_rx b (v : V) := mkV2 b (v_magic_seen v) (v_got_hello v) (v_aead_ready v) (v_ar v) (v_aw v) (v_ch_json v) (v_login v) (v_host v).
Definition set_magic b (v : V) := mkV2 (v_rx v) b (v_got_hello v) (v_aead_ready v) (v_ar v) (v_aw v) (v_ch_json v) (v_login v) (v_host v).
Definition set_hello ar aw (v : V) := mkV2 (v_rx v) (v_magic_seen v) true (v_aead_ready v) ar aw (v_ch_json v) (v_login v) (v_host v).
Definition set_ready (v : V) := mkV2 (v_rx v) (v_magic_seen v) (v_got_hello v) true (v_ar v) (v_aw v) (v_ch_json v) (v_login v) (v_host v).
Definition set_ar ar (v : V) := mkV2 (v_rx v) (v_magic_seen v) (v_got_hello v) (v_aead_ready v) ar (v_aw v) (v_ch_json v) (v_login v) (v_host v).
Definition set_host l (s : host) (v : V) := mkV2 (v_rx v) (v_magic_seen v) (v_got_hello v) (v_aead_ready v) (v_ar v) (v_aw v) (v_ch_json v) l s.

(** The same loop as in the AEAD buffers. *)
Definition v2_buf_append (b : membuf) (p : bytes) : option (Z * membuf) := buf_append alloc b p.

(** [false] is -1. *)
Definition v2_init_aead_from_hello (sh : bytes) (v : V) : bool * V :=
  match wire_v2_parse_server_hello_json alloc parse sh with
  | None => (false, v)
  | Some alg =>
      match derive_v2_control_keys hmac_sha256 (default [] token)
              (wire_v2_hash_transcript sha256 (v_ch_json v) sh) alg with
      | None => (false, v)
      | Some (c2s, s2c) =>
          match aead_writer_init c2s rand with
          | None => (false, v)
          | Some aw => (true, set_hello (aead_reader_init s2c) (Some aw) v)
          end
      end
  end.

Definition v2_dispatch_v1_buf (v1 : bytes) (v : V) : V :=
  if v_login v then set_host true (control_work v1 (v_host v)) v
  else let '(ok, s) := login_response v1 (v_host v) in set_host ok s v.

Inductive v2_round := VStop (v : V) | VNext (v : V) | VDiverge.

Definition pt_clear (r : aead_reader) : aead_reader :=
  mkReader (r_key r) (r_stream_nonce r) (r_nonce r) (r_header_read r) (r_frame_count r) (r_ct r)
    (mkBuf [] (buf_cap (r_pt r))).

(** After a frame: the first time the login stands, what is left of the buffer is
    ciphertext. *)
Definition v2_after_frame (ctx : bool) (v : V) : v2_round :=
  if negb ctx && v_login v && v_got_hello v && negb (v_aead_ready v) then
    let v := set_ready v in
    let rest := buf_data (v_rx v) in
    if zlen rest =? 0 then VStop v
    else
      match aead_reader_feed alloc (v_ar v) rest with
      | None => VDiverge
      | Some (rc, ar) =>
          let pt := buf_data (r_pt ar) in
          if (rc =? 0) && (0 <? zlen pt) && alloc (zlen pt) then
            match v2_buf_append (mkBuf [] (buf_cap (v_rx v))) pt with
            | None => VDiverge
            | Some (_, b) => VNext (set_rx b (set_ar (pt_clear ar) v))
            end
          else VStop (set_rx (mkBuf [] (buf_cap (v_rx v))) (set_ar ar v))
      end
  else VNext v.

(** [ctx]: a work connection. *)
Definition v2_frame_round (ctx : bool) (v : V) : v2_round :=
  let buf := buf_data (v_rx v) in
  if zlen buf <? 8 then VStop v
  else
    match wire_v2_parse_frame buf with
    | FrameIncomplete => VStop v
    | FrameBad => VStop (set_rx (mkBuf [] (buf_cap (v_rx v))) v)
    | FrameOk type pl n =>
        let rest := mkBuf (zdrop n buf) (buf_cap (v_rx v)) in
        if negb (v_got_hello v) && negb ctx then
          if negb (type =? WIRE_V2_FRAME_SERVER_HELLO) then VStop (set_rx rest v)
          else
            let '(ok, v) := v2_init_aead_from_hello pl v in
            if (ok : bool) then v2_after_frame ctx (set_rx rest v) else VStop (set_rx rest v)
        else
          let v := if type =? WIRE_V2_FRAME_MESSAGE then
                     match wire_v2_payload_to_v1 alloc pl with
                     | Some v1 => v2_dispatch_v1_buf v1 v
                     | None => v
                     end
                   else v in
          v2_after_frame ctx (set_rx rest v)
    end.

Fixpoint v2_consume_loop (fuel : nat) (ctx : bool) (v : V) : option V :=
  match fuel with
  | O => None
  | S fuel =>
      match v2_frame_round ctx v with
      | VStop v => Some v
      | VNext v => v2_consume_loop fuel ctx v
      | VDiverge => None
      end
  end.

(** Every round takes at least eight bytes away. *)
Definition v2_consume_plain_frames (ctx : bool) (v : V) : option V :=
  v2_consume_loop (S (length (buf_data (v_rx v)))) ctx v.

Definition v2_handle_bytes (ctx : bool) (buf : bytes) (v : V) : option V :=
  let '(p, v) :=
    if negb (v_magic_seen v) && (7 <=? zlen buf) && bool_decide (ztake 7 buf = WIRE_V2_MAGIC)
    then (zdrop 7 buf, set_magic true v) else (buf, v) in
  if v_aead_ready v && negb ctx then
    '(rc, ar) ← aead_reader_feed alloc (v_ar v) p;
    let v := set_ar ar v in
    if negb (rc =? 0) then Some v
    else if zlen (buf_data (r_pt ar)) =? 0 then Some v
    else
      '(rc, b) ← v2_buf_append (v_rx v) (buf_data (r_pt ar));
      if negb (rc =? 0) then Some v
      else v2_consume_plain_frames ctx (set_rx b (set_ar (pt_clear ar) v))
  else
    '(rc, b) ← v2_buf_append (v_rx v) p;
    if negb (rc =? 0) then Some v else v2_consume_plain_frames ctx (set_rx b v).

(** Delivery after delivery on the control connection. *)
Fixpoint v2_handle_all (chunks : list bytes) (v : V) : option V :=
  match chunks with
  | [] => Some v
  | c :: chunks => v ← v2_handle_bytes false c v; v2_handle_all chunks v
  end.

Definition v2_session_reset (v : V) : V :=
  mkV2 (v_rx v) (v_magic_seen v) false false (aead_reader_init (replicate 32 0)) None [] (v_login v) (v_host v).

End V2.
