(* ===== verification/V2Thm.v ===== *)
(** * What the v2 session receives

    Whatever the network does to the pieces, the messages a server sends over
    wire protocol v2, the login response in the clear and the rest sealed,
    reach the handlers once each and in order. *)

From S2P Require Import Prelude Growth Endian Evp Aead WireV2 Json Msg V2Session.

(** A message as the handlers get it. *)
Definition v1_of (m : msg_type * bytes) : bytes := u8 (msg_type_char (fst m)) :: be64_put (zlen (snd m)) ++ snd m.

(** [f] is the frame of the message [m]. *)
Definition framed (m : msg_type * bytes) (f : bytes) : Prop :=
  zlen (snd m) + 2 ≤ WIRE_V2_MAX_PAYLOAD ∧ wire_v2_encode_message (λ _, true) (fst m) (snd m) = Some f.

Lemma framed_parse m f rest :
  framed m f → 8 ≤ zlen f ∧
  wire_v2_parse_frame (f ++ rest) = FrameOk WIRE_V2_FRAME_MESSAGE (message_payload (fst m) (snd m)) (zlen f) ∧
  wire_v2_payload_to_v1 (λ _, true) (message_payload (fst m) (snd m)) = Some (v1_of m) ∧
  ∀ n, 0 ≤ n < zlen f → wire_v2_parse_frame (ztake n f) = FrameIncomplete.
Proof.
  destruct m as [t j]. intros [Hj Henc]. simpl in *. apply encode_message_frame in Henc as [Hid Henc].
  assert (zlen (message_payload t j) ≤ WIRE_V2_MAX_PAYLOAD) as Hp
    by (unfold message_payload; cbn [app]; rewrite !zlen_cons; lia).
  destruct (parse_encode_frame _ _ _ f rest Hp Henc) as [E El]. pose proof (zlen_nonneg (message_payload t j)).
  split_and!; [lia|by rewrite E, El|by apply message_payload_v1|]. intros n Hn. by eapply parse_frame_prefix.
Qed.

(** A piece that starts a list of frames either ends inside the first frame or
    contains it. *)
Lemma prefix_or_frame (l Q f rest : bytes) :
  l ++ Q = f ++ rest → (zlen l < zlen f ∧ l = ztake (zlen l) f) ∨ ∃ l', l = f ++ l' ∧ l' ++ Q = rest.
Proof.
  intros E. destruct (Z.lt_ge_cases (zlen l) (zlen f)) as [Hlt|Hge]; [left|right].
  - split; [done|]. rewrite <- (ztake_app_le _ f rest), <- E by lia. symmetry. by apply ztake_app_exact.
  - symmetry in E. apply app_eq_app_le in E as (l' & -> & E); [|done]. by exists l'.
Qed.

Section Thm.
Context `{GcmProvider} {host : Type}.
Context (hmac_sha256 : bytes → bytes → option bytes) (sha256 : bytes → bytes)
        (parse : bytes → option json) (token : option bytes) (rand : option bytes)
        (login_response : bytes → host → bool * host) (control_work : bytes → host → host).

Abbreviation yes := (λ _ : Z, true).
Abbreviation round := (v2_frame_round yes hmac_sha256 sha256 parse token rand login_response control_work false).
Abbreviation loop := (v2_consume_loop yes hmac_sha256 sha256 parse token rand login_response control_work).
Abbreviation handle := (v2_handle_bytes yes hmac_sha256 sha256 parse token rand login_response control_work false).
Abbreviation handle_all := (v2_handle_all yes hmac_sha256 sha256 parse token rand login_response control_work).

Definition handled (ms : list (msg_type * bytes)) (s : host) : host :=
  foldl (λ s m, control_work (v1_of m) s) s ms.

(** ** Frames already in the clear *)

(** An incomplete frame ends the loop. *)
Lemma round_incomplete v f n :
  buf_data (v_rx v) = ztake n f → 0 ≤ n < zlen f →
  (∀ k, 0 ≤ k < zlen f → wire_v2_parse_frame (ztake k f) = FrameIncomplete) → round v = VStop v.
Proof.
  intros E Hn Hp. unfold v2_frame_round. rewrite E. case_if; [done|]. by rewrite (Hp n Hn).
Qed.

(** The buffer ends inside the first frame. *)
Definition stuck (fs : list bytes) (l : bytes) : Prop :=
  match fs with [] => True | f :: _ => zlen l < zlen f end.

(** The messages of the AEAD stream. *)
Record streaming (v v' : v2_state host) : Prop := {
  st_magic : v_magic_seen v' = v_magic_seen v;
  st_hello : v_got_hello v' = true;
  st_ready : v_aead_ready v' = true;
  st_login : v_login v' = true;
  st_ar : v_ar v' = v_ar v;
}.

Lemma loop_messages ms fs Q fuel v :
  Forall2 framed ms fs → buf_data (v_rx v) ++ Q = concat fs → (length (buf_data (v_rx v)) < fuel)%nat →
  v_got_hello v = true → v_aead_ready v = true → v_login v = true →
  ∃ v' ms' fs', loop fuel false v = Some v' ∧ streaming v v' ∧ Forall2 framed ms' fs' ∧
    buf_data (v_rx v') ++ Q = concat fs' ∧ handled ms' (v_host v') = handled ms (v_host v) ∧
    buf_cap (v_rx v') = buf_cap (v_rx v) ∧
    zlen (buf_data (v_rx v')) ≤ zlen (buf_data (v_rx v)) ∧ stuck fs' (buf_data (v_rx v')).
Proof.
  intros HF. revert fuel v. induction HF as [|m f ms fs Hm HF IH]; intros fuel v E Hfuel Hh Hr Hl.
  - simpl in E. apply app_nil in E as [E ->]. destruct fuel; [lia|]. exists v, [], []. cbn [v2_consume_loop].
    unfold v2_frame_round. rewrite E. by split_and!.
  - destruct fuel as [|fuel]; [lia|]. cbn [concat] in E. destruct (framed_parse m f [] Hm) as (Hf & _ & _ & Hpre).
    destruct (prefix_or_frame _ _ _ _ E) as [[Hlt Ep]|(l' & El & E')].
    + exists v, (m :: ms), (f :: fs). cbn [v2_consume_loop]. pose proof (zlen_nonneg (buf_data (v_rx v))).
      rewrite (round_incomplete v f _ Ep) by (done || lia).
      split_and!; try done. by constructor.
    + destruct (framed_parse m f l' Hm) as (_ & Hparse & Hv1 & _). cbn [v2_consume_loop].
      set (v1 := set_rx (mkBuf l' (buf_cap (v_rx v))) (set_host true (control_work (v1_of m) (v_host v)) v)).
      assert (round v = VNext v1) as ->.
      { unfold v2_frame_round. rewrite El. rewrite (proj2 (Z.ltb_ge _ _)) by (rewrite zlen_app; pose proof (zlen_nonneg l'); lia).
        rewrite Hparse, Hh. cbn [negb andb]. change (WIRE_V2_FRAME_MESSAGE =? WIRE_V2_FRAME_MESSAGE) with true. cbv iota zeta.
        rewrite Hv1. unfold v2_dispatch_v1_buf. rewrite Hl. rewrite zdrop_app_exact by done.
        unfold v2_after_frame. cbn. by rewrite Hr, andb_false_r. }
      assert (0 < length f)%nat as Hfpos by (unfold zlen in Hf; lia).
      destruct (IH fuel v1) as (v' & ms' & fs' & Hrun & [] & HF' & Ec & Hho & Hcap & Hz & Hq); try done.
      { cbn. rewrite El, length_app in Hfuel. lia. }
      exists v', ms', fs'. split_and!; try done. cbn in Hz. rewrite El, zlen_app. pose proof (zlen_nonneg f). lia.
Qed.

(** ** The sealed stream *)

(** The server has sealed [pts] and [R] is still on its way; when everything is
    there the handlers will be in the state [goal]. *)
Definition sealed (goal : host) (v : v2_state host) (R : bytes) : Prop :=
  ∃ ms fs pts w outs w',
    (v_got_hello v = true ∧ v_aead_ready v = true ∧ v_login v = true) ∧
    (Forall2 framed ms fs ∧ buf_data (v_rx v) ++ concat pts = concat fs ∧ handled ms (v_host v) = goal ∧
     stuck fs (buf_data (v_rx v))) ∧
    (seal_all yes w pts = Some (outs, w') ∧ tracks (v_ar v) w ∧ buf_data (r_ct (v_ar v)) ++ R = outs_bytes outs ∧
     buf_data (r_pt (v_ar v)) = [] ∧ (R = [] → pts = [])) ∧
    (0 ≤ buf_cap (v_rx v) ∧ 0 ≤ buf_cap (r_pt (v_ar v)) ∧ 0 ≤ buf_cap (r_ct (v_ar v))) ∧
    zlen (buf_data (v_rx v)) + zlen (outs_bytes outs) ≤ 2 ^ 31.

Lemma sealed_done goal v : sealed goal v [] → v_host v = goal.
Proof.
  intros (ms & fs & pts & w & outs & w' & _ & (HF & E & Hg & Hst) & (_ & _ & _ & _ & Hp) & _).
  rewrite Hp, app_nil_r in E by done. destruct HF as [|m f ms fs Hm HF]; [done|].
  exfalso. simpl in Hst. rewrite E in Hst. cbn [concat] in Hst. rewrite zlen_app in Hst.
  pose proof (zlen_nonneg (concat fs)). lia.
Qed.

(** Plaintext that has come out of the reader. *)
Lemma loop_plaintext goal ms fs pts2 w outs w' R fuel v :
  v_got_hello v = true → v_aead_ready v = true → v_login v = true →
  Forall2 framed ms fs → buf_data (v_rx v) ++ concat pts2 = concat fs → handled ms (v_host v) = goal →
  seal_all yes w pts2 = Some (outs, w') → tracks (v_ar v) w → buf_data (r_ct (v_ar v)) ++ R = outs_bytes outs →
  buf_data (r_pt (v_ar v)) = [] → (R = [] → pts2 = []) →
  0 ≤ buf_cap (v_rx v) → 0 ≤ buf_cap (r_pt (v_ar v)) → 0 ≤ buf_cap (r_ct (v_ar v)) →
  zlen (buf_data (v_rx v)) + zlen (outs_bytes outs) ≤ 2 ^ 31 → (length (buf_data (v_rx v)) < fuel)%nat →
  ∃ v', loop fuel false v = Some v' ∧ v_magic_seen v' = v_magic_seen v ∧ sealed goal v' R.
Proof.
  intros Hh Hr Hl HF E Hg Hs Ht Hct Hpt HR C1 C2 C3 Hz Hf.
  destruct (loop_messages ms fs (concat pts2) fuel v HF E Hf Hh Hr Hl)
    as (v' & ms' & fs' & Hrun & [M1 M2 M3 M4 M5] & HF' & E' & Hg' & Hcap & Hle & Hst).
  exists v'. split_and!; [done|done|]. exists ms', fs', pts2, w, outs, w'. rewrite M5.
  split_and!; try done; [by rewrite Hg'|by rewrite Hcap|lia].
Qed.

(** ** A delivery *)

(** The delivery does not look like the protocol's magic. *)
Definition unmagic (v : v2_state host) (c : bytes) : Prop :=
  v_magic_seen v = true ∨ ztake 7 c ≠ WIRE_V2_MAGIC.

Lemma unmagic_false v c :
  unmagic v c → negb (v_magic_seen v) && (7 <=? zlen c) && bool_decide (ztake 7 c = WIRE_V2_MAGIC) = false.
Proof.
  intros [->|Hn]; [done|]. rewrite (bool_decide_eq_false_2 _ Hn). by rewrite andb_false_r.
Qed.

Lemma handle_sealed goal c R v :
  sealed goal v (c ++ R) → unmagic v c →
  ∃ v', handle c v = Some v' ∧ v_magic_seen v' = v_magic_seen v ∧ sealed goal v' R.
Proof.
  intros (ms & fs & pts & w & outs & w' & (Hh & Hr & Hl) & (HF & E & Hg & Hst) & (Hs & Ht & Hct & Hpt & _) &
          (C1 & C2 & C3) & Hz) Hu.
  unfold v2_handle_bytes. rewrite (unmagic_false v c Hu), Hr. cbn [andb negb].
  pose proof (zlen_nonneg (buf_data (v_rx v))).
  destruct (feed_tracks yes (λ _, eq_refl) pts w outs w' (v_ar v) c R Hs Ht Hct)
    as (p1 & p2 & o2 & w1 & r' & -> & Hs1 & -> & Ht1 & Hp1 & Hcp & Hb1 & Hcc & Hle & Hfin); [rewrite Hpt; change (zlen []) with 0; lia|done|done|].
  rewrite Hpt in Hp1, Hle. simpl in Hp1. cbn [mbind option_bind Z.eqb negb]. rewrite Hp1.
  rewrite concat_app in E. change (zlen []) with 0 in Hle. rewrite Hp1 in Hle.
  destruct (Z.eqb_spec (zlen (concat p1)) 0) as [Hp0|Hp0].
  - apply zlen_0_inv in Hp0. rewrite Hp0 in *. eexists. split_and!; [done|done|].
    exists ms, fs, p2, w1, o2, w'. cbn. split_and!; try done. change (zlen []) with 0 in Hle. lia.
  - destruct (buf_append_ok yes (λ _, eq_refl) (v_rx v) (concat p1)) as (k & Hk & Hk0).
    { split; [|done]. pose proof (zlen_nonneg (outs_bytes o2)). lia. }
    unfold v2_buf_append. cbn [v_rx set_ar]. rewrite Hk. cbn [mbind option_bind Z.eqb negb].
    destruct (loop_plaintext goal ms fs p2 w1 o2 w' R
      (S (length (buf_data (v_rx v) ++ concat p1)))
      (set_rx (mkBuf (buf_data (v_rx v) ++ concat p1) k) (set_ar (pt_clear r') (set_ar r' v))))
      as (v' & Hrun & Hm & Hsl); try done; cbn; [by rewrite <- app_assoc|rewrite zlen_app; lia|lia|].
    exists v'. done.
Qed.

(** ** Before the stream is sealed *)

(** What the server sends: its hello, the login response, the sealed messages. *)
Context (sh j0 : bytes) (F1 F2 : bytes) (alg : string) (ch c2s s2c nonce : bytes) (aw ws ws' : aead_writer)
        (pts : list bytes) (outs : list bytes) (ms : list (msg_type * bytes)) (fs : list bytes)
        (s0 s1 : host).
Hypothesis Hsh : zlen sh ≤ WIRE_V2_MAX_PAYLOAD.
Hypothesis HF1 : wire_v2_encode_frame yes WIRE_V2_FRAME_SERVER_HELLO sh = Some F1.
Hypothesis HF2 : framed (TypeLoginResp, j0) F2.
Hypothesis Halg : wire_v2_parse_server_hello_json yes parse sh = Some alg.
Hypothesis Hkeys : derive_v2_control_keys hmac_sha256 (default [] token)
                     (wire_v2_hash_transcript sha256 ch sh) alg = Some (c2s, s2c).
Hypothesis Haw : aead_writer_init c2s rand = Some aw.
Hypothesis Hnonce : zlen nonce = 12.
Hypothesis Hws : aead_writer_init s2c (Some nonce) = Some ws.
Hypothesis Hseal : seal_all yes ws pts = Some (outs, ws').
Hypothesis Hms : Forall2 framed ms fs.
Hypothesis Hpts : concat pts = concat fs.
Hypothesis Hlogin : login_response (v1_of (TypeLoginResp, j0)) s0 = (true, s1).
Hypothesis Hsize : zlen F1 + zlen F2 + zlen (outs_bytes outs) ≤ 2 ^ 31.

Abbreviation goal := (handled ms s1).

Lemma init_tracks : tracks (aead_reader_init s2c) ws.
Proof. injection Hws as <-. right. by unfold fresh. Qed.

Lemma empty_stream R : [] ++ R = outs_bytes outs → R = [] → pts = [].
Proof.
  intros E ->. destruct pts as [|pt ps]; [done|]. exfalso.
  apply seal_all_header in Hseal as (o & Ho & _); [|done|by injection Hws as <-].
  assert (w_nonce ws = nonce) as Hn by by injection Hws as <-. rewrite Ho, Hn in E.
  apply (f_equal zlen) in E. rewrite !zlen_app, Hnonce in E. change (zlen []) with 0 in E.
  pose proof (zlen_nonneg (outs_bytes o)). lia.
Qed.

(** The login stands: what is left of the buffer is ciphertext. *)
Lemma after_login R fuel v :
  v_got_hello v = true → v_aead_ready v = false → v_login v = true → v_ar v = aead_reader_init s2c →
  v_host v = s1 → buf_data (v_rx v) ++ R = outs_bytes outs → 0 ≤ buf_cap (v_rx v) →
  (length (buf_data (v_rx v)) < fuel)%nat →
  ∃ v', match v2_after_frame yes false v with
        | VStop v' => Some v'
        | VNext v1 => loop fuel false v1
        | VDiverge => None
        end = Some v' ∧ v_magic_seen v' = v_magic_seen v ∧ sealed goal v' R.
Proof.
  intros Hh Hr Hl Har Hho E Hcap Hf. unfold v2_after_frame. rewrite Hh, Hr, Hl. cbn [negb andb]. cbv zeta.
  pose proof (zlen_nonneg F1). pose proof (zlen_nonneg F2). change (buf_data (v_rx (set_ready v))) with (buf_data (v_rx v)).
  destruct (Z.eqb_spec (zlen (buf_data (v_rx v))) 0) as [Hz|Hz].
  - apply zlen_0_inv in Hz. rewrite Hz in E. eexists. split_and!; [done|done|].
    exists ms, fs, pts, ws, outs, ws'. cbn. rewrite Har, Hz. split_and!; try done.
    + by rewrite Hho.
    + destruct Hms as [|m f ? ? Hm]; [done|]. simpl. destruct (framed_parse m f [] Hm). change (zlen []) with 0. lia.
    + apply init_tracks.
    + by apply empty_stream.
    + change (zlen []) with 0. lia.
  - change (v_ar (set_ready v)) with (v_ar v). rewrite Har.
    destruct (feed_tracks yes (λ _, eq_refl) pts ws outs ws' (aead_reader_init s2c) (buf_data (v_rx v)) R Hseal init_tracks)
      as (p1 & p2 & o2 & w1 & r' & Hp & Hs1 & -> & Ht1 & Hp1 & Hcp & Hb1 & Hcc & Hle & Hfin);
      [done|change (zlen (buf_data (r_pt (aead_reader_init s2c)))) with 0; lia|done|done|].
    simpl in Hp1. cbn [Z.eqb andb]. rewrite Hp1. rewrite Hp, concat_app in Hpts.
    assert (zlen (concat p1) + zlen (outs_bytes o2) ≤ zlen (outs_bytes outs)) as Hle' by (rewrite Hp1 in Hle; exact Hle).
    destruct (Z.ltb_spec 0 (zlen (concat p1))) as [Hp0|Hp0]; cbn [andb].
    + destruct (buf_append_ok yes (λ _, eq_refl) (mkBuf [] (buf_cap (v_rx v))) (concat p1)) as (k & Hk & Hk0).
      { split; [|done]. change (zlen (buf_data (mkBuf [] (buf_cap (v_rx v))))) with 0. pose proof (zlen_nonneg (outs_bytes o2)). lia. }
      unfold v2_buf_append. change (v_rx (set_ready v)) with (v_rx v). rewrite Hk.
      assert (length (concat p1) < fuel)%nat as Hf1.
      { pose proof (f_equal zlen E) as E1. pose proof (f_equal zlen Hb1) as E2.
        rewrite zlen_app in E1, E2. unfold zlen in *. lia. }
      destruct (loop_plaintext goal ms fs p2 w1 o2 ws' R fuel
        (set_rx (mkBuf (concat p1) k) (set_ar (pt_clear r') (set_ready v)))) as (v' & Hrun & Hm & Hsl);
        try done; cbn; [by rewrite Hho|lia|]. by exists v'.
    + assert (concat p1 = []) as Hnil by (apply zlen_0_inv; pose proof (zlen_nonneg (concat p1)); lia).
      rewrite Hnil in Hpts. eexists. split_and!; [done|done|].
      exists ms, fs, p2, w1, o2, ws'. cbn. split_and!; try done.
      * by rewrite Hho.
      * destruct Hms as [|m f ? ? Hm]; [done|]. simpl. destruct (framed_parse m f [] Hm). change (zlen []) with 0. lia.
      * by rewrite Hp1.
      * change (zlen []) with 0. pose proof (zlen_nonneg (concat p1)). lia.
Qed.

(** The client has the hello and waits for the rest of the login response. *)
Record awaiting_login (v : v2_state host) (R : bytes) : Prop := {
  al_hello : v_got_hello v = true;
  al_ready : v_aead_ready v = false;
  al_login : v_login v = false;
  al_ar : v_ar v = aead_reader_init s2c;
  al_host : v_host v = s0;
  al_rx : buf_data (v_rx v) ++ R = F2 ++ outs_bytes outs;
  al_cap : 0 ≤ buf_cap (v_rx v);
}.

Lemma login_phase R fuel v :
  awaiting_login v R → (length (buf_data (v_rx v)) < fuel)%nat →
  ∃ v', loop fuel false v = Some v' ∧ v_magic_seen v' = v_magic_seen v ∧
    ((awaiting_login v' R ∧ zlen (buf_data (v_rx v')) < zlen F2) ∨ sealed goal v' R).
Proof.
  intros A Hf. destruct fuel as [|fuel]; [lia|]. cbn [v2_consume_loop].
  destruct (framed_parse _ F2 [] HF2) as (HF & _ & _ & Hpre).
  destruct (prefix_or_frame _ _ _ _ (al_rx _ _ A)) as [[Hlt Ep]|(l' & El & E')].
  - rewrite (round_incomplete v F2 _ Ep) by (done || (pose proof (zlen_nonneg (buf_data (v_rx v))); lia)).
    exists v. split_and!; [done|done|by left].
  - destruct (framed_parse _ F2 l' HF2) as (_ & Hparse & Hv1 & _).
    destruct A as [Hh Hr Hl Har Hho _ Hcap].
    set (v1 := set_rx (mkBuf l' (buf_cap (v_rx v))) (set_host true s1 v)).
    assert (round v = v2_after_frame yes false v1) as ->.
    { unfold v2_frame_round. rewrite El. rewrite (proj2 (Z.ltb_ge _ _)) by (rewrite zlen_app; pose proof (zlen_nonneg l'); lia).
      rewrite Hparse, Hh. cbn [negb andb]. change (WIRE_V2_FRAME_MESSAGE =? WIRE_V2_FRAME_MESSAGE) with true. cbv iota zeta.
      rewrite Hv1. unfold v2_dispatch_v1_buf. rewrite Hl, Hho, Hlogin. by rewrite zdrop_app_exact. }
    destruct (after_login R fuel v1) as (v' & Hrun & Hm & Hsl); try done.
    { cbn. rewrite El, length_app in Hf. unfold zlen in HF. lia. }
    exists v'. split_and!; [exact Hrun|exact Hm|by right].
Qed.

(** The client waits for the rest of the hello. *)
Record awaiting_hello (v : v2_state host) (R : bytes) : Prop := {
  ah_hello : v_got_hello v = false;
  ah_ready : v_aead_ready v = false;
  ah_login : v_login v = false;
  ah_json : v_ch_json v = ch;
  ah_host : v_host v = s0;
  ah_rx : buf_data (v_rx v) ++ R = F1 ++ F2 ++ outs_bytes outs;
  ah_cap : 0 ≤ buf_cap (v_rx v);
}.

(** Between two deliveries. *)
Definition session_at (v : v2_state host) (R : bytes) : Prop :=
  (awaiting_hello v R ∧ zlen (buf_data (v_rx v)) < zlen F1) ∨
  (awaiting_login v R ∧ zlen (buf_data (v_rx v)) < zlen F2) ∨ sealed goal v R.

Lemma hello_phase R fuel v :
  awaiting_hello v R → (length (buf_data (v_rx v)) < fuel)%nat →
  ∃ v', loop fuel false v = Some v' ∧ v_magic_seen v' = v_magic_seen v ∧ session_at v' R.
Proof.
  intros A Hf. destruct fuel as [|fuel]; [lia|]. cbn [v2_consume_loop].
  destruct (parse_encode_frame _ _ _ F1 [] Hsh HF1) as [_ HF]. pose proof (zlen_nonneg sh).
  destruct (prefix_or_frame _ _ _ _ (ah_rx _ _ A)) as [[Hlt Ep]|(l' & El & E')].
  - rewrite (round_incomplete v F1 _ Ep).
    + exists v. split_and!; [done|done|by left].
    + pose proof (zlen_nonneg (buf_data (v_rx v))). lia.
    + intros n Hn. by eapply parse_frame_prefix.
  - destruct (parse_encode_frame _ _ _ F1 l' Hsh HF1) as [Hparse _].
    destruct A as [Hh Hr Hl Hj Hho _ Hcap].
    set (v1 := set_rx (mkBuf l' (buf_cap (v_rx v))) (set_hello (aead_reader_init s2c) (Some aw) v)).
    assert (round v = VNext v1) as ->.
    { unfold v2_frame_round. rewrite El. rewrite (proj2 (Z.ltb_ge _ _)) by (rewrite zlen_app; pose proof (zlen_nonneg l'); lia).
      rewrite Hparse, Hh. cbn [negb andb]. change (WIRE_V2_FRAME_SERVER_HELLO =? WIRE_V2_FRAME_SERVER_HELLO) with true.
      cbn [negb]. unfold v2_init_aead_from_hello. rewrite Halg, Hj, Hkeys, Haw. cbv iota beta zeta.
      unfold v2_after_frame. cbn. rewrite Hl. cbn. rewrite zdrop_app_exact by lia. done. }
    destruct (login_phase R fuel v1) as (v' & Hrun & Hm & Hsl).
    { by constructor. }
    { cbn. rewrite El, length_app in Hf. unfold zlen in HF. lia. }
    exists v'. split_and!; [exact Hrun|exact Hm|by right].
Qed.

(** A delivery in the clear joins what is left in the buffer. *)
Lemma handle_clear c v :
  unmagic v c → v_aead_ready v = false → 0 ≤ buf_cap (v_rx v) → zlen (buf_data (v_rx v)) + zlen c ≤ 2 ^ 31 →
  ∃ k, 0 ≤ k ∧ handle c v = loop (S (length (buf_data (v_rx v) ++ c))) false (set_rx (mkBuf (buf_data (v_rx v) ++ c) k) v).
Proof.
  intros Hu Hr Hcap Hz. destruct (buf_append_ok yes (λ _, eq_refl) (v_rx v) c) as (k & Hk & Hk0); [by split|].
  exists k. split; [done|]. unfold v2_handle_bytes. rewrite (unmagic_false v c Hu), Hr. cbn [andb].
  unfold v2_buf_append. rewrite Hk. cbn [mbind option_bind Z.eqb negb]. done.
Qed.

Lemma handle_session c R v :
  session_at v (c ++ R) → unmagic v c →
  ∃ v', handle c v = Some v' ∧ v_magic_seen v' = v_magic_seen v ∧ session_at v' R.
Proof.
  pose proof (zlen_nonneg F1). pose proof (zlen_nonneg F2). pose proof (zlen_nonneg R).
  intros [[A _]|[[A _]|A]] Hu.
  - destruct A as [Hh Hr Hl Hj Hho E Hcap]. pose proof (f_equal zlen E) as Ez. rewrite !zlen_app in Ez.
    destruct (handle_clear c v Hu Hr Hcap) as (k & Hk & ->); [lia|].
    destruct (hello_phase R (S (length (buf_data (v_rx v) ++ c))) (set_rx (mkBuf (buf_data (v_rx v) ++ c) k) v))
      as (v' & Hrun & Hm & Hs); [constructor; try done; cbn; by rewrite <- app_assoc|cbn; lia|by exists v'].
  - destruct A as [Hh Hr Hl Hj Hho E Hcap]. pose proof (f_equal zlen E) as Ez. rewrite !zlen_app in Ez.
    destruct (handle_clear c v Hu Hr Hcap) as (k & Hk & ->); [lia|].
    destruct (login_phase R (S (length (buf_data (v_rx v) ++ c))) (set_rx (mkBuf (buf_data (v_rx v) ++ c) k) v))
      as (v' & Hrun & Hm & Hs); [constructor; try done; cbn; by rewrite <- app_assoc|cbn; lia|].
    exists v'. split_and!; [done|done|by right].
  - destruct (handle_sealed goal c R v A Hu) as (v' & Hrun & Hm & Hs). exists v'. split_and!; [done|done|by right; right].
Qed.

Lemma handle_chunks chunks v :
  session_at v (concat chunks) → Forall (unmagic v) chunks →
  ∃ v', handle_all chunks v = Some v' ∧ session_at v' [].
Proof.
  revert v. induction chunks as [|c chunks IH]; intros v Hs Hu; [by exists v|].
  apply Forall_cons in Hu as [Hc Hu]. destruct (handle_session c (concat chunks) v Hs Hc) as (v1 & Hrun & Hm & Hs1).
  destruct (IH v1 Hs1) as (v' & Hrun' & Hs').
  { eapply Forall_impl; [exact Hu|]. intros c'. unfold unmagic. by rewrite Hm. }
  exists v'. split; [|done]. cbn [v2_handle_all]. by rewrite Hrun.
Qed.

(** C15: the receive side of wire protocol v2.  A server sends its hello, the
    login response in the clear, and messages cut into records in any way and
    sealed under the key both sides derive; however the network cuts that
    stream into deliveries, every delivery is handled to the end and the
    handlers see the login response and then each message, once and in order. *)
Theorem v2_session_roundtrip chunks v :
  awaiting_hello v (concat chunks) → buf_data (v_rx v) = [] → Forall (unmagic v) chunks →
  ∃ v', handle_all chunks v = Some v' ∧ v_host v' = handled ms s1 ∧
        v_login v' = true ∧ v_aead_ready v' = true.
Proof.
  intros A E Hu. destruct (handle_chunks chunks v) as (v' & Hrun & Hs); [|done|].
  { left. split; [done|]. rewrite E. destruct (parse_encode_frame _ _ _ F1 [] Hsh HF1) as [_ HF].
    pose proof (zlen_nonneg sh). change (zlen []) with 0. lia. }
  exists v'. split; [done|]. destruct Hs as [[A' Hlt]|[[A' Hlt]|Hs]].
  - pose proof (f_equal zlen (ah_rx _ _ A')) as Ez. rewrite !zlen_app in Ez. change (zlen []) with 0 in Ez.
    pose proof (zlen_nonneg F2). pose proof (zlen_nonneg (outs_bytes outs)). lia.
  - pose proof (f_equal zlen (al_rx _ _ A')) as Ez. rewrite !zlen_app in Ez. change (zlen []) with 0 in Ez.
    pose proof (zlen_nonneg (outs_bytes outs)). lia.
  - split; [by apply sealed_done|]. by destruct Hs as (? & ? & ? & ? & ? & ? & (_ & ? & ?) & _).
Qed.

End Thm.

(** ** Work connections *)

(** The first bytes of a tunnel are lost.  When a delivery on a work
    connection holds the StartWorkConn message and the first bytes of the
    tunnelled connection, the handler gets the message without them, and they
    are parsed as the next frame: unless they happen to form one they have no
    effect on any handler. *)
Lemma v2_start_work_tail_lost `{GcmProvider} {host : Type} (hmac_sha256 : bytes → bytes → option bytes)
    (sha256 : bytes → bytes) (parse : bytes → option json) (token rand : option bytes)
    (login_response : bytes → host → bool * host) (control_work : bytes → host → host)
    (j f tail : bytes) (v : v2_state host)
    (Hf : framed (TypeStartWorkConn, j) f) (Htail : ∀ t p n, wire_v2_parse_frame tail ≠ FrameOk t p n)
    (Hlen : zlen f + zlen tail ≤ 2 ^ 31) (Hrx : v_rx v = mkBuf [] 0) (Hlogin : v_login v = true)
    (Hmagic : unmagic v (f ++ tail)) :
  ∃ v', v2_handle_bytes (λ _, true) hmac_sha256 sha256 parse token rand login_response control_work true (f ++ tail) v = Some v' ∧
    v_host v' = control_work (v1_of (TypeStartWorkConn, j)) (v_host v).
Proof.
  destruct (framed_parse _ f tail Hf) as (Hf8 & Hparse & Hv1 & _). pose proof (zlen_nonneg tail).
  destruct (buf_append_ok (λ _, true) (λ _, eq_refl) (v_rx v) (f ++ tail)) as (k & Hk & Hk0).
  { rewrite Hrx. split; [rewrite zlen_app; change (zlen (buf_data (mkBuf [] 0))) with 0; lia|done]. }
  unfold v2_handle_bytes. rewrite (unmagic_false v _ Hmagic), andb_false_r. unfold v2_buf_append.
  rewrite Hk, Hrx. cbn [mbind option_bind Z.eqb negb app buf_data].
  unfold v2_consume_plain_frames. cbn [v_rx set_rx buf_data v2_consume_loop].
  unfold v2_frame_round at 1. cbn [v_rx set_rx buf_data]. rewrite (proj2 (Z.ltb_ge _ _)) by (rewrite zlen_app; lia).
  rewrite Hparse, andb_false_r. change (WIRE_V2_FRAME_MESSAGE =? WIRE_V2_FRAME_MESSAGE) with true. cbv iota zeta.
  rewrite Hv1. unfold v2_dispatch_v1_buf. cbn [v_login set_rx v_host]. rewrite Hlogin, zdrop_app_exact by done.
  unfold v2_after_frame at 1. cbn [negb andb].
  destruct (length (f ++ tail)) as [|fuel] eqn:El.
  { rewrite length_app in El. unfold zlen in Hf8. lia. }
  cbn [v2_consume_loop]. unfold v2_frame_round. cbn [v_rx set_rx buf_data].
  case_if; [by eexists|]. destruct (wire_v2_parse_frame tail) as [| |t p n] eqn:Et; [by eexists..|]. by destruct (Htail t p n).
Qed.

(** ** A concrete session *)

#[local] Existing Instance Toy.mbedtls.

(** Two messages after the login; the second one's frame is split between two
    records, and the whole stream arrives byte by byte. *)
Module V2Demo.
Definition hmac (k d : bytes) : option bytes := Some (replicate 32 (u8 (zlen k + zlen d))).
Definition sha (d : bytes) : bytes := replicate 32 (u8 (zlen d)).
Definition parse (_ : bytes) : option json :=
  Some (JObject [("selected"%string, JObject [("crypto"%string, JObject [("algorithm"%string, JString "aes-256-gcm")])])]).
Definition log_login (d : bytes) (s : list bytes) : bool * list bytes := (true, s ++ [d]).
Definition log_work (d : bytes) (s : list bytes) : list bytes := s ++ [d].
Definition messages : list (msg_type * bytes) := [(TypeReqWorkConn, [123; 125]); (TypePong, [123; 32; 125])].
Definition encoded (m : msg_type * bytes) : bytes := default [] (wire_v2_encode_message (λ _, true) (fst m) (snd m)).
Definition frames : list bytes := Eval vm_compute in map encoded messages.
Definition hello : bytes := [123; 125].
Definition F1 : bytes := Eval vm_compute in default [] (wire_v2_encode_frame (λ _, true) WIRE_V2_FRAME_SERVER_HELLO hello).
Definition F2 : bytes := Eval vm_compute in encoded (TypeLoginResp, [123; 125]).
Definition keys : bytes * bytes := Eval vm_compute in
  default ([], []) (derive_v2_control_keys hmac [] (wire_v2_hash_transcript sha [1] hello) "aes-256-gcm").
Definition writer : aead_writer := mkWriter (snd keys) toy_nonce toy_nonce false 0.
Definition records : list bytes := Eval vm_compute in
  [ztake 15 (concat frames); zdrop 15 (concat frames)].
Definition outs : list bytes := Eval vm_compute in
  from_option fst [] (seal_all (λ _, true) writer records).
Definition chunks : list bytes := Eval vm_compute in map (λ b, [b]) (F1 ++ F2 ++ outs_bytes outs).
Definition start : v2_state (list bytes) :=
  mkV2 (mkBuf [] 0) false false false (aead_reader_init (replicate 32 0)) None [1] false [].

Lemma framed_all : Forall2 framed messages frames.
Proof. repeat constructor; vm_compute; done. Qed.

Lemma unmagic_all : Forall (unmagic start) chunks.
Proof.
  assert (forallb (λ c, negb (bool_decide (ztake 7 c = WIRE_V2_MAGIC))) chunks = true) as E by (vm_compute; reflexivity).
  apply Forall_forall. intros c Hc. rewrite forallb_forall in E. apply list_elem_of_In, E, negb_true_iff, bool_decide_eq_false in Hc.
  by right.
Qed.
End V2Demo.

Lemma v2_session_roundtrip_witness :
  ∃ v', v2_handle_all (λ _, true) V2Demo.hmac V2Demo.sha V2Demo.parse None (Some toy_nonce) V2Demo.log_login
          V2Demo.log_work V2Demo.chunks V2Demo.start = Some v' ∧
    v_host v' = map v1_of ((TypeLoginResp, [123; 125]) :: V2Demo.messages) ∧
    v_login v' = true ∧ v_aead_ready v' = true.
Proof.
  destruct (seal_all (λ _, true) V2Demo.writer V2Demo.records) as [[o w']|] eqn:E;
    [|vm_compute in E; discriminate E].
  assert (o = V2Demo.outs) as -> by (vm_compute in E; injection E as <- _; reflexivity).
  apply (v2_session_roundtrip V2Demo.hmac V2Demo.sha V2Demo.parse None (Some toy_nonce) V2Demo.log_login V2Demo.log_work
    V2Demo.hello [123; 125] V2Demo.F1 V2Demo.F2 "aes-256-gcm" [1] (fst V2Demo.keys) (snd V2Demo.keys) toy_nonce
    (mkWriter (fst V2Demo.keys) toy_nonce toy_nonce false 0) V2Demo.writer w' V2Demo.records V2Demo.outs
    V2Demo.messages V2Demo.frames [] [v1_of (TypeLoginResp, [123; 125])]).
  - vm_compute. discriminate.
  - vm_compute. reflexivity.
  - split; vm_compute; [discriminate|reflexivity].
  - vm_compute. reflexivity.
  - vm_compute. reflexivity.
  - reflexivity.
  - reflexivity.
  - reflexivity.
  - exact E.
  - exact V2Demo.framed_all.
  - vm_compute. reflexivity.
  - reflexivity.
  - vm_compute. discriminate.
  - constructor; vm_compute; (reflexivity || discriminate).
  - reflexivity.
  - exact V2Demo.unmagic_all.
Defined.

(** "GET / HTTP" behind the message. *)
Lemma v2_start_work_tail_lost_witness :
  ∃ f v', v2_handle_bytes (λ _, true) V2Demo.hmac V2Demo.sha V2Demo.parse None None V2Demo.log_login V2Demo.log_work true
            (f ++ str_bytes "GET / HTTP") (set_host true [] V2Demo.start) = Some v' ∧
    v_host v' = [v1_of (TypeStartWorkConn, [123; 125])].
Proof.
  exists (V2Demo.encoded (TypeStartWorkConn, [123; 125])).
  apply (v2_start_work_tail_lost V2Demo.hmac V2Demo.sha V2Demo.parse None None V2Demo.log_login V2Demo.log_work [123; 125]
           (V2Demo.encoded (TypeStartWorkConn, [123; 125])) (str_bytes "GET / HTTP") (set_host true [] V2Demo.start)).
  - split; vm_compute; [discriminate|reflexivity].
  - intros t p n. vm_compute. discriminate.
  - vm_compute. discriminate.
  - reflexivity.
  - reflexivity.
  - right. vm_compute. discriminate.
Defined.
