(* ===== verification/V2Send.v ===== *)
(** * Sending over wire protocol v2

    Models the v2 senders of [src/src/control.c]: the login handshake in the
    clear, the first message of a work connection, and the sealed messages of
    the control connection.  The handshake's hello is the one the transcript
    keeps, and sealed messages reach the output in order; what does not fit
    the send window of the stream is lost. *)

From S2P Require Import Prelude Growth Endian Evp CryptoStream Coder Aead WireV2 Json World Mux MuxInv MuxSafe MuxThm ProxyTcp Frame ProxySafe Forward StartWork Demux Msg Session Reconnect SendEnc Control V2Session V2Thm.

(** The globals the senders use: [v2_ch_json], [v2_got_hello] and [v2_aw]. *)
Record v2_out := mkOut { vo_ch_json : bytes; vo_got_hello : bool; vo_aw : aead_writer }.

Section Send.
Context `{Mbedtls}.
Context (alloc : Z → bool) (base64 : bytes → string) (rnd : option bytes) (protocol : option string) (tls : bool).

(** The status, 0 or -1. *)
Definition v2_write_bytes (bev : option positive) (stream : option sref) (data : bytes) : M Z :=
  bout <- out_bev bev ;;
  match bout with
  | None => ret (-1)
  | Some b =>
      if zlen data =? 0 then ret (-1)
      else
        mux <- tcp_mux ;;
        match stream with
        | Some r =>
            if negb (mux =? 0) then
              ok <- oracle ;;
              if negb ok then ret (-1)
              else
                add <- oracle ;;
                res <- tmux_stream_write (Some b) (if add then data else []) r ;;
                ret (if fst res <? 0 then -1 else 0)
            else
              rc <- bufferevent_write (Some b) data ;; ret (if rc <? 0 then -1 else 0)
        | None => rc <- bufferevent_write (Some b) data ;; ret (if rc <? 0 then -1 else 0)
        end
  end.

Definition v2_send_login_handshake (o : v2_out) : M (Z * v2_out) :=
  main <- gets w_connect_bev ;;
  mux <- tcp_mux ;;
  print <- gets (λ w, x_json_print (e_ext (w_env w))) ;;
  match wire_v2_build_client_hello_json alloc print base64 rnd
          (Some (default "tcp"%string protocol)) tls (negb (mux =? 0)) with
  | None => ret (-1, o)
  | Some hello_json =>
      match wire_v2_encode_frame alloc WIRE_V2_FRAME_CLIENT_HELLO hello_json with
      | None => ret (-1, o)
      | Some hello_frame =>
          let o := mkOut hello_json (vo_got_hello o) (vo_aw o) in
          c <- get_ctl ;;
          msg <- login_request_marshal (ss_run_id c) ;;
          match msg with
          | None => ret (-1, o)
          | Some login_msg =>
              match wire_v2_encode_message alloc TypeLogin login_msg with
              | None => ret (-1, o)
              | Some login_frame =>
                  let blob := WIRE_V2_MAGIC ++ hello_frame ++ login_frame in
                  if negb (alloc (zlen blob)) then ret (-1, o)
                  else
                    rc <- v2_write_bytes main (Some SMain) blob ;;
                    upd_stream SMain (set_s_v2_magic_sent true) ;;
                    ret (rc, o)
              end
          end
      end
  end.

(** The v2 branch of [send_msg_frp_server]. *)
Definition v2_send_msg (bev : option positive) (type : msg_type) (msg : bytes) (stream : option sref) : M () :=
  bout <- out_bev bev ;;
  match bout with
  | None => ret ()
  | Some b =>
      ok <- oracle ;;
      if negb ok then ret ()
      else
        match wire_v2_encode_message alloc type msg with
        | None => ret ()
        | Some frame =>
            first <- match stream with
                     | Some r => s <- get_stream r ;; ret (negb (s_v2_magic_sent s))
                     | None => ret false
                     end ;;
            if (first : bool) then
              if negb (alloc (zlen WIRE_V2_MAGIC + zlen frame)) then ret ()
              else
                match stream with Some r => upd_stream r (set_s_v2_magic_sent true) | None => ret () end ;;
                v2_write_bytes (Some b) stream (WIRE_V2_MAGIC ++ frame) ;; ret ()
            else v2_write_bytes (Some b) stream frame ;; ret ()
        end
  end.

(** The v2 branch of [send_enc_msg_frp_server]. *)
Definition v2_send_enc_msg (bev : option positive) (type : msg_type) (msg : bytes) (stream : option sref)
    (o : v2_out) : M v2_out :=
  bout <- out_bev bev ;;
  match bout with
  | None => ret o
  | Some b =>
      match wire_v2_encode_message alloc type msg with
      | None => ret o
      | Some frame =>
          if negb (vo_got_hello o) then ret o
          else
            let '(sealed, aw) := aead_writer_seal alloc (vo_aw o) frame in
            let o := mkOut (vo_ch_json o) (vo_got_hello o) aw in
            match sealed with
            | None => ret o
            | Some sealed => v2_write_bytes (Some b) stream sealed ;; ret o
            end
      end
  end.

Fixpoint v2_send_enc_all (ms : list (msg_type * bytes)) (o : v2_out) : M v2_out :=
  match ms with
  | [] => ret o
  | (t, m) :: ms => o <- v2_send_enc_msg None t m (Some SMain) o ;; v2_send_enc_all ms o
  end.

End Send.

Section Thm.
Context `{Mbedtls}.
Abbreviation yes := (λ _ : Z, true).

(** ** Writes to the main stream *)

Lemma run_v2_write b d w :
  writable b w → 0 < zlen d < 2 ^ 32 → 0 < s_send_window (w_main_stream w) →
  ∃ f w', v2_write_bytes (Some b) (Some SMain) d w = Some (0, w') ∧
    queued b [(f, ztake (frame_len d (w_main_stream w)) d)] w w'.
Proof.
  intros Hw Hd Hwin. unfold v2_write_bytes, out_bev. rewrite bind_assoc, bind_gets, bind_ret.
  rewrite (proj2 (Z.eqb_neq (zlen d) 0)) by lia. unfold tcp_mux. rewrite bind_gets.
  rewrite (proj2 (Z.eqb_neq (e_tcp_mux (w_env w)) 0)) by apply (wr_mux _ _ Hw). cbn [negb].
  runs (run_oracle w (wr_alloc _ _ Hw)). cbn [negb].
  pose proof (queued_tick b w (S (w_tick w)) Hw) as Q1. set (w1 := set_w_tick _ w) in *.
  runs (run_oracle w1 (wr_alloc _ _ (qd_writable _ _ _ _ Q1))).
  pose proof (queued_tick b w1 (S (w_tick w1)) (qd_writable _ _ _ _ Q1)) as Q2. set (w2 := set_w_tick _ w1) in *.
  destruct (run_write_some b d w2 (qd_writable _ _ _ _ Q2) Hd Hwin) as (f & w3 & Hr & Q3 & _).
  exists f, w3. runs Hr. cbn [fst]. rewrite (proj2 (Z.ltb_ge (frame_len d (w_main_stream w2)) 0)).
  - split; [done|]. exact (queued_trans _ _ _ _ _ _ Q1 (queued_trans _ _ _ _ _ _ Q2 Q3)).
  - change (w_main_stream w2) with (w_main_stream w). unfold frame_len, DEFAULT_MAX_FRAME_SIZE. lia.
Qed.

(** A sealed message within the window. *)
Lemma run_v2_send_enc b t m f o out aw w :
  writable b w → framed (t, m) f → vo_got_hello o = true →
  aead_writer_seal yes (vo_aw o) f = (Some out, aw) → fits out w →
  ∃ g w', v2_send_enc_msg yes None t m (Some SMain) o w = Some (mkOut (vo_ch_json o) true aw, w') ∧
    queued b [(g, out)] w w'.
Proof.
  intros Hw [_ Hf] Hh Hs [[Hp Hmax] Hwin]. unfold v2_send_enc_msg, out_bev.
  rewrite bind_assoc, bind_gets, bind_ret, (wr_connect _ _ Hw). cbn [fst snd] in Hf. rewrite Hf, Hh. cbn [negb].
  rewrite Hs. assert (frame_len out (w_main_stream w) = zlen out) as Hl by (unfold frame_len; lia).
  destruct (run_v2_write b out w Hw) as (g & w' & Hrun & Q); [unfold DEFAULT_MAX_FRAME_SIZE in *; lia|lia|].
  rewrite Hl, ztake_ge in Q by lia. exists g, w'. by runs Hrun.
Qed.

Lemma increment_rev_length l : length (fst (increment_rev l)) = length l.
Proof. induction l as [|x l IH]; simpl; [done|]. destruct (increment_rev l). case_if; simpl in *; congruence. Qed.

Lemma seal_size w pt out w' :
  zlen (w_nonce w) = 12 → aead_writer_seal yes w pt = (Some out, w') →
  0 < zlen out ≤ DEFAULT_MAX_FRAME_SIZE ∧ zlen (w_nonce w') = 12.
Proof.
  intros Hn (Hp & ct & n' & _ & Hct & Hi & -> & ->)%seal_inv. unfold AEAD_MAX_PAYLOAD, DEFAULT_MAX_FRAME_SIZE in *.
  split; [rewrite !zlen_app; change (zlen (be32_put (zlen pt + 16))) with 4; destruct (w_header_sent w); [change (zlen []) with 0|rewrite Hn]; lia|].
  cbn [w_nonce]. unfold increment_nonce in Hi. pose proof (increment_rev_length (reverse (w_nonce w))) as Hr.
  destruct (increment_rev (reverse (w_nonce w))) as [l r]. injection Hi as <- _. simpl in Hr.
  unfold zlen in *. rewrite length_reverse in *. lia.
Qed.

Lemma run_v2_send_all b ms fs outs aw o w :
  writable b w → vo_got_hello o = true → zlen (w_nonce (vo_aw o)) = 12 → Forall2 framed ms fs →
  seal_all yes (vo_aw o) fs = Some (outs, aw) → zlen (outs_bytes outs) ≤ s_send_window (w_main_stream w) →
  ∃ gs w', v2_send_enc_all yes ms o w = Some (mkOut (vo_ch_json o) true aw, w') ∧ queued b gs w w' ∧
    payloads gs = outs_bytes outs.
Proof.
  intros Hw Hh Hn HF. revert outs o w Hw Hh Hn.
  induction HF as [|[t m] f ms fs Hm HF IH]; intros outs o w Hw Hh Hn Hs Hwin; cbn [v2_send_enc_all seal_all] in *.
  { injection Hs as <- <-. exists [], w. pose proof (queued_tick b w (w_tick w) Hw) as Q. destruct w, o. simpl in *. by subst. }
  destruct (aead_writer_seal yes (vo_aw o) f) as [[out|] aw1] eqn:E; [|done].
  destruct (seal_all yes aw1 fs) as [[outs1 aw2]|] eqn:Es; [|done]. injection Hs as <- <-.
  destruct (seal_size _ _ _ _ Hn E) as [Hout Hn1]. unfold outs_bytes in Hwin. cbn [map concat snd] in Hwin.
  rewrite zlen_app in Hwin. fold (outs_bytes outs1) in Hwin. pose proof (zlen_nonneg (outs_bytes outs1)).
  destruct (run_v2_send_enc b t m f o out aw1 w Hw Hm Hh E) as (g & w1 & Hr & Q1); [unfold fits; lia|]. runs Hr.
  destruct (IH outs1 (mkOut (vo_ch_json o) true aw1) w1 (qd_writable _ _ _ _ Q1)) as (gs & w2 & Hr2 & Q2 & Hp); try done.
  { rewrite (qd_window _ _ _ _ Q1). unfold payloads. simpl. rewrite app_nil_r. lia. }
  exists ((g, out) :: gs), w2. split; [exact Hr2|]. split; [exact (queued_trans _ _ _ _ _ _ Q1 Q2)|].
  unfold payloads, outs_bytes in *. simpl. by rewrite Hp.
Qed.

(** ** The handshake *)

(** Reading the environment only. *)
Definition ticks {A} (m : M A) : Prop := ∀ w a w', m w = Some (a, w') → ∃ n, w' = set_w_tick n w.

Lemma ticks_ret {A} (a : A) : ticks (ret a).
Proof. intros w ? ? [= <- <-]. exists (w_tick w). by destruct w. Qed.
Lemma ticks_gets {A} (f : world → A) : ticks (gets f).
Proof. intros w ? ? [= <- <-]. exists (w_tick w). by destruct w. Qed.
Lemma ticks_oracle : ticks oracle.
Proof. intros w ? ? [= <- <-]. eauto. Qed.
Lemma ticks_now : ticks now.
Proof. intros w ? ? [= <- <-]. eauto. Qed.
Lemma ticks_bind {A B} (m : M A) (f : A → M B) : ticks m → (∀ a, ticks (f a)) → ticks (bind m f).
Proof.
  intros Hm Hf w b w' E. unfold bind in E. destruct (m w) as [[a w1]|] eqn:E1; [|done].
  apply Hm in E1 as [n ->]. apply Hf in E as [k ->]. by exists k.
Qed.
#[local] Hint Resolve ticks_ret ticks_gets ticks_oracle ticks_now : ticks.

Lemma ticks_login run_id : ticks (login_request_marshal run_id).
Proof.
  unfold login_request_marshal, get_auth_key, user_of, print_json.
  repeat first [solve [auto with ticks] | apply ticks_bind; [|intros] | case_match].
Qed.

(** The handshake of an open session. *)
Lemma run_v2_handshake b base64 rnd protocol tls o hj hf m lf w w1 :
  writable b w →
  wire_v2_build_client_hello_json yes (x_json_print (e_ext (w_env w))) base64 rnd
    (Some (default "tcp"%string protocol)) tls true = Some hj →
  wire_v2_encode_frame yes WIRE_V2_FRAME_CLIENT_HELLO hj = Some hf →
  login_request_marshal (ss_run_id (w_ctl w)) w = Some (Some m, w1) →
  wire_v2_encode_message yes TypeLogin m = Some lf →
  fits (WIRE_V2_MAGIC ++ hf ++ lf) w →
  ∃ f w', v2_send_login_handshake yes base64 rnd protocol tls o w = Some ((0, mkOut hj (vo_got_hello o) (vo_aw o)), w') ∧
    s_v2_magic_sent (w_main_stream w') = true ∧
    out_of w' b = (λ o, o ++ frames_bytes (s_id (w_main_stream w)) [(f, WIRE_V2_MAGIC ++ hf ++ lf)]) <$> out_of w b.
Proof.
  intros Hw Hb Hhf Hm Hlf [[Hp Hmax] Hwin]. set (blob := WIRE_V2_MAGIC ++ hf ++ lf) in *.
  unfold v2_send_login_handshake. rewrite bind_gets. unfold tcp_mux. rewrite !bind_gets.
  rewrite (proj2 (Z.eqb_neq (e_tcp_mux (w_env w)) 0)) by apply (wr_mux _ _ Hw). cbn [negb].
  rewrite Hb, Hhf. unfold get_ctl. rewrite bind_gets. runs Hm. rewrite Hlf. cbv zeta.
  apply ticks_login in Hm as [n ->]. pose proof (queued_tick b w n Hw) as Q1.
  assert (frame_len blob (w_main_stream w) = zlen blob) as Hl by (unfold frame_len; lia).
  destruct (run_v2_write b blob (set_w_tick n w) (qd_writable _ _ _ _ Q1)) as (f & w' & Hrun & Q2);
    [unfold DEFAULT_MAX_FRAME_SIZE in *; lia|cbn; lia|].
  change (w_main_stream (set_w_tick n w)) with (w_main_stream w) in Q2. rewrite Hl, ztake_ge in Q2 by lia.
  rewrite (wr_connect _ _ Hw). runs Hrun. eexists f, _. split; [done|]. split; [done|].
  pose proof (queued_trans _ _ _ _ _ _ Q1 Q2) as Q. exact (qd_out _ _ _ _ Q).
Qed.

End Thm.

(** The v2 handshake is what the server expects and what the keys are
    derived from.  On an open session it is queued whole: the magic, then a
    client hello frame whose payload is the very text the client keeps for the
    transcript, then the login request as a message frame. *)
Lemma v2_handshake_readable `{Mbedtls} (b : positive) (base64 : bytes → string) (rnd : option bytes)
    (protocol : option string) (tls : bool) (o : v2_out) (hj m : bytes) (w w1 : world)
    (Hw : writable b w)
    (Hb : wire_v2_build_client_hello_json (λ _, true) (x_json_print (e_ext (w_env w))) base64 rnd
            (Some (default "tcp"%string protocol)) tls true = Some hj)
    (Hm : login_request_marshal (ss_run_id (w_ctl w)) w = Some (Some m, w1))
    (Hj : zlen hj ≤ WIRE_V2_MAX_PAYLOAD) (Hl : zlen m + 2 ≤ WIRE_V2_MAX_PAYLOAD)
    (Hwin : 25 + zlen hj + zlen m ≤ s_send_window (w_main_stream w)) :
  ∃ f rest1 rest2 o' w',
    v2_send_login_handshake (λ _, true) base64 rnd protocol tls o w = Some ((0, o'), w') ∧
    out_of w' b = (λ q, q ++ frames_bytes (s_id (w_main_stream w)) [(f, WIRE_V2_MAGIC ++ rest1)]) <$> out_of w b ∧
    wire_v2_parse_frame rest1 = FrameOk WIRE_V2_FRAME_CLIENT_HELLO (vo_ch_json o') (8 + zlen (vo_ch_json o')) ∧
    zdrop (8 + zlen (vo_ch_json o')) rest1 = rest2 ∧
    wire_v2_parse_frame rest2 = FrameOk WIRE_V2_FRAME_MESSAGE (message_payload TypeLogin m) (zlen rest2) ∧
    vo_ch_json o' = hj.
Proof.
  destruct (wire_v2_encode_frame (λ _, true) WIRE_V2_FRAME_CLIENT_HELLO hj) as [hf|] eqn:Ehf; [|done].
  destruct (wire_v2_encode_message (λ _, true) TypeLogin m) as [lf|] eqn:Elf; [|done].
  destruct (parse_encode_frame _ _ _ hf lf Hj Ehf) as [P1 L1].
  destruct (framed_parse (TypeLogin, m) lf []) as (_ & P2 & _); [by split|].
  pose proof Elf as [_ Ef]%encode_message_frame. apply (parse_encode_frame _ _ _ _ []) in Ef as [_ L2];
    [|unfold message_payload; cbn [app]; rewrite !zlen_cons; lia].
  unfold message_payload in L2. cbn [app] in L2. rewrite !zlen_cons in L2. pose proof (zlen_nonneg hj). pose proof (zlen_nonneg m).
  destruct (run_v2_handshake b base64 rnd protocol tls o hj hf m lf w w1 Hw Hb Ehf Hm Elf) as (f & w' & Hrun & _ & Ho).
  { unfold fits. rewrite !zlen_app. change (zlen WIRE_V2_MAGIC) with 7.
    unfold WIRE_V2_MAX_PAYLOAD, DEFAULT_MAX_FRAME_SIZE in *. lia. }
  exists f, (hf ++ lf), lf. eexists _, w'. split_and!; [exact Hrun|exact Ho|exact P1| | |done].
  - cbn [vo_ch_json]. by rewrite zdrop_app_exact.
  - by rewrite app_nil_r in P2.
Qed.

(** C16: the send side of wire protocol v2.  The messages of a session that has
    had the server's hello, given room in the send window, are queued on the
    main stream as data frames and nothing else; a reader with the client's
    key, given their payloads in any pieces, holds exactly the frames of the
    messages in order. *)
Theorem v2_control_channel_roundtrip `{Mbedtls} (b : positive) (key nonce : bytes) (aw : aead_writer)
    (ms : list (msg_type * bytes)) (fs : list bytes) (outs : list bytes) (o : v2_out) (w : world)
    (Hw : writable b w) (Hh : vo_got_hello o = true) (Hn : zlen nonce = 12)
    (Hinit : aead_writer_init key (Some nonce) = Some (vo_aw o)) (Hms : Forall2 framed ms fs)
    (Hs : seal_all (λ _, true) (vo_aw o) fs = Some (outs, aw))
    (Hwin : zlen (outs_bytes outs) ≤ s_send_window (w_main_stream w)) (Hsize : zlen (outs_bytes outs) ≤ 2 ^ 31) :
  ∃ gs w', v2_send_enc_all (λ _, true) ms o w = Some (mkOut (vo_ch_json o) true aw, w') ∧ queued b gs w w' ∧
    ∀ chunks, concat chunks = payloads gs → chunks ≠ [] →
      ∃ r, feed_all (λ _, true) (aead_reader_init key) chunks = Some r ∧
        buf_data (r_pt r) = concat fs ∧ buf_data (r_ct r) = [].
Proof.
  injection Hinit as Haw.
  destruct (run_v2_send_all b ms fs outs aw o w) as (gs & w' & Hrun & Q & Hp); try done; [by rewrite <- Haw|].
  exists gs, w'. split_and!; [done|done|]. intros chunks Hc Hne. rewrite Hp in Hc.
  apply (feed_all_tracks (λ _, true) (λ _, eq_refl) chunks fs (vo_aw o) outs aw (aead_reader_init key)); try done.
  rewrite <- Haw. right. by unfold fresh.
Qed.

(** A v2 message that does not fit the send window is cut.  The writer
    hands the whole message to the multiplexer once, reports success whatever
    part of it was taken, and the rest is gone: only a prefix as long as the
    window allows is queued. *)
Lemma v2_message_truncated `{Mbedtls} (b : positive) (d : bytes) (w : world)
    (Hw : writable b w) (Hwin : 0 < s_send_window (w_main_stream w) < zlen d) (Hd : zlen d < 2 ^ 32) :
  ∃ f n w', v2_write_bytes (Some b) (Some SMain) d w = Some (0, w') ∧ n < zlen d ∧
    queued b [(f, ztake n d)] w w'.
Proof.
  destruct (run_v2_write b d w Hw) as (f & w' & Hrun & Q); [lia|lia|].
  exists f, (frame_len d (w_main_stream w)), w'. split_and!; [done|unfold frame_len; lia|done].
Qed.

(** ** Concrete runs *)

#[local] Existing Instance Toy.mbedtls.

Definition toy_out : v2_out := mkOut [] true toy_writer.

Lemma v2_control_channel_roundtrip_witness :
  ∃ gs w', v2_send_enc_all (λ _, true) V2Demo.messages toy_out (Demo.world TMUX_ESTABLISHED []) = Some w' ∧
    ∀ chunks, concat chunks = payloads gs → chunks ≠ [] →
      ∃ r, feed_all (λ _, true) (aead_reader_init toy_key) chunks = Some r ∧
        buf_data (r_pt r) = concat V2Demo.frames ∧ buf_data (r_ct r) = [].
Proof.
  destruct (seal_all (λ _, true) (vo_aw toy_out) V2Demo.frames) as [[outs aw]|] eqn:E; [|vm_compute in E; discriminate E].
  destruct (v2_control_channel_roundtrip 1 toy_key toy_nonce aw V2Demo.messages V2Demo.frames outs toy_out
              (Demo.world TMUX_ESTABLISHED []) demo_writable) as (gs & w' & Hr & _ & Hc).
  - reflexivity.
  - reflexivity.
  - reflexivity.
  - exact V2Demo.framed_all.
  - exact E.
  - vm_compute in E. injection E as <- _. vm_compute. discriminate.
  - vm_compute in E. injection E as <- _. vm_compute. discriminate.
  - exists gs. eexists. split; [exact Hr|exact Hc].
Defined.

Lemma v2_message_truncated_witness :
  ∃ f n w', v2_write_bytes (Some 1%positive) (Some SMain) (replicate (Z.to_nat 262145) 0) (Demo.world TMUX_ESTABLISHED []) = Some (0, w') ∧
    n < 262145 ∧ queued 1 [(f, ztake n (replicate (Z.to_nat 262145) 0))] (Demo.world TMUX_ESTABLISHED []) w'.
Proof.
  assert (zlen (replicate (Z.to_nat 262145) 0) = 262145) as E by (unfold zlen; rewrite length_replicate; apply Z2Nat.id; lia).
  destruct (v2_message_truncated 1 (replicate (Z.to_nat 262145) 0) (Demo.world TMUX_ESTABLISHED []) demo_writable) as (f & n & w' & Hr & Hn & Q).
  - rewrite E. split; reflexivity.
  - rewrite E. lia.
  - exists f, n, w'. rewrite E in Hn. split; [exact Hr|]. split; [exact Hn|exact Q].
Defined.

Lemma session_writable : writable 1 (demo_session false).
Proof. constructor; [apply mux_ok_ctl, mux_ok_env, Demo.world_ok|done|done|done|by split|done]. Qed.

Lemma v2_handshake_readable_witness :
  ∃ f rest o' w', v2_send_login_handshake (λ _, true) (λ _, "abcd"%string) (Some (replicate 32 7)) None false toy_out
      (demo_session false) = Some ((0, o'), w') ∧
    out_of w' 1 = (λ q, q ++ frames_bytes 1 [(f, WIRE_V2_MAGIC ++ rest)]) <$> out_of (demo_session false) 1 ∧
    wire_v2_parse_frame rest = FrameOk WIRE_V2_FRAME_CLIENT_HELLO (vo_ch_json o') (8 + zlen (vo_ch_json o')).
Proof.
  destruct (v2_handshake_readable 1 (λ _, "abcd"%string) (Some (replicate 32 7)) None false toy_out [123; 125] [123; 125]
              (demo_session false) (set_w_tick 5 (demo_session false)) session_writable) as (f & r1 & r2 & o' & w' & Hr & Ho & Hp & _).
  - vm_compute. reflexivity.
  - reflexivity.
  - vm_compute. discriminate.
  - vm_compute. discriminate.
  - vm_compute. discriminate.
  - exists f, r1, o', w'. split; [exact Hr|]. split; [exact Ho|exact Hp].
Defined.
